(** * LiteMem: the memory-state engine, embedded in Rocq

    A shallow embedding of the TypeScript sources
      - utils/normalize.ts     (MessageNormalizer, assignSequenceNumbers)
      - storage/vectorStore.ts (VectorStore)
      - embeddings/openrouter.ts (OpenRouterEmbedder)
      - llm/base.ts            (OpenRouterManager.callUpdateLlm)
      - liteMem.ts             (LiteMemory)
    followed by the properties of the specification that concern them.

    Conventions of the embedding.
      - A JavaScript [number] is an exact rational ([Q]); comparisons are
        the boolean ones of [QArith].  Rounding, infinities and NaN of
        IEEE doubles are outside the model.  A [Date] is its time value
        in milliseconds ([Z]) or the invalid date.
      - A JavaScript string is a [string]; [Map<string, _>] is stdpp's
        [gmap string _].
      - An [async] method is a state transformer that either returns or
        throws; a throw keeps the mutations made before it.
      - The table [memories] is the list of its rows in scan order; the
        [embedding] of a row is the vector [blobToEmbedding] reads from
        its BLOB column.
      - What the language runtime, the SQL driver and the remote
        providers compute is taken through the classes [JsRuntime] and
        [Upstream]. *)

From Stdlib Require Import ZArith QArith Qround String Ascii DecimalString List Sorted Permutation Lia Bool.
From stdpp Require Import gmap strings list.

Local Open Scope string_scope.
Local Open Scope Z_scope.

(** ** JavaScript values and the runtime *)

Module Js.

(** The values [JSON.parse] can produce, plus [undefined]. *)
#[warnings="-register-all"]
Inductive jsval : Type :=
| JUndefined
| JNull
| JBool (b : bool)
| JNum (q : Q)
| JStr (s : string)
| JArr (items : list jsval)
| JObj (fields : list (string * jsval)).

(** ToBoolean. *)
Definition truthy (v : jsval) : bool :=
  match v with
  | JUndefined | JNull => false
  | JBool b => b
  | JNum q => negb (Qeq_bool q 0)
  | JStr s => negb (String.eqb s "")
  | JArr _ | JObj _ => true
  end.

(** Truthiness of an optional number and of an optional string, as in
    [x && ...] where [x] is [number | undefined] or [string | undefined]. *)
Definition truthyNum (o : option Q) : bool :=
  match o with
  | Some q => negb (Qeq_bool q 0)
  | None => false
  end.

Definition truthyStr (o : option string) : bool :=
  match o with
  | Some s => negb (String.eqb s "")
  | None => false
  end.

(** [o || d] on an optional string. *)
Definition orElse (o : option string) (d : string) : string :=
  if truthyStr o then default d o else d.

(** The last binding of key [k]: [JSON.parse] keeps the last duplicate. *)
Fixpoint lookupField (k : string) (fields : list (string * jsval)) : option jsval :=
  match fields with
  | [] => None
  | (k', v) :: rest =>
      match lookupField k rest with
      | Some v' => Some v'
      | None => if String.eqb k' k then Some v else None
      end
  end.

(** [v.k] for an own data property [k] that no prototype defines:
    [None] is the TypeError of reading a property of [null] or
    [undefined]. *)
Definition getProp (v : jsval) (k : string) : option jsval :=
  match v with
  | JUndefined | JNull => None
  | JObj fields => Some (default JUndefined (lookupField k fields))
  | _ => Some JUndefined
  end.

(** [v === s] for a string literal [s]. *)
Definition strictEqStr (v : jsval) (s : string) : bool :=
  match v with
  | JStr s' => String.eqb s' s
  | _ => false
  end.

Definition Qltb (a b : Q) : bool := negb (Qle_bool b a).

(** The time value of a [Date]: [TimeClip] keeps it within 8.64e15 ms. *)
Inductive Date : Type :=
| ValidDate (t : Z)
| InvalidDate.

Definition maxTime : Z := 8640000000000000.

Definition timeClip (t : Z) : Date :=
  if Z.abs t <=? maxTime then ValidDate t else InvalidDate.

(** [new Date(d.getTime() + ms)]. *)
Definition addMs (d : Date) (ms : Z) : Date :=
  match d with
  | ValidDate t => timeClip (t + ms)
  | InvalidDate => InvalidDate
  end.

(** [Array.prototype.slice(0, n)] for an integer [n]. *)
Definition slice0 {A : Type} (n : Z) (l : list A) : list A :=
  if n <? 0
  then firstn (Z.to_nat (Z.max (Z.of_nat (List.length l) + n) 0)) l
  else firstn (Z.to_nat n) l.

(** [Array.prototype.sort(cmp)]: the sort is stable, and [cmp x y > 0]
    places [x] after [y].  For a consistent comparator every conforming
    implementation returns this list. *)
Fixpoint sortInsert {A : Type} (cmp : A -> A -> Q) (x : A) (l : list A) : list A :=
  match l with
  | [] => [x]
  | y :: l' => if Qltb 0 (cmp x y) then y :: sortInsert cmp x l' else x :: l
  end.

Fixpoint sort {A : Type} (cmp : A -> A -> Q) (l : list A) : list A :=
  match l with
  | [] => []
  | x :: l' => sortInsert cmp x (sort cmp l')
  end.

(** [Array.prototype.find]. *)
Definition find {A : Type} (p : A -> bool) (l : list A) : option A := List.find p l.

(** What the engine takes from the language runtime and the SQL driver. *)
Class JsRuntime : Type := {
  (** [Math.sqrt]. *)
  Math_sqrt : Q -> Q;
  (** [new Date(s).getTime()]; [None] is NaN. *)
  Date_parse : string -> option Z;
  (** [d.toISOString()] of a valid time value. *)
  Date_toISOString : Z -> string;
  (** Offset of local time at a time value, in ms (for [getDay]). *)
  LocalTZA : Z -> Z;
  (** [JSON.parse]; [None] is the SyntaxError. *)
  JSON_parse : string -> option jsval;
  (** What a TEXT column holds after a value was bound to it; [None] when
      the driver rejects the argument. *)
  sqlText : jsval -> option string;
  sqlText_string : forall s, sqlText (JStr s) = Some s;
  (** What [blobToEmbedding] reads from the BLOB column after
      [embeddingToBlob v] was bound to it: the vector as Float32 values,
      through the driver. *)
  storedVector : list Q -> list Q
}.

(** [new Date(s)]. *)
Definition newDate `{JsRuntime} (s : string) : Date :=
  match Date_parse s with
  | Some t => timeClip t
  | None => InvalidDate
  end.

(** [d.getDay()] of a valid date. *)
Definition getDay `{JsRuntime} (t : Z) : Z :=
  ((t + LocalTZA t) / 86400000 + 4) mod 7.

End Js.

(** ** Methods that mutate an object and may throw *)

Module Eff.

(** What a method throws, by throw site. *)
Inductive Exn : Type :=
| MissingTimeStamp        (* "Each message should contain a 'timeStamp' field" *)
| BadSessionTime (rawTs : string)  (* "Failed to parse session time format" *)
| RangeError              (* toISOString of an invalid date *)
| VectorLength            (* "Vectors must have the same length" *)
| TypeError               (* property read of undefined *)
| SyntaxError             (* JSON.parse *)
| UpstreamError           (* a rejected provider call *)
| DriverError.            (* the SQL driver refused an argument *)

Inductive Completion (S A : Type) : Type :=
| Returns (a : A) (s : S)
| Throws (e : Exn) (s : S).
Arguments Returns {S A} a s.
Arguments Throws {S A} e s.

Definition M (S A : Type) : Type := S -> Completion S A.

Definition ret {S A : Type} (a : A) : M S A := fun s => Returns a s.

Definition bind {S A B : Type} (m : M S A) (k : A -> M S B) : M S B :=
  fun s =>
    match m s with
    | Returns a s' => k a s'
    | Throws e s' => Throws e s'
    end.

Definition throw {S A : Type} (e : Exn) : M S A := fun s => Throws e s.

Definition gets {S A : Type} (f : S -> A) : M S A := fun s => Returns (f s) s.

Definition modify {S : Type} (f : S -> S) : M S unit := fun s => Returns tt (f s).

(** A method of a member object: run [m] on the part [proj s] and store
    the part back, also when [m] throws. *)
Definition zoom {S T A : Type} (proj : S -> T) (inj : T -> S -> S) (m : M T A) : M S A :=
  fun s =>
    match m (proj s) with
    | Returns a t => Returns a (inj t s)
    | Throws e t => Throws e (inj t s)
    end.

(** [try { m } catch { h }]. *)
Definition tryCatch {S A : Type} (m : M S A) (h : Exn -> M S A) : M S A :=
  fun s =>
    match m s with
    | Returns a s' => Returns a s'
    | Throws e s' => h e s'
    end.

(** [for (const x of l) body(x)]. *)
Fixpoint forEach {S A : Type} (l : list A) (body : A -> M S unit) : M S unit :=
  match l with
  | [] => ret tt
  | x :: l' => bind (body x) (fun _ => forEach l' body)
  end.

Definition stateOf {S A : Type} (c : Completion S A) : S :=
  match c with
  | Returns _ s => s
  | Throws _ s => s
  end.

Definition returned {S A : Type} (c : Completion S A) : option A :=
  match c with
  | Returns a _ => Some a
  | Throws _ _ => None
  end.

Notation "'let*' x := y 'in' z" := (bind y (fun x => z))
  (at level 10, x name, y at level 100, z at level 200, only parsing).

End Eff.

Import Eff.

Import Js.

(** ** utils/normalize.ts *)

Module Utils.

Inductive MessageRole : Type := user | assistant | system.

Definition MessageRole_eqb (a b : MessageRole) : bool :=
  match a, b with
  | user, user | assistant, assistant | system, system => true
  | _, _ => false
  end.

(** [Message]; a field the caller may leave out is an [option]. *)
Record Message : Type := {
  msgRole : MessageRole;
  msgContent : string;
  msgTimeStamp : option string;
  msgSpeakerId : option string;
  msgSpeakerName : option string
}.

(** [NormalizedMessage]: the message with [timeStamp] replaced and
    [sessionTime], [weekday] (and later [sequenceNumber]) attached. *)
Record NormalizedMessage : Type := {
  role : MessageRole;
  content : string;
  timeStamp : string;
  speakerId : option string;
  speakerName : option string;
  sessionTime : string;
  weekday : string;
  sequenceNumber : option nat
}.

(** *** SESSION_RE

    [/(?<date>\d{4}[/-]\d{1,2}[/-]\d{1,2})\s*\((?<weekday>[^)]+)\)\s*(?<time>\d{1,2}:\d{2}(?::\d{2})?)/]
    over strings of code units below 256.  Every quantifier of the
    pattern is followed by a token that its own class excludes, so the
    greedy choice is the only one that can match. *)

Definition isDigit (c : ascii) : bool :=
  let n := nat_of_ascii c in Nat.leb 48 n && Nat.leb n 57.

(** [\s] below 256: TAB, LF, VT, FF, CR, space, NBSP. *)
Definition isSpace (c : ascii) : bool :=
  let n := nat_of_ascii c in
  (Nat.leb 9 n && Nat.leb n 13) || Nat.eqb n 32 || Nat.eqb n 160.

Definition isSep (c : ascii) : bool :=
  Ascii.eqb c "/" || Ascii.eqb c "-".

Fixpoint digitsExact (n : nat) (l : list ascii) : option (list ascii * list ascii) :=
  match n with
  | O => Some ([], l)
  | S n' =>
      match l with
      | c :: r =>
          if isDigit c
          then '(ds, r') ← digitsExact n' r; Some (c :: ds, r')
          else None
      | [] => None
      end
  end.

(** [\d{1,2}], greedy. *)
Definition digits1to2 (l : list ascii) : option (list ascii * list ascii) :=
  match l with
  | c1 :: r1 =>
      if isDigit c1
      then match r1 with
           | c2 :: r2 => if isDigit c2 then Some ([c1; c2], r2) else Some ([c1], r1)
           | [] => Some ([c1], [])
           end
      else None
  | [] => None
  end.

Definition oneOf (p : ascii -> bool) (l : list ascii) : option (ascii * list ascii) :=
  match l with
  | c :: r => if p c then Some (c, r) else None
  | [] => None
  end.

Fixpoint spanWhile (p : ascii -> bool) (l : list ascii) : list ascii * list ascii :=
  match l with
  | c :: r => if p c then let '(a, b) := spanWhile p r in (c :: a, b) else ([], l)
  | [] => ([], [])
  end.

(** The named groups of a match. *)
Record SessionGroups : Type := {
  g_date : string;
  g_weekday : string;
  g_time : string
}.

(** The pattern anchored at the head of [l]. *)
Definition matchHere (l : list ascii) : option SessionGroups :=
  '(yyyy, l) ← digitsExact 4 l;
  '(s1, l) ← oneOf isSep l;
  '(mm, l) ← digits1to2 l;
  '(s2, l) ← oneOf isSep l;
  '(dd, l) ← digits1to2 l;
  let l := snd (spanWhile isSpace l) in
  '(_, l) ← oneOf (Ascii.eqb "(") l;
  let '(wd, l) := spanWhile (fun c => negb (Ascii.eqb c ")")) l in
  match wd with
  | [] => None
  | _ :: _ =>
      '(_, l) ← oneOf (Ascii.eqb ")") l;
      let l := snd (spanWhile isSpace l) in
      '(hh, l) ← digits1to2 l;
      '(_, l) ← oneOf (Ascii.eqb ":") l;
      '(mi, l) ← digitsExact 2 l;
      let ss :=
        match l with
        | c :: l2 =>
            if Ascii.eqb c ":"
            then match digitsExact 2 l2 with
                 | Some (s, _) => c :: s
                 | None => []
                 end
            else []
        | [] => []
        end in
      Some {| g_date := string_of_list_ascii (yyyy ++ s1 :: mm ++ s2 :: dd);
              g_weekday := string_of_list_ascii wd;
              g_time := string_of_list_ascii (hh ++ ":"%char :: mi ++ ss) |}
  end.

(** The leftmost match. *)
Fixpoint matchFrom (l : list ascii) : option SessionGroups :=
  match matchHere l with
  | Some g => Some g
  | None =>
      match l with
      | [] => None
      | _ :: r => matchFrom r
      end
  end.

(** [rawTs.match(SESSION_RE)]. *)
Definition SESSION_RE_match (rawTs : string) : option SessionGroups :=
  matchFrom (list_ascii_of_string rawTs).

(** [s.replace(/c/g, d)] for single characters. *)
Definition replaceAll (c d : ascii) (s : string) : string :=
  string_of_list_ascii
    (map (fun x => if Ascii.eqb x c then d else x) (list_ascii_of_string s)).

Definition weekdays : list string :=
  ["Sun"; "Mon"; "Tue"; "Wed"; "Thu"; "Fri"; "Sat"].

Section Normalize.
Context `{JsRuntime}.

(** The ISO fallback of [parseSessionTimestamp]. *)
Definition parseFallback (rawTs : string) : option (Z * string) :=
  match newDate rawTs with
  | ValidDate t => Some (t, nth (Z.to_nat (getDay t)) weekdays "")
  | InvalidDate => None
  end.

(** [parseSessionTimestamp]: the instant and the weekday; [None] when it
    throws. *)
Definition parseSessionTimestamp (rawTs : string) : option (Z * string) :=
  match SESSION_RE_match rawTs with
  | Some g =>
      let dateStr := replaceAll "-" "/" (g_date g) in
      let timeStr := g_time g in
      let dateTimeStr := dateStr ++ " " ++ timeStr in
      match newDate (replaceAll "/" "-" dateTimeStr) with
      | ValidDate t => Some (t, g_weekday g)
      | InvalidDate => parseFallback rawTs
      end
  | None => parseFallback rawTs
  end.

(** The state of a [MessageNormalizer]. *)
Record MessageNormalizer : Type := {
  lastTimestampMap : gmap string Date;
  offsetMs : Z
}.

(** [new MessageNormalizer(offsetMs = 500)]. *)
Definition newMessageNormalizer (offset : option Z) : MessageNormalizer :=
  {| lastTimestampMap := ∅; offsetMs := default 500 offset |}.

Definition setLast (rawTs : string) (d : Date) (n : MessageNormalizer) : MessageNormalizer :=
  {| lastTimestampMap := <[rawTs := d]> (lastTimestampMap n); offsetMs := offsetMs n |}.

(** One iteration of the loop of [normalizeMessages]. *)
Definition normalizeOne (msg : Message) : M MessageNormalizer NormalizedMessage :=
  if negb (truthyStr (msgTimeStamp msg)) then throw MissingTimeStamp
  else
    let rawTs := default "" (msgTimeStamp msg) in
    match parseSessionTimestamp rawTs with
    | None => throw (BadSessionTime rawTs)
    | Some (baseDate, wd) =>
        let* lastDate := gets (fun n => lastTimestampMap n !! rawTs) in
        let* off := gets offsetMs in
        let newDate :=
          match lastDate with
          | None => ValidDate baseDate
          | Some d => addMs d off
          end in
        let* _ := modify (setLast rawTs newDate) in
        match newDate with
        | InvalidDate => throw RangeError
        | ValidDate t =>
            ret {| role := msgRole msg;
                    content := msgContent msg;
                    timeStamp := Date_toISOString t;
                    speakerId := msgSpeakerId msg;
                    speakerName := msgSpeakerName msg;
                    sessionTime := rawTs;
                    weekday := wd;
                    sequenceNumber := None |}
        end
    end.

Fixpoint normalizeLoop (messageList : list Message) (enrichedList : list NormalizedMessage)
  : M MessageNormalizer (list NormalizedMessage) :=
  match messageList with
  | [] => ret enrichedList
  | msg :: rest =>
      let* enriched := normalizeOne msg in
      normalizeLoop rest (enrichedList ++ [enriched])
  end.

(** [normalizeMessages]; a single message is passed as a list of one. *)
Definition normalizeMessages (messages : list Message) : M MessageNormalizer (list NormalizedMessage) :=
  normalizeLoop messages [].

(** [reset]. *)
Definition reset : M MessageNormalizer unit :=
  modify (fun n => {| lastTimestampMap := ∅; offsetMs := offsetMs n |}).

End Normalize.

Definition withSequenceNumber (index : nat) (msg : NormalizedMessage) : NormalizedMessage :=
  {| role := role msg;
     content := content msg;
     timeStamp := timeStamp msg;
     speakerId := speakerId msg;
     speakerName := speakerName msg;
     sessionTime := sessionTime msg;
     weekday := weekday msg;
     sequenceNumber := Some index |}.

(** [assignSequenceNumbers]: [messages.map((msg, index) => ...)]. *)
Definition assignSequenceNumbers (messages : list NormalizedMessage) : list NormalizedMessage :=
  imap withSequenceNumber messages.

End Utils.

(** ** types/memory.ts, types/messages.ts (filters) and storage/vectorStore.ts *)

Module Storage.

(** [UpdateCandidate]. *)
Record UpdateCandidate : Type := {
  candId : string;
  candScore : Q
}.

(** [MemoryEntry & { embedding?: number[] }]: an entry as the store
    returns it, and a row of the table [memories]. *)
Record MemoryEntry : Type := {
  id : string;
  timeStamp : string;
  floatTimeStamp : Q;
  weekday : string;
  category : string;
  subcategory : string;
  memoryClass : string;
  memory : string;
  originalMemory : string;
  compressedMemory : string;
  topicId : option Z;
  topicSummary : string;
  speakerId : string;
  speakerName : string;
  hitTime : Z;
  updateQueue : list UpdateCandidate;
  embedding : option (list Q)
}.

(** [Partial<MemoryEntry>]: [None] is a field left [undefined]. *)
Record PartialMemoryEntry : Type := {
  p_id : option string;
  p_timeStamp : option string;
  p_floatTimeStamp : option Q;
  p_weekday : option string;
  p_category : option string;
  p_subcategory : option string;
  p_memoryClass : option string;
  p_memory : option string;
  p_originalMemory : option string;
  p_compressedMemory : option string;
  p_topicId : option (option Z);
  p_topicSummary : option string;
  p_speakerId : option string;
  p_speakerName : option string;
  p_hitTime : option Z;
  p_updateQueue : option (list UpdateCandidate)
}.

(** [{}]. *)
Definition noUpdates : PartialMemoryEntry :=
  {| p_id := None; p_timeStamp := None; p_floatTimeStamp := None; p_weekday := None;
     p_category := None; p_subcategory := None; p_memoryClass := None; p_memory := None;
     p_originalMemory := None; p_compressedMemory := None; p_topicId := None;
     p_topicSummary := None; p_speakerId := None; p_speakerName := None;
     p_hitTime := None; p_updateQueue := None |}.

(** [{ memory: m }] and [{ updateQueue: q }]. *)
Definition memoryUpdate (m : string) : PartialMemoryEntry :=
  {| p_id := None; p_timeStamp := None; p_floatTimeStamp := None; p_weekday := None;
     p_category := None; p_subcategory := None; p_memoryClass := None; p_memory := Some m;
     p_originalMemory := None; p_compressedMemory := None; p_topicId := None;
     p_topicSummary := None; p_speakerId := None; p_speakerName := None;
     p_hitTime := None; p_updateQueue := None |}.

Definition updateQueueUpdate (q : list UpdateCandidate) : PartialMemoryEntry :=
  {| p_id := None; p_timeStamp := None; p_floatTimeStamp := None; p_weekday := None;
     p_category := None; p_subcategory := None; p_memoryClass := None; p_memory := None;
     p_originalMemory := None; p_compressedMemory := None; p_topicId := None;
     p_topicSummary := None; p_speakerId := None; p_speakerName := None;
     p_hitTime := None; p_updateQueue := Some q |}.

(** [RetrieveFilters]; keys other than these three are never read. *)
Record TimeRange : Type := {
  gte : option Q;
  lte : option Q
}.

Record RetrieveFilters : Type := {
  f_floatTimeStamp : option TimeRange;
  f_speakerId : option string;
  f_category : option string
}.

(** [SearchResult]. *)
Record SearchResult : Type := {
  hitId : string;
  hitScore : Q;
  payload : MemoryEntry
}.

(** The rows of [memories], in the order [SELECT * FROM memories]
    returns them. *)
Definition Store : Type := list MemoryEntry.

Definition withEmbedding (e : option (list Q)) (r : MemoryEntry) : MemoryEntry :=
  {| id := id r; timeStamp := timeStamp r; floatTimeStamp := floatTimeStamp r;
     weekday := weekday r; category := category r; subcategory := subcategory r;
     memoryClass := memoryClass r; memory := memory r; originalMemory := originalMemory r;
     compressedMemory := compressedMemory r; topicId := topicId r;
     topicSummary := topicSummary r; speakerId := speakerId r; speakerName := speakerName r;
     hitTime := hitTime r; updateQueue := updateQueue r; embedding := e |}.

Section Table.
Context `{JsRuntime}.

(** [insert]: INSERT OR REPLACE drops the row of the same [id] and adds
    the new row; the vector goes through [embeddingToBlob]. *)
Definition insert (entry : MemoryEntry) (emb : list Q) (st : Store) : Store :=
  (List.filter (fun r => negb (String.eqb (id r) (id entry))) st
     ++ [withEmbedding (Some (storedVector emb)) entry])%list.

(** [getAll]. *)
Definition getAll (includeEmbeddings : bool) (st : Store) : list MemoryEntry :=
  map (fun r => if includeEmbeddings then r else withEmbedding None r) st.

(** [get]. *)
Definition get (i : string) (st : Store) : option MemoryEntry :=
  List.find (fun r => String.eqb (id r) i) st.

(** [exists]. *)
Definition exists_ (i : string) (st : Store) : bool :=
  existsb (fun r => String.eqb (id r) i) st.

(** [count]. *)
Definition count (st : Store) : nat := List.length st.

(** [delete]. *)
Definition delete (i : string) (st : Store) : Store :=
  List.filter (fun r => negb (String.eqb (id r) i)) st.

(** The SET clauses of [update] applied to one row. *)
Definition patch (updates : PartialMemoryEntry) (emb : option (list Q)) (r : MemoryEntry)
  : MemoryEntry :=
  {| id := id r; timeStamp := timeStamp r; floatTimeStamp := floatTimeStamp r;
     weekday := weekday r;
     category := default (category r) (p_category updates);
     subcategory := default (subcategory r) (p_subcategory updates);
     memoryClass := memoryClass r;
     memory := default (memory r) (p_memory updates);
     originalMemory := originalMemory r;
     compressedMemory := compressedMemory r; topicId := topicId r;
     topicSummary := topicSummary r; speakerId := speakerId r; speakerName := speakerName r;
     hitTime := default (hitTime r) (p_hitTime updates);
     updateQueue := default (updateQueue r) (p_updateQueue updates);
     embedding := match emb with
                  | Some e => Some (storedVector e)
                  | None => embedding r
                  end |}.

(** [x !== undefined]. *)
Definition defined {A : Type} (o : option A) : bool :=
  match o with
  | Some _ => true
  | None => false
  end.

(** The SET clauses [update] collects. *)
Definition setClauses (updates : PartialMemoryEntry) (emb : option (list Q)) : list string :=
  ((if defined (p_memory updates) then ["memory = ?"] else [])
   ++ (if defined (p_category updates) then ["category = ?"] else [])
   ++ (if defined (p_subcategory updates) then ["subcategory = ?"] else [])
   ++ (if defined (p_hitTime updates) then ["hitTime = ?"] else [])
   ++ (if defined (p_updateQueue updates) then ["updateQueue = ?"] else [])
   ++ (if defined emb then ["embedding = ?"] else []))%list.

(** [update]: UPDATE memories SET ... WHERE id = ?. *)
Definition update (i : string) (updates : PartialMemoryEntry) (emb : option (list Q))
    (st : Store) : Store :=
  if Nat.eqb (List.length (setClauses updates emb)) 0 then st
  else map (fun r => if String.eqb (id r) i then patch updates emb r else r) st.

End Table.

Section Search.
Context `{JsRuntime}.

(** The loop of [cosineSimilarity]: dot product and squared norms. *)
Fixpoint cosineLoop (a b : list Q) (acc : Q * Q * Q) : Q * Q * Q :=
  match a, b with
  | x :: a', y :: b' =>
      let '(dotProduct, normA, normB) := acc in
      cosineLoop a' b' (dotProduct + x * y, normA + x * x, normB + y * y)%Q
  | _, _ => acc
  end.

(** [cosineSimilarity]; [None] when it throws. *)
Definition cosineSimilarity (a b : list Q) : option Q :=
  if negb (Nat.eqb (List.length a) (List.length b)) then None
  else
    let '(dotProduct, normA, normB) := cosineLoop a b (0, 0, 0)%Q in
    let magnitude := (Math_sqrt normA * Math_sqrt normB)%Q in
    if Qeq_bool magnitude 0 then Some 0%Q
    else Some (dotProduct / magnitude)%Q.

(** The four filter tests of [search]: [true] when the entry is skipped. *)
Definition skipGte (f : RetrieveFilters) (entry : MemoryEntry) : bool :=
  match f_floatTimeStamp f with
  | Some r => truthyNum (gte r) && Qltb (floatTimeStamp entry) (default 0%Q (gte r))
  | None => false
  end.

Definition skipLte (f : RetrieveFilters) (entry : MemoryEntry) : bool :=
  match f_floatTimeStamp f with
  | Some r => truthyNum (lte r) && Qltb (default 0%Q (lte r)) (floatTimeStamp entry)
  | None => false
  end.

Definition skipSpeaker (f : RetrieveFilters) (entry : MemoryEntry) : bool :=
  truthyStr (f_speakerId f)
  && negb (String.eqb (speakerId entry) (default "" (f_speakerId f))).

Definition skipCategory (f : RetrieveFilters) (entry : MemoryEntry) : bool :=
  truthyStr (f_category f)
  && negb (String.eqb (category entry) (default "" (f_category f))).

Definition skipped (filters : option RetrieveFilters) (entry : MemoryEntry) : bool :=
  match filters with
  | Some f => skipGte f entry || skipLte f entry || skipSpeaker f entry || skipCategory f entry
  | None => false
  end.

(** The scoring loop of [search]; [None] when [cosineSimilarity] throws. *)
Fixpoint scoreEntries (queryEmbedding : list Q) (filters : option RetrieveFilters)
    (allEntries : list MemoryEntry) : option (list SearchResult) :=
  match allEntries with
  | [] => Some []
  | entry :: rest =>
      match embedding entry with
      | None => scoreEntries queryEmbedding filters rest
      | Some emb =>
          if skipped filters entry then scoreEntries queryEmbedding filters rest
          else
            score ← cosineSimilarity queryEmbedding emb;
            scored ← scoreEntries queryEmbedding filters rest;
            Some ({| hitId := id entry; hitScore := score; payload := entry |} :: scored)
      end
  end.

(** [(a, b) => b.score - a.score]. *)
Definition byScoreDesc (a b : SearchResult) : Q := (hitScore b - hitScore a)%Q.

(** [search]; [None] when it throws. *)
Definition search (queryEmbedding : list Q) (limit : Z) (filters : option RetrieveFilters)
    (st : Store) : option (list SearchResult) :=
  scored ← scoreEntries queryEmbedding filters (getAll true st);
  Some (slice0 limit (Js.sort byScoreDesc scored)).

End Search.

End Storage.

(** ** The remote providers and the host *)

Module Remote.

(** [client.embeddings.create]: request and response. *)
Inductive EmbeddingInput : Type :=
| OneText (text : string)
| ManyTexts (texts : list string).

Record EmbeddingRequest : Type := {
  er_model : string;
  er_input : EmbeddingInput;
  er_dimensions : option Z
}.

Record EmbeddingResponse : Type := {
  data : list (list Q);          (* data[i].embedding *)
  usage : option Z               (* usage?.total_tokens *)
}.

(** [client.chat.completions.create]. *)
Record ChatMessage : Type := {
  cm_role : string;
  cm_content : string
}.

Record ChatRequest : Type := {
  cr_model : string;
  cr_messages : list ChatMessage;
  cr_max_tokens : Z;
  cr_response_format : option string
}.

Record UsageInfo : Type := {
  promptTokens : Z;
  completionTokens : Z;
  totalTokens : Z
}.

Record ChatCompletion : Type := {
  firstContent : option string;  (* choices[0]?.message?.content *)
  cc_usage : option UsageInfo    (* usage, with missing counts as 0 *)
}.

(** The providers and the host over a state [W] of their own; [None] is
    a rejected call. *)
Class Upstream (W : Type) : Type := {
  embeddings_create : EmbeddingRequest -> W -> W * option EmbeddingResponse;
  chat_completions_create : ChatRequest -> W -> W * option ChatCompletion;
  randomUUID : W -> W * string;
  Date_now : W -> W * Z
}.

(** A client: the remote state and the requests sent through it. *)
Inductive Request : Type :=
| EmbeddingsCreate (r : EmbeddingRequest)
| ChatCompletionsCreate (r : ChatRequest).

Record Client (W : Type) : Type := {
  remote : W;
  sent : list Request
}.
Arguments remote {W} _.
Arguments sent {W} _.

Section Calls.
Context {W : Type} `{Upstream W}.

Definition callEmbeddings (req : EmbeddingRequest) : M (Client W) EmbeddingResponse :=
  fun c =>
    let '(w, r) := embeddings_create req (remote c) in
    let c' := {| remote := w; sent := (sent c ++ [EmbeddingsCreate req])%list |} in
    match r with
    | Some resp => Returns resp c'
    | None => Throws UpstreamError c'
    end.

Definition callChat (req : ChatRequest) : M (Client W) ChatCompletion :=
  fun c =>
    let '(w, r) := chat_completions_create req (remote c) in
    let c' := {| remote := w; sent := (sent c ++ [ChatCompletionsCreate req])%list |} in
    match r with
    | Some resp => Returns resp c'
    | None => Throws UpstreamError c'
    end.

End Calls.

End Remote.

(** ** embeddings/openrouter.ts *)

Module Embeddings.
Import Remote.

Record EmbedderConfig : Type := {
  model : string;
  dimensions : option Z
}.

Record EmbedderStats : Type := {
  totalCalls : Z;
  totalTokens : Z
}.

(** The state of an [OpenRouterEmbedder]. *)
Record OpenRouterEmbedder (W : Type) : Type := {
  client : Client W;
  config : EmbedderConfig;
  stats : EmbedderStats;
  cache : gmap string (list Q);
  cacheEnabled : bool
}.
Arguments client {W} _.
Arguments config {W} _.
Arguments stats {W} _.
Arguments cache {W} _.
Arguments cacheEnabled {W} _.

Section Embedder.
Context {W : Type} `{Upstream W}.

(** [new OpenRouterEmbedder(config, enableCache = true)]. *)
Definition newEmbedder (c : Client W) (cfg : EmbedderConfig) (enableCache : option bool)
  : OpenRouterEmbedder W :=
  {| client := c; config := cfg;
     stats := {| totalCalls := 0; totalTokens := 0 |};
     cache := ∅; cacheEnabled := default true enableCache |}.

Definition setClient (c : Client W) (e : OpenRouterEmbedder W) : OpenRouterEmbedder W :=
  {| client := c; config := config e; stats := stats e; cache := cache e;
     cacheEnabled := cacheEnabled e |}.

(** [this.stats.totalCalls++] and the token count of a response. *)
Definition countCall (u : option Z) (e : OpenRouterEmbedder W) : OpenRouterEmbedder W :=
  {| client := client e; config := config e;
     stats := {| totalCalls := totalCalls (stats e) + 1;
                 totalTokens := match u with
                                | Some t => totalTokens (stats e) + t
                                | None => totalTokens (stats e)
                                end |};
     cache := cache e; cacheEnabled := cacheEnabled e |}.

(** [this.cache.set(text, embedding)]. *)
Definition cacheSet (text : string) (v : list Q) (e : OpenRouterEmbedder W)
  : OpenRouterEmbedder W :=
  {| client := client e; config := config e; stats := stats e;
     cache := <[text := v]> (cache e); cacheEnabled := cacheEnabled e |}.

(** [getStats]. *)
Definition getStats (e : OpenRouterEmbedder W) : EmbedderStats := stats e.

Definition defined_at (results : list (option (list Q))) (i : nat) : bool :=
  match results !! i with
  | Some (Some _) => true
  | _ => false
  end.

(** [embed]. *)
Definition embed (text : string) : M (OpenRouterEmbedder W) (list Q) :=
  let* enabled := gets cacheEnabled in
  let* cached := gets (fun e => if enabled then cache e !! text else None) in
  match cached with
  | Some v => ret v
  | None =>
      let* cfg := gets config in
      let* response := zoom client setClient
        (callEmbeddings {| er_model := model cfg; er_input := OneText text;
                           er_dimensions := dimensions cfg |}) in
      let* _ := modify (countCall (usage response)) in
      match data response with
      | [] => throw TypeError
      | embedding :: _ =>
          let* _ := (if enabled then modify (cacheSet text embedding) else ret tt) in
          ret embedding
      end
  end.

(** The write-back loop of [embedBatch]: [results[uncachedIndices[i]] =
    data[i]] and [cache.set(uncachedTexts[i], data[i])]. *)
Fixpoint fillResults (enabled : bool) (vs : list (list Q)) (uncached : list (nat * string))
    (results : list (option (list Q))) : M (OpenRouterEmbedder W) (list (option (list Q))) :=
  match vs, uncached with
  | v :: vs', (i, text) :: uncached' =>
      let* _ := (if enabled then modify (cacheSet text v) else ret tt) in
      fillResults enabled vs' uncached' (<[i := Some v]> results)
  | _, _ => ret results
  end.

(** [embedBatch]; an entry the provider left out stays [None] in the
    result.  A response longer than the request is cut to the request. *)
Definition embedBatch (texts : list string) : M (OpenRouterEmbedder W) (list (option (list Q))) :=
  match texts with
  | [] => ret []
  | _ :: _ =>
      let* enabled := gets cacheEnabled in
      let* results := gets (fun e => map (fun text => if enabled then cache e !! text else None) texts) in
      let uncached :=
        List.filter (fun it => negb (defined_at results (fst it))) (imap pair texts) in
      match uncached with
      | [] => ret results
      | _ :: _ =>
          let* cfg := gets config in
          let* response := zoom client setClient
            (callEmbeddings {| er_model := model cfg; er_input := ManyTexts (map snd uncached);
                               er_dimensions := dimensions cfg |}) in
          let* _ := modify (countCall (usage response)) in
          fillResults enabled (data response) uncached results
      end
  end.

(** [clearCache]. *)
Definition clearCache : M (OpenRouterEmbedder W) unit :=
  modify (fun e => {| client := client e; config := config e; stats := stats e;
                      cache := ∅; cacheEnabled := cacheEnabled e |}).

End Embedder.

End Embeddings.

(** ** llm/base.ts *)

Module Llm.
Import Remote Utils.

Record OpenRouterConfig : Type := {
  llmModel : string;
  maxTokens : option Z
}.

(** [ExtractedFact]; a [source_id] that [Number] maps to NaN is [None]. *)
Record ExtractedFact : Type := {
  sourceId : option Q;
  fact : string
}.

(** [ExtractionResult]. *)
Record ExtractionResult : Type := {
  inputPrompt : list ChatMessage;
  outputPrompt : string;
  cleanedResult : list ExtractedFact;
  extractionUsage : option UsageInfo
}.

(** [UpdateResult], with the fields as the reply gave them. *)
Record UpdateResult : Type := {
  action : jsval;
  newMemory : jsval;
  updateUsage : option UsageInfo
}.

(** The prompt texts of llm/prompts.ts and the reply cleaner
    [cleanResponse] of llm/base.ts (code fence, [JSON.parse], the
    [data] array or a bare array, [Number(item.source_id)]); it never
    throws. *)
Class Prompts : Type := {
  METADATA_GENERATE_PROMPT : string;
  UPDATE_PROMPT : string;
  cleanResponse : string -> list ExtractedFact
}.

Inductive MessagesUse : Type := user_only | assistant_only | hybrid.

(** [roleFilter[messagesUse].has(role)]. *)
Definition allowedRoles (messagesUse : MessagesUse) (r : MessageRole) : bool :=
  match messagesUse, r with
  | user_only, user => true
  | assistant_only, assistant => true
  | hybrid, user | hybrid, assistant => true
  | _, _ => false
  end.

Definition roleName (r : MessageRole) : string :=
  match r with
  | user => "user"
  | assistant => "assistant"
  | system => "system"
  end.

Definition newline : string := String (ascii_of_nat 10) EmptyString.

(** [`${n}`] for a natural number. *)
Definition showNat (n : nat) : string := NilEmpty.string_of_uint (Nat.to_uint n).

(** [lines.join(sep)]. *)
Fixpoint join (sep : string) (lines : list string) : string :=
  match lines with
  | [] => ""
  | [l] => l
  | l :: rest => l ++ sep ++ join sep rest
  end.

(** The state of an [OpenRouterManager]. *)
Record OpenRouterManager (W : Type) : Type := {
  llmClient : Client W;
  llmConfig : OpenRouterConfig
}.
Arguments llmClient {W} _.
Arguments llmConfig {W} _.

Section Manager.
Context {W : Type} `{Upstream W} `{JsRuntime} `{Prompts}.

Definition setLlmClient (c : Client W) (m : OpenRouterManager W) : OpenRouterManager W :=
  {| llmClient := c; llmConfig := llmConfig m |}.

Definition zeroUsage : UsageInfo :=
  {| promptTokens := 0; completionTokens := 0; totalTokens := 0 |}.

(** [generateResponse]. *)
Definition generateResponse (messages : list ChatMessage) (responseFormat : option string)
  : M (OpenRouterManager W) (string * UsageInfo) :=
  let* cfg := gets llmConfig in
  let params :=
    {| cr_model := llmModel cfg;
       cr_messages := messages;
       cr_max_tokens := match maxTokens cfg with
                        | Some n => if n =? 0 then 4096 else n
                        | None => 4096
                        end;
       cr_response_format := responseFormat |} in
  let* response := zoom llmClient setLlmClient (callChat params) in
  ret (orElse (firstContent response) "", default zeroUsage (cc_usage response)).

(** One line of [concatenateMessages]. *)
Definition messageLine (msg : NormalizedMessage) : string :=
  let sequenceId := default O (sequenceNumber msg) in
  let speaker :=
    if truthyStr (speakerName msg) then default "" (speakerName msg) else roleName (role msg) in
  let timePrefix :=
    if negb (String.eqb (Utils.timeStamp msg) "") && negb (String.eqb (Utils.weekday msg) "")
    then "[" ++ Utils.timeStamp msg ++ ", " ++ Utils.weekday msg ++ "] "
    else "" in
  timePrefix ++ showNat (Nat.div sequenceId 2) ++ "." ++ speaker ++ ": " ++ content msg.

(** [concatenateMessages]. *)
Definition concatenateMessages (segment : list NormalizedMessage) (messagesUse : MessagesUse)
  : string :=
  join newline
    (map messageLine (List.filter (fun msg => allowedRoles messagesUse (role msg)) segment)).

(** The body of the loop of [metaTextExtract] for the segment at
    [topicIdx]. *)
Definition extractSegment (messagesUse : MessagesUse) (topicIdx : nat)
    (segment : list NormalizedMessage) : M (OpenRouterManager W) ExtractionResult :=
  let topicId := S topicIdx in
  tryCatch
    (let topicText := concatenateMessages segment messagesUse in
     let userPrompt := "--- Topic " ++ showNat topicId ++ " ---" ++ newline ++ topicText in
     let metadataMessages :=
       [ {| cm_role := "system"; cm_content := METADATA_GENERATE_PROMPT |};
         {| cm_role := "user"; cm_content := userPrompt |} ] in
     let* r := generateResponse metadataMessages (Some "json_object") in
     ret {| inputPrompt := metadataMessages;
            outputPrompt := fst r;
            cleanedResult := cleanResponse (fst r);
            extractionUsage := Some (snd r) |})
    (fun _ =>
       ret {| inputPrompt := []; outputPrompt := ""; cleanedResult := [];
              extractionUsage := None |}).

Fixpoint extractFrom (messagesUse : MessagesUse) (topicIdx : nat)
    (segments : list (list NormalizedMessage)) (results : list ExtractionResult)
  : M (OpenRouterManager W) (list ExtractionResult) :=
  match segments with
  | [] => ret results
  | segment :: rest =>
      let* r := extractSegment messagesUse topicIdx segment in
      extractFrom messagesUse (S topicIdx) rest (results ++ [r])
  end.

(** [metaTextExtract], without a [topicIdMapping]. *)
Definition metaTextExtract (segments : list (list NormalizedMessage)) (messagesUse : MessagesUse)
  : M (OpenRouterManager W) (list ExtractionResult) :=
  extractFrom messagesUse O segments [].

(** The [try] block of [callUpdateLlm]. *)
Definition decideUpdate (messages : list ChatMessage) : M (OpenRouterManager W) UpdateResult :=
  let* r := generateResponse messages (Some "json_object") in
  let usage := snd r in
  match JSON_parse (fst r) with
  | None => throw SyntaxError
  | Some result =>
      match getProp result "action" with
      | None => throw TypeError
      | Some act =>
          if negb (truthy act)
          then ret {| action := JStr "ignore"; newMemory := JUndefined;
                      updateUsage := Some usage |}
          else ret {| action := act;
                      newMemory := default JUndefined (getProp result "new_memory");
                      updateUsage := Some usage |}
      end
  end.

(** The two messages [callUpdateLlm] sends. *)
Definition updateMessages (targetMemory : string) (candidateMemories : list string)
  : list ChatMessage :=
  let userPrompt :=
    "Target memory: " ++ targetMemory ++ newline ++ "Candidate memories:" ++ newline
      ++ join newline (map (fun m => "- " ++ m) candidateMemories) in
  [ {| cm_role := "system"; cm_content := UPDATE_PROMPT |};
    {| cm_role := "user"; cm_content := userPrompt |} ].

(** [callUpdateLlm]. *)
Definition callUpdateLlm (targetMemory : string) (candidateMemories : list string)
  : M (OpenRouterManager W) UpdateResult :=
  tryCatch (decideUpdate (updateMessages targetMemory candidateMemories))
    (fun _ => ret {| action := JStr "ignore"; newMemory := JUndefined; updateUsage := None |}).

End Manager.

End Llm.

(** ** liteMem.ts *)

Module LiteMem.
Import Remote Utils Storage Embeddings Llm.

Record LiteMemConfig : Type := {
  messagesUse : MessagesUse;
  metadataGenerate : bool
}.

Record LlmStats : Type := {
  calls : Z;
  statPromptTokens : Z;
  statCompletionTokens : Z;
  statTotalTokens : Z
}.

Record TokenStats : Type := {
  addMemoryStats : LlmStats;
  updateStats : LlmStats
}.

Record AddMemoryOptions : Type := {
  forceExtract : option bool
}.

(** [AddMemoryResult]; [addInputPrompt] holds the prompts themselves
    rather than their JSON text. *)
Record AddMemoryResult : Type := {
  addInputPrompt : list (list ChatMessage);
  addOutputPrompt : list string;
  apiCallNums : Z;
  memoryEntriesCreated : Z
}.

(** The state of a [LiteMemory]; [host] is the state behind
    [crypto.randomUUID] and the clock.  Logging is left out. *)
Record LiteMemory (W : Type) : Type := {
  config : LiteMemConfig;
  vectorStore : Store;
  llmManager : OpenRouterManager W;
  embedder : OpenRouterEmbedder W;
  normalizer : MessageNormalizer;
  tokenStats : TokenStats;
  messageBuffer : list NormalizedMessage;
  host : W
}.
Arguments config {W} _.
Arguments vectorStore {W} _.
Arguments llmManager {W} _.
Arguments embedder {W} _.
Arguments normalizer {W} _.
Arguments tokenStats {W} _.
Arguments messageBuffer {W} _.
Arguments host {W} _.

Section Engine.
Context {W : Type} `{Upstream W} `{JsRuntime} `{Prompts}.

Definition setStore (st : Store) (m : LiteMemory W) : LiteMemory W :=
  {| config := config m; vectorStore := st; llmManager := llmManager m;
     embedder := embedder m; normalizer := normalizer m; tokenStats := tokenStats m;
     messageBuffer := messageBuffer m; host := host m |}.

Definition setLlmManager (l : OpenRouterManager W) (m : LiteMemory W) : LiteMemory W :=
  {| config := config m; vectorStore := vectorStore m; llmManager := l;
     embedder := embedder m; normalizer := normalizer m; tokenStats := tokenStats m;
     messageBuffer := messageBuffer m; host := host m |}.

Definition setEmbedder (e : OpenRouterEmbedder W) (m : LiteMemory W) : LiteMemory W :=
  {| config := config m; vectorStore := vectorStore m; llmManager := llmManager m;
     embedder := e; normalizer := normalizer m; tokenStats := tokenStats m;
     messageBuffer := messageBuffer m; host := host m |}.

Definition setNormalizer (n : MessageNormalizer) (m : LiteMemory W) : LiteMemory W :=
  {| config := config m; vectorStore := vectorStore m; llmManager := llmManager m;
     embedder := embedder m; normalizer := n; tokenStats := tokenStats m;
     messageBuffer := messageBuffer m; host := host m |}.

Definition setTokenStats (t : TokenStats) (m : LiteMemory W) : LiteMemory W :=
  {| config := config m; vectorStore := vectorStore m; llmManager := llmManager m;
     embedder := embedder m; normalizer := normalizer m; tokenStats := t;
     messageBuffer := messageBuffer m; host := host m |}.

Definition setMessageBuffer (b : list NormalizedMessage) (m : LiteMemory W) : LiteMemory W :=
  {| config := config m; vectorStore := vectorStore m; llmManager := llmManager m;
     embedder := embedder m; normalizer := normalizer m; tokenStats := tokenStats m;
     messageBuffer := b; host := host m |}.

Definition setHost (w : W) (m : LiteMemory W) : LiteMemory W :=
  {| config := config m; vectorStore := vectorStore m; llmManager := llmManager m;
     embedder := embedder m; normalizer := normalizer m; tokenStats := tokenStats m;
     messageBuffer := messageBuffer m; host := w |}.

(** [new LiteMemory(config)] over an empty table. *)
Definition newLiteMemory (cfg : LiteMemConfig) (llmCfg : OpenRouterConfig)
    (embCfg : EmbedderConfig) (w : W) : LiteMemory W :=
  let zero := {| calls := 0; statPromptTokens := 0; statCompletionTokens := 0;
                 statTotalTokens := 0 |} in
  {| config := cfg;
     vectorStore := [];
     llmManager := {| llmClient := {| remote := w; sent := [] |}; llmConfig := llmCfg |};
     embedder := newEmbedder {| remote := w; sent := [] |} embCfg None;
     normalizer := newMessageNormalizer None;
     tokenStats := {| addMemoryStats := zero; updateStats := zero |};
     messageBuffer := [];
     host := w |}.

(** The store methods, as the engine awaits them. *)
Definition storeInsert (entry : MemoryEntry) (emb : list Q) : M (LiteMemory W) unit :=
  modify (fun m => setStore (insert entry emb (vectorStore m)) m).

Definition storeUpdate (i : string) (updates : PartialMemoryEntry) (emb : option (list Q))
  : M (LiteMemory W) unit :=
  modify (fun m => setStore (update i updates emb (vectorStore m)) m).

Definition storeDelete (i : string) : M (LiteMemory W) unit :=
  modify (fun m => setStore (delete i (vectorStore m)) m).

Definition storeSearch (q : list Q) (limit : Z) (filters : option RetrieveFilters)
  : M (LiteMemory W) (list SearchResult) :=
  fun m =>
    match search q limit filters (vectorStore m) with
    | Some hits => Returns hits m
    | None => Throws VectorLength m
    end.

Definition hostUUID : M (LiteMemory W) string :=
  fun m => let '(w, u) := randomUUID (host m) in Returns u (setHost w m).

Definition hostNow : M (LiteMemory W) Z :=
  fun m => let '(w, t) := Date_now (host m) in Returns t (setHost w m).

(** [filterMessagesByRole]. *)
Definition filterMessagesByRole (mu : MessagesUse) (messages : list NormalizedMessage)
  : list NormalizedMessage :=
  List.filter (fun msg => allowedRoles mu (role msg)) messages.

(** The predicate of the [find] in [createMemoryEntries]. *)
Definition citedBy (f : ExtractedFact) (msg : NormalizedMessage) : bool :=
  match sequenceNumber msg, sourceId f with
  | Some n, Some q => Qeq_bool (inject_Z (Z.of_nat (Nat.div n 2))) q
  | _, _ => false
  end.

(** The entry [createMemoryEntries] builds for one fact: the argument of
    [createMemoryEntry] first, then its defaults.  With it comes whether
    its [floatTimeStamp] is a number: [new Date(s).getTime() / 1000] is
    NaN when the timestamp of the source message does not parse, the
    field is then 0 here and the flag is [false]. *)
Definition buildEntry (f : ExtractedFact) (messages : list NormalizedMessage)
  : M (LiteMemory W) (MemoryEntry * bool) :=
  let sourceMessage := Js.find (citedBy f) messages in
  let* ts :=
    match sourceMessage with
    | Some msg =>
        if negb (String.eqb (Utils.timeStamp msg) "") then ret (Utils.timeStamp msg)
        else (let* now := hostNow in ret (Date_toISOString now))
    | None => let* now := hostNow in ret (Date_toISOString now)
    end in
  let* fts :=
    match sourceMessage with
    | Some msg =>
        match newDate (Utils.timeStamp msg) with
        | ValidDate t => ret (Some (inject_Z t / 1000)%Q)
        | InvalidDate => ret None
        end
    | None => let* now := hostNow in ret (Some (inject_Z now / 1000)%Q)
    end in
  let* uuid := hostUUID in
  let* _ := hostNow in
  let* _ := hostNow in
  ret ({| id := uuid; Storage.timeStamp := ts; floatTimeStamp := default 0%Q fts;
         Storage.weekday := match sourceMessage with
                            | Some msg => Utils.weekday msg
                            | None => ""
                            end;
         category := ""; subcategory := ""; memoryClass := "";
         memory := fact f; originalMemory := fact f; compressedMemory := "";
         topicId := None; topicSummary := "";
         Storage.speakerId := match sourceMessage with
                              | Some msg => orElse (Utils.speakerId msg) ""
                              | None => ""
                              end;
         Storage.speakerName := match sourceMessage with
                                | Some msg => orElse (Utils.speakerName msg) ""
                                | None => ""
                                end;
         hitTime := 0; updateQueue := []; embedding := None |},
       match fts with Some _ => true | None => false end).

(** [createMemoryEntries]; a [floatTimeStamp] that is NaN is refused by
    the REAL NOT NULL column when the row is inserted. *)
Fixpoint createEntriesLoop (facts : list ExtractedFact) (messages : list NormalizedMessage)
    (entries : list MemoryEntry) : M (LiteMemory W) (list MemoryEntry) :=
  match facts with
  | [] => ret entries
  | f :: rest =>
      let* built := buildEntry f messages in
      let entry := fst built in
      let* emb := zoom embedder setEmbedder (embed (memory entry)) in
      let* _ := (if snd built then storeInsert entry emb else throw DriverError) in
      createEntriesLoop rest messages (entries ++ [entry])
  end.

Definition createMemoryEntries (extraction : ExtractionResult)
    (messages : list NormalizedMessage) : M (LiteMemory W) (list MemoryEntry) :=
  createEntriesLoop (cleanedResult extraction) messages [].

Definition addUsage (u : UsageInfo) (s : LlmStats) : LlmStats :=
  {| calls := calls s + 1;
     statPromptTokens := statPromptTokens s + promptTokens u;
     statCompletionTokens := statCompletionTokens s + completionTokens u;
     statTotalTokens := statTotalTokens s + Remote.totalTokens u |}.

Definition trackAddMemory (u : option UsageInfo) : M (LiteMemory W) unit :=
  match u with
  | Some usage =>
      modify (fun m => setTokenStats
                         {| addMemoryStats := addUsage usage (addMemoryStats (tokenStats m));
                            updateStats := updateStats (tokenStats m) |} m)
  | None => ret tt
  end.

Definition trackUpdate (u : option UsageInfo) : M (LiteMemory W) unit :=
  match u with
  | Some usage =>
      modify (fun m => setTokenStats
                         {| addMemoryStats := addMemoryStats (tokenStats m);
                            updateStats := addUsage usage (updateStats (tokenStats m)) |} m)
  | None => ret tt
  end.

(** The loop of [addMemory] over the extraction results. *)
Fixpoint recordExtractions (extractionResults : list ExtractionResult)
    (messagesToProcess : list NormalizedMessage) (result : AddMemoryResult)
  : M (LiteMemory W) AddMemoryResult :=
  match extractionResults with
  | [] => ret result
  | extraction :: rest =>
      let* _ := trackAddMemory (extractionUsage extraction) in
      let* memoryEntries := createMemoryEntries extraction messagesToProcess in
      recordExtractions rest messagesToProcess
        {| addInputPrompt := addInputPrompt result ++ [inputPrompt extraction];
           addOutputPrompt := addOutputPrompt result ++ [outputPrompt extraction];
           apiCallNums := apiCallNums result + 1;
           memoryEntriesCreated :=
             memoryEntriesCreated result + Z.of_nat (List.length memoryEntries) |}
  end.

(** [addMemory] from "Check if we should extract" on. *)
Definition extractBuffered (options : AddMemoryOptions) (result : AddMemoryResult)
  : M (LiteMemory W) AddMemoryResult :=
  let* buffer := gets messageBuffer in
  let shouldExtract :=
    default false (forceExtract options) || Nat.leb 10 (List.length buffer) in
  if negb shouldExtract then ret result
  else
    let* cfg := gets config in
    let messagesToProcess := filterMessagesByRole (messagesUse cfg) buffer in
    match messagesToProcess with
    | [] =>
        let* _ := modify (setMessageBuffer []) in
        ret result
    | _ :: _ =>
        let* result' :=
          (if metadataGenerate cfg
           then
             let segments := [messagesToProcess] in
             let* extractionResults :=
               zoom llmManager setLlmManager (metaTextExtract segments (messagesUse cfg)) in
             recordExtractions extractionResults messagesToProcess result
           else ret result) in
        let* _ := modify (setMessageBuffer []) in
        ret result'
    end.

(** [addMemory]; a single message is passed as a list of one. *)
Definition addMemory (messages : list Message) (options : AddMemoryOptions)
  : M (LiteMemory W) AddMemoryResult :=
  let result := {| addInputPrompt := []; addOutputPrompt := []; apiCallNums := 0;
                   memoryEntriesCreated := 0 |} in
  let* normalizedMessages := zoom normalizer setNormalizer (normalizeMessages messages) in
  let messagesWithSeq := assignSequenceNumbers normalizedMessages in
  let* _ := modify (fun m => setMessageBuffer (messageBuffer m ++ messagesWithSeq) m) in
  extractBuffered options result.

(** [retrieve]. *)
Definition retrieve (query : string) (limit : option Z) (filters : option RetrieveFilters)
  : M (LiteMemory W) string :=
  let* queryEmbedding := zoom embedder setEmbedder (embed query) in
  let* results := storeSearch queryEmbedding (default 10 limit) filters in
  ret (join newline
         (map (fun r => Storage.timeStamp (payload r) ++ " " ++ Storage.weekday (payload r)
                          ++ " " ++ memory (payload r)) results)).

(** The filter [search] is given in phase 1. *)
Definition notAfter (entry : MemoryEntry) : RetrieveFilters :=
  {| f_floatTimeStamp := Some {| gte := None; lte := Some (floatTimeStamp entry) |};
     f_speakerId := None; f_category := None |}.

(** The candidates phase 1 keeps from the hits of an entry. *)
Definition candidatesOf (keepTopN : Z) (entry : MemoryEntry) (hits : list SearchResult)
  : list UpdateCandidate :=
  map (fun h => {| candId := hitId h; candScore := hitScore h |})
      (slice0 keepTopN (List.filter (fun h => negb (String.eqb (hitId h) (id entry))) hits)).

(** The body of the loop of [constructUpdateQueueAllEntries]. *)
Definition queueEntry (topK keepTopN : Z) (entry : MemoryEntry) : M (LiteMemory W) unit :=
  match embedding entry with
  | None => ret tt
  | Some emb =>
      let* hits := storeSearch emb topK (Some (notAfter entry)) in
      storeUpdate (id entry) (updateQueueUpdate (candidatesOf keepTopN entry hits)) None
  end.

(** [constructUpdateQueueAllEntries(topK = 20, keepTopN = 10)]. *)
Definition constructUpdateQueueAllEntries (topK keepTopN : option Z) : M (LiteMemory W) unit :=
  let* allEntries := gets (fun m => getAll true (vectorStore m)) in
  match allEntries with
  | [] => ret tt
  | _ :: _ => forEach allEntries (queueEntry (default 20 topK) (default 10 keepTopN))
  end.

(** [queue.find((c) => c.id === entry.id && c.score >= scoreThreshold)],
    as a test. *)
Definition cites (scoreThreshold : Q) (entry other : MemoryEntry) : bool :=
  existsb (fun c => String.eqb (candId c) (id entry) && Qle_bool scoreThreshold (candScore c))
          (updateQueue other).

(** The inner loop of [offlineUpdateAllEntries]. *)
Definition candidateSources (scoreThreshold : Q) (allEntries : list MemoryEntry)
    (entry : MemoryEntry) : list MemoryEntry :=
  List.filter (cites scoreThreshold entry) allEntries.

(** The "Apply action" step of [offlineUpdateAllEntries]. *)
Definition applyAction (entry : MemoryEntry) (result : UpdateResult) : M (LiteMemory W) unit :=
  if strictEqStr (action result) "delete" then storeDelete (id entry)
  else if strictEqStr (action result) "update" && truthy (newMemory result) then
    match sqlText (newMemory result) with
    | Some text => storeUpdate (id entry) (memoryUpdate text) None
    | None => throw DriverError
    end
  else ret tt.

(** The body of the outer loop of [offlineUpdateAllEntries]. *)
Definition decideEntry (scoreThreshold : Q) (allEntries : list MemoryEntry)
    (entry : MemoryEntry) : M (LiteMemory W) unit :=
  match candidateSources scoreThreshold allEntries entry with
  | [] => ret tt
  | (_ :: _) as sources =>
      let* result :=
        zoom llmManager setLlmManager (callUpdateLlm (memory entry) (map memory sources)) in
      let* _ := trackUpdate (updateUsage result) in
      applyAction entry result
  end.

(** [offlineUpdateAllEntries(scoreThreshold = 0.9)]. *)
Definition offlineUpdateAllEntries (scoreThreshold : option Q) : M (LiteMemory W) unit :=
  let* allEntries := gets (fun m => getAll true (vectorStore m)) in
  match allEntries with
  | [] => ret tt
  | _ :: _ => forEach allEntries (decideEntry (default (9 # 10) scoreThreshold) allEntries)
  end.

(** [getMemoryCount]. *)
Definition getMemoryCount : M (LiteMemory W) nat :=
  gets (fun m => count (vectorStore m)).

End Engine.

End LiteMem.


(** * The rest of the package

    The sources around the engine: utils/tokenizer.ts,
    buffer/shortTerm.ts, retrievers/embedding.ts, the timestamp the MCP
    server builds (mcp/server.ts) and [getTokenStatistics] of
    liteMem.ts. *)

(** ** utils/tokenizer.ts *)

Module Tokenizer.

(** [ToIntegerOrInfinity] of a finite number: the fraction is dropped. *)
Definition toInteger (q : Q) : Z :=
  if Qle_bool 0 q then Qfloor q else Qceiling q.

(** [text.slice(0, end)]. *)
Definition sliceTo (finish : Q) (text : string) : string :=
  string_of_list_ascii (slice0 (toInteger finish) (list_ascii_of_string text)).

(** [estimateTokenCount]: [Math.ceil(text.length / 4)]. *)
Definition estimateTokenCount (text : string) : Z :=
  Qceiling (inject_Z (Z.of_nat (String.length text)) / 4).

(** [exceedsTokenLimit]. *)
Definition exceedsTokenLimit (text : string) (limit : Q) : bool :=
  Qltb limit (inject_Z (estimateTokenCount text)).

(** [truncateToTokenLimit]. *)
Definition truncateToTokenLimit (text : string) (limit : Q) : string :=
  let approxChars := (limit * 4)%Q in
  if Qle_bool (inject_Z (Z.of_nat (String.length text))) approxChars then text
  else sliceTo approxChars text ++ "...".

End Tokenizer.

(** ** buffer/shortTerm.ts *)

Module ShortTerm.
Import Utils Tokenizer.

(** The state of a [ShortTermBuffer]. *)
Record ShortTermBuffer : Type := {
  buffer : list NormalizedMessage;
  maxTokens : Q;
  currentTokens : Z
}.

(** [new ShortTermBuffer(maxTokens = 2000)]. *)
Definition newShortTermBuffer (limit : option Q) : ShortTermBuffer :=
  {| buffer := []; maxTokens := default 2000%Q limit; currentTokens := 0 |}.

(** One iteration of the loop of [add]. *)
Definition push (msg : NormalizedMessage) (b : ShortTermBuffer) : ShortTermBuffer :=
  {| buffer := buffer b ++ [msg];
     maxTokens := maxTokens b;
     currentTokens := currentTokens b + estimateTokenCount (content msg) |}.

(** [add]. *)
Definition add (messages : list NormalizedMessage) : M ShortTermBuffer bool :=
  let* _ := forEach messages (fun msg => modify (push msg)) in
  gets (fun b => Qle_bool (maxTokens b) (inject_Z (currentTokens b))).

(** [flush]. *)
Definition flush : M ShortTermBuffer (list NormalizedMessage) :=
  let* messages := gets buffer in
  let* _ := modify (fun b => {| buffer := []; maxTokens := maxTokens b; currentTokens := 0 |}) in
  ret messages.

(** [peek]. *)
Definition peek : M ShortTermBuffer (list NormalizedMessage) := gets buffer.

(** [getTokenCount]. *)
Definition getTokenCount : M ShortTermBuffer Z := gets currentTokens.

(** [isEmpty]. *)
Definition isEmpty : M ShortTermBuffer bool :=
  gets (fun b => Nat.eqb (List.length (buffer b)) 0).

(** [clear]. *)
Definition clear : M ShortTermBuffer unit :=
  modify (fun b => {| buffer := []; maxTokens := maxTokens b; currentTokens := 0 |}).

End ShortTerm.

(** ** retrievers/embedding.ts *)

Module Retrievers.
Import Remote Storage Embeddings.

(** The state of an [EmbeddingRetriever]: its store and its embedder. *)
Record EmbeddingRetriever (W : Type) : Type := {
  vectorStore : Store;
  embedder : OpenRouterEmbedder W
}.
Arguments vectorStore {W} _.
Arguments embedder {W} _.

Section Retriever.
Context {W : Type} `{Upstream W} `{JsRuntime}.

Definition setRetrieverEmbedder (e : OpenRouterEmbedder W) (r : EmbeddingRetriever W)
  : EmbeddingRetriever W :=
  {| vectorStore := vectorStore r; embedder := e |}.

(** [EmbeddingRetriever.retrieve(query, limit = 10, filters)]. *)
Definition retrieve (query : string) (limit : option Z) (filters : option RetrieveFilters)
  : M (EmbeddingRetriever W) (list SearchResult) :=
  let* queryEmbedding := zoom embedder setRetrieverEmbedder (embed query) in
  fun r =>
    match search queryEmbedding (default 10 limit) filters (vectorStore r) with
    | Some hits => Returns hits r
    | None => Throws VectorLength r
    end.

End Retriever.

End Retrievers.

(** ** mcp/server.ts: the timestamp of a call without one *)

Module Mcp.
Import Utils.

(** The local calendar fields of a time value, as the getters of [Date]
    give them. *)
Class LocalCalendar : Type := {
  getFullYear : Z -> Z;
  getMonth : Z -> Z;
  getDate : Z -> Z;
  getHours : Z -> Z;
  getMinutes : Z -> Z
}.

(** [String(n)] for an integer. *)
Definition showZ (n : Z) : string :=
  if n <? 0 then "-" ++ Llm.showNat (Z.to_nat (- n)) else Llm.showNat (Z.to_nat n).

(** [s.padStart(targetLength, c)] for a one-character filler. *)
Definition padStart (targetLength : nat) (c : ascii) (s : string) : string :=
  string_of_list_ascii (repeat c (targetLength - String.length s)) ++ s.

Section Format.
Context `{JsRuntime} `{LocalCalendar}.

(** [formatTimestamp(date)] for a valid date of time value [t]. *)
Definition formatTimestamp (t : Z) : string :=
  let days := ["Sun"; "Mon"; "Tue"; "Wed"; "Thu"; "Fri"; "Sat"] in
  let year := getFullYear t in
  let month := padStart 2 "0" (showZ (getMonth t + 1)) in
  let day := padStart 2 "0" (showZ (getDate t)) in
  let weekday := nth (Z.to_nat (getDay t)) days "undefined" in
  let hours := padStart 2 "0" (showZ (getHours t)) in
  let minutes := padStart 2 "0" (showZ (getMinutes t)) in
  showZ year ++ "/" ++ month ++ "/" ++ day ++ " (" ++ weekday ++ ") " ++ hours ++ ":" ++ minutes.

End Format.

End Mcp.

(** ** liteMem.ts: getTokenStatistics *)

Module Statistics.
Import Remote Embeddings Llm LiteMem.

(** [TokenStats], the value [getTokenStatistics] returns. *)
Record Summary : Type := {
  totalLlmCalls : Z;
  totalLlmTokens : Z;
  totalEmbeddingCalls : Z;
  totalEmbeddingTokens : Z
}.

Record TokenStatistics : Type := {
  summary : Summary;
  llmAddMemory : LlmStats;
  llmUpdate : LlmStats;
  embeddingStats : EmbedderStats
}.

Section Engine.
Context {W : Type}.

(** [getTokenStatistics]. *)
Definition getTokenStatistics (m : LiteMemory W) : TokenStatistics :=
  let embedderStats := getStats (LiteMem.embedder m) in
  {| summary :=
       {| totalLlmCalls := calls (addMemoryStats (tokenStats m))
                           + calls (updateStats (tokenStats m));
          totalLlmTokens := statTotalTokens (addMemoryStats (tokenStats m))
                            + statTotalTokens (updateStats (tokenStats m));
          totalEmbeddingCalls := totalCalls embedderStats;
          totalEmbeddingTokens := Embeddings.totalTokens embedderStats |};
     llmAddMemory := addMemoryStats (tokenStats m);
     llmUpdate := updateStats (tokenStats m);
     embeddingStats := embedderStats |}.

End Engine.

End Statistics.

(** * Vocabulary of the properties

    The predicates and relations in which the properties below are
    stated, and the runs they quantify over. *)

(** ** VectorStore.search *)

Module SearchSpec.
Import Storage.

(** The filter grammar in the words of the specification: an inclusive
    range on [floatTimeStamp], equality on [speakerId], equality on
    [category], all AND-combined. *)
Definition satisfies (filters : option RetrieveFilters) (e : MemoryEntry) : Prop :=
  match filters with
  | None => True
  | Some f =>
      (forall r g, f_floatTimeStamp f = Some r -> gte r = Some g -> (g <= floatTimeStamp e)%Q)
      /\ (forall r l, f_floatTimeStamp f = Some r -> lte r = Some l -> (floatTimeStamp e <= l)%Q)
      /\ (forall s, f_speakerId f = Some s -> speakerId e = s)
      /\ (forall c, f_category f = Some c -> category e = c)
  end.

(** Filters whose every supplied value is truthy in JavaScript: no bound
    equal to zero and no empty string. *)
Definition truthyFilters (filters : option RetrieveFilters) : Prop :=
  match filters with
  | None => True
  | Some f =>
      (forall r g, f_floatTimeStamp f = Some r -> gte r = Some g -> ~ (g == 0)%Q)
      /\ (forall r l, f_floatTimeStamp f = Some r -> lte r = Some l -> ~ (l == 0)%Q)
      /\ (forall s, f_speakerId f = Some s -> s <> "")
      /\ (forall c, f_category f = Some c -> c <> "")
  end.

(** Descending order of scores. *)
Definition scoreDesc (a b : SearchResult) : Prop := (hitScore b <= hitScore a)%Q.

Section Scored.
Context {RT : JsRuntime}.

(** What the scoring loop pushes. *)
Definition scoredFrom (q : list Q) (filters : option RetrieveFilters)
    (entries : list MemoryEntry) (h : SearchResult) : Prop :=
  In (payload h) entries
  /\ hitId h = id (payload h)
  /\ skipped filters (payload h) = false
  /\ exists emb, embedding (payload h) = Some emb /\ cosineSimilarity q emb = Some (hitScore h).

End Scored.

End SearchSpec.

(** ** Consolidation, phase 1 *)

Module PhaseOneSpec.
Import Storage LiteMem.

(** The row [r] with its queue replaced. *)
Definition setQueue (q : list UpdateCandidate) (r : MemoryEntry) : MemoryEntry :=
  {| id := id r; timeStamp := timeStamp r; floatTimeStamp := floatTimeStamp r;
     weekday := weekday r; category := category r; subcategory := subcategory r;
     memoryClass := memoryClass r; memory := memory r; originalMemory := originalMemory r;
     compressedMemory := compressedMemory r; topicId := topicId r;
     topicSummary := topicSummary r; speakerId := speakerId r; speakerName := speakerName r;
     hitTime := hitTime r; updateQueue := q; embedding := embedding r |}.

(** [r'] is [r] up to the queue. *)
Definition sameButQueue (r r' : MemoryEntry) : Prop := r' = setQueue (updateQueue r') r.

(** Every row carries a vector, as [insert] and [update] write it. *)
Definition allEmbedded (st : Store) : Prop :=
  Forall (fun r => embedding r <> None) st.

(** The primary key. *)
Definition uniqueIds (st : Store) : Prop := List.NoDup (map id st).

(** The stored vectors all have the length [d], the dimension of the
    store. *)
Definition uniformDim (d : nat) (st : Store) : Prop :=
  Forall (fun r => forall emb, embedding r = Some emb -> List.length emb = d) st.

Section Loop.
Context {RT : JsRuntime}.

(** What one iteration does to each row. *)
Definition steppedBy (topK keepTopN : Z) (e : MemoryEntry) (st0 : Store)
    (r r1 : MemoryEntry) : Prop :=
  sameButQueue r r1
  /\ ((updateQueue r1 = updateQueue r /\ (id e = id r -> embedding e = None))
      \/ (exists emb hits, id e = id r /\ embedding e = Some emb
            /\ search emb topK (Some (notAfter e)) st0 = Some hits
            /\ updateQueue r1 = candidatesOf keepTopN e hits)).

(** How the loop over [es] relates a row [r] of the store it started on,
    [st0], to the row [r'] at the same place when it returns. *)
Definition queuedBy (topK keepTopN : Z) (es : list MemoryEntry) (st0 : Store)
    (r r' : MemoryEntry) : Prop :=
  sameButQueue r r'
  /\ ((updateQueue r' = updateQueue r
       /\ forall e, In e es -> id e = id r -> embedding e = None)
      \/ (exists e emb mid hits,
            In e es /\ id e = id r /\ embedding e = Some emb
            /\ Forall2 sameButQueue st0 mid
            /\ search emb topK (Some (notAfter e)) mid = Some hits
            /\ updateQueue r' = candidatesOf keepTopN e hits)).

End Loop.

End PhaseOneSpec.

(** ** Consolidation, phase 2 *)

Module PhaseTwoSpec.
Import Remote Storage Llm LiteMem.

Section Reply.
Context {W : Type} {UP : Upstream W} {RT : JsRuntime} {PR : Prompts}.

(** The reply of the update LLM for a target and its sources, parsed;
    [None] when the call was rejected or the text is not JSON. *)
Definition parsedReply (l : OpenRouterManager W) (targetMemory : string)
    (candidateMemories : list string) : option jsval :=
  match generateResponse (updateMessages targetMemory candidateMemories)
                         (Some "json_object") l with
  | Returns r _ => JSON_parse (fst r)
  | Throws _ _ => None
  end.

End Reply.

(** The row [r] with its [memory] replaced. *)
Definition setMemory (text : string) (r : MemoryEntry) : MemoryEntry :=
  {| id := id r; timeStamp := timeStamp r; floatTimeStamp := floatTimeStamp r;
     weekday := weekday r; category := category r; subcategory := subcategory r;
     memoryClass := memoryClass r; memory := text; originalMemory := originalMemory r;
     compressedMemory := compressedMemory r; topicId := topicId r;
     topicSummary := topicSummary r; speakerId := speakerId r; speakerName := speakerName r;
     hitTime := hitTime r; updateQueue := updateQueue r; embedding := embedding r |}.

(** [r'] is [r] up to the field [memory]. *)
Definition sameButMemory (r r' : MemoryEntry) : Prop :=
  id r' = id r /\ timeStamp r' = timeStamp r /\ floatTimeStamp r' = floatTimeStamp r
  /\ weekday r' = weekday r /\ category r' = category r /\ subcategory r' = subcategory r
  /\ memoryClass r' = memoryClass r /\ originalMemory r' = originalMemory r
  /\ compressedMemory r' = compressedMemory r /\ topicId r' = topicId r
  /\ topicSummary r' = topicSummary r /\ speakerId r' = speakerId r
  /\ speakerName r' = speakerName r /\ hitTime r' = hitTime r
  /\ updateQueue r' = updateQueue r /\ embedding r' = embedding r.

(** The action and the new memory [callUpdateLlm] hands back, from the
    parsed reply. *)
Definition decisionOf (reply : option jsval) : jsval * jsval :=
  match reply with
  | None => (JStr "ignore", JUndefined)
  | Some v =>
      match getProp v "action" with
      | None => (JStr "ignore", JUndefined)
      | Some a =>
          if truthy a then (a, default JUndefined (getProp v "new_memory"))
          else (JStr "ignore", JUndefined)
      end
  end.

End PhaseTwoSpec.

(** ** originalMemory *)

Module OriginSpec.
Import Remote Storage Llm LiteMem.

(** The operations on the store that follow the insert of a record. *)
Inductive StoreOp : Type :=
| OpInsert (entry : MemoryEntry) (emb : list Q)
| OpUpdate (i : string) (updates : PartialMemoryEntry) (emb : option (list Q))
| OpDelete (i : string)
| OpConstructQueues (topK keepTopN : option Z)
| OpOfflineUpdate (scoreThreshold : option Q)
| OpRetrieve (query : string) (limit : option Z) (filters : option RetrieveFilters).

(** The operation is an insert under the id [i]. *)
Definition insertsUnder (i : string) (op : StoreOp) : Prop :=
  match op with
  | OpInsert entry _ => id entry = i
  | _ => False
  end.

Section Run.
Context {W : Type} {UP : Upstream W} {RT : JsRuntime} {PR : Prompts}.

Definition perform (op : StoreOp) : M (LiteMemory W) unit :=
  match op with
  | OpInsert entry emb => storeInsert entry emb
  | OpUpdate i updates emb => storeUpdate i updates emb
  | OpDelete i => storeDelete i
  | OpConstructQueues topK keepTopN => constructUpdateQueueAllEntries topK keepTopN
  | OpOfflineUpdate thr => offlineUpdateAllEntries thr
  | OpRetrieve query limit filters =>
      let* _ := retrieve query limit filters in ret tt
  end.

(** The engine after the operations, one after the other, each returning
    or throwing. *)
Fixpoint after (ops : list StoreOp) (m : LiteMemory W) : LiteMemory W :=
  match ops with
  | [] => m
  | op :: rest => after rest (stateOf (perform op m))
  end.

End Run.

(** Every record of [st'] was in [st] with the same [originalMemory]. *)
Definition keepsOrigin (i : string) (st st' : Store) : Prop :=
  forall r', get i st' = Some r' ->
             exists r, get i st = Some r /\ originalMemory r = originalMemory r'.

End OriginSpec.

(** ** The embedder cache *)

Module EmbedderSpec.
Import Remote Embeddings.

(** The calls on an embedder other than [clearCache]. *)
Inductive EmbedderCall : Type :=
| CallEmbed (text : string)
| CallEmbedBatch (texts : list string).

Section Run.
Context {W : Type} {UP : Upstream W}.

(** The embedder after the calls, one after the other, each returning
    or throwing. *)
Fixpoint afterCalls (calls : list EmbedderCall) (e : OpenRouterEmbedder W)
  : OpenRouterEmbedder W :=
  match calls with
  | [] => e
  | CallEmbed text :: rest => afterCalls rest (stateOf (embed text e))
  | CallEmbedBatch texts :: rest => afterCalls rest (stateOf (embedBatch texts e))
  end.

(** The cache is on and holds [v] for [t]. *)
Definition cached (t : string) (v : list Q) (e : OpenRouterEmbedder W) : Prop :=
  cacheEnabled e = true /\ cache e !! t = Some v.

End Run.

End EmbedderSpec.

(** ** The message normalizer *)

Module NormalizerSpec.
Import Utils.

Section Run.
Context {RT : JsRuntime}.

(** The calls of [normalizeMessages] on the batches, one after the
    other, all returning; the normalized messages in order. *)
Fixpoint normalizeAll (batches : list (list Message))
  : M MessageNormalizer (list NormalizedMessage) :=
  match batches with
  | [] => ret []
  | batch :: rest =>
      let* out := normalizeMessages batch in
      let* outs := normalizeAll rest in
      ret (out ++ outs)%list
  end.

(** The first branch of [parseSessionTimestamp]: the session grammar. *)
Definition parseSessionGrammar (rawTs : string) : option (Z * string) :=
  match SESSION_RE_match rawTs with
  | Some g =>
      match newDate (replaceAll "/" "-" (replaceAll "-" "/" (g_date g) ++ " " ++ g_time g)) with
      | ValidDate t => Some (t, g_weekday g)
      | InvalidDate => None
      end
  | None => None
  end.

(** A message that [normalizeMessages] must refuse: no [timeStamp], or a
    marker that neither the session grammar nor the ISO fallback
    parses. *)
Definition refused (msg : Message) : Prop :=
  truthyStr (msgTimeStamp msg) = false
  \/ (parseSessionGrammar (default "" (msgTimeStamp msg)) = None
      /\ parseFallback (default "" (msgTimeStamp msg)) = None).

End Run.

(** The messages of a session marker. *)
Definition ofMarker (marker : string) (outs : list NormalizedMessage) : list NormalizedMessage :=
  List.filter (fun o => String.eqb (sessionTime o) marker) outs.

(** The instants [first], [first + step], [first + 2 step], ... *)
Definition progression (first step : Z) (n : nat) : list Z :=
  map (fun k => first + step * Z.of_nat k) (seq 0 n).

(** The cursor of [marker] after [k] of its messages: none yet, or the
    instant of the last one. *)
Definition cursorAt (marker : string) (base step : Z) (k : nat) (n : MessageNormalizer) : Prop :=
  offsetMs n = step
  /\ lastTimestampMap n !! marker
     = match k with
       | O => None
       | S j => Some (ValidDate (base + step * Z.of_nat j))
       end.

End NormalizerSpec.

(** ** addMemory *)

Module AddMemorySpec.
Import Utils Storage Llm LiteMem.

(** The messages a [messagesUse] policy admits. *)
Definition admits (mu : MessagesUse) (r : MessageRole) : Prop :=
  match mu with
  | user_only => r = user
  | assistant_only => r = assistant
  | hybrid => r = user \/ r = assistant
  end.

(** The fact cites the message: [floor(sequenceNumber / 2)] of the
    message is the source id of the fact. *)
Definition citesSource (f : ExtractedFact) (msg : NormalizedMessage) : Prop :=
  exists n q, sequenceNumber msg = Some n /\ sourceId f = Some q
              /\ (q == inject_Z (Z.of_nat n / 2))%Q.

(** [msg] is the first message of [segment] that the fact cites. *)
Definition firstCited (f : ExtractedFact) (segment : list NormalizedMessage)
    (msg : NormalizedMessage) : Prop :=
  exists before after,
    segment = (before ++ msg :: after)%list
    /\ citesSource f msg
    /\ Forall (fun x => ~ citesSource f x) before.

Section Bound.
Context {RT : JsRuntime}.

(** The entry holds the fact and carries the timestamp, the time value
    in seconds, the weekday and the speaker of the first message of
    [segment] the fact cites; when no message of [segment] is cited, its
    weekday and speaker fields are empty. *)
Definition boundIn (segment : list NormalizedMessage) (f : ExtractedFact)
    (entry : MemoryEntry) : Prop :=
  memory entry = fact f /\ originalMemory entry = fact f
  /\ ((exists msg,
         firstCited f segment msg
         /\ (Utils.timeStamp msg <> "" -> Storage.timeStamp entry = Utils.timeStamp msg)
         /\ (exists t, newDate (Utils.timeStamp msg) = ValidDate t
                       /\ floatTimeStamp entry = (inject_Z t / 1000)%Q)
         /\ Storage.weekday entry = Utils.weekday msg
         /\ Storage.speakerId entry = orElse (Utils.speakerId msg) ""
         /\ Storage.speakerName entry = orElse (Utils.speakerName msg) "")
      \/ (Forall (fun x => ~ citesSource f x) segment
          /\ Storage.weekday entry = "" /\ Storage.speakerId entry = ""
          /\ Storage.speakerName entry = "")).

End Bound.

(** The result [addMemory] starts from. *)
Definition emptyResult : AddMemoryResult :=
  {| addInputPrompt := []; addOutputPrompt := []; apiCallNums := 0;
     memoryEntriesCreated := 0 |}.

End AddMemorySpec.

(** ** VectorStore.update: the columns it never writes *)

Module UpdateSpec.
Import Storage.

(** The part of [updates] that [update] reads: [memory], [category],
    [subcategory], [hitTime] and [updateQueue]. *)
Definition written (updates : PartialMemoryEntry) : PartialMemoryEntry :=
  {| p_id := None; p_timeStamp := None; p_floatTimeStamp := None; p_weekday := None;
     p_category := p_category updates; p_subcategory := p_subcategory updates;
     p_memoryClass := None; p_memory := p_memory updates;
     p_originalMemory := None; p_compressedMemory := None; p_topicId := None;
     p_topicSummary := None; p_speakerId := None; p_speakerName := None;
     p_hitTime := p_hitTime updates; p_updateQueue := p_updateQueue updates |}.

(** [r'] has the columns of [r] that no UPDATE statement of the store
    names. *)
Definition sameUnwritten (r r' : MemoryEntry) : Prop :=
  id r' = id r /\ timeStamp r' = timeStamp r /\ floatTimeStamp r' = floatTimeStamp r
  /\ weekday r' = weekday r /\ memoryClass r' = memoryClass r
  /\ originalMemory r' = originalMemory r /\ compressedMemory r' = compressedMemory r
  /\ topicId r' = topicId r /\ topicSummary r' = topicSummary r
  /\ speakerId r' = speakerId r /\ speakerName r' = speakerName r.

(** The sixteen fields of [MemoryEntry], without the vector. *)
Definition fieldsOf (r : MemoryEntry) : MemoryEntry := withEmbedding None r.

End UpdateSpec.

(** ** The embedder: what a call asks the provider *)

Module BatchSpec.
Import Remote Embeddings.

Section Batch.
Context {W : Type}.

(** What the cache answers for a text: nothing when it is off. *)
Definition lookupCache (e : OpenRouterEmbedder W) (text : string) : option (list Q) :=
  if cacheEnabled e then cache e !! text else None.

(** The texts of a batch the cache does not answer, in their order and
    with their repetitions. *)
Definition missing (texts : list string) (e : OpenRouterEmbedder W) : list string :=
  List.filter (fun t => match lookupCache e t with Some _ => false | None => true end) texts.

(** The request of [embed] and the request of [embedBatch]. *)
Definition embedRequest (text : string) (e : OpenRouterEmbedder W) : Request :=
  EmbeddingsCreate {| er_model := model (config e); er_input := OneText text;
                      er_dimensions := dimensions (config e) |}.

Definition batchRequest (texts : list string) (e : OpenRouterEmbedder W) : Request :=
  EmbeddingsCreate {| er_model := model (config e); er_input := ManyTexts (missing texts e);
                      er_dimensions := dimensions (config e) |}.

(** The requests a call sends when the cache answers nothing: one for
    [embed], one for a batch that is not empty. *)
Definition requestOf (call : EmbedderSpec.EmbedderCall) (e : OpenRouterEmbedder W)
  : list Request :=
  match call with
  | EmbedderSpec.CallEmbed text => [embedRequest text e]
  | EmbedderSpec.CallEmbedBatch [] => []
  | EmbedderSpec.CallEmbedBatch texts => [batchRequest texts e]
  end.

(** The pairs [embedBatch] collects in [uncachedIndices] and
    [uncachedTexts]. *)
Definition uncachedOf (texts : list string) (e : OpenRouterEmbedder W) : list (nat * string) :=
  List.filter
    (fun it => negb (defined_at (map (lookupCache e) texts) (fst it)))
    (imap pair texts).

End Batch.

End BatchSpec.

(** ** normalizeMessages: what a normalized message carries *)

Module CarrySpec.
Import Utils.

Section Carry.
Context {RT : JsRuntime}.

(** [o] is [msg] enriched: the fields of [msg] as they were, its marker
    in [sessionTime], the weekday [parseSessionTimestamp] gives for the
    marker, and no sequence number yet. *)
Definition carries (msg : Message) (o : NormalizedMessage) : Prop :=
  role o = msgRole msg /\ content o = msgContent msg
  /\ speakerId o = msgSpeakerId msg /\ speakerName o = msgSpeakerName msg
  /\ msgTimeStamp msg = Some (sessionTime o) /\ sessionTime o <> ""
  /\ sequenceNumber o = None
  /\ exists t, parseSessionTimestamp (sessionTime o) = Some (t, weekday o).

End Carry.

End CarrySpec.

(** ** The chat requests of the engine *)

Module RequestSpec.
Import Remote Utils Storage Llm LiteMem.

Section Requests.
Context {PR : Prompts}.

(** The request [generateResponse] sends for [messages] with the
    response format [json_object]. *)
Definition chatRequest (cfg : OpenRouterConfig) (messages : list ChatMessage) : Request :=
  ChatCompletionsCreate
    {| cr_model := llmModel cfg;
       cr_messages := messages;
       cr_max_tokens := match maxTokens cfg with
                        | Some n => if n =? 0 then 4096 else n
                        | None => 4096
                        end;
       cr_response_format := Some "json_object" |}.

(** The entry is the target of a decision: the queue of some entry of
    the snapshot cites it with a score at or above the threshold. *)
Definition cited (thr : Q) (snapshot : list MemoryEntry) (t : MemoryEntry) : bool :=
  match candidateSources thr snapshot t with
  | [] => false
  | _ :: _ => true
  end.

(** The request phase 2 sends for a target: its memory and the memories
    of its sources, as the snapshot has them. *)
Definition updateRequest (cfg : OpenRouterConfig) (thr : Q) (snapshot : list MemoryEntry)
    (t : MemoryEntry) : Request :=
  chatRequest cfg (updateMessages (memory t) (map memory (candidateSources thr snapshot t))).

(** The two messages [metaTextExtract] sends for the segment at
    [topicIdx]. *)
Definition extractionMessages (messagesUse : MessagesUse) (topicIdx : nat)
    (segment : list NormalizedMessage) : list ChatMessage :=
  [ {| cm_role := "system"; cm_content := METADATA_GENERATE_PROMPT |};
    {| cm_role := "user";
       cm_content := "--- Topic " ++ showNat (S topicIdx) ++ " ---" ++ newline
                       ++ concatenateMessages segment messagesUse |} ].

(** The result [metaTextExtract] records for a segment whose call
    failed. *)
Definition failedExtraction : ExtractionResult :=
  {| inputPrompt := []; outputPrompt := ""; cleanedResult := []; extractionUsage := None |}.

End Requests.

End RequestSpec.

(** ** Consolidation: what a phase leaves alone *)

Module FrameSpec.
Import Remote Storage Embeddings Llm LiteMem PhaseTwoSpec.

(** What phase 2 may do to the rows: drop some, rewrite the [memory] of
    others. *)
Definition rewritesMemory (st st' : Store) : Prop :=
  Forall (fun r' => exists r, In r st /\ sameButMemory r r') st'.

Section Frame.
Context {W : Type}.

(** What an iteration of phase 2 leaves alone. *)
Definition phaseTwoFrame (m m' : LiteMemory W) : Prop :=
  rewritesMemory (vectorStore m) (vectorStore m')
  /\ llmConfig (llmManager m') = llmConfig (llmManager m)
  /\ embedder m' = embedder m /\ messageBuffer m' = messageBuffer m
  /\ normalizer m' = normalizer m /\ config m' = config m /\ host m' = host m
  /\ addMemoryStats (tokenStats m') = addMemoryStats (tokenStats m).

(** What phase 1 may do: rewrite queues, row by row, and nothing else
    in the engine. *)
Definition queuesOnly (m m' : LiteMemory W) : Prop :=
  Forall2 PhaseOneSpec.sameButQueue (vectorStore m) (vectorStore m')
  /\ m' = setStore (vectorStore m') m.

End Frame.

(** Descending order of the scores of a queue. *)
Definition candDesc (a b : UpdateCandidate) : Prop := (candScore b <= candScore a)%Q.

End FrameSpec.

(** ** addMemory and the calls of the engine *)

Module EngineSpec.
Import Remote Utils Storage Embeddings Llm LiteMem.

(** A line of the text [retrieve] returns. *)
Definition resultLine (r : SearchResult) : string :=
  Storage.timeStamp (payload r) ++ " " ++ Storage.weekday (payload r) ++ " "
    ++ memory (payload r).

(** [shouldExtract] of [addMemory], on the buffer after the batch was
    appended. *)
Definition shouldExtract (options : AddMemoryOptions) (buffer : list NormalizedMessage) : bool :=
  default false (forceExtract options) || Nat.leb 10 (List.length buffer).

(** The result of an [addMemory] whose one extraction call failed. *)
Definition failedResult : AddMemoryResult :=
  {| addInputPrompt := [[]]; addOutputPrompt := [""]; apiCallNums := 1;
     memoryEntriesCreated := 0 |}.

(** The public methods of [LiteMemory] that work on the memories. *)
Inductive ApiCall : Type :=
| CallAddMemory (messages : list Message) (options : AddMemoryOptions)
| CallRetrieve (query : string) (limit : option Z) (filters : option RetrieveFilters)
| CallConstructQueues (topK keepTopN : option Z)
| CallOfflineUpdate (scoreThreshold : option Q).

Section Run.
Context {W : Type} {UP : Upstream W} {RT : JsRuntime} {PR : Prompts}.

(** The table after the inserts of [rows], in order. *)
Definition insertAll (rows : list (MemoryEntry * list Q)) (st : Store) : Store :=
  fold_left (fun acc row => insert (fst row) (snd row) acc) rows st.

(** The engine after a call, returned or thrown. *)
Definition afterCall (call : ApiCall) (m : LiteMemory W) : LiteMemory W :=
  match call with
  | CallAddMemory messages options => stateOf (addMemory messages options m)
  | CallRetrieve query limit filters => stateOf (retrieve query limit filters m)
  | CallConstructQueues topK keepTopN => stateOf (constructUpdateQueueAllEntries topK keepTopN m)
  | CallOfflineUpdate thr => stateOf (offlineUpdateAllEntries thr m)
  end.

(** The engine after the calls, one after the other. *)
Definition afterCalls (calls : list ApiCall) (m : LiteMemory W) : LiteMemory W :=
  fold_left (fun acc call => afterCall call acc) calls m.

(** What the making of entries leaves alone: everything but the table,
    the embedder, the host and the statistics of [addMemory]; the table
    only gets inserts. *)
Definition entriesFrame (m m' : LiteMemory W) : Prop :=
  (exists rows, vectorStore m' = insertAll rows (vectorStore m))
  /\ messageBuffer m' = messageBuffer m /\ config m' = config m
  /\ normalizer m' = normalizer m /\ llmManager m' = llmManager m
  /\ updateStats (tokenStats m') = updateStats (tokenStats m).

End Run.

End EngineSpec.

(** ** The short-term buffer *)

Module BufferSpec.
Import Utils Tokenizer ShortTerm.

(** The calls on a [ShortTermBuffer]. *)
Inductive BufferOp : Type :=
| OpAdd (messages : list NormalizedMessage)
| OpFlush
| OpPeek
| OpGetTokenCount
| OpIsEmpty
| OpClear.

(** The buffer after a call. *)
Definition afterOp (op : BufferOp) (b : ShortTermBuffer) : ShortTermBuffer :=
  match op with
  | OpAdd messages => stateOf (add messages b)
  | OpFlush => stateOf (flush b)
  | OpPeek => stateOf (peek b)
  | OpGetTokenCount => stateOf (getTokenCount b)
  | OpIsEmpty => stateOf (isEmpty b)
  | OpClear => stateOf (clear b)
  end.

Definition afterOps (ops : list BufferOp) (b : ShortTermBuffer) : ShortTermBuffer :=
  fold_left (fun acc op => afterOp op acc) ops b.

(** The messages added since the last [flush] or [clear], in order. *)
Definition pending (ops : list BufferOp) : list NormalizedMessage :=
  fold_left (fun acc op => match op with
                           | OpAdd messages => (acc ++ messages)%list
                           | OpFlush | OpClear => []
                           | _ => acc
                           end) ops [].

(** The estimated tokens of messages. *)
Definition tokensOf (messages : list NormalizedMessage) : Z :=
  fold_right (fun msg acc => estimateTokenCount (content msg) + acc) 0 messages.

End BufferSpec.

(** ** The session grammar on the markers of the MCP server *)

Module GrammarSpec.
Import Utils Mcp.

(** Strings of two and of four decimal digits. *)
Definition isTwoDigits (s : string) : bool :=
  match list_ascii_of_string s with
  | [a; b] => isDigit a && isDigit b
  | _ => false
  end.

Definition isFourDigits (s : string) : bool :=
  match list_ascii_of_string s with
  | [a; b; c; d] => isDigit a && isDigit b && isDigit c && isDigit d
  | _ => false
  end.

End GrammarSpec.

(** ** The statistics and the requests *)

Module StatisticsSpec.
Import Remote Embeddings Llm LiteMem Statistics.

Section Counts.
Context {W : Type}.

(** The chat requests an engine has sent that its statistics do not
    count, and the same for the embedding requests. *)
Definition uncountedChat (m : LiteMemory W) : Z :=
  Z.of_nat (List.length (sent (llmClient (llmManager m))))
  - totalLlmCalls (summary (getTokenStatistics m)).

Definition uncountedEmbeddings (m : LiteMemory W) : Z :=
  Z.of_nat (List.length (sent (client (LiteMem.embedder m))))
  - totalEmbeddingCalls (summary (getTokenStatistics m)).

(** A step after which the statistics have not gained more calls than
    requests were sent. *)
Definition countsFollow (m m' : LiteMemory W) : Prop :=
  uncountedChat m <= uncountedChat m' /\ uncountedEmbeddings m <= uncountedEmbeddings m'.

End Counts.

End StatisticsSpec.
(** ** A runtime, a provider and data to evaluate the engine on *)

Module Demo.
Import Remote Utils Storage Embeddings Llm LiteMem.

(** *** Dates: the proleptic Gregorian calendar in UTC *)

Definition daysFromCivil (y m d : Z) : Z :=
  let y' := if m <=? 2 then y - 1 else y in
  let era := y' / 400 in
  let yoe := y' - era * 400 in
  let doy := (153 * (if 2 <? m then m - 3 else m + 9) + 2) / 5 + d - 1 in
  let doe := yoe * 365 + yoe / 4 - yoe / 100 + doy in
  era * 146097 + doe - 719468.

Definition civilFromDays (days : Z) : Z * Z * Z :=
  let z := days + 719468 in
  let era := z / 146097 in
  let doe := z - era * 146097 in
  let yoe := (doe - doe / 1460 + doe / 36524 - doe / 146096) / 365 in
  let doy := doe - (365 * yoe + yoe / 4 - yoe / 100) in
  let mp := (5 * doy + 2) / 153 in
  let d := doy - (153 * mp + 2) / 5 + 1 in
  let m := if mp <? 10 then mp + 3 else mp - 9 in
  (yoe + era * 400 + (if m <=? 2 then 1 else 0), m, d).

Definition digit (n : Z) : ascii := ascii_of_nat (48 + Z.to_nat (n mod 10)).

Fixpoint padded (width : nat) (n : Z) : list ascii :=
  match width with
  | O => []
  | S w => (padded w (n / 10) ++ [digit n])%list
  end.

(** [toISOString] for the years 0000 to 9999. *)
Definition isoOfTime (t : Z) : string :=
  let '(y, m, d) := civilFromDays (t / 86400000) in
  let ms := t mod 86400000 in
  string_of_list_ascii
    (padded 4 y ++ "-"%char :: padded 2 m ++ "-"%char :: padded 2 d ++ "T"%char
       :: padded 2 (ms / 3600000) ++ ":"%char :: padded 2 (ms / 60000 mod 60) ++ ":"%char
       :: padded 2 (ms / 1000 mod 60) ++ "."%char :: padded 3 (ms mod 1000) ++ ["Z"%char])%list.

(** The numbers of a string and the characters between them. *)
Fixpoint numbersOf (l : list ascii) (cur : option Z) : list Z * list ascii :=
  match l with
  | [] => (match cur with Some n => [n] | None => [] end, [])
  | c :: r =>
      if isDigit c
      then numbersOf r (Some (default 0 cur * 10 + Z.of_nat (nat_of_ascii c - 48)))
      else let '(ns, seps) := numbersOf r None in
           (match cur with Some n => n :: ns | None => ns end, c :: seps)
  end.

Definition timeOf (y m d hh mi ss ms : Z) : option Z :=
  if (1 <=? m) && (m <=? 12) && (1 <=? d) && (d <=? 31) && (hh <=? 23) && (mi <=? 59)
     && (ss <=? 59)
  then Some (daysFromCivil y m d * 86400000 + hh * 3600000 + mi * 60000 + ss * 1000 + ms)
  else None.

(** [Date.parse] of "Y-M-D h:mm", "Y-M-D h:mm:ss" (read as UTC) and
    "Y-M-DTh:mm:ss.mmmZ". *)
Definition parseDate (s : string) : option Z :=
  let '(ns, seps) := numbersOf (list_ascii_of_string s) None in
  let shape := string_of_list_ascii seps in
  match ns with
  | [y; m; d; hh; mi] => if String.eqb shape "-- :" then timeOf y m d hh mi 0 0 else None
  | [y; m; d; hh; mi; ss] =>
      if String.eqb shape "-- ::" then timeOf y m d hh mi ss 0 else None
  | [y; m; d; hh; mi; ss; ms] =>
      if String.eqb shape "--T::.Z" then timeOf y m d hh mi ss ms else None
  | _ => None
  end.

(** *** JSON texts of the replies used below *)

Definition dq : string := String (ascii_of_nat 34) EmptyString.
Definition quoted (s : string) : string := dq ++ s ++ dq.

Definition jsonIgnore : string := "{" ++ quoted "action" ++ ":" ++ quoted "ignore" ++ "}".
Definition jsonDelete : string := "{" ++ quoted "action" ++ ":" ++ quoted "delete" ++ "}".
Definition jsonUpdate : string :=
  "{" ++ quoted "action" ++ ":" ++ quoted "update" ++ "," ++ quoted "new_memory" ++ ":"
    ++ quoted "merged" ++ "}".
Definition jsonMerge : string := "{" ++ quoted "action" ++ ":" ++ quoted "merge" ++ "}".
Definition jsonNoAction : string := "{" ++ quoted "new_memory" ++ ":" ++ quoted "merged" ++ "}".
Definition jsonFacts : string :=
  "{" ++ quoted "data" ++ ":[{" ++ quoted "source_id" ++ ":0," ++ quoted "fact" ++ ":"
    ++ quoted "User's name is Alice." ++ "}]}".

(** [JSON.parse] on those texts; any other text is taken as malformed. *)
Definition parseJson (s : string) : option jsval :=
  if String.eqb s jsonIgnore then Some (JObj [("action", JStr "ignore")])
  else if String.eqb s jsonDelete then Some (JObj [("action", JStr "delete")])
  else if String.eqb s jsonUpdate
       then Some (JObj [("action", JStr "update"); ("new_memory", JStr "merged")])
  else if String.eqb s jsonMerge then Some (JObj [("action", JStr "merge")])
  else if String.eqb s jsonNoAction then Some (JObj [("new_memory", JStr "merged")])
  else if String.eqb s jsonFacts
       then Some (JObj [("data", JArr [JObj [("source_id", JNum 0);
                                            ("fact", JStr "User's name is Alice.")]])])
  else if String.eqb s "null" then Some JNull
  else None.

(** [Math.sqrt], exact on squares of rationals. *)
Definition sqrtQ (q : Q) : Q :=
  let r := Qred q in Z.sqrt (Qnum r) # Pos.sqrt (Qden r).

(** The vectors of the examples are Float32 values and the column gives
    back what was written. *)
#[refine] Instance runtime : JsRuntime := {
  Math_sqrt := sqrtQ;
  Date_parse := parseDate;
  Date_toISOString := isoOfTime;
  LocalTZA := fun _ => 0;
  JSON_parse := parseJson;
  sqlText := fun v => match v with JStr s => Some s | _ => None end;
  storedVector := fun v => v
}.
Proof. reflexivity. Defined.

(** [cleanResponse] on a reply without code fence whose items carry a
    numeric [source_id] and a string [fact]. *)
Definition factOfItem (item : jsval) : ExtractedFact :=
  {| sourceId := match getProp item "source_id" with
                 | Some (JNum q) => Some q
                 | _ => None
                 end;
     fact := match getProp item "fact" with
             | Some (JStr s) => s
             | _ => ""
             end |}.

Definition cleanReply (response : string) : list ExtractedFact :=
  match parseJson response with
  | Some (JObj fields) =>
      match lookupField "data" fields with
      | Some (JArr items) => map factOfItem items
      | _ => []
      end
  | Some (JArr items) => map factOfItem items
  | _ => []
  end.

Instance prompts : Prompts := {
  METADATA_GENERATE_PROMPT := "Extract the facts.";
  UPDATE_PROMPT := "Decide: update, delete or ignore.";
  cleanResponse := cleanReply
}.

(** *** A provider stub

    The chat endpoint answers with the canned replies in turn and
    rejects when none is left; the embedding endpoint returns, for every
    text, the unit vector scaled by the number of calls made so far. *)

Record World : Type := {
  replies : list string;
  tick : nat
}.

Definition dim : nat := 1536.

Definition axis (scale : Q) : list Q := scale :: repeat 0%Q (dim - 1).

Definition textsOf (i : EmbeddingInput) : list string :=
  match i with
  | OneText t => [t]
  | ManyTexts ts => ts
  end.

Instance upstream : Upstream World := {
  embeddings_create := fun req w =>
    ({| replies := replies w; tick := S (tick w) |},
     Some {| data := map (fun _ => axis (inject_Z (Z.of_nat (S (tick w)))))
                         (textsOf (er_input req));
             usage := Some 3 |});
  chat_completions_create := fun req w =>
    match replies w with
    | r :: rest =>
        ({| replies := rest; tick := S (tick w) |},
         Some {| firstContent := Some r;
                 cc_usage := Some {| promptTokens := 7; completionTokens := 5;
                                     Remote.totalTokens := 12 |} |})
    | [] => ({| replies := []; tick := S (tick w) |}, None)
    end;
  randomUUID := fun w =>
    ({| replies := replies w; tick := S (tick w) |}, "id-" ++ showNat (tick w));
  Date_now := fun w =>
    ({| replies := replies w; tick := S (tick w) |}, 1700000000000 + Z.of_nat (tick w))
}.

(** *** Rows *)

Definition row (i : string) (ts : Q) (text : string) (emb : list Q) : MemoryEntry :=
  {| id := i; Storage.timeStamp := ""; floatTimeStamp := ts; Storage.weekday := "";
     category := ""; subcategory := ""; memoryClass := ""; memory := text;
     originalMemory := text; compressedMemory := ""; topicId := None; topicSummary := "";
     Storage.speakerId := ""; Storage.speakerName := ""; hitTime := 0; updateQueue := [];
     embedding := Some emb |}.

Definition withQueue (q : list UpdateCandidate) (r : MemoryEntry) : MemoryEntry :=
  patch (updateQueueUpdate q) None r.

(** Three rows at 100, 200 and 300 seconds. *)
Definition threeRows : Store :=
  [ row "a" 100 "first" (axis 1); row "b" 200 "second" (axis 1); row "c" 300 "third" (axis 1) ].

(** A row at the epoch and a later one. *)
Definition epochRows : Store :=
  [ row "a" 0 "at the epoch" (axis 1); row "b" 100 "later" (axis 1) ].

(** An older row [a] and a newer row [b]. *)
Definition twoRows : Store :=
  [ row "a" 100 "The user likes coffee." (axis 1);
    row "b" 200 "The user likes cappuccino." (axis 2) ].

Definition engineOn (st : Store) (canned : list string) (mu : MessagesUse) : LiteMemory World :=
  setStore st
    (newLiteMemory {| messagesUse := mu; metadataGenerate := true |}
                   {| llmModel := "chat"; maxTokens := None |}
                   {| model := "embed"; dimensions := None |}
                   {| replies := canned; tick := 0 |}).

End Demo.


(** ** Runs of the engine on that data *)

Module DemoRuns.
Import Remote Utils Storage Embeddings Llm LiteMem.
Import SearchSpec PhaseOneSpec PhaseTwoSpec OriginSpec EmbedderSpec NormalizerSpec AddMemorySpec.
Import Demo.

(** [{ floatTimeStamp: { lte: 0 } }]. *)
Definition upToEpoch : option RetrieveFilters :=
  Some {| f_floatTimeStamp := Some {| gte := None; lte := Some 0%Q |};
          f_speakerId := None; f_category := None |}.

(** The rows of [Demo.twoRows] after phase 1. *)
Definition twoRowsQueued : LiteMemory Demo.World :=
  stateOf (constructUpdateQueueAllEntries None None (Demo.engineOn Demo.twoRows [] user_only)).

Definition rowA : MemoryEntry := row "a" 100 "The user likes coffee." (axis 1).

Definition rowB : MemoryEntry :=
  setQueue [ {| candId := "a"; candScore := 2 # 2 |} ]
           (row "b" 200 "The user likes cappuccino." (axis 2)).

(** The rows after phase 1: [b] cites [a] with score 1. *)
Definition queuedRows : Store := [rowA; rowB].

(** Those rows in an engine whose chat endpoint will answer [canned]. *)
Definition queuedEngine (canned : list string) : LiteMemory World :=
  engineOn queuedRows canned user_only.

Definition sourcesOfA : list MemoryEntry :=
  candidateSources (default (9 # 10)%Q None) (vectorStore (queuedEngine [])) rowA.

Definition replyTo (canned : list string) : option jsval :=
  parsedReply (llmManager (queuedEngine canned)) (memory rowA) (map memory sourcesOfA).

(** The body of the loop on [rowA] when the chat endpoint answers
    [canned]. *)
Definition decideA (canned : list string) : Completion (LiteMemory World) unit :=
  decideEntry (default (9 # 10)%Q None) (vectorStore (queuedEngine [])) rowA
              (queuedEngine canned).

Definition monday : string := "2024/01/15 (Mon) 10:00".

Definition say (r : MessageRole) (speaker text marker : string) : Message :=
  {| msgRole := r; msgContent := text; msgTimeStamp := Some marker;
     msgSpeakerId := Some speaker; msgSpeakerName := Some speaker |}.

Definition mondayBatches : list (list Message) :=
  [ [ say user "u1" "My name is Alice." monday; say assistant "bot" "Hello, Alice." monday ];
    [ say user "u1" "I teach." monday ] ].

Definition mondayRun : Completion MessageNormalizer (list NormalizedMessage) :=
  normalizeAll mondayBatches (newMessageNormalizer None).

Definition brokenBatch : list Message :=
  [ say user "u1" "My name is Alice." monday; say user "u1" "I teach." "yesterday" ].

(** [{ memory: "edited", originalMemory: "forged" }]. *)
Definition forgingUpdate : PartialMemoryEntry :=
  {| p_id := None; p_timeStamp := None; p_floatTimeStamp := None; p_weekday := None;
     p_category := None; p_subcategory := None; p_memoryClass := None;
     p_memory := Some "edited"; p_originalMemory := Some "forged";
     p_compressedMemory := None; p_topicId := None; p_topicSummary := None;
     p_speakerId := None; p_speakerName := None; p_hitTime := None;
     p_updateQueue := None |}.

Definition laterOps : list StoreOp :=
  [ OpUpdate "a" forgingUpdate (Some (axis 3));
    OpConstructQueues None None;
    OpOfflineUpdate None;
    OpRetrieve "coffee?" None None;
    OpInsert (row "c" 300 "The user drinks tea." (axis 1)) (axis 1);
    OpDelete "b" ].

Definition freshEmbedder : OpenRouterEmbedder World :=
  newEmbedder {| remote := {| replies := []; tick := 0 |}; sent := [] |}
              {| model := "embed"; dimensions := None |} None.

Definition interleaved : list EmbedderCall :=
  [ CallEmbed "y"; CallEmbedBatch ["x"; "z"; "y"] ].

Definition aliceTurn : list Message :=
  [ say user "u1" "My name is Alice." monday; say assistant "bot" "Hello, Alice." monday ].

Definition assistantEngine : LiteMemory World := engineOn [] [jsonFacts] assistant_only.

(** The buffer when extraction starts: the two messages, numbered 0
    and 1. *)
Definition aliceBuffer : list NormalizedMessage :=
  assignSequenceNumbers
    (default [] (returned (normalizeMessages aliceTurn (normalizer assistantEngine)))).

(** The fact the extractor returns: it cites source 0. *)
Definition aliceFact : ExtractedFact :=
  {| sourceId := Some 0%Q; fact := "User's name is Alice." |}.

Definition aliceRun : Completion (LiteMemory World) AddMemoryResult :=
  addMemory aliceTurn {| forceExtract := Some true |} assistantEngine.

End DemoRuns.

(** ** More runs: the store, the embedder, addMemory, the server's marker *)

Module DemoMore.
Import Remote Utils Storage Embeddings Llm LiteMem Mcp.
Import PhaseTwoSpec EmbedderSpec Demo DemoRuns.

(** A second version of the row [b] of [Demo.threeRows]. *)
Definition secondB : MemoryEntry := row "b" 250 "second, again" (axis 1).

(** An embedder made with [enableCache = false]. *)
Definition uncachedEmbedder : OpenRouterEmbedder World :=
  newEmbedder {| remote := {| replies := []; tick := 0 |}; sent := [] |}
              {| model := "embed"; dimensions := None |} (Some false).

(** A batch of two texts on an embedder that has cached nothing. *)
Definition batchRun : Completion (OpenRouterEmbedder World) (list (option (list Q))) :=
  embedBatch ["x"; "y"] freshEmbedder.

(** The first turn, normalized by a new normalizer. *)
Definition aliceNormalized : Completion MessageNormalizer (list NormalizedMessage) :=
  normalizeMessages aliceTurn (newMessageNormalizer None).

(** The two messages of [DemoRuns.brokenBatch]: the marker of the
    second is not a date. *)
Definition goodPart : list Message := [ say user "u1" "My name is Alice." monday ].

Definition badMessage : Message := say user "u1" "I teach." "yesterday".

Definition goodRun : Completion MessageNormalizer (list NormalizedMessage) :=
  normalizeMessages goodPart (normalizer assistantEngine).

(** Phase 2 on the queued rows when the chat endpoint answers with an
    update. *)
Definition updateRun : Completion (LiteMemory World) unit :=
  offlineUpdateAllEntries None (queuedEngine [jsonUpdate]).

(** A forced extraction on the user's message alone, under
    [assistant_only]: the role filter leaves nothing. *)
Definition droppedRun : Completion (LiteMemory World) AddMemoryResult :=
  addMemory goodPart {| forceExtract := Some true |} assistantEngine.

(** Phase 2 on the queued rows, whatever the chat endpoint answers. *)
Definition offlineRun (canned : list string) : Completion (LiteMemory World) unit :=
  offlineUpdateAllEntries None (queuedEngine canned).

(** The same rows in the other order: the loop reaches [rowA] after an
    iteration on [rowB], which no queue cites. *)
Definition reversedEngine (canned : list string) : LiteMemory World :=
  engineOn [rowB; rowA] canned user_only.

(** [addMemory] without [forceExtract] on an empty buffer. *)
Definition quietRun : Completion (LiteMemory World) AddMemoryResult :=
  addMemory aliceTurn {| forceExtract := None |} assistantEngine.

(** A second call after [quietRun] has buffered the first turn: it
    extracts over the messages of both calls. *)
Definition secondTurn : list Message :=
  [ say user "u1" "I teach." monday; say assistant "bot" "Noted." monday ].

Definition secondNormalized : Completion MessageNormalizer (list NormalizedMessage) :=
  normalizeMessages secondTurn (normalizer (stateOf quietRun)).

Definition twoCallRun : Completion (LiteMemory World) AddMemoryResult :=
  addMemory secondTurn {| forceExtract := Some true |} (stateOf quietRun).

(** The buffer of the second call when extraction starts, and what the
    role filter leaves of it. *)
Definition bothTurns : list NormalizedMessage :=
  (messageBuffer (stateOf quietRun)
     ++ assignSequenceNumbers (default [] (returned secondNormalized)))%list.

Definition assistantTurns : list NormalizedMessage :=
  filterMessagesByRole (messagesUse (config (stateOf quietRun))) bothTurns.

(** An engine whose chat endpoint has no reply left, so that it refuses
    the extraction request. *)
Definition silentEngine : LiteMemory World := engineOn [] [] user_only.

Definition refusedRun : Completion (LiteMemory World) AddMemoryResult :=
  addMemory aliceTurn {| forceExtract := Some true |} silentEngine.

(** *** A provider whose embedding endpoint is down

    The chat endpoint answers with the canned replies in turn; every
    embedding request is refused. *)

Record Outage : Type := {
  answers : list string;
  clock : nat
}.

Instance outage : Upstream Outage := {
  embeddings_create := fun req w => ({| answers := answers w; clock := S (clock w) |}, None);
  chat_completions_create := fun req w =>
    match answers w with
    | r :: rest =>
        ({| answers := rest; clock := S (clock w) |},
         Some {| firstContent := Some r; cc_usage := None |})
    | [] => ({| answers := []; clock := S (clock w) |}, None)
    end;
  randomUUID := fun w =>
    ({| answers := answers w; clock := S (clock w) |}, "id-" ++ showNat (clock w));
  Date_now := fun w =>
    ({| answers := answers w; clock := S (clock w) |}, 1700000000000 + Z.of_nat (clock w))
}.

Definition outageEngine : LiteMemory Outage :=
  newLiteMemory {| messagesUse := user_only; metadataGenerate := true |}
                {| llmModel := "chat"; maxTokens := None |}
                {| model := "embed"; dimensions := None |}
                {| answers := [jsonFacts]; clock := 0 |}.

Definition outageRun : Completion (LiteMemory Outage) AddMemoryResult :=
  addMemory aliceTurn {| forceExtract := Some true |} outageEngine.

(** *** The calendar in UTC *)

Instance utcCalendar : LocalCalendar := {
  getFullYear := fun t => fst (fst (civilFromDays (t / 86400000)));
  getMonth := fun t => snd (fst (civilFromDays (t / 86400000))) - 1;
  getDate := fun t => snd (civilFromDays (t / 86400000));
  getHours := fun t => (t mod 86400000) / 3600000;
  getMinutes := fun t => (t mod 3600000) / 60000
}.

(** Monday 15 January 2024, 10:00. *)
Definition mondayTime : Z := 1705312800000.

End DemoMore.
(** * Properties *)

(** ** Arrays: sort and slice *)

Section ArrayFacts.
Context {A : Type}.

Lemma Qltb_true (a b : Q) : Qltb a b = true <-> (a < b)%Q.
Proof.
  unfold Qltb. rewrite negb_true_iff. split.
  - intros Hle. apply Qnot_le_lt. intros Hc.
    apply Qle_bool_iff in Hc. congruence.
  - intros Hlt. destruct (Qle_bool b a) eqn:E; [|reflexivity].
    apply Qle_bool_iff in E. exfalso. exact (Qlt_not_le _ _ Hlt E).
Qed.

Lemma Qltb_false (a b : Q) : Qltb a b = false <-> (b <= a)%Q.
Proof.
  unfold Qltb. rewrite negb_false_iff. apply Qle_bool_iff.
Qed.

Lemma sortInsert_Permutation (cmp : A -> A -> Q) (x : A) (l : list A) :
  Permutation (sortInsert cmp x l) (x :: l).
Proof.
  induction l as [|y l IH]; simpl; [reflexivity|].
  destruct (Qltb 0 (cmp x y)); [|reflexivity].
  rewrite IH. apply perm_swap.
Qed.

Lemma sort_Permutation (cmp : A -> A -> Q) (l : list A) :
  Permutation (Js.sort cmp l) l.
Proof.
  induction l as [|x l IH]; simpl; [reflexivity|].
  rewrite sortInsert_Permutation. now constructor.
Qed.

Lemma firstn_incl (n : nat) (l : list A) (x : A) : In x (firstn n l) -> In x l.
Proof.
  revert n. induction l as [|y l IH]; intros [|n]; simpl; try tauto.
  intros [->|Hin]; [now left|right; eauto].
Qed.

Lemma firstn_sorted (R : A -> A -> Prop) (n : nat) (l : list A) :
  StronglySorted R l -> StronglySorted R (firstn n l).
Proof.
  revert n. induction l as [|x l IH]; intros [|n] Hs; simpl; try constructor.
  - apply IH. now apply StronglySorted_inv in Hs.
  - apply StronglySorted_inv in Hs as [_ Hx].
    apply List.Forall_forall. intros y Hy. rewrite List.Forall_forall in Hx.
    apply Hx. eapply firstn_incl; eauto.
Qed.

Lemma slice0_sorted (R : A -> A -> Prop) (n : Z) (l : list A) :
  StronglySorted R l -> StronglySorted R (slice0 n l).
Proof.
  intros Hs. unfold slice0. destruct (n <? 0); now apply firstn_sorted.
Qed.

Lemma slice0_In (n : Z) (l : list A) (x : A) : In x (slice0 n l) -> In x l.
Proof.
  unfold slice0. destruct (n <? 0); apply firstn_incl.
Qed.

Lemma slice0_length (n : Z) (l : list A) :
  0 <= n -> Z.of_nat (List.length (slice0 n l)) <= n.
Proof.
  intros Hn. unfold slice0.
  destruct (n <? 0) eqn:E; [apply Z.ltb_lt in E; lia|].
  rewrite length_firstn. lia.
Qed.

End ArrayFacts.

Section SortFacts.
Context {A : Type}.

(** A comparator that subtracts keys, larger key first. *)
Variable key : A -> Q.
Let desc (a b : A) : Prop := (key b <= key a)%Q.
Let cmp (a b : A) : Q := (key b - key a)%Q.

Lemma cmp_positive (x y : A) : Qltb 0 (cmp x y) = true <-> (key x < key y)%Q.
Proof.
  unfold cmp. rewrite Qltb_true. split; intros Hlt.
  - apply Qlt_minus_iff. exact Hlt.
  - apply Qlt_minus_iff in Hlt. exact Hlt.
Qed.

Lemma sortInsert_sorted (x : A) (l : list A) :
  StronglySorted desc l -> StronglySorted desc (sortInsert cmp x l).
Proof.
  induction l as [|y l IH]; intros Hs; simpl.
  - repeat constructor.
  - apply StronglySorted_inv in Hs as [Hl Hy].
    destruct (Qltb 0 (cmp x y)) eqn:E.
    + apply cmp_positive in E.
      constructor; [now apply IH|].
      rewrite (sortInsert_Permutation cmp x l).
      constructor; [|exact Hy]. unfold desc. now apply Qlt_le_weak.
    + assert (Hyx : (key y <= key x)%Q).
      { apply Qnot_lt_le. intros Hc. apply cmp_positive in Hc. congruence. }
      constructor; [constructor; assumption|].
      constructor; [exact Hyx|].
      eapply Forall_impl; [exact Hy|].
      intros z Hz. unfold desc in *. now apply Qle_trans with (key y).
Qed.

Lemma sort_sorted (l : list A) : StronglySorted desc (Js.sort cmp l).
Proof.
  induction l as [|x l IH]; simpl; [constructor|].
  now apply sortInsert_sorted.
Qed.

End SortFacts.

(** ** VectorStore.search *)

Section SearchFacts.
Import Storage SearchSpec.
Context `{JsRuntime}.

Lemma truthyNum_Some (q : Q) : truthyNum (Some q) = true <-> ~ (q == 0)%Q.
Proof.
  simpl. rewrite negb_true_iff. split.
  - intros E Hq. apply Qeq_bool_iff in Hq. congruence.
  - intros Hq. destruct (Qeq_bool q 0) eqn:E; [|reflexivity].
    apply Qeq_bool_iff in E. contradiction.
Qed.

Lemma truthyStr_Some (s : string) : truthyStr (Some s) = true <-> s <> "".
Proof.
  simpl. rewrite negb_true_iff. split.
  - intros E ->. discriminate.
  - intros Hs. apply String.eqb_neq. exact Hs.
Qed.

(** An entry the four tests let through satisfies every truthy filter. *)
Lemma skipped_false_satisfies (filters : option RetrieveFilters) (e : MemoryEntry) :
  truthyFilters filters -> skipped filters e = false -> satisfies filters e.
Proof.
  destruct filters as [f|]; [|easy].
  intros (Tg & Tl & Ts & Tc) Hskip. simpl in Hskip.
  apply orb_false_iff in Hskip as [Hskip Hc].
  apply orb_false_iff in Hskip as [Hskip Hs].
  apply orb_false_iff in Hskip as [Hg Hl].
  repeat split.
  - intros r g Hr Hgte. unfold skipGte in Hg. rewrite Hr, Hgte in Hg.
    assert (Ht : truthyNum (Some g) = true) by (apply truthyNum_Some; eauto).
    rewrite Ht in Hg. simpl in Hg. now apply Qltb_false in Hg.
  - intros r l Hr Hlte. unfold skipLte in Hl. rewrite Hr, Hlte in Hl.
    assert (Ht : truthyNum (Some l) = true) by (apply truthyNum_Some; eauto).
    rewrite Ht in Hl. simpl in Hl. now apply Qltb_false in Hl.
  - intros s Hsp. unfold skipSpeaker in Hs. rewrite Hsp in Hs.
    assert (Ht : truthyStr (Some s) = true) by (apply truthyStr_Some; eauto).
    rewrite Ht in Hs. simpl in Hs. apply negb_false_iff in Hs.
    now apply String.eqb_eq in Hs.
  - intros c Hcat. unfold skipCategory in Hc. rewrite Hcat in Hc.
    assert (Ht : truthyStr (Some c) = true) by (apply truthyStr_Some; eauto).
    rewrite Ht in Hc. simpl in Hc. apply negb_false_iff in Hc.
    now apply String.eqb_eq in Hc.
Qed.

Lemma scoreEntries_scoredFrom (q : list Q) (filters : option RetrieveFilters)
    (entries : list MemoryEntry) (scored : list SearchResult) :
  scoreEntries q filters entries = Some scored ->
  Forall (scoredFrom q filters entries) scored.
Proof.
  revert scored. induction entries as [|e rest IH]; intros scored Hs; simpl in Hs.
  - injection Hs as <-. constructor.
  - assert (Hweak : forall l, Forall (scoredFrom q filters rest) l ->
                              Forall (scoredFrom q filters (e :: rest)) l).
    { intros l Hl. eapply Forall_impl; [exact Hl|].
      intros h (Hin & Hid & Hsk & Hemb). split; [now right|easy]. }
    destruct (embedding e) as [emb|] eqn:Eemb; [|now apply Hweak, IH].
    destruct (skipped filters e) eqn:Esk; [now apply Hweak, IH|].
    destruct (cosineSimilarity q emb) as [score|] eqn:Ecos; [|discriminate].
    destruct (scoreEntries q filters rest) as [scored'|] eqn:Erest; [|discriminate].
    simpl in Hs. injection Hs as <-.
    constructor; [|now apply Hweak, IH].
    split; [now left|]. simpl. repeat split; eauto.
Qed.

Lemma getAll_true (st : Store) : getAll true st = st.
Proof. unfold getAll. apply map_id. Qed.

(** [search], for a limit that is not negative and filters whose values
    are truthy: at most [k] hits, each a row of the store that satisfies
    the filters, scored by [cosineSimilarity], in descending order of
    score. *)
Theorem search_correct (q : list Q) (k : Z) (filters : option RetrieveFilters)
    (st : Store) (hits : list SearchResult) :
  0 <= k ->
  truthyFilters filters ->
  search q k filters st = Some hits ->
  Z.of_nat (List.length hits) <= k
  /\ Forall (fun h => scoredFrom q filters st h /\ satisfies filters (payload h)) hits
  /\ StronglySorted scoreDesc hits.
Proof.
  intros Hk Ht Hs. unfold search in Hs. rewrite getAll_true in Hs.
  destruct (scoreEntries q filters st) as [scored|] eqn:E; [|discriminate].
  simpl in Hs. injection Hs as <-.
  apply scoreEntries_scoredFrom in E.
  split; [now apply slice0_length|]. split.
  - apply List.Forall_forall. intros h Hin. apply slice0_In in Hin.
    assert (Hin' : In h scored).
    { eapply Permutation_in; [apply sort_Permutation|exact Hin]. }
    rewrite List.Forall_forall in E. specialize (E h Hin').
    split; [exact E|]. destruct E as (_ & _ & Hsk & _).
    apply skipped_false_satisfies; assumption.
  - apply slice0_sorted. apply (sort_sorted hitScore).
Qed.

(** Without the two side conditions: the hits are rows the four tests let
    through, in descending order of score. *)
Lemma search_sound (q : list Q) (k : Z) (filters : option RetrieveFilters)
    (st : Store) (hits : list SearchResult) :
  search q k filters st = Some hits ->
  Forall (scoredFrom q filters st) hits /\ StronglySorted scoreDesc hits.
Proof.
  intros Hs. unfold search in Hs. rewrite getAll_true in Hs.
  destruct (scoreEntries q filters st) as [scored|] eqn:E; [|discriminate].
  simpl in Hs. injection Hs as <-.
  apply scoreEntries_scoredFrom in E. split.
  - apply List.Forall_forall. intros h Hin. apply slice0_In in Hin.
    rewrite List.Forall_forall in E. apply E.
    eapply Permutation_in; [apply sort_Permutation|exact Hin].
  - apply slice0_sorted. apply (sort_sorted hitScore).
Qed.

(** [search] returns when the stored vectors have the length of the
    query. *)
Lemma search_returns (q : list Q) (k : Z) (filters : option RetrieveFilters) (st : Store) :
  Forall (fun r => forall emb, embedding r = Some emb -> List.length emb = List.length q) st ->
  exists hits, search q k filters st = Some hits.
Proof.
  intros Hdim. unfold search. rewrite getAll_true.
  assert (Hsc : exists scored, scoreEntries q filters st = Some scored).
  { induction st as [|e rest IH]; simpl; [eauto|].
    apply Forall_cons in Hdim as [He Hrest]. destruct (IH Hrest) as [scored Hscored].
    destruct (embedding e) as [emb|] eqn:Eemb; [|eauto].
    destruct (skipped filters e); [eauto|].
    unfold cosineSimilarity. rewrite (He emb eq_refl), Nat.eqb_refl. simpl.
    destruct (cosineLoop q emb (0%Q, 0%Q, 0%Q)) as [[d na] nb].
    rewrite Hscored. destruct (Qeq_bool _ 0); simpl; eauto. }
  destruct Hsc as [scored ->]. simpl. eauto.
Qed.

End SearchFacts.

(** ** Consolidation, phase 1 *)

Section Phase1Facts.
Import Remote Utils Storage Embeddings Llm LiteMem SearchSpec PhaseOneSpec.
Context {W : Type} {UP : Upstream W} {RT : JsRuntime} {PR : Prompts}.

Lemma sameButQueue_refl (r : MemoryEntry) : sameButQueue r r.
Proof. now destruct r. Qed.

Lemma sameButQueue_setQueue (q : list UpdateCandidate) (r : MemoryEntry) :
  sameButQueue r (setQueue q r).
Proof. now destruct r. Qed.

Lemma sameButQueue_trans (r1 r2 r3 : MemoryEntry) :
  sameButQueue r1 r2 -> sameButQueue r2 r3 -> sameButQueue r1 r3.
Proof.
  unfold sameButQueue. intros -> ->. now destruct r1.
Qed.

Lemma sameButQueue_fields (r r' : MemoryEntry) :
  sameButQueue r r' ->
  id r' = id r /\ floatTimeStamp r' = floatTimeStamp r /\ embedding r' = embedding r
  /\ originalMemory r' = originalMemory r /\ memory r' = memory r.
Proof. unfold sameButQueue. intros ->. now destruct r. Qed.

(** [update(id, { updateQueue })] rewrites the queue of the rows of that
    id. *)
Lemma update_queue (i : string) (q : list UpdateCandidate) (st : Store) :
  update i (updateQueueUpdate q) None st
  = map (fun r => if String.eqb (id r) i then setQueue q r else r) st.
Proof. reflexivity. Qed.

Lemma update_queue_Forall2 (i : string) (q : list UpdateCandidate) (st : Store) :
  Forall2 sameButQueue st (update i (updateQueueUpdate q) None st).
Proof.
  rewrite update_queue. induction st as [|r st IH]; simpl; constructor; [|exact IH].
  destruct (String.eqb (id r) i); [apply sameButQueue_setQueue|apply sameButQueue_refl].
Qed.

Lemma Forall2_sameButQueue_refl (st : Store) : Forall2 sameButQueue st st.
Proof. induction st; constructor; [apply sameButQueue_refl|assumption]. Qed.

Lemma Forall2_sameButQueue_trans (s1 s2 s3 : Store) :
  Forall2 sameButQueue s1 s2 -> Forall2 sameButQueue s2 s3 -> Forall2 sameButQueue s1 s3.
Proof.
  intros H12. revert s3. induction H12 as [|a b l1 l2 Hab _ IH]; intros s3 H23.
  - inversion H23. constructor.
  - inversion H23 as [|? c ? l3 Hbc Hrest]; subst. constructor.
    + eapply sameButQueue_trans; eauto.
    + now apply IH.
Qed.

(** What one iteration of the loop does to the engine. *)
Lemma queueEntry_step (topK keepTopN : Z) (e : MemoryEntry) (m m' : LiteMemory W) :
  queueEntry topK keepTopN e m = Returns tt m' ->
  (embedding e = None /\ m' = m)
  \/ (exists emb hits,
        embedding e = Some emb
        /\ search emb topK (Some (notAfter e)) (vectorStore m) = Some hits
        /\ m' = setStore (update (id e) (updateQueueUpdate (candidatesOf keepTopN e hits)) None
                                 (vectorStore m)) m).
Proof.
  unfold queueEntry. destruct (embedding e) as [emb|]; [|intros [= <-]; now left].
  unfold Eff.bind, storeSearch, storeUpdate, modify.
  destruct (search emb topK (Some (notAfter e)) (vectorStore m)) as [hits|] eqn:Es;
    [|discriminate].
  intros [= <-]. right. exists emb, hits. auto.
Qed.

Lemma queuedBy_weaken (topK keepTopN : Z) (es : list MemoryEntry) (st0 st1 : Store)
    (e : MemoryEntry) (r r1 r' : MemoryEntry) :
  Forall2 sameButQueue st0 st1 ->
  sameButQueue r r1 ->
  (* what the step on [e] did to the row *)
  ((updateQueue r1 = updateQueue r /\ (id e = id r -> embedding e = None))
   \/ (exists emb hits, id e = id r /\ embedding e = Some emb
         /\ search emb topK (Some (notAfter e)) st0 = Some hits
         /\ updateQueue r1 = candidatesOf keepTopN e hits)) ->
  queuedBy topK keepTopN es st1 r1 r' ->
  queuedBy topK keepTopN (e :: es) st0 r r'.
Proof.
  intros H01 Hr1 Hstep [Hsame Hq]. split; [eapply sameButQueue_trans; eauto|].
  pose proof (sameButQueue_fields _ _ Hr1) as (Hid & _).
  destruct Hq as [[Hkeep Hnone]|(e' & emb & mid & hits & Hin & Hide & Hemb & Hmid & Hs & Hq)].
  - destruct Hstep as [[Hkeep1 Hnone1]|(emb & hits & Hide & Hemb & Hs & Hq)].
    + left. split; [congruence|]. intros e0 [<-|Hin] Hid0; [auto|].
      apply Hnone; [assumption|congruence].
    + right. exists e, emb, st0, hits. repeat split; auto.
      * now left.
      * apply Forall2_sameButQueue_refl.
      * congruence.
  - right. exists e', emb, mid, hits. repeat split; auto.
    + now right.
    + congruence.
    + eapply Forall2_sameButQueue_trans; eauto.
Qed.

Lemma Forall2_map_same {A : Type} (P : A -> A -> Prop) (f : A -> A) (l : list A) :
  (forall x, P x (f x)) -> Forall2 P l (map f l).
Proof. intros Hf. induction l; simpl; constructor; auto. Qed.

Lemma Forall2_compose {A : Type} (P Q R : A -> A -> Prop) (l1 l2 l3 : list A) :
  (forall x y z, P x y -> Q y z -> R x z) ->
  Forall2 P l1 l2 -> Forall2 Q l2 l3 -> Forall2 R l1 l3.
Proof.
  intros Hc H12. revert l3. induction H12 as [|a b l1 l2 Hab _ IH]; intros l3 H23.
  - inversion H23. constructor.
  - inversion H23 as [|? c ? l3' Hbc Hrest]; subst. constructor; eauto.
Qed.

Lemma queueEntry_rows (topK keepTopN : Z) (e : MemoryEntry) (m m' : LiteMemory W) :
  queueEntry topK keepTopN e m = Returns tt m' ->
  Forall2 (steppedBy topK keepTopN e (vectorStore m)) (vectorStore m) (vectorStore m')
  /\ m' = setStore (vectorStore m') m.
Proof.
  intros Hstep. apply queueEntry_step in Hstep as [[Hnone ->]|(emb & hits & Hemb & Hs & ->)].
  - split; [|now destruct m].
    rewrite <- (map_id (vectorStore m)) at 3. apply Forall2_map_same.
    intros r. split; [apply sameButQueue_refl|]. left. auto.
  - split; [|reflexivity]. simpl. rewrite update_queue. apply Forall2_map_same.
    intros r. destruct (String.eqb (id r) (id e)) eqn:E.
    + apply String.eqb_eq in E. split; [apply sameButQueue_setQueue|].
      right. exists emb, hits. repeat split; auto.
    + apply String.eqb_neq in E. split; [apply sameButQueue_refl|].
      left. split; [reflexivity|]. intros Hid. congruence.
Qed.

Lemma steppedBy_sameButQueue (topK keepTopN : Z) (e : MemoryEntry) (st0 st st' : Store) :
  Forall2 (steppedBy topK keepTopN e st0) st st' -> Forall2 sameButQueue st st'.
Proof.
  intros Hs. eapply Forall2_impl; [exact Hs|]. now intros r r' [Hsame _].
Qed.

(** The loop of [constructUpdateQueueAllEntries]. *)
Lemma phase1_loop (topK keepTopN : Z) (es : list MemoryEntry) (m m' : LiteMemory W) :
  forEach es (queueEntry topK keepTopN) m = Returns tt m' ->
  Forall2 (queuedBy topK keepTopN es (vectorStore m)) (vectorStore m) (vectorStore m')
  /\ m' = setStore (vectorStore m') m.
Proof.
  revert m m'. induction es as [|e es IH]; intros m m' Hrun; simpl in Hrun.
  - injection Hrun as <-. split; [|now destruct m].
    rewrite <- (map_id (vectorStore m)) at 3. apply Forall2_map_same.
    intros r. split; [apply sameButQueue_refl|]. left. split; [reflexivity|]. intros e [].
  - unfold Eff.bind in Hrun.
    destruct (queueEntry topK keepTopN e m) as [[] m1|] eqn:E1; [|discriminate].
    apply queueEntry_rows in E1 as [Hrows1 Hm1].
    apply IH in Hrun as [Hrows Hm']. split.
    + eapply Forall2_compose; [|exact Hrows1|exact Hrows].
      intros r r1 r' [Hsame1 Hstep] Hq.
      eapply queuedBy_weaken; eauto.
      eapply steppedBy_sameButQueue; eauto.
    + rewrite Hm', Hm1. reflexivity.
Qed.

Lemma Forall2_In_r {A : Type} (P : A -> A -> Prop) (l l' : list A) (y : A) :
  Forall2 P l l' -> In y l' -> exists x, In x l /\ P x y.
Proof.
  induction 1 as [|a b l l' Hab _ IH]; intros Hin; [destruct Hin|].
  destruct Hin as [<-|Hin]; [exists a; split; [now left|assumption]|].
  destruct (IH Hin) as (x & Hx & Hp). exists x. split; [now right|assumption].
Qed.

Lemma Forall2_In_l {A : Type} (P : A -> A -> Prop) (l l' : list A) (x : A) :
  Forall2 P l l' -> In x l -> exists y, In y l' /\ P x y.
Proof.
  induction 1 as [|a b l l' Hab _ IH]; intros Hin; [destruct Hin|].
  destruct Hin as [<-|Hin]; [exists b; split; [now left|assumption]|].
  destruct (IH Hin) as (y & Hy & Hp). exists y. split; [now right|assumption].
Qed.

(** A candidate is a hit of another id. *)
Lemma candidatesOf_In (keepTopN : Z) (e : MemoryEntry) (hits : list SearchResult)
    (c : UpdateCandidate) :
  In c (candidatesOf keepTopN e hits) ->
  exists h, In h hits /\ candId c = hitId h /\ candScore c = hitScore h /\ hitId h <> id e.
Proof.
  unfold candidatesOf. intros Hin. apply in_map_iff in Hin as (h & <- & Hin).
  apply slice0_In in Hin. apply filter_In in Hin as [Hin Hne].
  exists h. repeat split; auto.
  apply negb_true_iff in Hne. now apply String.eqb_neq in Hne.
Qed.

Lemma uniqueIds_eq (st : Store) (a b : MemoryEntry) :
  uniqueIds st -> In a st -> In b st -> id a = id b -> a = b.
Proof.
  unfold uniqueIds. induction st as [|r st IH]; intros Hnd Ha Hb Hid; [destruct Ha|].
  simpl in Hnd. apply List.NoDup_cons_iff in Hnd as [Hnotin Hnd].
  destruct Ha as [<-|Ha], Hb as [<-|Hb]; auto.
  - exfalso. apply Hnotin. rewrite Hid. now apply in_map.
  - exfalso. apply Hnotin. rewrite <- Hid. now apply in_map.
Qed.

(** The rows after phase 1, each with the row it was before. *)
Lemma phase1_rows (topK keepTopN : option Z) (m m' : LiteMemory W) :
  constructUpdateQueueAllEntries topK keepTopN m = Returns tt m' ->
  Forall2 (queuedBy (default 20 topK) (default 10 keepTopN) (vectorStore m) (vectorStore m))
          (vectorStore m) (vectorStore m')
  /\ m' = setStore (vectorStore m') m.
Proof.
  unfold constructUpdateQueueAllEntries, Eff.bind, gets. rewrite getAll_true.
  destruct (vectorStore m) as [|r st] eqn:Est.
  - intros [= <-]. rewrite Est. split; [constructor|]. destruct m; simpl in *; now subst.
  - intros Hrun. apply phase1_loop in Hrun. now rewrite Est in Hrun.
Qed.

(** With every row embedded, the queue of a row after phase 1 is what
    the loop computed for an entry of that id. *)
Lemma phase1_queue (topK keepTopN : option Z) (m m' : LiteMemory W) (r' : MemoryEntry) :
  allEmbedded (vectorStore m) ->
  constructUpdateQueueAllEntries topK keepTopN m = Returns tt m' ->
  In r' (vectorStore m') ->
  exists r e emb mid hits,
    In r (vectorStore m) /\ sameButQueue r r'
    /\ In e (vectorStore m) /\ id e = id r /\ embedding e = Some emb
    /\ Forall2 sameButQueue (vectorStore m) mid
    /\ search emb (default 20 topK) (Some (notAfter e)) mid = Some hits
    /\ updateQueue r' = candidatesOf (default 10 keepTopN) e hits.
Proof.
  intros Hemb Hrun Hin. apply phase1_rows in Hrun as [Hrows _].
  destruct (Forall2_In_r _ _ _ _ Hrows Hin) as (r & Hr & Hsame & Hq).
  destruct Hq as [[_ Hnone]|(e & emb & mid & hits & He & Hid & Hee & Hmid & Hs & Hq)].
  - exfalso. unfold allEmbedded in Hemb. rewrite List.Forall_forall in Hemb.
    apply (Hemb r Hr). now apply Hnone.
  - exists r, e, emb, mid, hits. repeat split; auto.
Qed.

Lemma uniformDim_sameButQueue (d : nat) (st st' : Store) :
  Forall2 sameButQueue st st' -> uniformDim d st -> uniformDim d st'.
Proof.
  unfold uniformDim. induction 1 as [|r r' st st' Hr _ IH]; intros Hd; [constructor|].
  apply Forall_cons in Hd as [Hr0 Hd]. constructor; [|now apply IH].
  apply sameButQueue_fields in Hr as (_ & _ & Hemb & _). now rewrite Hemb.
Qed.

(** On a store of one dimension every iteration of phase 1 returns. *)
Lemma queueEntry_returns (d : nat) (topK keepTopN : Z) (e : MemoryEntry) (m : LiteMemory W) :
  uniformDim d (vectorStore m) ->
  (forall emb, embedding e = Some emb -> List.length emb = d) ->
  exists m', queueEntry topK keepTopN e m = Returns tt m'.
Proof.
  intros Hd He. unfold queueEntry. destruct (embedding e) as [emb|] eqn:Ee; [|eexists; reflexivity].
  destruct (search_returns emb topK (Some (notAfter e)) (vectorStore m)) as [hits Hs].
  { eapply Forall_impl; [exact Hd|]. intros r Hr v Hv. rewrite (Hr v Hv). symmetry. now apply He. }
  unfold Eff.bind, storeSearch. rewrite Hs. eexists. reflexivity.
Qed.

Lemma phase1_loop_returns (d : nat) (topK keepTopN : Z) (es : list MemoryEntry) :
  uniformDim d es ->
  forall m : LiteMemory W,
    uniformDim d (vectorStore m) ->
    exists m', forEach es (queueEntry topK keepTopN) m = Returns tt m'.
Proof.
  induction es as [|e es IH]; intros Hes m Hm; simpl; [eexists; reflexivity|].
  apply Forall_cons in Hes as [He Hes].
  destruct (queueEntry_returns d topK keepTopN e m Hm He) as [m1 E1].
  unfold Eff.bind. rewrite E1. apply IH; [assumption|].
  apply queueEntry_rows in E1 as [Hrows _].
  eapply uniformDim_sameButQueue; [|exact Hm]. eapply steppedBy_sameButQueue; eauto.
Qed.

(** Phase 1 returns on a store whose vectors all have one length. *)
Lemma phase1_returns (d : nat) (topK keepTopN : option Z) (m : LiteMemory W) :
  uniformDim d (vectorStore m) ->
  exists m', constructUpdateQueueAllEntries topK keepTopN m = Returns tt m'.
Proof.
  intros Hd. unfold constructUpdateQueueAllEntries, Eff.bind, gets. rewrite getAll_true.
  destruct (vectorStore m) as [|r st] eqn:Est; [eexists; reflexivity|].
  rewrite <- Est in *. now apply (phase1_loop_returns d).
Qed.

(** The store operations keep the primary key and the vectors. *)
Lemma uniqueIds_delete (i : string) (st : Store) : uniqueIds st -> uniqueIds (delete i st).
Proof.
  unfold uniqueIds, delete. induction st as [|r st IH]; simpl; [auto|].
  intros Hnd. apply List.NoDup_cons_iff in Hnd as [Hnotin Hnd].
  destruct (negb (String.eqb (id r) i)); simpl; [|auto].
  constructor; [|auto]. intros Hin. apply Hnotin.
  apply in_map_iff in Hin as (x & Hx & Hin). apply filter_In in Hin as [Hin _].
  apply in_map_iff. eauto.
Qed.

Lemma uniqueIds_insert (entry : MemoryEntry) (emb : list Q) (st : Store) :
  uniqueIds st -> uniqueIds (insert entry emb st).
Proof.
  intros Hu. unfold insert. fold (delete (id entry) st).
  unfold uniqueIds. rewrite map_app. simpl.
  apply NoDup_ListNoDup, NoDup_app. split; [|split].
  - apply NoDup_ListNoDup. now apply uniqueIds_delete.
  - intros x Hx Hin. apply list_elem_of_In in Hx. apply list_elem_of_In in Hin.
    destruct Hin as [<-|[]].
    apply in_map_iff in Hx as (r & Hr & Hin). unfold delete in Hin.
    apply filter_In in Hin as [_ Hne]. apply negb_true_iff, String.eqb_neq in Hne. auto.
  - apply NoDup_ListNoDup. repeat constructor. intros [].
Qed.

Lemma uniqueIds_update (i : string) (updates : PartialMemoryEntry) (emb : option (list Q))
    (st : Store) :
  uniqueIds st -> uniqueIds (update i updates emb st).
Proof.
  unfold update. destruct (Nat.eqb _ 0); [auto|]. unfold uniqueIds.
  rewrite map_map.
  replace (map (fun x => id (if String.eqb (id x) i then patch updates emb x else x)) st)
    with (map id st); [auto|].
  apply map_ext. intros r. now destruct (String.eqb (id r) i).
Qed.

Lemma allEmbedded_insert (entry : MemoryEntry) (emb : list Q) (st : Store) :
  allEmbedded st -> allEmbedded (insert entry emb st).
Proof.
  intros Ha. unfold insert, allEmbedded. apply Forall_app. split.
  - apply List.Forall_forall. intros r Hr. apply filter_In in Hr as [Hr _].
    unfold allEmbedded in Ha. rewrite List.Forall_forall in Ha. auto.
  - repeat constructor. discriminate.
Qed.

Lemma allEmbedded_update (i : string) (updates : PartialMemoryEntry) (emb : option (list Q))
    (st : Store) :
  allEmbedded st -> allEmbedded (update i updates emb st).
Proof.
  unfold update. destruct (Nat.eqb _ 0); [auto|]. unfold allEmbedded.
  intros Ha. apply List.Forall_forall. intros r' Hr'.
  apply in_map_iff in Hr' as (r & <- & Hr). rewrite List.Forall_forall in Ha.
  specialize (Ha r Hr). destruct (String.eqb (id r) i); [|exact Ha].
  simpl. destruct emb; [discriminate|exact Ha].
Qed.

Lemma allEmbedded_delete (i : string) (st : Store) : allEmbedded st -> allEmbedded (delete i st).
Proof.
  unfold allEmbedded, delete. intros Ha. apply List.Forall_forall. intros r Hr.
  apply filter_In in Hr as [Hr _]. rewrite List.Forall_forall in Ha. auto.
Qed.

(** The only test the filter of phase 1 makes, and it is made only for
    a timestamp that is truthy. *)
Lemma skipped_notAfter (e p : MemoryEntry) :
  skipped (Some (notAfter e)) p
  = negb (Qeq_bool (floatTimeStamp e) 0) && Qltb (floatTimeStamp e) (floatTimeStamp p).
Proof.
  unfold skipped, skipGte, skipLte, skipSpeaker, skipCategory. simpl.
  now rewrite !orb_false_r.
Qed.

(** C4 (self-exclusion).  When [constructUpdateQueueAllEntries] has
    returned, on a store whose rows all carry a vector, no row of the
    store has its own id among the candidate ids of its [updateQueue]. *)
Theorem phase1_self_exclusion (topK keepTopN : option Z) (m m' : LiteMemory W) :
  allEmbedded (vectorStore m) ->
  constructUpdateQueueAllEntries topK keepTopN m = Returns tt m' ->
  forall r, In r (vectorStore m') -> ~ In (id r) (map candId (updateQueue r)).
Proof.
  intros Hemb Hrun r' Hin Hself.
  destruct (phase1_queue _ _ _ _ _ Hemb Hrun Hin)
    as (r & e & emb & mid & hits & _ & Hsame & _ & Hid & _ & _ & _ & Hq).
  apply sameButQueue_fields in Hsame as (Hid' & _).
  rewrite Hq in Hself. apply in_map_iff in Hself as (c & Hc & Hcin).
  apply candidatesOf_In in Hcin as (h & _ & Hch & _ & Hne).
  congruence.
Qed.

(** Temporal direction, for rows whose timestamp is not zero: when
    [constructUpdateQueueAllEntries] has returned, every candidate id in
    the queue of such a row is the id of a row that is not later. *)
Theorem phase1_temporal_direction (topK keepTopN : option Z) (m m' : LiteMemory W) :
  allEmbedded (vectorStore m) ->
  uniqueIds (vectorStore m) ->
  constructUpdateQueueAllEntries topK keepTopN m = Returns tt m' ->
  forall r c,
    In r (vectorStore m') -> ~ (floatTimeStamp r == 0)%Q -> In c (updateQueue r) ->
    exists p, In p (vectorStore m') /\ id p = candId c
              /\ (floatTimeStamp p <= floatTimeStamp r)%Q.
Proof.
  intros Hemb Huniq Hrun r' c Hin Hnz Hc.
  destruct (phase1_queue _ _ _ _ _ Hemb Hrun Hin)
    as (r & e & emb & mid & hits & Hr & Hsame & He & Hid & _ & Hmid & Hs & Hq).
  assert (e = r) as -> by (eapply uniqueIds_eq; eauto).
  apply sameButQueue_fields in Hsame as (_ & Hts & _).
  rewrite Hq in Hc. apply candidatesOf_In in Hc as (h & Hh & Hch & _ & _).
  apply search_sound in Hs as [Hscored _].
  rewrite List.Forall_forall in Hscored.
  destruct (Hscored h Hh) as (Hpay & Hhid & Hskip & _).
  (* the lte test was made, since the bound is not zero *)
  rewrite skipped_notAfter, <- Hts in Hskip.
  assert (Ht : negb (Qeq_bool (floatTimeStamp r') 0) = true).
  { apply negb_true_iff. destruct (Qeq_bool (floatTimeStamp r') 0) eqn:E; [|reflexivity].
    apply Qeq_bool_iff in E. contradiction. }
  rewrite Ht in Hskip. simpl in Hskip. apply Qltb_false in Hskip as Hlte.
  (* the payload, a row of the store at search time, is a row at the end *)
  destruct (Forall2_In_r _ _ _ _ Hmid Hpay) as (r0 & Hr0 & Hsame0).
  apply phase1_rows in Hrun as [Hrows _].
  destruct (Forall2_In_l _ _ _ _ Hrows Hr0) as (p & Hp & Hsamep & _).
  apply sameButQueue_fields in Hsame0 as (Hid0 & Hts0 & _).
  apply sameButQueue_fields in Hsamep as (Hidp & Htsp & _).
  exists p. repeat split; [assumption|congruence|].
  rewrite Htsp, <- Hts0. exact Hlte.
Qed.

End Phase1Facts.

(** ** The zero bound, evaluated *)

Section ZeroBound.
Import Storage SearchSpec PhaseOneSpec LiteMem Llm Demo DemoRuns.

(** C1 (search correctness), at the bound zero.  On the rows at 100, 200
    and 300 seconds, [search(q, 10, { floatTimeStamp: { lte: 0 } })]
    returns all three rows, none of which satisfies the filter: the
    test [filters.floatTimeStamp?.lte && ...] takes the bound 0 for an
    absent one. *)
Theorem search_ignores_zero_bound :
  exists hits,
    search (Demo.axis 1) 10 upToEpoch Demo.threeRows = Some hits
    /\ map hitId hits = ["a"; "b"; "c"]
    /\ map (fun h => floatTimeStamp (payload h)) hits = [100%Q; 200%Q; 300%Q]
    /\ Forall (fun h => ~ satisfies upToEpoch (payload h)) hits.
Proof.
  eexists. split; [vm_compute; reflexivity|].
  split; [reflexivity|]. split; [reflexivity|].
  repeat constructor; intros (_ & Hlte & _);
    specialize (Hlte _ _ eq_refl eq_refl);
    apply Qle_bool_iff in Hlte; vm_compute in Hlte; discriminate.
Qed.

(** C2 (temporal directionality), at the timestamp zero.  On a row [a]
    at the epoch and a row [b] at 100 seconds, phase 1 returns and
    leaves [b] in the queue of [a]: the filter [{ lte: 0 }] it passes
    for [a] is not applied. *)
Theorem phase1_epoch_row_queues_later_row :
  exists m',
    constructUpdateQueueAllEntries None None (Demo.engineOn Demo.epochRows [] user_only)
    = Returns tt m'
    /\ map (fun r => (id r, floatTimeStamp r, map candId (updateQueue r))) (vectorStore m')
       = [("a", 0%Q, ["b"]); ("b", 100%Q, ["a"])]
    /\ exists r c,
         In r (vectorStore m') /\ In c (updateQueue r)
         /\ forall p, In p (vectorStore m') -> id p = candId c ->
                      ~ (floatTimeStamp p <= floatTimeStamp r)%Q.
Proof.
  eexists. split; [vm_compute; reflexivity|].
  split; [reflexivity|].
  eexists. eexists. split; [left; reflexivity|]. split; [left; reflexivity|].
  intros p [<-|[<-|[]]] Hid; [discriminate Hid|].
  intros Hle. apply Qle_bool_iff in Hle. vm_compute in Hle. discriminate.
Qed.

Lemma phase1_self_exclusion_witness :
  allEmbedded (vectorStore (Demo.engineOn Demo.twoRows [] user_only))
  /\ constructUpdateQueueAllEntries None None (Demo.engineOn Demo.twoRows [] user_only)
     = Returns tt twoRowsQueued
  /\ forall r, In r (vectorStore twoRowsQueued) -> ~ In (id r) (map candId (updateQueue r)).
Proof.
  assert (He : allEmbedded (vectorStore (Demo.engineOn Demo.twoRows [] user_only))).
  { repeat constructor; discriminate. }
  assert (Hr : constructUpdateQueueAllEntries None None (Demo.engineOn Demo.twoRows [] user_only)
               = Returns tt twoRowsQueued).
  { vm_compute. reflexivity. }
  split; [exact He|]. split; [exact Hr|].
  exact (phase1_self_exclusion None None _ _ He Hr).
Defined.

End ZeroBound.

(** ** Consolidation, phase 2 *)

Section Phase2Facts.
Import Remote Utils Storage Embeddings Llm LiteMem PhaseOneSpec PhaseTwoSpec.
Context {W : Type} {UP : Upstream W} {RT : JsRuntime} {PR : Prompts}.

Lemma update_memory (i text : string) (st : Store) :
  update i (memoryUpdate text) None st
  = map (fun r => if String.eqb (id r) i then setMemory text r else r) st.
Proof. reflexivity. Qed.

Lemma setMemory_sameButMemory (text : string) (r : MemoryEntry) :
  sameButMemory r (setMemory text r) /\ memory (setMemory text r) = text.
Proof. now destruct r. Qed.

Lemma delete_In (i : string) (st : Store) (r : MemoryEntry) :
  In r (delete i st) <-> In r st /\ id r <> i.
Proof.
  unfold delete. rewrite filter_In, negb_true_iff, String.eqb_neq. reflexivity.
Qed.

(** [callUpdateLlm] never throws. *)
Lemma callUpdateLlm_returns (tm : string) (cms : list string) (l : OpenRouterManager W) :
  exists r l', callUpdateLlm tm cms l = Returns r l'.
Proof.
  unfold callUpdateLlm, tryCatch.
  destruct (decideUpdate (updateMessages tm cms) l) as [r l'|e l']; eauto.
Qed.

Lemma callUpdateLlm_decision (tm : string) (cms : list string) (l l' : OpenRouterManager W)
    (r : UpdateResult) :
  callUpdateLlm tm cms l = Returns r l' ->
  (action r, newMemory r) = decisionOf (parsedReply l tm cms).
Proof.
  unfold callUpdateLlm, tryCatch, decideUpdate, parsedReply, Eff.bind.
  destruct (generateResponse (updateMessages tm cms) (Some "json_object") l)
    as [[text usage] l1|e l1]; simpl.
  - destruct (JSON_parse text) as [v|]; simpl.
    + destruct (getProp v "action") as [a|]; simpl.
      * destruct (truthy a); simpl; intros [= <- <-]; reflexivity.
      * intros [= <- <-]. reflexivity.
    + intros [= <- <-]. reflexivity.
  - intros [= <- <-]. reflexivity.
Qed.

(** What [applyAction] does to the engine. *)
Lemma applyAction_delete (t : MemoryEntry) (r : UpdateResult) (m : LiteMemory W) :
  action r = JStr "delete" ->
  applyAction t r m = Returns tt (setStore (delete (id t) (vectorStore m)) m).
Proof. intros Ha. unfold applyAction. rewrite Ha. reflexivity. Qed.

Lemma applyAction_update (t : MemoryEntry) (r : UpdateResult) (m : LiteMemory W) (s : string) :
  action r = JStr "update" -> newMemory r = JStr s -> s <> "" ->
  applyAction t r m
  = Returns tt (setStore (update (id t) (memoryUpdate s) None (vectorStore m)) m).
Proof.
  intros Ha Hn Hs. unfold applyAction. rewrite Ha, Hn, sqlText_string. simpl.
  apply String.eqb_neq in Hs. rewrite Hs. reflexivity.
Qed.

Lemma applyAction_other (t : MemoryEntry) (r : UpdateResult) (m : LiteMemory W) :
  action r <> JStr "delete" -> action r <> JStr "update" ->
  applyAction t r m = Returns tt m.
Proof.
  intros Hd Hu. unfold applyAction.
  assert (Hne : forall s, action r <> JStr s -> strictEqStr (action r) s = false).
  { intros s Hs. destruct (action r); simpl; try reflexivity.
    apply String.eqb_neq. congruence. }
  rewrite (Hne _ Hd), (Hne _ Hu). reflexivity.
Qed.

(** Whatever the action, [applyAction] leaves every part of the engine
    but the store as it was. *)
Lemma applyAction_frame (t : MemoryEntry) (r : UpdateResult) (m : LiteMemory W) :
  stateOf (applyAction t r m) = setStore (vectorStore (stateOf (applyAction t r m))) m.
Proof.
  unfold applyAction.
  destruct (strictEqStr (action r) "delete"); [reflexivity|].
  destruct (strictEqStr (action r) "update" && truthy (newMemory r)); [|now destruct m].
  destruct (sqlText (newMemory r)); [reflexivity|now destruct m].
Qed.

(** The body of the outer loop, for a target that has sources: the call,
    the counters, the action. *)
Lemma decideEntry_sources (thr : Q) (allEntries : list MemoryEntry) (t : MemoryEntry)
    (m : LiteMemory W) :
  candidateSources thr allEntries t <> [] ->
  exists r l',
    callUpdateLlm (memory t) (map memory (candidateSources thr allEntries t)) (llmManager m)
    = Returns r l'
    /\ decideEntry thr allEntries t m
       = applyAction t r (stateOf (trackUpdate (updateUsage r) (setLlmManager l' m))).
Proof.
  intros Hsrc. unfold decideEntry.
  destruct (candidateSources thr allEntries t) as [|s0 rest] eqn:Es; [contradiction|].
  destruct (callUpdateLlm_returns (memory t) (map memory (s0 :: rest)) (llmManager m))
    as (r & l' & Hcall).
  exists r, l'. split; [exact Hcall|].
  unfold Eff.bind, zoom. rewrite Hcall.
  unfold trackUpdate. destruct (updateUsage r); reflexivity.
Qed.

Lemma trackUpdate_store (u : option UsageInfo) (m : LiteMemory W) :
  vectorStore (stateOf (trackUpdate u m)) = vectorStore m.
Proof. unfold trackUpdate. now destruct u. Qed.

(** The store when the body of the loop is left, whatever the action. *)
Lemma decideEntry_decision (thr : Q) (allEntries : list MemoryEntry) (t : MemoryEntry)
    (m : LiteMemory W) :
  candidateSources thr allEntries t <> [] ->
  exists r m1,
    (action r, newMemory r)
    = decisionOf (parsedReply (llmManager m) (memory t)
                              (map memory (candidateSources thr allEntries t)))
    /\ vectorStore m1 = vectorStore m
    /\ embedder m1 = embedder m /\ messageBuffer m1 = messageBuffer m
    /\ normalizer m1 = normalizer m
    /\ decideEntry thr allEntries t m = applyAction t r m1.
Proof.
  intros Hsrc. destruct (decideEntry_sources thr allEntries t m Hsrc) as (r & l' & Hcall & Hd).
  exists r, (stateOf (trackUpdate (updateUsage r) (setLlmManager l' m))).
  split; [eapply callUpdateLlm_decision; eauto|].
  unfold trackUpdate. destruct (updateUsage r); simpl; auto.
Qed.

(** The cases of the decision, for the body of the loop on a target
    that has sources. *)
Lemma decideEntry_cases (thr : Q) (allEntries : list MemoryEntry)
    (t : MemoryEntry) (m : LiteMemory W) :
  candidateSources thr allEntries t <> [] ->
  let reply := parsedReply (llmManager m) (memory t)
                           (map memory (candidateSources thr allEntries t)) in
  let out := decideEntry thr allEntries t m in
  let st := vectorStore m in
  let st' := vectorStore (stateOf out) in
  (forall v, reply = Some v -> getProp v "action" = Some (JStr "ignore") ->
     returned out = Some tt /\ st' = st)
  /\ (forall v, reply = Some v -> getProp v "action" = Some (JStr "delete") ->
        returned out = Some tt /\ st' = delete (id t) st
        /\ (forall r, In r st' <-> In r st /\ id r <> id t)
        /\ (uniqueIds st -> In t st -> forall r, In r st' <-> In r st /\ r <> t))
  /\ (forall v s, reply = Some v -> getProp v "action" = Some (JStr "update") ->
        getProp v "new_memory" = Some (JStr s) -> s <> "" ->
        returned out = Some tt
        /\ st' = map (fun r => if String.eqb (id r) (id t) then setMemory s r else r) st)
  /\ (reply = None -> returned out = Some tt /\ st' = st)
  /\ (forall v, reply = Some v ->
        (forall a, getProp v "action" = Some a -> a <> JStr "delete" /\ a <> JStr "update") ->
        returned out = Some tt /\ st' = st).
Proof.
  intros Hsrc reply out st st'.
  destruct (decideEntry_decision thr allEntries t m Hsrc)
    as (r & m1 & Hdec & Hst & _ & _ & _ & Hout).
  fold reply in Hdec. subst out st st'. rewrite Hout. clear Hout.
  assert (Hother : action r <> JStr "delete" -> action r <> JStr "update" ->
                   returned (applyAction t r m1) = Some tt
                   /\ vectorStore (stateOf (applyAction t r m1)) = vectorStore m).
  { intros Hd Hu. rewrite (applyAction_other t r m1 Hd Hu). simpl. auto. }
  split; [|split; [|split; [|split]]].
  - intros v Hr Ha. rewrite Hr in Hdec. simpl in Hdec. rewrite Ha in Hdec. simpl in Hdec.
    apply Hother; congruence.
  - intros v Hr Ha. rewrite Hr in Hdec. simpl in Hdec. rewrite Ha in Hdec. simpl in Hdec.
    injection Hdec as Hact _.
    rewrite (applyAction_delete t r m1 Hact). simpl. rewrite Hst.
    split; [reflexivity|]. split; [reflexivity|]. split; [apply delete_In|].
    intros Hu Hin r0. rewrite delete_In. split; intros [Hr0 Hne]; split; auto.
    + congruence.
    + intros Hid. apply Hne. eapply uniqueIds_eq; eauto.
  - intros v s Hr Ha Hn Hs. rewrite Hr in Hdec. simpl in Hdec.
    rewrite Ha, Hn in Hdec. simpl in Hdec. injection Hdec as Hact Hnew.
    rewrite (applyAction_update t r m1 s Hact Hnew Hs). simpl. rewrite Hst.
    split; reflexivity.
  - intros Hr. rewrite Hr in Hdec. simpl in Hdec. apply Hother; congruence.
  - intros v Hr Hall. rewrite Hr in Hdec. simpl in Hdec.
    destruct (getProp v "action") as [a|] eqn:Ea; [|apply Hother; congruence].
    destruct (Hall a eq_refl) as [Hd Hu].
    destruct (truthy a); [|apply Hother; congruence].
    injection Hdec as Hact _. apply Hother; congruence.
Qed.

(** A loop is the loop over a prefix, then the rest. *)
Lemma forEach_app {S A : Type} (l1 l2 : list A) (body : A -> M S unit) (s : S) :
  forEach (l1 ++ l2) body s = Eff.bind (forEach l1 body) (fun _ => forEach l2 body) s.
Proof.
  revert s. induction l1 as [|x l1 IH]; intros s; simpl; [reflexivity|].
  unfold Eff.bind in *.
  destruct (body x s) as [[] s1|e s1]; [|reflexivity]. apply IH.
Qed.

(** [offlineUpdateAllEntries] runs the body on every row of the store it
    read at the start, once and in scan order. *)
Lemma offline_visits_each_target (thr : option Q) (m : LiteMemory W)
    (pre post : list MemoryEntry) (t : MemoryEntry) :
  vectorStore m = (pre ++ t :: post)%list ->
  let body := decideEntry (default (9 # 10)%Q thr) (vectorStore m) in
  offlineUpdateAllEntries thr m
  = Eff.bind (forEach pre body)
             (fun _ => Eff.bind (body t) (fun _ => forEach post body)) m.
Proof.
  intros Hst body. subst body. unfold offlineUpdateAllEntries.
  unfold Eff.bind at 1. unfold gets. rewrite getAll_true, Hst.
  destruct pre as [|p pre]; [reflexivity|].
  apply (forEach_app (p :: pre) (t :: post)).
Qed.

(** C7 (frame of an update).  When the body of the loop of
    [offlineUpdateAllEntries] applies an "update" action to a target,
    every row keeps its place and every field but [memory] (the embedding
    and [originalMemory], [timeStamp], [floatTimeStamp], [weekday], the
    speaker fields, [hitTime] and [updateQueue] among them); the rows of
    another id, which under the primary key are all rows but the target,
    are unchanged; and the embedder is left as it was: no vector is
    requested. *)
Theorem offline_update_frame (thr : Q) (allEntries : list MemoryEntry) (t : MemoryEntry)
    (m : LiteMemory W) (v : jsval) (s : string) :
  candidateSources thr allEntries t <> [] ->
  parsedReply (llmManager m) (memory t) (map memory (candidateSources thr allEntries t))
  = Some v ->
  getProp v "action" = Some (JStr "update") ->
  getProp v "new_memory" = Some (JStr s) ->
  s <> "" ->
  let m' := stateOf (decideEntry thr allEntries t m) in
  Forall2 (fun r r' => sameButMemory r r'
                       /\ (id r = id t -> memory r' = s)
                       /\ (id r <> id t -> r' = r))
          (vectorStore m) (vectorStore m')
  /\ (uniqueIds (vectorStore m) -> In t (vectorStore m) ->
      Forall2 (fun r r' => r <> t -> r' = r) (vectorStore m) (vectorStore m'))
  /\ embedder m' = embedder m
  /\ messageBuffer m' = messageBuffer m.
Proof.
  intros Hsrc Hr Ha Hn Hs m'.
  destruct (decideEntry_decision thr allEntries t m Hsrc)
    as (r & m1 & Hdec & Hst & Hemb & Hbuf & _ & Hout).
  rewrite Hr in Hdec. simpl in Hdec. rewrite Ha, Hn in Hdec. simpl in Hdec.
  injection Hdec as Hact Hnew.
  subst m'. rewrite Hout, (applyAction_update t r m1 s Hact Hnew Hs). simpl.
  rewrite Hst, update_memory.
  assert (Hrow : forall r0,
            sameButMemory r0 (if String.eqb (id r0) (id t) then setMemory s r0 else r0)
            /\ (id r0 = id t ->
                memory (if String.eqb (id r0) (id t) then setMemory s r0 else r0) = s)
            /\ (id r0 <> id t ->
                (if String.eqb (id r0) (id t) then setMemory s r0 else r0) = r0)).
  { intros r0. destruct (String.eqb (id r0) (id t)) eqn:E.
    - apply String.eqb_eq in E.
      destruct (setMemory_sameButMemory s r0) as [Hsame Hmem].
      split; [exact Hsame|]. split; [auto|]. intros Hne. contradiction.
    - apply String.eqb_neq in E. split; [now destruct r0|]. split; [|reflexivity].
      intros Hid. contradiction. }
  split; [apply Forall2_map_same; exact Hrow|].
  split; [|split; assumption].
  intros Hu Hin. clear Hrow.
  assert (Hall : forall l, (forall r0, In r0 l -> In r0 (vectorStore m)) ->
            Forall2 (fun r0 r' => r0 <> t -> r' = r0) l
                    (map (fun r0 => if String.eqb (id r0) (id t) then setMemory s r0 else r0) l)).
  { induction l as [|r0 l IH]; intros Hsub; simpl; constructor.
    - intros Hne. destruct (String.eqb (id r0) (id t)) eqn:E; [|reflexivity].
      apply String.eqb_eq in E. exfalso. apply Hne.
      eapply uniqueIds_eq; eauto. apply Hsub. now left.
    - apply IH. intros r1 Hr1. apply Hsub. now right. }
  apply Hall. auto.
Qed.

End Phase2Facts.

(** ** Phase 2 on two rows *)

Section Phase2Demo.
Import Remote Utils Storage Llm LiteMem PhaseOneSpec PhaseTwoSpec Demo DemoRuns.

Lemma queuedRows_from_phase1 : vectorStore twoRowsQueued = queuedRows.
Proof. vm_compute. reflexivity. Qed.

Lemma rowA_cited : sourcesOfA <> [].
Proof. vm_compute. discriminate. Defined.

Lemma reply_delete : replyTo [jsonDelete] = Some (JObj [("action", JStr "delete")]).
Proof. vm_compute. reflexivity. Defined.

Lemma reply_update :
  replyTo [jsonUpdate] = Some (JObj [("action", JStr "update"); ("new_memory", JStr "merged")]).
Proof. vm_compute. reflexivity. Defined.

Lemma reply_malformed : replyTo ["not JSON"] = None.
Proof. vm_compute. reflexivity. Defined.

Lemma reply_merge : replyTo [jsonMerge] = Some (JObj [("action", JStr "merge")]).
Proof. vm_compute. reflexivity. Defined.

Lemma offline_update_frame_witness :
  sourcesOfA <> []
  /\ replyTo [jsonUpdate]
     = Some (JObj [("action", JStr "update"); ("new_memory", JStr "merged")])
  /\ embedder (stateOf (decideA [jsonUpdate])) = embedder (queuedEngine [jsonUpdate])
  /\ Forall2 (fun r r' => sameButMemory r r'
                          /\ (id r = id rowA -> memory r' = "merged")
                          /\ (id r <> id rowA -> r' = r))
             (vectorStore (queuedEngine [jsonUpdate]))
             (vectorStore (stateOf (decideA [jsonUpdate]))).
Proof.
  split; [exact rowA_cited|]. split; [exact reply_update|].
  assert (Hne : "merged" <> "") by discriminate.
  destruct (offline_update_frame (default (9 # 10)%Q None) (vectorStore (queuedEngine []))
              rowA (queuedEngine [jsonUpdate])
              (JObj [("action", JStr "update"); ("new_memory", JStr "merged")]) "merged"
              rowA_cited reply_update eq_refl eq_refl Hne)
    as (Hrows & _ & Hemb & _).
  split; [exact Hemb|exact Hrows].
Defined.

End Phase2Demo.

(** ** originalMemory *)

Section OriginFacts.
Import Remote Utils Storage Embeddings Llm LiteMem PhaseOneSpec PhaseTwoSpec OriginSpec.
Context {W : Type} {UP : Upstream W} {RT : JsRuntime} {PR : Prompts}.

Lemma keepsOrigin_refl (i : string) (st : Store) : keepsOrigin i st st.
Proof. intros r' Hr. eauto. Qed.

Lemma keepsOrigin_trans (i : string) (s1 s2 s3 : Store) :
  keepsOrigin i s1 s2 -> keepsOrigin i s2 s3 -> keepsOrigin i s1 s3.
Proof.
  intros H12 H23 r3 Hr3. destruct (H23 r3 Hr3) as (r2 & Hr2 & E23).
  destruct (H12 r2 Hr2) as (r1 & Hr1 & E12). exists r1. split; [assumption|congruence].
Qed.

Lemma get_map (f : MemoryEntry -> MemoryEntry) (i : string) (st : Store) :
  (forall r, id (f r) = id r) -> get i (map f st) = option_map f (get i st).
Proof.
  intros Hid. unfold get. induction st as [|r st IH]; simpl; [reflexivity|].
  rewrite Hid. destruct (String.eqb (id r) i); [reflexivity|exact IH].
Qed.

Lemma get_delete (i j : string) (st : Store) :
  get i (delete j st) = if String.eqb i j then None else get i st.
Proof.
  unfold get, delete. induction st as [|r st IH]; simpl; [now destruct (String.eqb i j)|].
  destruct (String.eqb (id r) j) eqn:Ej; simpl.
  - rewrite IH. destruct (String.eqb i j) eqn:Eij; [reflexivity|].
    destruct (String.eqb (id r) i) eqn:Ei; [|reflexivity].
    apply String.eqb_eq in Ej, Ei. apply String.eqb_neq in Eij. congruence.
  - destruct (String.eqb (id r) i) eqn:Ei; [|exact IH].
    destruct (String.eqb i j) eqn:Eij; [|reflexivity].
    apply String.eqb_eq in Ei, Eij. apply String.eqb_neq in Ej. congruence.
Qed.

Lemma get_app (i : string) (l1 l2 : Store) :
  get i (l1 ++ l2)%list = match get i l1 with Some r => Some r | None => get i l2 end.
Proof.
  unfold get. induction l1 as [|r l1 IH]; simpl; [reflexivity|].
  destruct (String.eqb (id r) i); [reflexivity|exact IH].
Qed.

(** [insert] answers [get] with the new row under its id and leaves the
    other ids alone. *)
Lemma get_insert (i : string) (entry : MemoryEntry) (emb : list Q) (st : Store) :
  get i (insert entry emb st)
  = if String.eqb i (id entry) then Some (withEmbedding (Some (storedVector emb)) entry)
    else get i st.
Proof.
  unfold insert. rewrite get_app. fold (delete (id entry) st). rewrite get_delete.
  destruct (String.eqb i (id entry)) eqn:E.
  - apply String.eqb_eq in E. subst i. unfold get. simpl. now rewrite String.eqb_refl.
  - destruct (get i st); [reflexivity|]. unfold get. simpl.
    rewrite String.eqb_sym, E. reflexivity.
Qed.

Lemma patch_id (updates : PartialMemoryEntry) (emb : option (list Q)) (r : MemoryEntry) :
  id (patch updates emb r) = id r /\ originalMemory (patch updates emb r) = originalMemory r.
Proof. split; reflexivity. Qed.

Lemma keepsOrigin_update (i j : string) (updates : PartialMemoryEntry)
    (emb : option (list Q)) (st : Store) :
  keepsOrigin i st (update j updates emb st).
Proof.
  unfold update. destruct (Nat.eqb _ 0); [apply keepsOrigin_refl|].
  intros r' Hr'. rewrite get_map in Hr' by (intros r; now destruct (String.eqb (id r) j)).
  destruct (get i st) as [r|]; [|discriminate]. simpl in Hr'. injection Hr' as <-.
  exists r. split; [reflexivity|]. now destruct (String.eqb (id r) j).
Qed.

Lemma keepsOrigin_delete (i j : string) (st : Store) : keepsOrigin i st (delete j st).
Proof.
  intros r' Hr'. rewrite get_delete in Hr'.
  destruct (String.eqb i j); [discriminate|]. eauto.
Qed.

Lemma keepsOrigin_insert (i : string) (entry : MemoryEntry) (emb : list Q) (st : Store) :
  id entry <> i -> keepsOrigin i st (insert entry emb st).
Proof.
  intros Hne r' Hr'. rewrite get_insert in Hr'.
  destruct (String.eqb i (id entry)) eqn:E; [|eauto].
  apply String.eqb_eq in E. congruence.
Qed.

(** A loop keeps what each of its iterations keeps. *)
Lemma forEach_keeps {S A : Type} (R : S -> S -> Prop) (body : A -> M S unit) :
  (forall s, R s s) ->
  (forall a b c, R a b -> R b c -> R a c) ->
  (forall x s, R s (stateOf (body x s))) ->
  forall l s, R s (stateOf (forEach l body s)).
Proof.
  intros Hrefl Htrans Hbody. induction l as [|x l IH]; intros s; simpl; [apply Hrefl|].
  unfold Eff.bind. specialize (Hbody x s).
  destruct (body x s) as [[] s1|e s1]; simpl in *; [|exact Hbody].
  eapply Htrans; [exact Hbody|apply IH].
Qed.

Lemma keepsOrigin_queueEntry (i : string) (topK keepTopN : Z) (e : MemoryEntry)
    (m : LiteMemory W) :
  keepsOrigin i (vectorStore m) (vectorStore (stateOf (queueEntry topK keepTopN e m))).
Proof.
  unfold queueEntry. destruct (embedding e) as [emb|]; [|apply keepsOrigin_refl].
  unfold Eff.bind, storeSearch, storeUpdate, modify.
  destruct (search emb topK (Some (notAfter e)) (vectorStore m)); simpl;
    [apply keepsOrigin_update|apply keepsOrigin_refl].
Qed.

Lemma keepsOrigin_decideEntry (i : string) (thr : Q) (allEntries : list MemoryEntry)
    (t : MemoryEntry) (m : LiteMemory W) :
  keepsOrigin i (vectorStore m) (vectorStore (stateOf (decideEntry thr allEntries t m))).
Proof.
  destruct (candidateSources thr allEntries t) as [|s0 rest] eqn:Es.
  - unfold decideEntry. rewrite Es. apply keepsOrigin_refl.
  - assert (Hsrc : candidateSources thr allEntries t <> []) by (rewrite Es; discriminate).
    destruct (decideEntry_decision thr allEntries t m Hsrc)
      as (r & m1 & _ & Hst & _ & _ & _ & ->).
    rewrite <- Hst. unfold applyAction.
    destruct (strictEqStr (action r) "delete"); [apply keepsOrigin_delete|].
    destruct (strictEqStr (action r) "update" && truthy (newMemory r));
      [|apply keepsOrigin_refl].
    destruct (sqlText (newMemory r)); [apply keepsOrigin_update|apply keepsOrigin_refl].
Qed.

Lemma keepsOrigin_perform (i : string) (op : StoreOp) (m : LiteMemory W) :
  ~ insertsUnder i op ->
  keepsOrigin i (vectorStore m) (vectorStore (stateOf (perform op m))).
Proof.
  intros Hop. destruct op as [entry emb|j updates emb|j|topK keepTopN|thr|query limit filters];
    simpl in *.
  - now apply keepsOrigin_insert.
  - apply keepsOrigin_update.
  - apply keepsOrigin_delete.
  - unfold constructUpdateQueueAllEntries, Eff.bind, gets.
    destruct (getAll true (vectorStore m)); [apply keepsOrigin_refl|].
    apply (forEach_keeps (fun a b => keepsOrigin i (vectorStore a) (vectorStore b))).
    + intros s. apply keepsOrigin_refl.
    + intros a b c. apply keepsOrigin_trans.
    + intros x s. apply keepsOrigin_queueEntry.
  - unfold offlineUpdateAllEntries, Eff.bind, gets.
    destruct (getAll true (vectorStore m)); [apply keepsOrigin_refl|].
    apply (forEach_keeps (fun a b => keepsOrigin i (vectorStore a) (vectorStore b))).
    + intros s. apply keepsOrigin_refl.
    + intros a b c. apply keepsOrigin_trans.
    + intros x s. apply keepsOrigin_decideEntry.
  - unfold retrieve, Eff.bind, zoom, storeSearch.
    destruct (embed query (embedder m)) as [v e'|err e']; simpl; [|apply keepsOrigin_refl].
    destruct (search v (default 10 limit) filters (vectorStore m)); simpl;
      apply keepsOrigin_refl.
Qed.

(** C8, amended (write-once origin).  Through any sequence of store
    operations (updates with any fields and any embedding, deletes,
    inserts, phase 1, phase 2, retrievals, returning or throwing) none
    of which is an insert under the id [i], a record found under [i]
    afterwards was there before with the same [originalMemory]. *)
Theorem originalMemory_kept (ops : list StoreOp) (m : LiteMemory W) (i : string)
    (r' : MemoryEntry) :
  Forall (fun op => ~ insertsUnder i op) ops ->
  get i (vectorStore (after ops m)) = Some r' ->
  exists r, get i (vectorStore m) = Some r /\ originalMemory r = originalMemory r'.
Proof.
  intros Hops. revert m r'. induction Hops as [|op ops Hop _ IH]; intros m r' Hget; simpl in *.
  - eauto.
  - destruct (IH _ _ Hget) as (r1 & Hr1 & E1).
    destruct (keepsOrigin_perform i op m Hop r1 Hr1) as (r & Hr & E).
    exists r. split; [assumption|congruence].
Qed.

(** A property of the store that [insert], [update] and [delete] keep is
    kept by every operation, returning or throwing. *)
Section StoreInvariant.
Variable P : Store -> Prop.
Hypothesis P_insert : forall entry emb st, P st -> P (insert entry emb st).
Hypothesis P_update : forall i updates emb st, P st -> P (update i updates emb st).
Hypothesis P_delete : forall i st, P st -> P (delete i st).

Let keeps (a b : LiteMemory W) : Prop := P (vectorStore a) -> P (vectorStore b).

Lemma invariant_queueEntry (topK keepTopN : Z) (e : MemoryEntry) (m : LiteMemory W) :
  keeps m (stateOf (queueEntry topK keepTopN e m)).
Proof.
  unfold keeps, queueEntry. destruct (embedding e) as [emb|]; [|auto].
  unfold Eff.bind, storeSearch, storeUpdate, modify.
  destruct (search emb topK (Some (notAfter e)) (vectorStore m)); simpl; auto.
Qed.

Lemma invariant_decideEntry (thr : Q) (allEntries : list MemoryEntry) (t : MemoryEntry)
    (m : LiteMemory W) :
  keeps m (stateOf (decideEntry thr allEntries t m)).
Proof.
  unfold keeps. destruct (candidateSources thr allEntries t) as [|s0 rest] eqn:Es.
  - unfold decideEntry. rewrite Es. auto.
  - assert (Hsrc : candidateSources thr allEntries t <> []) by (rewrite Es; discriminate).
    destruct (decideEntry_decision thr allEntries t m Hsrc)
      as (r & m1 & _ & Hst & _ & _ & _ & ->).
    rewrite <- Hst. unfold applyAction.
    destruct (strictEqStr (action r) "delete"); [simpl; auto|].
    destruct (strictEqStr (action r) "update" && truthy (newMemory r)); [|auto].
    destruct (sqlText (newMemory r)); simpl; auto.
Qed.

Lemma invariant_perform (op : StoreOp) (m : LiteMemory W) :
  P (vectorStore m) -> P (vectorStore (stateOf (perform op m))).
Proof.
  destruct op as [entry emb|j updates emb|j|topK keepTopN|thr|query limit filters]; simpl.
  - apply P_insert.
  - apply P_update.
  - apply P_delete.
  - unfold constructUpdateQueueAllEntries, Eff.bind, gets.
    destruct (getAll true (vectorStore m)); [auto|].
    apply (forEach_keeps keeps); unfold keeps; auto.
    intros x s. apply invariant_queueEntry.
  - unfold offlineUpdateAllEntries, Eff.bind, gets.
    destruct (getAll true (vectorStore m)); [auto|].
    apply (forEach_keeps keeps); unfold keeps; auto.
    intros x s. apply invariant_decideEntry.
  - unfold retrieve, Eff.bind, zoom, storeSearch.
    destruct (embed query (embedder m)) as [v e'|err e']; simpl; [|auto].
    destruct (search v (default 10 limit) filters (vectorStore m)); simpl; auto.
Qed.

Lemma invariant_after (ops : list StoreOp) (m : LiteMemory W) :
  P (vectorStore m) -> P (vectorStore (after ops m)).
Proof.
  revert m. induction ops as [|op ops IH]; intros m Hm; simpl; [exact Hm|].
  apply IH. now apply invariant_perform.
Qed.

End StoreInvariant.

(** Every store the operations build from the empty table has a vector
    in every row and no id twice. *)
Lemma allEmbedded_after (ops : list StoreOp) (m : LiteMemory W) :
  allEmbedded (vectorStore m) -> allEmbedded (vectorStore (after ops m)).
Proof.
  apply invariant_after.
  - intros entry emb st. apply allEmbedded_insert.
  - intros i updates emb st. apply allEmbedded_update.
  - intros i st. apply allEmbedded_delete.
Qed.

Lemma uniqueIds_after (ops : list StoreOp) (m : LiteMemory W) :
  uniqueIds (vectorStore m) -> uniqueIds (vectorStore (after ops m)).
Proof.
  apply invariant_after.
  - intros entry emb st. apply uniqueIds_insert.
  - intros i updates emb st. apply uniqueIds_update.
  - intros i st. apply uniqueIds_delete.
Qed.

End OriginFacts.

(** ** The embedder cache *)

Section EmbedderFacts.
Import Remote Embeddings EmbedderSpec.
Context {W : Type} {UP : Upstream W}.

(** A hit returns the cached vector and leaves the embedder as it is. *)
Lemma embed_hit (t : string) (v : list Q) (e : OpenRouterEmbedder W) :
  cached t v e -> embed t e = Returns v e.
Proof.
  intros [Hen Hc]. unfold embed, Eff.bind, gets. rewrite Hen, Hc. reflexivity.
Qed.

Lemma callEmbeddings_state (req : EmbeddingRequest) (c : Client W) :
  sent (stateOf (callEmbeddings req c)) = (sent c ++ [EmbeddingsCreate req])%list.
Proof.
  unfold callEmbeddings. destruct (embeddings_create req (remote c)) as [w [resp|]];
    reflexivity.
Qed.

(** A call of [embed] that returns leaves its result in an enabled
    cache. *)
Lemma embed_returns_cached (t : string) (v : list Q) (e e1 : OpenRouterEmbedder W) :
  cacheEnabled e = true -> embed t e = Returns v e1 -> cached t v e1.
Proof.
  intros Hen. unfold embed, Eff.bind, gets, zoom. rewrite Hen.
  destruct (cache e !! t) as [v0|] eqn:Ec.
  - intros [= <- <-]. split; assumption.
  - destruct (callEmbeddings _ (client e)) as [resp c'|err c']; [|discriminate].
    unfold modify. simpl. destruct (data resp) as [|emb rest]; [discriminate|].
    intros [= <- <-]. split; simpl; [exact Hen|apply lookup_insert_eq].
Qed.

(** [embed] keeps what the cache holds. *)
Lemma embed_keeps_cached (t t' : string) (v : list Q) (e : OpenRouterEmbedder W) :
  cached t v e -> cached t v (stateOf (embed t' e)).
Proof.
  intros [Hen Hc]. unfold embed, Eff.bind, gets, zoom. rewrite Hen.
  destruct (cache e !! t') as [v0|] eqn:Ec; [split; assumption|].
  assert (Hne : t' <> t) by congruence.
  destruct (callEmbeddings _ (client e)) as [resp c'|err c']; [|split; assumption].
  unfold modify. simpl. destruct (data resp) as [|emb rest]; [split; assumption|].
  simpl. split; [assumption|]. simpl. now rewrite lookup_insert_ne.
Qed.

(** The write-back loop keeps the entry of a text it is not given. *)
Lemma fillResults_keeps_cached (t : string) (v : list Q) (enabled : bool)
    (vs : list (list Q)) (uncached : list (nat * string))
    (results : list (option (list Q))) (e : OpenRouterEmbedder W) :
  Forall (fun it => snd it <> t) uncached ->
  cached t v e -> cached t v (stateOf (fillResults enabled vs uncached results e)).
Proof.
  revert uncached results e. induction vs as [|x vs IH]; intros uncached results e Hun Hc;
    simpl; [exact Hc|].
  destruct uncached as [|[i text] uncached]; [exact Hc|].
  apply Forall_cons in Hun as [Hne Hun]. simpl in Hne.
  unfold Eff.bind. destruct enabled; simpl.
  - apply IH; [assumption|]. destruct Hc as [Hen Hc]. split; [assumption|].
    simpl. now rewrite lookup_insert_ne.
  - now apply IH.
Qed.

(** The texts [embedBatch] asks the provider for are not in the cache. *)
Lemma uncached_not_cached (t : string) (v : list Q) (texts : list string)
    (e : OpenRouterEmbedder W) :
  cache e !! t = Some v ->
  Forall (fun it => snd it <> t)
         (List.filter
            (fun it => negb (defined_at (map (fun text => cache e !! text) texts) (fst it)))
            (imap pair texts)).
Proof.
  intros Hc. apply List.Forall_forall. intros [i text] Hin. simpl.
  apply filter_In in Hin as [Hin Hun]. simpl in Hun.
  apply list_elem_of_In, elem_of_lookup_imap in Hin as (j & y & [= -> ->] & Hj).
  intros ->. unfold defined_at in Hun.
  change (map (fun text => cache e !! text) texts)
    with ((fun text => cache e !! text) <$> texts) in Hun.
  rewrite list_lookup_fmap, Hj in Hun. simpl in Hun. rewrite Hc in Hun. discriminate.
Qed.

(** [embedBatch] keeps what the cache holds. *)
Lemma embedBatch_keeps_cached (t : string) (v : list Q) (texts : list string)
    (e : OpenRouterEmbedder W) :
  cached t v e -> cached t v (stateOf (embedBatch texts e)).
Proof.
  intros [Hen Hc]. unfold embedBatch. destruct texts as [|t0 texts]; [split; assumption|].
  unfold Eff.bind, gets, zoom. rewrite Hen.
  pose proof (uncached_not_cached t v (t0 :: texts) e Hc) as Hun.
  destruct (List.filter _ (imap pair (t0 :: texts))) as [|u uncached] eqn:Eu;
    [split; assumption|].
  destruct (callEmbeddings _ (client e)) as [resp c'|err c']; [|split; assumption].
  unfold modify. apply fillResults_keeps_cached; [exact Hun|]. split; assumption.
Qed.

Lemma afterCalls_keeps_cached (t : string) (v : list Q) (calls : list EmbedderCall)
    (e : OpenRouterEmbedder W) :
  cached t v e -> cached t v (afterCalls calls e).
Proof.
  revert e. induction calls as [|[text|texts] calls IH]; intros e Hc; simpl; [exact Hc| |].
  - apply IH. now apply embed_keeps_cached.
  - apply IH. now apply embedBatch_keeps_cached.
Qed.

(** C9 (embedding stability).  With caching enabled, once [embed(t)] has
    returned a vector, a later [embed(t)] -- after any calls of [embed]
    and [embedBatch], but no [clearCache] -- returns the same vector and
    leaves the embedder as it found it: nothing is sent to the provider
    and the call counter of the statistics stays. *)
Theorem embed_twice (t : string) (v : list Q) (e e1 : OpenRouterEmbedder W)
    (calls : list EmbedderCall) :
  cacheEnabled e = true ->
  embed t e = Returns v e1 ->
  let e2 := afterCalls calls e1 in
  exists e3,
    embed t e2 = Returns v e3
    /\ e3 = e2
    /\ sent (client e3) = sent (client e2)
    /\ totalCalls (getStats e3) = totalCalls (getStats e2).
Proof.
  intros Hen Hfirst e2. exists e2.
  split; [|repeat split].
  apply embed_hit. apply afterCalls_keeps_cached.
  eapply embed_returns_cached; eauto.
Qed.

End EmbedderFacts.

(** ** The message normalizer *)

Section NormalizerFacts.
Import Utils NormalizerSpec.
Context {RT : JsRuntime}.

Lemma parseSessionTimestamp_grammar_or_fallback (rawTs : string) :
  parseSessionTimestamp rawTs
  = match parseSessionGrammar rawTs with
    | Some r => Some r
    | None => parseFallback rawTs
    end.
Proof.
  unfold parseSessionTimestamp, parseSessionGrammar.
  destruct (SESSION_RE_match rawTs) as [g|]; [|reflexivity].
  destruct (newDate _); reflexivity.
Qed.

Lemma refused_iff (msg : Message) :
  refused msg
  <-> truthyStr (msgTimeStamp msg) = false
      \/ parseSessionTimestamp (default "" (msgTimeStamp msg)) = None.
Proof.
  unfold refused. rewrite parseSessionTimestamp_grammar_or_fallback.
  destruct (parseSessionGrammar _) as [r|]; split; intros [Hm|Hp]; auto.
  - destruct Hp; discriminate.
  - discriminate.
  - right. now destruct Hp.
Qed.

(** [normalizeOne] throws on a refused message. *)
Lemma normalizeOne_refused (msg : Message) (n : MessageNormalizer) :
  refused msg -> exists e n', normalizeOne msg n = Throws e n' /\ n' = n.
Proof.
  intros Hr. apply refused_iff in Hr. unfold normalizeOne.
  destruct (truthyStr (msgTimeStamp msg)) eqn:Et; simpl.
  - destruct Hr as [Hr|Hr]; [discriminate|]. rewrite Hr. unfold throw. eauto.
  - unfold throw. eauto.
Qed.

(** One message: if it carries [marker] it gets the next instant of the
    progression and moves the cursor; if not, the cursor stays. *)
Lemma normalizeOne_cursor (marker : string) (base step : Z) (wd : string) (k : nat)
    (msg : Message) (n n' : MessageNormalizer) (o : NormalizedMessage) :
  parseSessionTimestamp marker = Some (base, wd) ->
  cursorAt marker base step k n ->
  normalizeOne msg n = Returns o n' ->
  if String.eqb (sessionTime o) marker
  then timeStamp o = Date_toISOString (base + step * Z.of_nat k)
       /\ cursorAt marker base step (S k) n'
  else cursorAt marker base step k n'.
Proof.
  intros Hparse [Hoff Hcur]. unfold normalizeOne.
  destruct (truthyStr (msgTimeStamp msg)) eqn:Et; simpl; [|discriminate].
  set (rawTs := default "" (msgTimeStamp msg)).
  destruct (parseSessionTimestamp rawTs) as [[baseDate wd']|] eqn:Ep; [|discriminate].
  unfold Eff.bind, gets, modify, Eff.ret, throw.
  destruct (String.eqb rawTs marker) eqn:Em.
  - apply String.eqb_eq in Em. rewrite Em in *. rewrite Hparse in Ep.
    injection Ep as <- <-. rewrite Hcur.
    destruct k as [|j].
    + intros [= <- <-]. simpl. rewrite String.eqb_refl.
      split; [now rewrite Z.mul_0_r, Z.add_0_r|].
      split; [exact Hoff|]. simpl. rewrite lookup_insert_eq.
      now rewrite Z.mul_0_r, Z.add_0_r.
    + unfold addMs. rewrite Hoff.
      destruct (timeClip (base + step * Z.of_nat j + step)) as [t|] eqn:Ec;
        [|discriminate].
      assert (Ht : t = base + step * Z.of_nat (S j)).
      { unfold timeClip in Ec. destruct (Z.abs _ <=? maxTime); [|discriminate].
        injection Ec as <-. lia. }
      intros [= <- <-]. simpl. rewrite String.eqb_refl.
      split; [now rewrite Ht|].
      split; [exact Hoff|]. simpl. rewrite lookup_insert_eq. now rewrite Ht.
  - apply String.eqb_neq in Em.
    destruct (match lastTimestampMap n !! rawTs with
              | Some d => addMs d (offsetMs n)
              | None => ValidDate baseDate
              end) as [t|] eqn:Ed; [|discriminate].
    intros [= <- <-]. simpl. fold rawTs.
    apply String.eqb_neq in Em. rewrite Em. apply String.eqb_neq in Em.
    split; [exact Hoff|]. simpl. rewrite lookup_insert_ne by assumption. exact Hcur.
Qed.

Lemma progression_snoc (first step : Z) (n : nat) :
  progression first step (S n)
  = (progression first step n ++ [first + step * Z.of_nat n])%list.
Proof.
  unfold progression. rewrite seq_S, map_app. reflexivity.
Qed.

Lemma progression_shift (first step : Z) (k n : nat) :
  map (fun j => first + step * Z.of_nat (k + j)) (seq 0 n)
  = progression (first + step * Z.of_nat k) step n.
Proof.
  unfold progression. apply map_ext. intros j. lia.
Qed.

(** The loop of [normalizeMessages]: the messages of [marker] it adds
    continue the progression from the cursor. *)
Lemma normalizeLoop_cursor (marker : string) (base step : Z) (wd : string)
    (msgs : list Message) :
  parseSessionTimestamp marker = Some (base, wd) ->
  forall (k : nat) (acc out : list NormalizedMessage) (n n' : MessageNormalizer),
    cursorAt marker base step k n ->
    normalizeLoop msgs acc n = Returns out n' ->
    exists new,
      out = (acc ++ new)%list
      /\ List.length new = List.length msgs
      /\ map timeStamp (ofMarker marker new)
         = map Date_toISOString
               (progression (base + step * Z.of_nat k) step (List.length (ofMarker marker new)))
      /\ cursorAt marker base step (k + List.length (ofMarker marker new)) n'.
Proof.
  intros Hparse. induction msgs as [|msg msgs IH]; intros k acc out n n' Hcur Hrun;
    simpl in Hrun.
  - injection Hrun as <- <-. exists []. rewrite app_nil_r, Nat.add_0_r. auto.
  - unfold Eff.bind in Hrun. destruct (normalizeOne msg n) as [o n1|e n1] eqn:E1;
      [|discriminate].
    pose proof (normalizeOne_cursor marker base step wd k msg n n1 o Hparse Hcur E1) as Hone.
    destruct (String.eqb (sessionTime o) marker) eqn:Em.
    + destruct Hone as [Hts Hcur1].
      destruct (IH (S k) _ _ _ _ Hcur1 Hrun) as (new & -> & Hlen & Hstamps & Hcur').
      exists (o :: new). rewrite <- app_assoc. simpl. unfold ofMarker in *. simpl.
      rewrite Em. simpl. split; [reflexivity|]. split; [now rewrite Hlen|]. split.
      * rewrite Hstamps, Hts. unfold progression. simpl. f_equal.
        { f_equal. lia. }
        rewrite <- seq_shift, !map_map. apply map_ext. intros j. f_equal. lia.
      * rewrite Nat.add_succ_r. exact Hcur'.
    + destruct (IH k _ _ _ _ Hone Hrun) as (new & -> & Hlen & Hstamps & Hcur').
      exists (o :: new). rewrite <- app_assoc. simpl. unfold ofMarker in *. simpl.
      rewrite Em. split; [reflexivity|]. split; [now rewrite Hlen|]. split; assumption.
Qed.

Lemma ofMarker_app (marker : string) (l1 l2 : list NormalizedMessage) :
  ofMarker marker (l1 ++ l2) = (ofMarker marker l1 ++ ofMarker marker l2)%list.
Proof. unfold ofMarker. apply List.filter_app. Qed.

Lemma seq_offset (a b : nat) : seq a b = map (fun k => (a + k)%nat) (seq 0 b).
Proof.
  revert a. induction b as [|b IH]; intros a; simpl; [reflexivity|].
  rewrite Nat.add_0_r. f_equal. rewrite (IH (S a)), <- seq_shift, map_map.
  apply map_ext. intros k. lia.
Qed.

Lemma progression_app (first step : Z) (a b : nat) :
  progression first step (a + b)
  = (progression first step a ++ progression (first + step * Z.of_nat a) step b)%list.
Proof.
  unfold progression. rewrite seq_app, map_app. f_equal. simpl.
  rewrite seq_offset, map_map. apply map_ext. intros k. lia.
Qed.

Lemma normalizeAll_cursor (marker : string) (base step : Z) (wd : string)
    (batches : list (list Message)) :
  parseSessionTimestamp marker = Some (base, wd) ->
  forall (k : nat) (outs : list NormalizedMessage) (n n' : MessageNormalizer),
    cursorAt marker base step k n ->
    normalizeAll batches n = Returns outs n' ->
    map timeStamp (ofMarker marker outs)
    = map Date_toISOString
          (progression (base + step * Z.of_nat k) step (List.length (ofMarker marker outs)))
    /\ cursorAt marker base step (k + List.length (ofMarker marker outs)) n'.
Proof.
  intros Hparse. induction batches as [|batch rest IH]; intros k outs n n' Hcur Hrun;
    simpl in Hrun.
  - injection Hrun as <- <-. simpl. rewrite Nat.add_0_r. auto.
  - unfold Eff.bind in Hrun.
    destruct (normalizeMessages batch n) as [out n1|e n1] eqn:E1; [|discriminate].
    destruct (normalizeAll rest n1) as [outs' n2|e n2] eqn:E2; [|discriminate].
    injection Hrun as <- <-.
    destruct (normalizeLoop_cursor marker base step wd batch Hparse k [] out n n1 Hcur E1)
      as (new & -> & _ & Hstamps & Hcur1).
    simpl in *.
    destruct (IH _ _ _ _ Hcur1 E2) as [Hstamps' Hcur2].
    rewrite ofMarker_app, length_app, map_app, progression_app, map_app.
    split.
    + rewrite Hstamps, Hstamps'. do 3 f_equal. lia.
    + now rewrite Nat.add_assoc.
Qed.

Lemma progression_lookup (first step : Z) (n i : nat) :
  (i < n)%nat -> progression first step n !! i = Some (first + step * Z.of_nat i).
Proof.
  intros Hi. unfold progression.
  change (map (fun k => first + step * Z.of_nat k) (seq 0 n))
    with ((fun k => first + step * Z.of_nat k) <$> seq 0 n).
  rewrite list_lookup_fmap, lookup_seq_lt by assumption. reflexivity.
Qed.

Lemma progression_length (first step : Z) (n : nat) :
  List.length (progression first step n) = n.
Proof. unfold progression. now rewrite length_map, length_seq. Qed.

Lemma progression_sorted (first step : Z) (n : nat) :
  0 < step -> StronglySorted Z.lt (progression first step n).
Proof.
  intros Hstep. revert first. induction n as [|n IH]; intros first; [constructor|].
  replace (progression first step (S n))
    with (first :: progression (first + step) step n).
  - constructor; [apply IH|]. apply List.Forall_forall. intros x Hx.
    unfold progression in Hx. apply in_map_iff in Hx as (k & <- & _). lia.
  - unfold progression. simpl. f_equal; [lia|].
    rewrite <- seq_shift, map_map. apply map_ext. intros k. lia.
Qed.

(** C5 (normalization monotonicity).  For one [MessageNormalizer] with
    the default offset, through any calls of [normalizeMessages] that
    return, the messages of one session marker are stamped, in order,
    with the instants [base], [base + 500], [base + 1000], ... where
    [base] is the parsed instant of the marker: the first gets [base],
    each later one the previous instant plus 500 ms, so the instants
    increase strictly. *)
Theorem normalization_monotone (batches : list (list Message))
    (outs : list NormalizedMessage) (n' : MessageNormalizer)
    (marker : string) (base : Z) (wd : string) :
  parseSessionTimestamp marker = Some (base, wd) ->
  normalizeAll batches (newMessageNormalizer None) = Returns outs n' ->
  exists instants : list Z,
    map timeStamp (ofMarker marker outs) = map Date_toISOString instants
    /\ instants = progression base 500 (List.length (ofMarker marker outs))
    /\ (forall t, instants !! O = Some t -> t = base)
    /\ (forall i t t', instants !! i = Some t -> instants !! (S i) = Some t' -> t' = t + 500)
    /\ StronglySorted Z.lt instants.
Proof.
  intros Hparse Hrun.
  assert (Hcur : cursorAt marker base 500 0 (newMessageNormalizer None)).
  { split; [reflexivity|]. simpl. apply lookup_empty. }
  destruct (normalizeAll_cursor marker base 500 wd batches Hparse 0 outs _ _ Hcur Hrun)
    as [Hstamps _].
  rewrite Z.mul_0_r, Z.add_0_r in Hstamps.
  exists (progression base 500 (List.length (ofMarker marker outs))).
  split; [exact Hstamps|]. split; [reflexivity|]. split; [|split].
  - intros t Ht. destruct (List.length (ofMarker marker outs)) as [|len]; [discriminate|].
    rewrite progression_lookup in Ht by lia. injection Ht as <-. lia.
  - intros i t t' Hi HSi.
    assert (Hlt : (S i < List.length (ofMarker marker outs))%nat).
    { apply lookup_lt_Some in HSi. now rewrite progression_length in HSi. }
    rewrite progression_lookup in Hi, HSi by lia.
    injection Hi as <-. injection HSi as <-. lia.
  - apply progression_sorted. lia.
Qed.

End NormalizerFacts.

(** ** addMemory *)

Section AddMemoryFacts.
Import Remote Utils Storage Embeddings Llm LiteMem NormalizerSpec AddMemorySpec.
Context {W : Type} {UP : Upstream W} {RT : JsRuntime} {PR : Prompts}.

(** The loop of [normalizeMessages] throws on a batch with a refused
    message. *)
Lemma normalizeLoop_refused (msgs : list Message) (acc : list NormalizedMessage)
    (n : MessageNormalizer) :
  Exists refused msgs -> exists e n', normalizeLoop msgs acc n = Throws e n'.
Proof.
  intros Hex. revert acc n. induction Hex as [msg rest Hr|msg rest _ IH]; intros acc n; simpl.
  - destruct (normalizeOne_refused msg n Hr) as (e & n' & E & _).
    unfold Eff.bind. rewrite E. eauto.
  - unfold Eff.bind. destruct (normalizeOne msg n) as [o n1|e n1]; [apply IH|eauto].
Qed.

(** C6 (whole-batch rejection).  If a message of the batch has no
    [timeStamp], or a marker that neither the session grammar nor the
    ISO fallback parses, [addMemory] throws, and it throws before
    anything else was touched: the message buffer and the store are as
    they were, and so are the LLM manager, the embedder and the host (no
    request was sent). *)
Theorem addMemory_rejects_batch (msgs : list Message) (options : AddMemoryOptions)
    (m : LiteMemory W) :
  Exists refused msgs ->
  exists e m',
    addMemory msgs options m = Throws e m'
    /\ messageBuffer m' = messageBuffer m
    /\ vectorStore m' = vectorStore m
    /\ llmManager m' = llmManager m
    /\ embedder m' = embedder m
    /\ host m' = host m.
Proof.
  intros Hex.
  destruct (normalizeLoop_refused msgs [] (normalizer m) Hex) as (e & n' & E).
  exists e, (setNormalizer n' m).
  unfold addMemory, Eff.bind, zoom, normalizeMessages. rewrite E. auto 10.
Qed.

(** [assignSequenceNumbers] numbers the messages of a call from 0. *)
Lemma imap_sequenceNumbers (g : nat -> nat) (l : list NormalizedMessage) :
  map sequenceNumber (imap (fun i => withSequenceNumber (g i)) l)
  = map (fun i => Some (g i)) (seq 0 (List.length l)).
Proof.
  revert g. induction l as [|x l IH]; intros g; simpl; [reflexivity|].
  f_equal. rewrite <- seq_shift, map_map. apply (IH (fun i => g (S i))).
Qed.

Lemma assignSequenceNumbers_from_zero (l : list NormalizedMessage) :
  map sequenceNumber (assignSequenceNumbers l) = map Some (seq 0 (List.length l)).
Proof. apply (imap_sequenceNumbers (fun i => i)). Qed.

(** [addMemory] is: normalize, number, append to the buffer, go on. *)
Lemma addMemory_buffers (msgs : list Message) (options : AddMemoryOptions)
    (m : LiteMemory W) (normalized : list NormalizedMessage) (n' : MessageNormalizer) :
  normalizeMessages msgs (normalizer m) = Returns normalized n' ->
  addMemory msgs options m
  = extractBuffered options emptyResult
      (setMessageBuffer (messageBuffer m ++ assignSequenceNumbers normalized)
                        (setNormalizer n' m)).
Proof.
  intros E. unfold addMemory, Eff.bind at 1 2, zoom, modify. rewrite E. reflexivity.
Qed.

(** When extraction is due, the segment sent to the extractor and handed
    to [createMemoryEntries] is the role-filtered buffer. *)
Lemma extractBuffered_segment (options : AddMemoryOptions) (m : LiteMemory W) :
  let segment := filterMessagesByRole (messagesUse (config m)) (messageBuffer m) in
  default false (forceExtract options) || Nat.leb 10 (List.length (messageBuffer m)) = true ->
  segment <> [] ->
  metadataGenerate (config m) = true ->
  extractBuffered options emptyResult m
  = (let* extractionResults :=
       zoom llmManager setLlmManager (metaTextExtract [segment] (messagesUse (config m))) in
     let* result := recordExtractions extractionResults segment emptyResult in
     let* _ := modify (setMessageBuffer []) in
     ret result) m.
Proof.
  intros segment Hdue Hseg Hmeta. subst segment.
  unfold extractBuffered, Eff.bind at 1, gets.
  rewrite Hdue. change (negb true) with false. cbv beta iota.
  unfold Eff.bind at 1, gets. cbv beta.
  destruct (filterMessagesByRole (messagesUse (config m)) (messageBuffer m))
    as [|s0 rest] eqn:Es; [contradiction|].
  rewrite Hmeta. unfold Eff.bind.
  destruct (zoom llmManager setLlmManager _ m) as [exs m1|e m1]; [|reflexivity].
  destruct (recordExtractions exs (s0 :: rest) emptyResult m1); reflexivity.
Qed.

Lemma find_first {A : Type} (p : A -> bool) (l : list A) (x : A) :
  List.find p l = Some x ->
  exists before after,
    l = (before ++ x :: after)%list /\ p x = true /\ Forall (fun y => p y = false) before.
Proof.
  induction l as [|y l IH]; simpl; [discriminate|].
  destruct (p y) eqn:Ey.
  - intros [= ->]. exists [], l. auto.
  - intros Hf. destruct (IH Hf) as (before & after & -> & Hx & Hb).
    exists (y :: before), after. auto.
Qed.

Lemma hostNow_returns (m : LiteMemory W) : exists t m', hostNow m = Returns t m'.
Proof. unfold hostNow. destruct (Date_now (host m)). eauto. Qed.

(** The test of the [find] in [createMemoryEntries] is the citing of
    the specification. *)
Lemma citedBy_citesSource (f : ExtractedFact) (msg : NormalizedMessage) :
  citedBy f msg = true <-> citesSource f msg.
Proof.
  unfold citedBy, citesSource. split.
  - destruct (sequenceNumber msg) as [n|]; [|discriminate].
    destruct (sourceId f) as [q|]; [|discriminate].
    intros Hq. apply Qeq_bool_iff in Hq. exists n, q. repeat split.
    rewrite <- Hq, Nat2Z.inj_div. reflexivity.
  - intros (n & q & -> & -> & Hq). apply Qeq_bool_iff.
    rewrite Hq, Nat2Z.inj_div. reflexivity.
Qed.

Lemma find_firstCited (f : ExtractedFact) (segment : list NormalizedMessage) :
  match Js.find (citedBy f) segment with
  | Some msg => firstCited f segment msg
  | None => Forall (fun x => ~ citesSource f x) segment
  end.
Proof.
  unfold Js.find. destruct (List.find (citedBy f) segment) as [msg|] eqn:Ef.
  - apply find_first in Ef as (before & after & -> & Hc & Hb).
    exists before, after. split; [reflexivity|]. split; [now apply citedBy_citesSource|].
    eapply Forall_impl; [exact Hb|]. intros x Hx Hcx.
    apply citedBy_citesSource in Hcx. congruence.
  - apply List.Forall_forall. intros x Hx Hcx. apply citedBy_citesSource in Hcx.
    pose proof (find_none _ _ Ef x Hx). congruence.
Qed.

(** The first cited message of a segment is unique. *)
Lemma firstCited_unique (f : ExtractedFact) (segment : list NormalizedMessage)
    (a b : NormalizedMessage) :
  firstCited f segment a -> firstCited f segment b -> a = b.
Proof.
  intros (b1 & a1 & E1 & Ha & Hb1) (b2 & a2 & E2 & Hb & Hb2). subst segment.
  revert b2 E2 Hb2. induction b1 as [|x b1 IH]; intros b2 E2 Hb2.
  - destruct b2 as [|y b2]; simpl in E2; [congruence|].
    injection E2 as <- _. inversion Hb2; subst. contradiction.
  - destruct b2 as [|y b2]; simpl in E2.
    + injection E2 as -> _. inversion Hb1; subst. contradiction.
    + injection E2 as <- E2. inversion Hb1; subst. inversion Hb2; subst.
      apply (IH H2 b2 E2 H4).
Qed.

(** The entry built for a fact is bound in the segment it is given. *)
Lemma buildEntry_bound (f : ExtractedFact) (segment : list NormalizedMessage)
    (m m' : LiteMemory W) (entry : MemoryEntry) :
  buildEntry f segment m = Returns (entry, true) m' -> boundIn segment f entry.
Proof.
  unfold buildEntry, boundIn. pose proof (find_firstCited f segment) as Hfind.
  destruct (Js.find (citedBy f) segment) as [msg|].
  - unfold Eff.bind.
    destruct (negb (String.eqb (Utils.timeStamp msg) "")) eqn:Ets.
    + unfold Eff.ret at 1.
      destruct (newDate (Utils.timeStamp msg)) as [t|] eqn:Et.
      * unfold Eff.ret at 1. unfold hostUUID, hostNow.
        destruct (randomUUID (host m)) as [w1 u].
        destruct (Date_now _) as [w2 t1]. destruct (Date_now _) as [w3 t2].
        intros [= <- <-]. simpl. split; [reflexivity|]. split; [reflexivity|].
        left. exists msg. split; [exact Hfind|]. split; [auto|].
        split; [exists t; auto|]. auto.
      * unfold Eff.ret at 1. unfold hostUUID, hostNow.
        destruct (randomUUID (host m)) as [w1 u].
        destruct (Date_now _) as [w2 t1]. destruct (Date_now _) as [w3 t2].
        discriminate.
    + unfold hostNow at 1. destruct (Date_now (host m)) as [w0 t0].
      unfold Eff.ret at 1.
      destruct (newDate (Utils.timeStamp msg)) as [t|] eqn:Et.
      * unfold Eff.ret at 1. unfold hostUUID, hostNow.
        destruct (randomUUID _) as [w1 u].
        destruct (Date_now _) as [w2 t1]. destruct (Date_now _) as [w3 t2].
        intros [= <- <-]. simpl. split; [reflexivity|]. split; [reflexivity|].
        left. exists msg. split; [exact Hfind|].
        split; [intros Hne; apply negb_false_iff, String.eqb_eq in Ets; contradiction|].
        split; [exists t; auto|]. auto.
      * unfold Eff.ret at 1. unfold hostUUID, hostNow.
        destruct (randomUUID _) as [w1 u].
        destruct (Date_now _) as [w2 t1]. destruct (Date_now _) as [w3 t2].
        discriminate.
  - unfold Eff.bind, hostNow at 1. destruct (Date_now (host m)) as [w0 t0].
    unfold Eff.ret at 1. unfold hostNow at 1. destruct (Date_now _) as [w0' t0'].
    unfold Eff.ret at 1. unfold hostUUID, hostNow.
    destruct (randomUUID _) as [w1 u].
    destruct (Date_now _) as [w2 t1]. destruct (Date_now _) as [w3 t2].
    intros [= <- <-]. simpl. split; [reflexivity|]. split; [reflexivity|].
    right. auto.
Qed.

(** [buildEntry] always returns, and touches nothing but the host. *)
Lemma buildEntry_store (f : ExtractedFact) (segment : list NormalizedMessage)
    (m : LiteMemory W) :
  exists built w, buildEntry f segment m = Returns built (setHost w m).
Proof.
  unfold buildEntry, Eff.bind, Eff.ret, hostNow, hostUUID.
  destruct (Js.find (citedBy f) segment) as [msg|];
    [destruct (negb (String.eqb (Utils.timeStamp msg) ""))|];
    repeat (cbn [host setHost];
            match goal with
            | |- context [Date_now ?x] => destruct (Date_now x) as [? ?]
            | |- context [randomUUID ?x] => destruct (randomUUID x) as [? ?]
            end);
    try destruct (newDate (Utils.timeStamp msg));
    repeat (cbn [host setHost];
            match goal with
            | |- context [Date_now ?x] => destruct (Date_now x) as [? ?]
            | |- context [randomUUID ?x] => destruct (randomUUID x) as [? ?]
            end);
    cbn [host setHost]; eexists; eexists; reflexivity.
Qed.

(** The rows [createMemoryEntries] inserts when it returns, fact by
    fact: the entries it returns, each bound in the segment. *)
Lemma createEntriesLoop_bound (facts : list ExtractedFact) (segment : list NormalizedMessage) :
  forall (acc entries : list MemoryEntry) (m m' : LiteMemory W),
    createEntriesLoop facts segment acc m = Returns entries m' ->
    exists rows,
      entries = (acc ++ map fst rows)%list
      /\ vectorStore m' = EngineSpec.insertAll rows (vectorStore m)
      /\ Forall2 (fun f row => boundIn segment f (fst row)) facts rows.
Proof.
  induction facts as [|f facts IH]; intros acc entries m m' Hrun; simpl in Hrun.
  - injection Hrun as <- <-. exists []. rewrite app_nil_r. repeat split. constructor.
  - unfold Eff.bind in Hrun.
    destruct (buildEntry_store f segment m) as (built & w & Eb).
    rewrite Eb in Hrun. destruct built as [entry ok]. cbn [fst snd] in Hrun.
    destruct (zoom embedder setEmbedder (embed (memory entry)) (setHost w m))
      as [emb m2|e m2] eqn:Ez; [|discriminate].
    destruct ok; [|discriminate].
    unfold storeInsert, modify in Hrun.
    destruct (IH _ _ _ _ Hrun) as (rows & -> & Hst & Hrows).
    exists ((entry, emb) :: rows). rewrite <- app_assoc. split; [reflexivity|].
    split.
    + rewrite Hst. simpl. unfold zoom in Ez.
      destruct (embed (memory entry) (embedder (setHost w m))) as [v e1|err e1];
        [|discriminate Ez].
      injection Ez as _ <-. reflexivity.
    + constructor; [|exact Hrows]. simpl. eapply buildEntry_bound; eauto.
Qed.

End AddMemoryFacts.

(** ** The engine on a conversation *)

Section Conversation.
Import Remote Utils Storage Embeddings Llm LiteMem.
Import NormalizerSpec AddMemorySpec OriginSpec EmbedderSpec Demo DemoRuns.

(** *** Normalization *)

Lemma normalization_monotone_witness :
  parseSessionTimestamp monday = Some (1705312800000, "Mon")
  /\ mondayRun = Returns (default [] (returned mondayRun)) (stateOf mondayRun)
  /\ map Utils.timeStamp (ofMarker monday (default [] (returned mondayRun)))
     = [ "2024-01-15T10:00:00.000Z"; "2024-01-15T10:00:00.500Z"; "2024-01-15T10:00:01.000Z" ]
  /\ exists instants : list Z,
       map Utils.timeStamp (ofMarker monday (default [] (returned mondayRun)))
       = map Date_toISOString instants
       /\ instants
          = progression 1705312800000 500
                        (List.length (ofMarker monday (default [] (returned mondayRun))))
       /\ (forall t, instants !! O = Some t -> t = 1705312800000)
       /\ (forall i t t', instants !! i = Some t -> instants !! (S i) = Some t' -> t' = t + 500)
       /\ StronglySorted Z.lt instants.
Proof.
  assert (Hp : parseSessionTimestamp monday = Some (1705312800000, "Mon"))
    by (vm_compute; reflexivity).
  assert (Hr : mondayRun = Returns (default [] (returned mondayRun)) (stateOf mondayRun))
    by (vm_compute; reflexivity).
  split; [exact Hp|]. split; [exact Hr|]. split; [vm_compute; reflexivity|].
  exact (normalization_monotone mondayBatches _ _ monday _ _ Hp Hr).
Defined.

(** *** A batch with an unparseable marker *)

Lemma brokenBatch_refused : Exists refused brokenBatch.
Proof.
  right. left. right. split; vm_compute; reflexivity.
Defined.

Lemma addMemory_rejects_batch_witness :
  Exists refused brokenBatch
  /\ exists e m',
       addMemory brokenBatch {| forceExtract := Some true |} (engineOn twoRows [] user_only)
       = Throws e m'
       /\ messageBuffer m' = messageBuffer (engineOn twoRows [] user_only)
       /\ vectorStore m' = vectorStore (engineOn twoRows [] user_only)
       /\ llmManager m' = llmManager (engineOn twoRows [] user_only)
       /\ embedder m' = embedder (engineOn twoRows [] user_only)
       /\ host m' = host (engineOn twoRows [] user_only).
Proof.
  split; [exact brokenBatch_refused|].
  exact (addMemory_rejects_batch brokenBatch {| forceExtract := Some true |}
           (engineOn twoRows [] user_only) brokenBatch_refused).
Defined.

(** *** originalMemory *)

Lemma laterOps_no_insert_under_a : Forall (fun op => ~ insertsUnder "a" op) laterOps.
Proof.
  repeat constructor; simpl; try tauto. discriminate.
Defined.

Lemma originalMemory_kept_witness :
  Forall (fun op => ~ insertsUnder "a" op) laterOps
  /\ exists r',
       get "a" (vectorStore (after laterOps (engineOn twoRows [jsonUpdate] user_only)))
       = Some r'
       /\ memory r' = "merged"
       /\ originalMemory r' = "The user likes coffee."
       /\ exists r, get "a" (vectorStore (engineOn twoRows [jsonUpdate] user_only)) = Some r
                    /\ originalMemory r = originalMemory r'.
Proof.
  split; [exact laterOps_no_insert_under_a|].
  eexists. split; [vm_compute; reflexivity|].
  split; [reflexivity|]. split; [reflexivity|].
  refine (originalMemory_kept laterOps (engineOn twoRows [jsonUpdate] user_only) "a" _
            laterOps_no_insert_under_a _).
  vm_compute. reflexivity.
Defined.

(** C8 (write-once origin), under a repeated insert: a second [insert]
    under the id of a stored record replaces its [originalMemory]. *)
Lemma repeated_insert_replaces_originalMemory :
  exists (m : LiteMemory World) (entry : MemoryEntry) (emb : list Q) (r r' : MemoryEntry),
    get (id entry) (vectorStore m) = Some r
    /\ get (id entry) (vectorStore (after [OpInsert entry emb] m)) = Some r'
    /\ originalMemory r = "The user likes coffee."
    /\ originalMemory r' = "The user likes tea."
    /\ originalMemory r' <> originalMemory r.
Proof.
  exists (engineOn twoRows [] user_only), (row "a" 100 "The user likes tea." (axis 1)),
    (axis 1).
  eexists. eexists. split; [vm_compute; reflexivity|].
  split; [vm_compute; reflexivity|].
  split; [reflexivity|]. split; [reflexivity|]. discriminate.
Qed.

(** *** The embedder cache *)

Lemma embed_twice_witness :
  cacheEnabled freshEmbedder = true
  /\ embed "x" freshEmbedder = Returns (axis 1) (stateOf (embed "x" freshEmbedder))
  /\ List.length (sent (client (afterCalls interleaved (stateOf (embed "x" freshEmbedder)))))
     = 3%nat
  /\ exists e3,
       embed "x" (afterCalls interleaved (stateOf (embed "x" freshEmbedder)))
       = Returns (axis 1) e3
       /\ e3 = afterCalls interleaved (stateOf (embed "x" freshEmbedder))
       /\ sent (client e3)
          = sent (client (afterCalls interleaved (stateOf (embed "x" freshEmbedder))))
       /\ totalCalls (getStats e3)
          = totalCalls (getStats (afterCalls interleaved (stateOf (embed "x" freshEmbedder)))).
Proof.
  assert (Hfirst : embed "x" freshEmbedder
                   = Returns (axis 1) (stateOf (embed "x" freshEmbedder)))
    by (vm_compute; reflexivity).
  split; [reflexivity|]. split; [exact Hfirst|]. split; [vm_compute; reflexivity|].
  exact (embed_twice "x" (axis 1) freshEmbedder _ interleaved eq_refl Hfirst).
Defined.

(** *** A fact about the assistant's turn *)

Lemma aliceBuffer_first_cited :
  Js.find (citedBy aliceFact) aliceBuffer
  = Some {| role := user; content := "My name is Alice.";
            Utils.timeStamp := "2024-01-15T10:00:00.000Z";
            Utils.speakerId := Some "u1"; Utils.speakerName := Some "u1";
            sessionTime := monday; Utils.weekday := "Mon";
            sequenceNumber := Some O |}.
Proof. vm_compute. reflexivity. Qed.

(** C10 (the source message), under [assistant_only]: the first buffered
    message whose [floor(sequenceNumber / 2)] is the cited source id 0 is
    the user's, numbered 0, but the fact is bound to the assistant's,
    numbered 1: the lookup runs over the buffer filtered by role. *)
Lemma fact_bound_past_first_buffered_message :
  option_map memoryEntriesCreated (returned aliceRun) = Some 1
  /\ map sequenceNumber aliceBuffer = [Some 0%nat; Some 1%nat]
  /\ option_map Utils.speakerId (Js.find (citedBy aliceFact) aliceBuffer) = Some (Some "u1")
  /\ map (fun e => (memory e, Storage.speakerId e, Storage.timeStamp e))
         (vectorStore (stateOf aliceRun))
     = [("User's name is Alice.", "bot", "2024-01-15T10:00:00.500Z")]
  /\ Forall (fun e => ~ boundIn aliceBuffer aliceFact e) (vectorStore (stateOf aliceRun)).
Proof.
  split; [vm_compute; reflexivity|].
  split; [vm_compute; reflexivity|].
  split; [now rewrite aliceBuffer_first_cited|].
  assert (Hrows : map (fun e => (memory e, Storage.speakerId e, Storage.timeStamp e))
                      (vectorStore (stateOf aliceRun))
                  = [("User's name is Alice.", "bot", "2024-01-15T10:00:00.500Z")])
    by (vm_compute; reflexivity).
  split; [exact Hrows|].
  destruct (vectorStore (stateOf aliceRun)) as [|e [|e' rest]]; try discriminate Hrows.
  injection Hrows as Hmem Hsp Hts.
  constructor; [|constructor].
  pose proof (find_firstCited aliceFact aliceBuffer) as Hfirst.
  rewrite aliceBuffer_first_cited in Hfirst.
  unfold boundIn. intros (_ & _ & [(msg & Hmsg & _ & _ & _ & Hsp' & _)|(Hnone & _)]).
  - rewrite (firstCited_unique _ _ _ _ Hmsg Hfirst), Hsp in Hsp'.
    vm_compute in Hsp'. discriminate.
  - destruct Hfirst as (before & after & Hbuf & Hc & _).
    rewrite Hbuf in Hnone. apply Forall_app in Hnone as [_ Hnone].
    inversion Hnone; subst. contradiction.
Qed.

End Conversation.

(** ** VectorStore: rows in and out *)

Section StoreFacts.
Import Storage PhaseOneSpec UpdateSpec.
Context {RT : JsRuntime}.

Lemma exists_get (i : string) (st : Store) : exists_ i st = defined (get i st).
Proof.
  unfold exists_, get, defined. induction st as [|r st IH]; simpl; [reflexivity|].
  destruct (String.eqb (id r) i); [reflexivity|exact IH].
Qed.

(** [insert] then [get]: the row under the id of the entry holds the
    sixteen fields of the entry and a vector; [exists] answers true; the
    other ids answer as before. *)
Theorem insert_then_get (entry : MemoryEntry) (emb : list Q) (st : Store) :
  (exists r, get (id entry) (insert entry emb st) = Some r
             /\ fieldsOf r = fieldsOf entry /\ embedding r <> None)
  /\ exists_ (id entry) (insert entry emb st) = true
  /\ (forall j, j <> id entry ->
        get j (insert entry emb st) = get j st
        /\ exists_ j (insert entry emb st) = exists_ j st).
Proof.
  assert (Hself : get (id entry) (insert entry emb st)
                  = Some (withEmbedding (Some (storedVector emb)) entry)).
  { rewrite get_insert, String.eqb_refl. reflexivity. }
  assert (Hother : forall j, j <> id entry -> get j (insert entry emb st) = get j st).
  { intros j Hj. rewrite get_insert. apply String.eqb_neq in Hj. now rewrite Hj. }
  split; [|split].
  - eexists. split; [exact Hself|]. split; [reflexivity|discriminate].
  - rewrite exists_get, Hself. reflexivity.
  - intros j Hj. split; [now apply Hother|].
    rewrite !exists_get, Hother by assumption. reflexivity.
Qed.

Lemma delete_absent (i : string) (st : Store) : exists_ i st = false -> delete i st = st.
Proof.
  unfold exists_, delete. induction st as [|r st IH]; simpl; [reflexivity|].
  destruct (String.eqb (id r) i); simpl; [discriminate|].
  intros Hno. now rewrite IH.
Qed.

(** [delete] then [get]: the id is gone, the other ids answer as
    before, no row is added, and deleting an id the table does not hold
    changes nothing. *)
Theorem delete_then_get (i : string) (st : Store) :
  get i (delete i st) = None
  /\ exists_ i (delete i st) = false
  /\ (forall j, j <> i -> get j (delete i st) = get j st)
  /\ (count (delete i st) <= count st)%nat
  /\ (exists_ i st = false -> delete i st = st).
Proof.
  assert (Hself : get i (delete i st) = None).
  { rewrite get_delete, String.eqb_refl. reflexivity. }
  split; [exact Hself|]. split; [now rewrite exists_get, Hself|].
  split; [|split].
  - intros j Hj. rewrite get_delete. apply String.eqb_neq in Hj. now rewrite Hj.
  - unfold count, delete. apply List.filter_length_le.
  - apply delete_absent.
Qed.

Lemma delete_count_unique (i : string) (st : Store) :
  uniqueIds st ->
  count st = ((if exists_ i st then 1 else 0) + count (delete i st))%nat.
Proof.
  unfold uniqueIds, count, exists_, delete.
  induction st as [|r st IH]; simpl; [reflexivity|].
  intros Hnd. apply List.NoDup_cons_iff in Hnd as [Hnotin Hnd].
  destruct (String.eqb (id r) i) eqn:E; simpl.
  - apply String.eqb_eq in E. subst i. f_equal.
    fold (exists_ (id r) st) (delete (id r) st).
    assert (Hno : exists_ (id r) st = false).
    { unfold exists_. apply not_true_is_false. intros Hex.
      apply existsb_exists in Hex as (x & Hx & Ex). apply String.eqb_eq in Ex.
      apply Hnotin. rewrite <- Ex. now apply in_map. }
    now rewrite (delete_absent _ _ Hno).
  - rewrite (IH Hnd). destruct (existsb _ st); simpl; lia.
Qed.

(** [insert] and [count], on a table with its primary key: a new id
    adds one row, an id the table holds replaces its row. *)
Theorem insert_count (entry : MemoryEntry) (emb : list Q) (st : Store) :
  uniqueIds st ->
  count (insert entry emb st)
  = if exists_ (id entry) st then count st else S (count st).
Proof.
  intros Hu. rewrite (delete_count_unique (id entry) st Hu).
  unfold insert, count. rewrite length_app. simpl.
  fold (delete (id entry) st). fold (count (delete (id entry) st)).
  destruct (exists_ (id entry) st); lia.
Qed.

Lemma update_as_map (i : string) (updates : PartialMemoryEntry) (emb : option (list Q))
    (st : Store) :
  exists f, update i updates emb st = map f st
            /\ (forall r, id (f r) = id r)
            /\ (forall r, id r <> i -> f r = r)
            /\ (forall r, sameUnwritten r (f r)).
Proof.
  unfold update. destruct (Nat.eqb _ 0).
  - exists (fun r => r). rewrite map_id. repeat split; reflexivity.
  - exists (fun r => if String.eqb (id r) i then patch updates emb r else r).
    split; [reflexivity|]. split; [|split].
    + intros r. now destruct (String.eqb (id r) i).
    + intros r Hr. apply String.eqb_neq in Hr. now rewrite Hr.
    + intros r. destruct (String.eqb (id r) i); repeat split; reflexivity.
Qed.

(** [update] neither adds nor removes a row nor moves one: the ids stay
    in place, the rows of the other ids are untouched, and an id the
    table does not hold changes nothing. *)
Theorem update_keeps_rows (i : string) (updates : PartialMemoryEntry)
    (emb : option (list Q)) (st : Store) :
  map id (update i updates emb st) = map id st
  /\ count (update i updates emb st) = count st
  /\ (forall j, j <> i -> get j (update i updates emb st) = get j st)
  /\ (exists_ i st = false -> update i updates emb st = st).
Proof.
  destruct (update_as_map i updates emb st) as (f & -> & Hid & Hother & _).
  split; [|split; [|split]].
  - rewrite map_map. apply map_ext. exact Hid.
  - unfold count. apply length_map.
  - intros j Hj. rewrite get_map by exact Hid.
    unfold get. induction st as [|r st IH]; simpl; [reflexivity|].
    destruct (String.eqb (id r) j) eqn:E; [|exact IH].
    simpl. apply String.eqb_eq in E. rewrite Hother; [reflexivity|congruence].
  - unfold exists_. intros Hno. rewrite <- (map_id st) at 2. apply map_ext_in.
    intros r Hr. apply Hother. intros <-.
    assert (Hex : existsb (fun x => String.eqb (id x) (id r)) st = true).
    { apply existsb_exists. exists r. split; [exact Hr|apply String.eqb_refl]. }
    congruence.
Qed.

(** [update] reads five fields of [updates] -- [memory], [category],
    [subcategory], [hitTime] and [updateQueue] -- and the vector;
    whatever else [updates] holds -- an id, a timestamp, a speaker, an
    [originalMemory], a [compressedMemory], a [topicSummary] -- is
    dropped, and every row keeps those columns. *)
Theorem update_writes_five_fields (i : string) (updates : PartialMemoryEntry)
    (emb : option (list Q)) (st : Store) :
  update i updates emb st = update i (written updates) emb st
  /\ Forall2 sameUnwritten st (update i updates emb st).
Proof.
  split; [reflexivity|].
  destruct (update_as_map i updates emb st) as (f & -> & _ & _ & Hsame).
  induction st as [|r st IH]; simpl; constructor; auto.
Qed.

End StoreFacts.

(** ** VectorStore: scoring and its failure *)

Section ScoreFacts.
Import Storage SearchSpec.
Context {RT : JsRuntime}.

Lemma cosineLoop_swap (a b : list Q) (d d' na nb : Q) :
  List.length a = List.length b ->
  (d == d')%Q ->
  exists e e' ma mb,
    cosineLoop a b (d, na, nb) = (e, ma, mb)
    /\ cosineLoop b a (d', nb, na) = (e', mb, ma)
    /\ (e == e')%Q.
Proof.
  revert b d d' na nb. induction a as [|x a IH]; intros [|y b] d d' na nb Hlen Hd;
    try discriminate; simpl.
  - exists d, d', na, nb. auto.
  - apply (IH b); [now injection Hlen|]. rewrite Hd. ring.
Qed.

(** [cosineSimilarity] throws exactly on vectors of different lengths,
    and does not depend on the order of its arguments. *)
Theorem cosineSimilarity_symmetric (a b : list Q) :
  (cosineSimilarity a b = None <-> List.length a <> List.length b)
  /\ match cosineSimilarity a b, cosineSimilarity b a with
     | Some x, Some y => (x == y)%Q
     | None, None => True
     | _, _ => False
     end.
Proof.
  unfold cosineSimilarity.
  destruct (Nat.eqb (List.length a) (List.length b)) eqn:E; simpl.
  - apply Nat.eqb_eq in E. rewrite <- E, Nat.eqb_refl. simpl.
    destruct (cosineLoop_swap a b 0 0 0 0 E (Qeq_refl 0)) as (e & e' & ma & mb & -> & -> & He).
    assert (Hm : (Math_sqrt ma * Math_sqrt mb == Math_sqrt mb * Math_sqrt ma)%Q) by ring.
    split.
    + split; [|congruence]. destruct (Qeq_bool _ 0); discriminate.
    + destruct (Qeq_bool (Math_sqrt ma * Math_sqrt mb) 0) eqn:Z1.
      * apply Qeq_bool_iff in Z1. rewrite Hm in Z1. apply Qeq_bool_iff in Z1.
        rewrite Z1. reflexivity.
      * destruct (Qeq_bool (Math_sqrt mb * Math_sqrt ma) 0) eqn:Z2.
        -- apply Qeq_bool_iff in Z2. rewrite <- Hm in Z2. apply Qeq_bool_iff in Z2.
           congruence.
        -- rewrite He, Hm. reflexivity.
  - apply Nat.eqb_neq in E. rewrite (proj2 (Nat.eqb_neq _ _)) by congruence. simpl.
    split; [split; auto|exact I].
Qed.

Lemma cosineSimilarity_None (a b : list Q) :
  cosineSimilarity a b = None <-> List.length b <> List.length a.
Proof.
  unfold cosineSimilarity. destruct (Nat.eqb (List.length a) (List.length b)) eqn:E; simpl.
  - apply Nat.eqb_eq in E. destruct (cosineLoop a b _) as [[d na] nb].
    split; [destruct (Qeq_bool _ 0); discriminate|congruence].
  - apply Nat.eqb_neq in E. split; [congruence|reflexivity].
Qed.

(** [search] throws exactly when a row that carries a vector and passes
    the four filter tests has a vector whose length is not that of the
    query; rows without a vector and rows a filter skips are not
    compared. *)
Theorem search_throws_iff (q : list Q) (k : Z) (filters : option RetrieveFilters)
    (st : Store) :
  search q k filters st = None
  <-> Exists (fun r => exists v, embedding r = Some v /\ skipped filters r = false
                                 /\ List.length v <> List.length q) st.
Proof.
  unfold search. rewrite getAll_true.
  assert (Hs : scoreEntries q filters st = None
               <-> Exists (fun r => exists v, embedding r = Some v /\ skipped filters r = false
                                              /\ List.length v <> List.length q) st).
  { induction st as [|r st IH]; simpl.
    - split; [discriminate|]. intros Hex. inversion Hex.
    - destruct (embedding r) as [v|] eqn:Ev.
      + destruct (skipped filters r) eqn:Esk.
        * rewrite IH. split; [now right|].
          intros Hex. inversion Hex as [? ? (v' & _ & Hsk & _)|]; subst; [congruence|assumption].
        * destruct (cosineSimilarity q v) as [score|] eqn:Ec; simpl.
          -- destruct (scoreEntries q filters st) as [scored|]; simpl.
             ++ split; [discriminate|].
                intros Hex. inversion Hex as [? ? (v' & Hv' & _ & Hlen)|? ? Hrest]; subst.
                ** assert (v' = v) as -> by congruence.
                   apply cosineSimilarity_None in Hlen. congruence.
                ** apply IH in Hrest. discriminate.
             ++ split; [|reflexivity]. intros _. right. now apply IH.
          -- split; [|reflexivity]. intros _. left. exists v.
             apply cosineSimilarity_None in Ec. auto.
      + rewrite IH. split; [now right|].
        intros Hex. inversion Hex as [? ? (v' & Hv' & _)|]; subst; [congruence|assumption]. }
  destruct (scoreEntries q filters st) as [scored|]; simpl.
  - split; [discriminate|]. intros Hex. apply Hs in Hex. discriminate.
  - split; [|reflexivity]. intros _. now apply Hs.
Qed.

Lemma scoreEntries_length (q : list Q) (filters : option RetrieveFilters)
    (entries : list MemoryEntry) (scored : list SearchResult) :
  scoreEntries q filters entries = Some scored ->
  (List.length scored <= List.length entries)%nat.
Proof.
  revert scored. induction entries as [|e rest IH]; intros scored Hs; simpl in Hs.
  - injection Hs as <-. simpl. lia.
  - destruct (embedding e); [|specialize (IH _ Hs); simpl; lia].
    destruct (skipped filters e); [specialize (IH _ Hs); simpl; lia|].
    destruct (cosineSimilarity q _); [|discriminate].
    destruct (scoreEntries q filters rest) as [scored'|]; [|discriminate].
    simpl in Hs. injection Hs as <-. specialize (IH _ eq_refl). simpl. lia.
Qed.

(** The limit of [search] only cuts the ranking: the answer for a limit
    [k] is [slice(0, k)] of the answer for a limit that is the number of
    rows.  So the limit 0 gives no hit, a smaller limit gives a head of
    what a larger one gives, and a negative limit drops hits from the
    end of the ranking. *)
Theorem search_limit_slices (q : list Q) (k : Z) (filters : option RetrieveFilters)
    (st : Store) :
  search q k filters st
  = option_map (slice0 k) (search q (Z.of_nat (count st)) filters st).
Proof.
  unfold search. rewrite getAll_true.
  destruct (scoreEntries q filters st) as [scored|] eqn:E; [|reflexivity].
  assert (Hall : slice0 (Z.of_nat (count st)) (Js.sort byScoreDesc scored)
                 = Js.sort byScoreDesc scored).
  { unfold slice0.
    destruct (Z.of_nat (count st) <? 0) eqn:Hneg; [apply Z.ltb_lt in Hneg; lia|].
    rewrite Nat2Z.id. apply firstn_all2.
    rewrite (Permutation_length (sort_Permutation byScoreDesc scored)).
    exact (scoreEntries_length q filters st scored E). }
  simpl. rewrite Hall. reflexivity.
Qed.

End ScoreFacts.

(** ** The embedder: misses, batches, clearing *)

Section BatchFacts.
Import Remote Embeddings EmbedderSpec BatchSpec.
Context {W : Type} {UP : Upstream W}.

Lemma callEmbeddings_cases (req : EmbeddingRequest) (c : Client W) :
  (exists resp c', callEmbeddings req c = Returns resp c'
                   /\ sent c' = (sent c ++ [EmbeddingsCreate req])%list)
  \/ (exists c', callEmbeddings req c = Throws UpstreamError c'
                 /\ sent c' = (sent c ++ [EmbeddingsCreate req])%list).
Proof.
  unfold callEmbeddings. destruct (embeddings_create req (remote c)) as [w [resp|]].
  - left. eexists. eexists. split; reflexivity.
  - right. eexists. split; reflexivity.
Qed.

(** A miss of [embed], step by step. *)
Lemma embed_miss (t : string) (e : OpenRouterEmbedder W) :
  lookupCache e t = None ->
  sent (client (stateOf (embed t e))) = (sent (client e) ++ [embedRequest t e])%list
  /\ match embed t e with
     | Returns v e' =>
         totalCalls (stats e') = totalCalls (stats e) + 1
         /\ cache e' = (if cacheEnabled e then <[t := v]> (cache e) else cache e)
     | Throws err e' =>
         cache e' = cache e
         /\ ((err = UpstreamError /\ stats e' = stats e)
             \/ (err = TypeError /\ totalCalls (stats e') = totalCalls (stats e) + 1))
     end.
Proof.
  unfold lookupCache. intros Hmiss. unfold embed, Eff.bind, gets, zoom, embedRequest.
  rewrite Hmiss.
  destruct (callEmbeddings_cases
              {| er_model := model (config e); er_input := OneText t;
                 er_dimensions := dimensions (config e) |} (client e))
    as [(resp & c' & -> & Hs)|(c' & -> & Hs)]; simpl.
  - unfold modify. destruct (data resp) as [|v rest]; simpl.
    + split; [exact Hs|]. split; [reflexivity|]. right. split; reflexivity.
    + destruct (cacheEnabled e); simpl; split; try exact Hs; split; reflexivity.
  - split; [exact Hs|]. split; [reflexivity|]. left. split; reflexivity.
Qed.

(** A miss of [embed]: the request goes out in every case; the call is
    counted once the provider has answered; the vector is cached only
    when the answer holds one and the cache is on.  A refused request
    throws with the statistics as they were; an answer without data
    throws a TypeError after the call was counted. *)
Theorem embed_miss_outcomes (t : string) (e : OpenRouterEmbedder W) :
  lookupCache e t = None ->
  sent (client (stateOf (embed t e))) = (sent (client e) ++ [embedRequest t e])%list
  /\ match embed t e with
     | Returns v e' =>
         totalCalls (stats e') = totalCalls (stats e) + 1
         /\ cache e' = (if cacheEnabled e then <[t := v]> (cache e) else cache e)
     | Throws err e' =>
         cache e' = cache e
         /\ ((err = UpstreamError /\ stats e' = stats e)
             \/ (err = TypeError /\ totalCalls (stats e') = totalCalls (stats e) + 1))
     end.
Proof. apply embed_miss. Qed.

(** [clearCache] forgets every vector and nothing else: the next
    [embed] of any text goes to the provider, and the statistics are not
    reset. *)
Theorem clearCache_then_embed (t : string) (e : OpenRouterEmbedder W) :
  let e0 := stateOf (clearCache e) in
  cache e0 = ∅ /\ stats e0 = stats e /\ client e0 = client e
  /\ cacheEnabled e0 = cacheEnabled e
  /\ sent (client (stateOf (embed t e0))) = (sent (client e) ++ [embedRequest t e])%list.
Proof.
  intros e0. repeat split.
  assert (Hmiss : lookupCache e0 t = None).
  { unfold lookupCache, e0. simpl. destruct (cacheEnabled e); [apply lookup_empty|reflexivity]. }
  apply embed_miss in Hmiss as [Hs _]. exact Hs.
Qed.

(** *** The batch *)

Lemma map_snd_filter {A B : Type} (p : B -> bool) (l : list (A * B)) :
  map snd (List.filter (fun it => p (snd it)) l) = List.filter p (map snd l).
Proof.
  induction l as [|[a b] l IH]; simpl; [reflexivity|].
  destruct (p b); simpl; now rewrite IH.
Qed.

Lemma imap_pair_from {A : Type} (k : nat) (l : list A) :
  imap (fun i => pair (k + i)%nat) l = combine (seq k (List.length l)) l.
Proof.
  revert k. induction l as [|x l IH]; intros k; simpl; [reflexivity|].
  rewrite Nat.add_0_r. f_equal.
  rewrite <- (IH (S k)). apply imap_ext. intros i y _. simpl. f_equal. lia.
Qed.

Lemma map_snd_combine_seq {A : Type} (k : nat) (l : list A) :
  map snd (combine (seq k (List.length l)) l) = l.
Proof.
  revert k. induction l as [|x l IH]; intros k; simpl; [reflexivity|]. now rewrite IH.
Qed.

Lemma imap_pair {A : Type} (l : list A) :
  imap pair l = combine (seq 0 (List.length l)) l.
Proof. apply (imap_pair_from 0). Qed.

Lemma In_imap_pair {A : Type} (l : list A) (i : nat) (x : A) :
  In (i, x) (imap pair l) <-> l !! i = Some x.
Proof.
  rewrite <- list_elem_of_In, elem_of_lookup_imap. split.
  - intros (j & y & [= -> ->] & Hj). exact Hj.
  - intros Hi. exists i, x. auto.
Qed.

Lemma uncachedOf_In (texts : list string) (e : OpenRouterEmbedder W) (i : nat) (t : string) :
  In (i, t) (uncachedOf texts e) <-> texts !! i = Some t /\ lookupCache e t = None.
Proof.
  unfold uncachedOf. rewrite filter_In, In_imap_pair. cbn [fst].
  unfold defined_at.
  change (map (lookupCache e) texts) with (lookupCache e <$> texts).
  rewrite list_lookup_fmap. split.
  - intros [Hi Hd]. rewrite Hi in Hd. cbn [fmap option_fmap option_map] in Hd.
    split; [exact Hi|]. destruct (lookupCache e t); [discriminate|reflexivity].
  - intros [Hi Hn]. split; [exact Hi|]. rewrite Hi. cbn [fmap option_fmap option_map].
    now rewrite Hn.
Qed.

Lemma uncachedOf_texts (texts : list string) (e : OpenRouterEmbedder W) :
  map snd (uncachedOf texts e) = missing texts e.
Proof.
  unfold missing.
  assert (Hl : map snd (imap pair texts) = texts).
  { rewrite imap_pair. apply map_snd_combine_seq. }
  rewrite <- Hl at 2. rewrite <- map_snd_filter. f_equal.
  unfold uncachedOf. apply List.filter_ext_in. intros [i t] Hin. simpl.
  apply In_imap_pair in Hin. unfold defined_at.
  change (map (lookupCache e) texts) with (lookupCache e <$> texts).
  rewrite list_lookup_fmap, Hin. cbn [fmap option_fmap option_map snd].
  now destruct (lookupCache e t).
Qed.

Lemma NoDup_filter_indices {A : Type} (p : nat * A -> bool) (k : nat) (l : list A) :
  List.NoDup (map fst (List.filter p (combine (seq k (List.length l)) l))).
Proof.
  revert k. induction l as [|x l IH]; intros k; simpl; [constructor|].
  assert (Hge : forall j, In j (map fst (List.filter p (combine (seq (S k) (List.length l)) l)))
                          -> (S k <= j)%nat).
  { intros j Hj. apply in_map_iff in Hj as ([j' y] & <- & Hin).
    apply filter_In in Hin as [Hin _]. apply in_combine_l in Hin.
    apply in_seq in Hin. simpl. lia. }
  destruct (p (k, x)); simpl; [|apply IH].
  constructor; [|apply IH]. intros Hin. apply Hge in Hin. lia.
Qed.

Lemma uncachedOf_NoDup (texts : list string) (e : OpenRouterEmbedder W) :
  List.NoDup (map fst (uncachedOf texts e)).
Proof. unfold uncachedOf. rewrite imap_pair. apply NoDup_filter_indices. Qed.

(** The write-back loop returns, keeps the length of [results] and the
    places it is not given, and touches only the cache. *)
Lemma fillResults_returns (enabled : bool) (vs : list (list Q)) (uncached : list (nat * string))
    (results : list (option (list Q))) (e : OpenRouterEmbedder W) :
  exists rs e',
    fillResults enabled vs uncached results e = Returns rs e'
    /\ List.length rs = List.length results
    /\ client e' = client e /\ stats e' = stats e /\ config e' = config e
    /\ cacheEnabled e' = cacheEnabled e
    /\ (forall i, ~ In i (map fst uncached) -> rs !! i = results !! i)
    /\ (forall t, ~ In t (map snd uncached) -> cache e' !! t = cache e !! t).
Proof.
  revert uncached results e. induction vs as [|v vs IH]; intros uncached results e; simpl.
  - exists results, e. repeat split; reflexivity.
  - destruct uncached as [|[i text] uncached]; [exists results, e; repeat split; reflexivity|].
    unfold Eff.bind.
    set (e1 := stateOf ((if enabled then modify (cacheSet text v) else ret tt) e)).
    assert (Hstep : (if enabled then modify (cacheSet text v) else ret tt) e = Returns tt e1).
    { unfold e1. now destruct enabled. }
    rewrite Hstep.
    assert (He1 : client e1 = client e /\ stats e1 = stats e /\ config e1 = config e
                  /\ cacheEnabled e1 = cacheEnabled e
                  /\ (forall t, t <> text -> cache e1 !! t = cache e !! t)).
    { unfold e1. destruct enabled; simpl; repeat split; auto.
      intros t Ht. now rewrite lookup_insert_ne. }
    destruct He1 as (Hc & Hst & Hcf & Hen & Hca).
    destruct (IH uncached (<[i := Some v]> results) e1)
      as (rs & e' & -> & Hlen & Hc' & Hst' & Hcf' & Hen' & Hrs & Hca').
    exists rs, e'. split; [reflexivity|].
    split; [now rewrite Hlen, length_insert|].
    split; [congruence|]. split; [congruence|]. split; [congruence|]. split; [congruence|].
    split.
    + intros j Hj. simpl in Hj. rewrite Hrs by tauto.
      apply list_lookup_insert_ne. tauto.
    + intros t Ht. simpl in Ht. rewrite Hca' by tauto. apply Hca. intros ->. tauto.
Qed.

(** [embedBatch] on a batch that is not empty, step by step. *)
Lemma embedBatch_steps (t0 : string) (texts : list string) (e : OpenRouterEmbedder W) :
  embedBatch (t0 :: texts) e
  = match uncachedOf (t0 :: texts) e with
    | [] => Returns (map (lookupCache e) (t0 :: texts)) e
    | _ :: _ =>
        match callEmbeddings
                {| er_model := model (config e);
                   er_input := ManyTexts (map snd (uncachedOf (t0 :: texts) e));
                   er_dimensions := dimensions (config e) |} (client e) with
        | Returns resp c' =>
            fillResults (cacheEnabled e) (data resp) (uncachedOf (t0 :: texts) e)
                        (map (lookupCache e) (t0 :: texts))
                        (countCall (usage resp) (setClient c' e))
        | Throws err c' => Throws err (setClient c' e)
        end
    end.
Proof.
  unfold embedBatch, Eff.bind, gets, zoom, modify.
  change (List.filter _ (imap pair (t0 :: texts))) with (uncachedOf (t0 :: texts) e).
  destruct (uncachedOf (t0 :: texts) e) as [|u us]; [reflexivity|].
  destruct (callEmbeddings _ (client e)); reflexivity.
Qed.

Lemma lookupCache_at (texts : list string) (e : OpenRouterEmbedder W) (i : nat) (t : string) :
  texts !! i = Some t -> map (lookupCache e) texts !! i = Some (lookupCache e t).
Proof.
  intros Hi. change (map (lookupCache e) texts) with (lookupCache e <$> texts).
  now rewrite list_lookup_fmap, Hi.
Qed.

(** The request of a batch. *)
Lemma embedBatch_sent (texts : list string) (e : OpenRouterEmbedder W) :
  sent (client (stateOf (embedBatch texts e)))
  = (sent (client e) ++ match missing texts e with
                        | [] => []
                        | _ :: _ => [batchRequest texts e]
                        end)%list.
Proof.
  destruct texts as [|t0 texts]; [simpl; now rewrite app_nil_r|].
  rewrite embedBatch_steps. unfold batchRequest.
  rewrite <- (uncachedOf_texts (t0 :: texts) e).
  destruct (uncachedOf (t0 :: texts) e) as [|u uncached] eqn:Eu.
  { simpl. now rewrite app_nil_r. }
  rewrite <- Eu.
  assert (Hcons : exists x xs, map snd (uncachedOf (t0 :: texts) e) = x :: xs).
  { rewrite Eu. simpl. eauto. }
  destruct Hcons as (x & xs & Ex).
  destruct (callEmbeddings_cases
              {| er_model := model (config e);
                 er_input := ManyTexts (map snd (uncachedOf (t0 :: texts) e));
                 er_dimensions := dimensions (config e) |} (client e))
    as [(resp & c' & -> & Hs)|(c' & -> & Hs)].
  - destruct (fillResults_returns (cacheEnabled e) (data resp) (uncachedOf (t0 :: texts) e)
                (map (lookupCache e) (t0 :: texts))
                (countCall (usage resp) (setClient c' e)))
      as (rs & e' & -> & _ & Hc & _).
    simpl stateOf. rewrite Hc. simpl client. rewrite Ex at 1. now rewrite Hs.
  - simpl stateOf. simpl client. rewrite Ex at 1. now rewrite Hs.
Qed.

(** [embed] and [embedBatch] leave the configuration and the cache
    switch alone. *)
Lemma embed_keeps_config (t : string) (e : OpenRouterEmbedder W) :
  config (stateOf (embed t e)) = config e
  /\ cacheEnabled (stateOf (embed t e)) = cacheEnabled e.
Proof.
  unfold embed, Eff.bind, gets, zoom.
  destruct (if cacheEnabled e then cache e !! t else None); [split; reflexivity|].
  destruct (callEmbeddings _ (client e)) as [resp c'|err c']; [|split; reflexivity].
  unfold modify. destruct (data resp) as [|v rest]; [split; reflexivity|].
  destruct (cacheEnabled e) eqn:E; simpl; rewrite ?E; split; reflexivity.
Qed.

Lemma embedBatch_keeps_config (texts : list string) (e : OpenRouterEmbedder W) :
  config (stateOf (embedBatch texts e)) = config e
  /\ cacheEnabled (stateOf (embedBatch texts e)) = cacheEnabled e.
Proof.
  destruct texts as [|t0 texts]; [split; reflexivity|].
  rewrite embedBatch_steps.
  destruct (uncachedOf (t0 :: texts) e) as [|u uncached]; [split; reflexivity|].
  destruct (callEmbeddings _ (client e)) as [resp c'|err c']; [|split; reflexivity].
  destruct (fillResults_returns (cacheEnabled e) (data resp) (u :: uncached)
              (map (lookupCache e) (t0 :: texts))
              (countCall (usage resp) (setClient c' e)))
    as (rs & e' & -> & _ & _ & _ & Hcf & Hen & _).
  simpl stateOf. rewrite Hcf, Hen. split; reflexivity.
Qed.

(** What [embedBatch] sends and what it hands back.  It sends one
    request, for the texts the cache does not answer, and none when the
    cache answers them all (or the batch is empty).  When it returns,
    the result has one place per text and the places of the cached
    texts hold the cached vectors.  It throws only when the provider
    refuses the request, with the cache and the statistics as they
    were: an answer with too few vectors does not throw. *)
Theorem embedBatch_outcomes (texts : list string) (e : OpenRouterEmbedder W) :
  sent (client (stateOf (embedBatch texts e)))
  = (sent (client e) ++ match missing texts e with
                        | [] => []
                        | _ :: _ => [batchRequest texts e]
                        end)%list
  /\ match embedBatch texts e with
     | Returns rs e' =>
         List.length rs = List.length texts
         /\ (forall i t v, texts !! i = Some t -> lookupCache e t = Some v ->
                           rs !! i = Some (Some v))
         /\ (missing texts e = [] -> e' = e)
     | Throws err e' =>
         err = UpstreamError /\ cache e' = cache e /\ stats e' = stats e
     end.
Proof.
  destruct texts as [|t0 texts].
  { simpl. rewrite app_nil_r. repeat split. intros i t v Hi. discriminate. }
  rewrite embedBatch_steps. unfold batchRequest.
  rewrite <- (uncachedOf_texts (t0 :: texts) e).
  destruct (uncachedOf (t0 :: texts) e) as [|u uncached] eqn:Eu.
  { simpl map at 1 2. cbv iota. rewrite app_nil_r.
    split; [reflexivity|]. split; [now rewrite length_map|]. split; [|reflexivity].
    intros i t v Hi Hv. rewrite (lookupCache_at _ _ _ _ Hi). now rewrite Hv. }
  rewrite <- Eu.
  assert (Hcons : exists x xs, map snd (uncachedOf (t0 :: texts) e) = x :: xs).
  { rewrite Eu. simpl. eauto. }
  destruct Hcons as (x & xs & Ex).
  destruct (callEmbeddings_cases
              {| er_model := model (config e);
                 er_input := ManyTexts (map snd (uncachedOf (t0 :: texts) e));
                 er_dimensions := dimensions (config e) |} (client e))
    as [(resp & c' & -> & Hs)|(c' & -> & Hs)].
  - destruct (fillResults_returns (cacheEnabled e) (data resp) (uncachedOf (t0 :: texts) e)
                (map (lookupCache e) (t0 :: texts))
                (countCall (usage resp) (setClient c' e)))
      as (rs & e' & -> & Hlen & Hc & _ & _ & _ & Hrs & _).
    simpl stateOf. rewrite Hc. simpl client. rewrite Ex at 1. rewrite Hs.
    split; [reflexivity|].
    split; [now rewrite Hlen, length_map|]. split.
    + intros i t v Hi Hv. rewrite Hrs; [rewrite (lookupCache_at _ _ _ _ Hi); now rewrite Hv|].
      intros Hin. apply in_map_iff in Hin as ([j t'] & Hj & Hin). simpl in Hj. subst j.
      apply uncachedOf_In in Hin as [Hi' Hnone]. congruence.
    + rewrite Ex. discriminate.
  - simpl stateOf. simpl client. rewrite Ex at 1. rewrite Hs. repeat split.
Qed.

Lemma fillResults_off (vs : list (list Q)) (uncached : list (nat * string))
    (results : list (option (list Q))) (e : OpenRouterEmbedder W) :
  cache (stateOf (fillResults false vs uncached results e)) = cache e.
Proof.
  revert uncached results e. induction vs as [|v vs IH]; intros uncached results e; simpl;
    [reflexivity|].
  destruct uncached as [|[i text] uncached]; [reflexivity|].
  unfold Eff.bind. simpl. apply IH.
Qed.

Lemma missing_off (texts : list string) (e : OpenRouterEmbedder W) :
  cacheEnabled e = false -> missing texts e = texts.
Proof.
  intros Hoff. unfold missing, lookupCache. rewrite Hoff.
  induction texts as [|t texts IH]; simpl; [reflexivity|]. now rewrite IH.
Qed.

(** With the cache off, every [embed] and every batch that is not empty
    asks the provider, for all of its texts, and the cache stays as it
    is, whatever the calls and whether they return or throw. *)
Theorem cache_off_always_asks (calls : list EmbedderCall) (e : OpenRouterEmbedder W) :
  cacheEnabled e = false ->
  cache (afterCalls calls e) = cache e
  /\ sent (client (afterCalls calls e))
     = (sent (client e) ++ flat_map (fun call => requestOf call e) calls)%list
  /\ Forall (fun call => match call with
                         | CallEmbedBatch (t :: texts) =>
                             requestOf call e
                             = [EmbeddingsCreate
                                  {| er_model := model (config e);
                                     er_input := ManyTexts (t :: texts);
                                     er_dimensions := dimensions (config e) |}]
                         | _ => True
                         end) calls.
Proof.
  intros Hoff. split; [|split].
  - revert e Hoff. induction calls as [|[t|texts] calls IH]; intros e Hoff; simpl;
      [reflexivity| |].
    + destruct (embed_keeps_config t e) as [_ Hen].
      rewrite IH by congruence.
      assert (Hmiss : lookupCache e t = None) by (unfold lookupCache; now rewrite Hoff).
      apply embed_miss in Hmiss as [_ Hm].
      destruct (embed t e) as [v e'|err e']; simpl; [|tauto].
      destruct Hm as [_ Hc]. now rewrite Hoff in Hc.
    + destruct (embedBatch_keeps_config texts e) as [_ Hen].
      rewrite IH by congruence.
      destruct texts as [|t0 texts]; [reflexivity|].
      rewrite embedBatch_steps.
      destruct (uncachedOf (t0 :: texts) e) as [|u uncached]; [reflexivity|].
      destruct (callEmbeddings _ (client e)) as [resp c'|err c']; [|reflexivity].
      rewrite Hoff. now rewrite fillResults_off.
  - revert e Hoff. induction calls as [|[t|texts] calls IH]; intros e Hoff; simpl;
      [now rewrite app_nil_r| |].
    + destruct (embed_keeps_config t e) as [Hcf Hen].
      rewrite IH by congruence.
      assert (Hmiss : lookupCache e t = None) by (unfold lookupCache; now rewrite Hoff).
      apply embed_miss in Hmiss as [Hs _]. rewrite Hs, <- app_assoc. simpl.
      f_equal. f_equal. apply flat_map_ext. intros [t'|texts']; simpl.
      * unfold embedRequest. now rewrite Hcf.
      * destruct texts' as [|x xs]; [reflexivity|].
        unfold batchRequest. rewrite Hcf. rewrite !missing_off by congruence. reflexivity.
    + destruct (embedBatch_keeps_config texts e) as [Hcf Hen].
      rewrite IH by congruence. rewrite embedBatch_sent, <- app_assoc.
      f_equal. f_equal.
      * destruct texts as [|x xs]; [reflexivity|]. rewrite missing_off by assumption.
        reflexivity.
      * apply flat_map_ext. intros [t'|texts']; simpl.
        -- unfold embedRequest. now rewrite Hcf.
        -- destruct texts' as [|x xs]; [reflexivity|].
           unfold batchRequest. rewrite Hcf. rewrite !missing_off by congruence. reflexivity.
  - apply List.Forall_forall. intros [t|[|t texts]] _; try exact I.
    simpl. unfold batchRequest. now rewrite missing_off.
Qed.

Lemma fillResults_filled (vs : list (list Q)) (uncached : list (nat * string))
    (results rs : list (option (list Q))) (e e' : OpenRouterEmbedder W) :
  List.NoDup (map fst uncached) ->
  (List.length uncached <= List.length vs)%nat ->
  Forall (fun it => (fst it < List.length results)%nat) uncached ->
  fillResults true vs uncached results e = Returns rs e' ->
  forall i t, In (i, t) uncached ->
    exists j v, In (j, t) uncached /\ rs !! j = Some (Some v) /\ cache e' !! t = Some v.
Proof.
  revert vs results e. induction uncached as [|[i0 t0] rest IH]; intros vs results e Hnd Hlen Hin Hrun i t Hit;
    [destruct Hit|].
  destruct vs as [|v vs]; [simpl in Hlen; lia|].
  simpl in Hrun. unfold Eff.bind, modify in Hrun.
  simpl in Hnd. apply List.NoDup_cons_iff in Hnd as [Hi0 Hnd].
  apply Forall_cons in Hin as [Hlt Hin]. simpl in Hlt.
  assert (Hin' : Forall (fun it => (fst it < List.length (<[i0 := Some v]> results))%nat) rest).
  { eapply Forall_impl; [exact Hin|]. intros it Hx. now rewrite length_insert. }
  assert (Hlen' : (List.length rest <= List.length vs)%nat) by (simpl in Hlen; lia).
  assert (Hrest : forall i t, In (i, t) rest ->
            exists j v, In (j, t) ((i0, t0) :: rest) /\ rs !! j = Some (Some v)
                        /\ cache e' !! t = Some v).
  { intros i' t' Hi'. destruct (IH vs _ _ Hnd Hlen' Hin' Hrun i' t' Hi') as (j & w & Hj & Hr & Hc).
    exists j, w. split; [now right|]. split; assumption. }
  destruct Hit as [[= <- <-]|Hit]; [|now apply (Hrest i t)].
  destruct (in_dec string_dec t0 (map snd rest)) as [Hdup|Hfresh].
  - apply in_map_iff in Hdup as ([j t'] & Ht' & Hj). simpl in Ht'. subst t'.
    now apply (Hrest j t0).
  - destruct (fillResults_returns true vs rest (<[i0 := Some v]> results) (cacheSet t0 v e))
      as (rs' & e'' & Hrun' & _ & _ & _ & _ & _ & Hrs & Hca).
    rewrite Hrun in Hrun'. injection Hrun' as <- <-.
    exists i0, v. split; [now left|]. split.
    + rewrite Hrs by assumption. now apply list_lookup_insert_eq.
    + rewrite Hca by assumption. simpl. apply lookup_insert_eq.
Qed.

Lemma fillResults_short (enabled : bool) (vs : list (list Q)) (uncached : list (nat * string))
    (results rs : list (option (list Q))) (e e' : OpenRouterEmbedder W) :
  List.NoDup (map fst uncached) ->
  (List.length vs < List.length uncached)%nat ->
  Forall (fun it => results !! fst it = Some None) uncached ->
  fillResults enabled vs uncached results e = Returns rs e' ->
  exists i, rs !! i = Some None.
Proof.
  revert uncached results e. induction vs as [|v vs IH]; intros uncached results e Hnd Hlen Hnone Hrun.
  - destruct uncached as [|[i t] rest]; [simpl in Hlen; lia|].
    simpl in Hrun. injection Hrun as <- <-.
    apply Forall_cons in Hnone as [Hi _]. eauto.
  - destruct uncached as [|[i0 t0] rest]; [simpl in Hlen; lia|].
    simpl in Hrun. unfold Eff.bind in Hrun.
    simpl in Hnd. apply List.NoDup_cons_iff in Hnd as [Hi0 Hnd].
    apply Forall_cons in Hnone as [_ Hnone].
    assert (Hstep : exists e1, (if enabled then modify (cacheSet t0 v) else ret tt) e
                               = Returns tt e1).
    { destruct enabled; eexists; reflexivity. }
    destruct Hstep as [e1 Hstep]. rewrite Hstep in Hrun.
    apply (IH rest (<[i0 := Some v]> results) e1); [assumption|simpl in Hlen; lia| |assumption].
    apply List.Forall_forall. intros [j t] Hj. simpl.
    rewrite List.Forall_forall in Hnone. specialize (Hnone _ Hj). simpl in Hnone.
    rewrite list_lookup_insert_ne; [assumption|].
    intros ->. apply Hi0. apply in_map_iff. exists (j, t). auto.
Qed.

(** A batch that came back complete leaves every one of its texts in an
    enabled cache: [embed] of a text of the batch then returns one of
    the vectors of the batch, without a request and without a change of
    the embedder. *)
Theorem embedBatch_then_embed (texts : list string) (e e' : OpenRouterEmbedder W)
    (rs : list (option (list Q))) :
  cacheEnabled e = true ->
  embedBatch texts e = Returns rs e' ->
  Forall (fun r => r <> None) rs ->
  Forall (fun t => exists v, In (Some v) rs /\ embed t e' = Returns v e') texts.
Proof.
  intros Hon Hrun Hfull.
  assert (Hno : forall i, rs !! i <> Some None).
  { intros i Hi. apply list_elem_of_lookup_2, list_elem_of_In in Hi.
    rewrite List.Forall_forall in Hfull. now apply (Hfull None). }
  assert (Hlook : forall t, lookupCache e t = cache e !! t).
  { intros t. unfold lookupCache. now rewrite Hon. }
  apply List.Forall_forall. intros t Ht.
  apply list_elem_of_In, list_elem_of_lookup in Ht as [i Hi].
  destruct texts as [|t0 texts]; [discriminate|].
  rewrite embedBatch_steps in Hrun.
  destruct (uncachedOf (t0 :: texts) e) as [|u uncached] eqn:Eu.
  - injection Hrun as <- <-.
    pose proof (lookupCache_at _ e _ _ Hi) as Hr.
    destruct (lookupCache e t) as [v|] eqn:Ev; [|now apply Hno in Hr].
    exists v. split; [now apply list_elem_of_lookup_2, list_elem_of_In in Hr|].
    apply embed_hit. split; [assumption|]. now rewrite <- Hlook.
  - rewrite <- Eu in *.
    destruct (callEmbeddings _ (client e)) as [resp c'|err c']; [|discriminate].
    rewrite Hon in Hrun.
    set (e1 := countCall (usage resp) (setClient c' e)) in *.
    set (results := map (lookupCache e) (t0 :: texts)) in *.
    destruct (fillResults_returns true (data resp) (uncachedOf (t0 :: texts) e) results e1)
      as (rs' & e'' & Hrun' & _ & _ & _ & _ & Hen & Hrs & Hca).
    rewrite Hrun in Hrun'. injection Hrun' as <- <-.
    assert (Hen' : cacheEnabled e' = true) by (rewrite Hen; exact Hon).
    assert (Hnone : Forall (fun it => results !! fst it = Some None) (uncachedOf (t0 :: texts) e)).
    { apply List.Forall_forall. intros [j x] Hj. simpl.
      apply uncachedOf_In in Hj as [Hj Hx]. unfold results.
      rewrite (lookupCache_at _ e _ _ Hj). now rewrite Hx. }
    destruct (Nat.lt_ge_cases (List.length (data resp)) (List.length (uncachedOf (t0 :: texts) e)))
      as [Hshort|Hlong].
    { destruct (fillResults_short true _ _ _ _ _ _ (uncachedOf_NoDup _ e) Hshort Hnone Hrun)
        as [j Hj]. now apply Hno in Hj. }
    destruct (lookupCache e t) as [v|] eqn:Ev.
    + assert (Hnotin : forall j, ~ In (j, t) (uncachedOf (t0 :: texts) e)).
      { intros j Hj. apply uncachedOf_In in Hj as [_ Hx]. congruence. }
      exists v. split.
      * assert (Hr : rs !! i = Some (Some v)).
        { rewrite Hrs.
          - unfold results. rewrite (lookupCache_at _ e _ _ Hi). now rewrite Ev.
          - intros Hin. apply in_map_iff in Hin as ([j x] & Hj & Hin). simpl in Hj. subst j.
            apply uncachedOf_In in Hin as [Hi' Hx]. congruence. }
        now apply list_elem_of_lookup_2, list_elem_of_In in Hr.
      * apply embed_hit. split; [assumption|]. rewrite Hca.
        -- unfold e1. simpl. now rewrite <- Hlook.
        -- intros Hin. apply in_map_iff in Hin as ([j x] & Hx & Hin). simpl in Hx. subst x.
           now apply (Hnotin j).
    + assert (Hin : In (i, t) (uncachedOf (t0 :: texts) e)) by (apply uncachedOf_In; auto).
      assert (Hlt : Forall (fun it => (fst it < List.length results)%nat)
                           (uncachedOf (t0 :: texts) e)).
      { apply List.Forall_forall. intros [j x] Hj. simpl.
        apply uncachedOf_In in Hj as [Hj _]. unfold results. rewrite length_map.
        now apply lookup_lt_Some in Hj. }
      destruct (fillResults_filled _ _ _ _ _ _ (uncachedOf_NoDup _ e) Hlong Hlt Hrun i t Hin)
        as (j & v & _ & Hr & Hc).
      exists v. split; [now apply list_elem_of_lookup_2, list_elem_of_In in Hr|].
      apply embed_hit. split; assumption.
Qed.

End BatchFacts.


(** ** The normalizer: what it keeps, what a failure leaves, reset *)

Section CarryFacts.
Import Remote Utils Storage Embeddings Llm LiteMem NormalizerSpec CarrySpec.
Context {W : Type} {UP : Upstream W} {RT : JsRuntime} {PR : Prompts}.

Lemma normalizeOne_carries (msg : Message) (n n' : MessageNormalizer) (o : NormalizedMessage) :
  normalizeOne msg n = Returns o n' -> carries msg o /\ offsetMs n' = offsetMs n.
Proof.
  unfold normalizeOne.
  destruct (msgTimeStamp msg) as [rawTs|] eqn:Ets; simpl; [|discriminate].
  destruct (String.eqb rawTs "") eqn:Ee; simpl; [discriminate|].
  destruct (parseSessionTimestamp rawTs) as [[baseDate wd]|] eqn:Ep; [|discriminate].
  unfold Eff.bind, gets, modify, Eff.ret, throw.
  destruct (match lastTimestampMap n !! rawTs with
            | Some d => addMs d (offsetMs n)
            | None => ValidDate baseDate
            end) as [t|]; [|discriminate].
  intros [= <- <-]. split; [|reflexivity].
  unfold carries. simpl. rewrite Ets. repeat split.
  - now apply String.eqb_neq.
  - eauto.
Qed.

Lemma normalizeOne_offset (msg : Message) (n : MessageNormalizer) :
  offsetMs (stateOf (normalizeOne msg n)) = offsetMs n.
Proof.
  unfold normalizeOne.
  destruct (negb (truthyStr (msgTimeStamp msg))); [reflexivity|].
  destruct (parseSessionTimestamp _) as [[baseDate wd]|]; [|reflexivity].
  unfold Eff.bind, gets, modify, Eff.ret, throw.
  destruct (match lastTimestampMap n !! _ with
            | Some d => addMs d (offsetMs n)
            | None => ValidDate baseDate
            end); reflexivity.
Qed.

Lemma normalizeLoop_carries (msgs : list Message) (acc out : list NormalizedMessage)
    (n n' : MessageNormalizer) :
  normalizeLoop msgs acc n = Returns out n' ->
  exists new, out = (acc ++ new)%list /\ Forall2 carries msgs new /\ offsetMs n' = offsetMs n.
Proof.
  revert acc n. induction msgs as [|msg msgs IH]; intros acc n; simpl.
  - intros [= <- <-]. exists []. rewrite app_nil_r. repeat split. constructor.
  - unfold Eff.bind. destruct (normalizeOne msg n) as [o n1|e n1] eqn:E1; [|discriminate].
    intros Hrun. apply normalizeOne_carries in E1 as [Hc Ho].
    destruct (IH _ _ Hrun) as (new & -> & Hnew & Hoff).
    exists (o :: new). rewrite <- app_assoc. split; [reflexivity|].
    split; [now constructor|congruence].
Qed.

(** [normalizeMessages], when it returns: one normalized message per
    message, in order, each with the role, content and speaker of its
    message untouched, the marker kept in [sessionTime], the weekday of
    the marker and no sequence number; the offset of the normalizer is
    as it was. *)
Theorem normalizeMessages_keeps_messages (msgs : list Message) (n n' : MessageNormalizer)
    (out : list NormalizedMessage) :
  normalizeMessages msgs n = Returns out n' ->
  Forall2 carries msgs out /\ List.length out = List.length msgs
  /\ offsetMs n' = offsetMs n.
Proof.
  intros Hrun. apply normalizeLoop_carries in Hrun as (new & -> & Hnew & Hoff).
  simpl. split; [exact Hnew|]. split; [|exact Hoff].
  symmetry. eapply Forall2_length. exact Hnew.
Qed.

Lemma normalizeLoop_app (l1 l2 : list Message) (acc out : list NormalizedMessage)
    (n n1 : MessageNormalizer) :
  normalizeLoop l1 acc n = Returns out n1 ->
  normalizeLoop (l1 ++ l2) acc n = normalizeLoop l2 out n1.
Proof.
  revert acc n. induction l1 as [|msg l1 IH]; intros acc n; simpl.
  - now intros [= <- <-].
  - unfold Eff.bind. destruct (normalizeOne msg n) as [o n'|e n']; [apply IH|discriminate].
Qed.

Lemma normalizeOne_refused_exn (msg : Message) (n : MessageNormalizer) :
  refused msg ->
  exists e, normalizeOne msg n = Throws e n
            /\ (e = MissingTimeStamp \/ e = BadSessionTime (default "" (msgTimeStamp msg))).
Proof.
  intros Hr. apply refused_iff in Hr. unfold normalizeOne.
  destruct (truthyStr (msgTimeStamp msg)) eqn:Et; simpl.
  - destruct Hr as [Hr|Hr]; [discriminate|]. rewrite Hr. unfold throw. eauto.
  - unfold throw. eauto.
Qed.

(** A batch that is refused at one of its messages has already moved
    the cursors of the messages before it: the normalizer is left as
    after normalizing those messages alone, and [addMemory] leaves it so
    in the engine. *)
Theorem refused_batch_moves_cursors (good rest : list Message) (bad : Message)
    (n n1 : MessageNormalizer) (out : list NormalizedMessage)
    (options : AddMemoryOptions) (m : LiteMemory W) :
  normalizeMessages good n = Returns out n1 ->
  refused bad ->
  (exists e, normalizeMessages (good ++ bad :: rest) n = Throws e n1
             /\ (e = MissingTimeStamp
                 \/ e = BadSessionTime (default "" (msgTimeStamp bad))))
  /\ (normalizer m = n ->
      normalizer (stateOf (addMemory (good ++ bad :: rest) options m)) = n1).
Proof.
  intros Hgood Hbad.
  destruct (normalizeOne_refused_exn bad n1 Hbad) as (e & He & Hform).
  assert (Hrun : normalizeMessages (good ++ bad :: rest) n = Throws e n1).
  { unfold normalizeMessages in *. rewrite (normalizeLoop_app _ _ _ _ _ _ Hgood).
    simpl. unfold Eff.bind. now rewrite He. }
  split; [eauto|].
  intros <-. unfold addMemory, Eff.bind at 1, zoom. rewrite Hrun. reflexivity.
Qed.

Lemma normalizeLoop_offset (msgs : list Message) (acc : list NormalizedMessage)
    (n : MessageNormalizer) :
  offsetMs (stateOf (normalizeLoop msgs acc n)) = offsetMs n.
Proof.
  revert acc n. induction msgs as [|msg msgs IH]; intros acc n; simpl; [reflexivity|].
  unfold Eff.bind. pose proof (normalizeOne_offset msg n) as Ho.
  destruct (normalizeOne msg n) as [o n1|e n1]; simpl in *; [|exact Ho].
  now rewrite IH.
Qed.

Lemma normalizeAll_offset (batches : list (list Message)) (n : MessageNormalizer) :
  offsetMs (stateOf (normalizeAll batches n)) = offsetMs n.
Proof.
  revert n. induction batches as [|batch batches IH]; intros n; simpl; [reflexivity|].
  unfold Eff.bind. pose proof (normalizeLoop_offset batch [] n) as Ho.
  unfold normalizeMessages.
  destruct (normalizeLoop batch [] n) as [o n1|e n1]; simpl in *; [|exact Ho].
  specialize (IH n1). destruct (normalizeAll batches n1) as [os n2|e n2]; simpl in *; congruence.
Qed.

(** [reset] after any batches, returned or refused, gives back the
    normalizer as it was made: no marker has a cursor and the offset is
    the one of the constructor, so the next message of any marker gets
    the parsed instant of the marker again. *)
Theorem reset_restores_new (offset : option Z) (batches : list (list Message)) :
  stateOf (reset (stateOf (normalizeAll batches (newMessageNormalizer offset))))
  = newMessageNormalizer offset.
Proof.
  unfold reset, modify. simpl. rewrite normalizeAll_offset. reflexivity.
Qed.

End CarryFacts.

(** ** The LLM manager: requests and failures *)

Section LlmFacts.
Import Remote Utils Storage Embeddings Llm LiteMem RequestSpec.
Context {W : Type} {UP : Upstream W} {RT : JsRuntime} {PR : Prompts}.

Lemma callChat_cases (req : ChatRequest) (c : Client W) :
  (exists resp c', callChat req c = Returns resp c'
                   /\ sent c' = (sent c ++ [ChatCompletionsCreate req])%list)
  \/ (exists c', callChat req c = Throws UpstreamError c'
                 /\ sent c' = (sent c ++ [ChatCompletionsCreate req])%list).
Proof.
  unfold callChat. destruct (chat_completions_create req (remote c)) as [w [resp|]].
  - left. eexists. eexists. split; reflexivity.
  - right. eexists. split; reflexivity.
Qed.

(** [generateResponse] sends its request and changes nothing but the
    client; it throws only when the provider refuses. *)
Lemma generateResponse_cases (messages : list ChatMessage) (l : OpenRouterManager W) :
  exists c', sent c' = (sent (llmClient l) ++ [chatRequest (llmConfig l) messages])%list
             /\ ((exists r, generateResponse messages (Some "json_object") l
                            = Returns r (setLlmClient c' l))
                 \/ generateResponse messages (Some "json_object") l
                    = Throws UpstreamError (setLlmClient c' l)).
Proof.
  unfold generateResponse, Eff.bind, gets, zoom, chatRequest.
  destruct (callChat_cases
              {| cr_model := llmModel (llmConfig l); cr_messages := messages;
                 cr_max_tokens := match maxTokens (llmConfig l) with
                                  | Some n => if n =? 0 then 4096 else n
                                  | None => 4096
                                  end;
                 cr_response_format := Some "json_object" |} (llmClient l))
    as [(resp & c' & -> & Hs)|(c' & -> & Hs)]; exists c'; split; try exact Hs.
  - left. eexists. reflexivity.
  - right. reflexivity.
Qed.

(** The body of [metaTextExtract] for one segment. *)
Lemma extractSegment_cases (mu : MessagesUse) (topicIdx : nat) (segment : list NormalizedMessage)
    (l : OpenRouterManager W) :
  exists c' r,
    extractSegment mu topicIdx segment l = Returns r (setLlmClient c' l)
    /\ sent c' = (sent (llmClient l)
                    ++ [chatRequest (llmConfig l) (extractionMessages mu topicIdx segment)])%list
    /\ (r = failedExtraction
        \/ (exists reply usage,
              r = {| inputPrompt := extractionMessages mu topicIdx segment;
                     outputPrompt := reply;
                     cleanedResult := cleanResponse reply;
                     extractionUsage := Some usage |})).
Proof.
  unfold extractSegment, tryCatch, Eff.bind at 1.
  fold (extractionMessages mu topicIdx segment).
  destruct (generateResponse_cases (extractionMessages mu topicIdx segment) l)
    as (c' & Hs & [[r ->]| ->]); exists c'.
  - eexists. split; [reflexivity|]. split; [exact Hs|]. right. eauto.
  - eexists. split; [reflexivity|]. split; [exact Hs|]. now left.
Qed.

(** The facts of the result for a segment are the cleaned reply, and
    none when the request was refused. *)
Lemma extractSegment_facts (mu : MessagesUse) (topicIdx : nat)
    (segment : list NormalizedMessage) (l : OpenRouterManager W) :
  exists c' r,
    extractSegment mu topicIdx segment l = Returns r (setLlmClient c' l)
    /\ cleanedResult r
       = match generateResponse (extractionMessages mu topicIdx segment)
                                (Some "json_object") l with
         | Returns x _ => cleanResponse (fst x)
         | Throws _ _ => []
         end.
Proof.
  unfold extractSegment, tryCatch, Eff.bind at 1.
  fold (extractionMessages mu topicIdx segment).
  destruct (generateResponse_cases (extractionMessages mu topicIdx segment) l)
    as (c' & Hs & [[r ->]| ->]); exists c'; eexists; split; reflexivity.
Qed.

Lemma extractFrom_cases (mu : MessagesUse) (segments : list (list NormalizedMessage)) :
  forall (topicIdx : nat) (results : list ExtractionResult) (l : OpenRouterManager W),
  exists c' new,
    extractFrom mu topicIdx segments results l = Returns (results ++ new)%list (setLlmClient c' l)
    /\ sent c' = (sent (llmClient l)
                    ++ imap (fun i seg => chatRequest (llmConfig l)
                                            (extractionMessages mu (topicIdx + i) seg))
                            segments)%list
    /\ Forall2 (fun seg r =>
                  r = failedExtraction
                  \/ (exists i reply usage,
                        r = {| inputPrompt := extractionMessages mu i seg;
                               outputPrompt := reply;
                               cleanedResult := cleanResponse reply;
                               extractionUsage := Some usage |}))
               segments new.
Proof.
  induction segments as [|seg segments IH]; intros topicIdx results l; simpl.
  - exists (llmClient l), []. rewrite !app_nil_r. destruct l. repeat split. constructor.
  - unfold Eff.bind.
    destruct (extractSegment_cases mu topicIdx seg l) as (c1 & r & -> & Hs1 & Hr).
    destruct (IH (S topicIdx) (results ++ [r])%list (setLlmClient c1 l))
      as (c' & new & -> & Hs & Hnew).
    exists c', (r :: new). rewrite <- app_assoc. split; [reflexivity|]. split.
    + rewrite Hs. simpl. rewrite Hs1, <- app_assoc. simpl. rewrite Nat.add_0_r.
      f_equal. f_equal. apply imap_ext. intros i x _. simpl. f_equal. f_equal. lia.
    + constructor; [|exact Hnew].
      destruct Hr as [->|(reply & usage & ->)]; [now left|right; eauto].
Qed.

(** [metaTextExtract] never throws.  It returns one result per segment,
    in order, after sending one request per segment, in order; a
    segment whose request the provider refused gets the empty result
    without usage, and the segments after it are still processed.  No
    segment means no request. *)
Theorem metaTextExtract_one_result_per_segment (segments : list (list NormalizedMessage))
    (mu : MessagesUse) (l : OpenRouterManager W) :
  exists rs l',
    metaTextExtract segments mu l = Returns rs l'
    /\ List.length rs = List.length segments
    /\ llmConfig l' = llmConfig l
    /\ sent (llmClient l')
       = (sent (llmClient l)
            ++ imap (fun i seg => chatRequest (llmConfig l) (extractionMessages mu i seg))
                    segments)%list
    /\ Forall (fun r => r = failedExtraction \/ extractionUsage r <> None) rs.
Proof.
  unfold metaTextExtract.
  destruct (extractFrom_cases mu segments O [] l) as (c' & new & -> & Hs & Hnew).
  exists new, (setLlmClient c' l). split; [reflexivity|].
  split; [symmetry; eapply Forall2_length; exact Hnew|].
  split; [reflexivity|]. split; [exact Hs|].
  clear Hs. induction Hnew as [|seg r segs rs Hr _ IH]; constructor; [|exact IH].
  destruct Hr as [->|(i & reply & usage & ->)]; [now left|right; discriminate].
Qed.

(** [concatenateMessages] reads a segment through the role filter: a
    segment that [filterMessagesByRole] has already filtered, as the
    one [addMemory] passes, gives the same text, and a message of role
    [system] never adds a line, whatever the strategy. *)
Theorem concatenateMessages_filters (segment : list NormalizedMessage) (mu : MessagesUse) :
  concatenateMessages (filterMessagesByRole mu segment) mu = concatenateMessages segment mu
  /\ concatenateMessages
       (List.filter (fun msg => negb (MessageRole_eqb (role msg) system)) segment) mu
     = concatenateMessages segment mu
  /\ (Forall (fun msg => role msg = system) segment -> concatenateMessages segment mu = "").
Proof.
  unfold concatenateMessages, filterMessagesByRole. split; [|split].
  - f_equal. f_equal. induction segment as [|msg segment IH]; simpl; [reflexivity|].
    destruct (allowedRoles mu (role msg)) eqn:E; simpl; [rewrite E|]; now rewrite IH.
  - f_equal. f_equal. induction segment as [|msg segment IH]; simpl; [reflexivity|].
    destruct (role msg) eqn:Er; simpl; rewrite ?Er; rewrite IH; try reflexivity.
    now destruct mu.
  - intros Hall. induction Hall as [|msg segment Hr _ IH]; simpl; [reflexivity|].
    rewrite Hr. destruct mu; exact IH.
Qed.

(** [callUpdateLlm] sends its one request and leaves the configuration;
    it always returns. *)
Lemma callUpdateLlm_state (tm : string) (cms : list string) (l : OpenRouterManager W) :
  exists r c',
    callUpdateLlm tm cms l = Returns r (setLlmClient c' l)
    /\ sent c' = (sent (llmClient l) ++ [chatRequest (llmConfig l) (updateMessages tm cms)])%list
    /\ (generateResponse (updateMessages tm cms) (Some "json_object") l
        = Throws UpstreamError (setLlmClient c' l) ->
        r = {| action := JStr "ignore"; newMemory := JUndefined; updateUsage := None |}).
Proof.
  unfold callUpdateLlm, tryCatch, decideUpdate, Eff.bind at 1.
  destruct (generateResponse_cases (updateMessages tm cms) l) as (c' & Hs & [[r Hr]|Hr]);
    rewrite Hr.
  - destruct (JSON_parse (fst r)) as [result|].
    + destruct (getProp result "action") as [act|].
      * destruct (negb (truthy act)); eexists; exists c'; (split; [reflexivity|]);
          (split; [exact Hs|]); discriminate.
      * eexists. exists c'. split; [reflexivity|]. split; [exact Hs|]. discriminate.
    + eexists. exists c'. split; [reflexivity|]. split; [exact Hs|]. discriminate.
  - eexists. exists c'. split; [reflexivity|]. split; [exact Hs|]. reflexivity.
Qed.

End LlmFacts.

(** ** Consolidation: what the two phases send and what they leave *)

Section PhaseFacts.
Import Remote Utils Storage Embeddings Llm LiteMem.
Import SearchSpec PhaseOneSpec PhaseTwoSpec OriginSpec RequestSpec FrameSpec.
Context {W : Type} {UP : Upstream W} {RT : JsRuntime} {PR : Prompts}.

Lemma sameButMemory_refl (r : MemoryEntry) : sameButMemory r r.
Proof. repeat split. Qed.

Lemma sameButMemory_trans (a b c : MemoryEntry) :
  sameButMemory a b -> sameButMemory b c -> sameButMemory a c.
Proof.
  unfold sameButMemory. intros H1 H2.
  repeat match goal with H : _ /\ _ |- _ => destruct H end.
  repeat split; congruence.
Qed.

Lemma rewritesMemory_refl (st : Store) : rewritesMemory st st.
Proof.
  apply List.Forall_forall. intros r Hr. exists r. split; [exact Hr|apply sameButMemory_refl].
Qed.

Lemma rewritesMemory_trans (a b c : Store) :
  rewritesMemory a b -> rewritesMemory b c -> rewritesMemory a c.
Proof.
  unfold rewritesMemory. rewrite !List.Forall_forall. intros Hab Hbc r3 H3.
  destruct (Hbc r3 H3) as (r2 & H2 & S23). destruct (Hab r2 H2) as (r1 & H1 & S12).
  exists r1. split; [exact H1|]. eapply sameButMemory_trans; eassumption.
Qed.

Lemma rewritesMemory_delete (i : string) (st : Store) : rewritesMemory st (delete i st).
Proof.
  apply List.Forall_forall. intros r Hr. apply delete_In in Hr as [Hr _].
  exists r. split; [exact Hr|apply sameButMemory_refl].
Qed.

Lemma rewritesMemory_update (i text : string) (st : Store) :
  rewritesMemory st (update i (memoryUpdate text) None st).
Proof.
  rewrite update_memory. apply List.Forall_forall. intros r' Hr'.
  apply in_map_iff in Hr' as (r & <- & Hr). exists r. split; [exact Hr|].
  destruct (String.eqb (id r) i); [apply setMemory_sameButMemory|apply sameButMemory_refl].
Qed.

Lemma phaseTwoFrame_refl (m : LiteMemory W) : phaseTwoFrame m m.
Proof. unfold phaseTwoFrame. split; [apply rewritesMemory_refl|]. repeat split. Qed.

Lemma phaseTwoFrame_trans (a b c : LiteMemory W) :
  phaseTwoFrame a b -> phaseTwoFrame b c -> phaseTwoFrame a c.
Proof.
  unfold phaseTwoFrame. intros (R1 & H1) (R2 & H2).
  split; [eapply rewritesMemory_trans; eassumption|].
  repeat match goal with H : _ /\ _ |- _ => destruct H end.
  repeat split; congruence.
Qed.

Lemma applyAction_phaseTwoFrame (t : MemoryEntry) (r : UpdateResult) (m : LiteMemory W) :
  phaseTwoFrame m (stateOf (applyAction t r m)).
Proof.
  unfold applyAction.
  destruct (strictEqStr (action r) "delete").
  { simpl. split; [apply rewritesMemory_delete|]. repeat split. }
  destruct (strictEqStr (action r) "update" && truthy (newMemory r));
    [|apply phaseTwoFrame_refl].
  destruct (sqlText (newMemory r)) as [text|]; [|apply phaseTwoFrame_refl].
  simpl. split; [apply rewritesMemory_update|]. repeat split.
Qed.

(** One iteration of phase 2: its request and its frame. *)
Lemma decideEntry_step (thr : Q) (snapshot : list MemoryEntry) (t : MemoryEntry)
    (m : LiteMemory W) :
  let m' := stateOf (decideEntry thr snapshot t m) in
  sent (llmClient (llmManager m'))
  = (sent (llmClient (llmManager m))
       ++ (if cited thr snapshot t
           then [updateRequest (llmConfig (llmManager m)) thr snapshot t] else []))%list
  /\ phaseTwoFrame m m'.
Proof.
  cbv zeta. unfold cited, updateRequest.
  destruct (candidateSources thr snapshot t) as [|s0 sources] eqn:Es.
  { unfold decideEntry. rewrite Es. simpl. rewrite app_nil_r.
    split; [reflexivity|apply phaseTwoFrame_refl]. }
  assert (Hsrc : candidateSources thr snapshot t <> []) by (rewrite Es; discriminate).
  destruct (decideEntry_sources thr snapshot t m Hsrc) as (r & l' & Hcall & ->).
  rewrite Es in Hcall.
  destruct (callUpdateLlm_state (memory t) (map memory (s0 :: sources)) (llmManager m))
    as (r0 & c' & Hcall' & Hs & _).
  rewrite Hcall in Hcall'. injection Hcall' as <- ->.
  set (m1 := setLlmManager (setLlmClient c' (llmManager m)) m).
  assert (Htrack : vectorStore (stateOf (trackUpdate (updateUsage r) m1)) = vectorStore m
                   /\ llmManager (stateOf (trackUpdate (updateUsage r) m1))
                      = setLlmClient c' (llmManager m)
                   /\ embedder (stateOf (trackUpdate (updateUsage r) m1)) = embedder m
                   /\ messageBuffer (stateOf (trackUpdate (updateUsage r) m1)) = messageBuffer m
                   /\ normalizer (stateOf (trackUpdate (updateUsage r) m1)) = normalizer m
                   /\ config (stateOf (trackUpdate (updateUsage r) m1)) = config m
                   /\ host (stateOf (trackUpdate (updateUsage r) m1)) = host m
                   /\ addMemoryStats (tokenStats (stateOf (trackUpdate (updateUsage r) m1)))
                      = addMemoryStats (tokenStats m)).
  { unfold trackUpdate. destruct (updateUsage r); repeat split. }
  set (m2 := stateOf (trackUpdate (updateUsage r) m1)) in *.
  destruct Htrack as (Hst & Hl & He & Hb & Hn & Hc & Hh & Hstat).
  destruct (applyAction_phaseTwoFrame t r m2) as (Rst & Rl & Re & Rb & Rn & Rc & Rh & Rstat).
  pose proof (applyAction_frame t r m2) as Hframe.
  split.
  - rewrite Hframe. simpl. rewrite Hl. simpl. exact Hs.
  - unfold phaseTwoFrame. rewrite Rl, Re, Rb, Rn, Rc, Rh, Rstat.
    rewrite Hl, He, Hb, Hn, Hc, Hh, Hstat. rewrite Hst in Rst.
    split; [exact Rst|]. repeat split.
Qed.

Lemma offline_loop_requests (thr : Q) (snapshot : list MemoryEntry) (l : list MemoryEntry) :
  forall (m m' : LiteMemory W),
    forEach l (decideEntry thr snapshot) m = Returns tt m' ->
    sent (llmClient (llmManager m'))
    = (sent (llmClient (llmManager m))
         ++ map (updateRequest (llmConfig (llmManager m)) thr snapshot)
                (List.filter (cited thr snapshot) l))%list.
Proof.
  induction l as [|t l IH]; intros m m'; simpl.
  - intros [= <-]. now rewrite app_nil_r.
  - unfold Eff.bind. destruct (decideEntry_step thr snapshot t m) as (Hs & _ & Hcfg & _).
    destruct (decideEntry thr snapshot t m) as [[] m1|e m1]; [|discriminate].
    simpl in Hs, Hcfg. intros Hrun. rewrite (IH _ _ Hrun), Hs, Hcfg, <- app_assoc.
    f_equal. now destruct (cited thr snapshot t).
Qed.

(** Phase 2, when it returns, has sent one request per target that a
    queue of the snapshot cites at or above the threshold, in the order
    of the table and with the memories of the snapshot, and no request
    for any other row; the embedder has sent nothing. *)
Theorem offline_update_requests (scoreThreshold : option Q) (m m' : LiteMemory W) :
  offlineUpdateAllEntries scoreThreshold m = Returns tt m' ->
  let thr := default (9 # 10)%Q scoreThreshold in
  let snapshot := vectorStore m in
  sent (llmClient (llmManager m'))
  = (sent (llmClient (llmManager m))
       ++ map (updateRequest (llmConfig (llmManager m)) thr snapshot)
              (List.filter (cited thr snapshot) snapshot))%list
  /\ sent (client (embedder m')) = sent (client (embedder m)).
Proof.
  unfold offlineUpdateAllEntries, Eff.bind, gets. rewrite getAll_true.
  destruct (vectorStore m) as [|r st] eqn:Est.
  - intros [= <-]. simpl. now rewrite app_nil_r.
  - intros Hrun. simpl. split.
    + rewrite (offline_loop_requests _ _ _ _ _ Hrun). reflexivity.
    + pose proof (forEach_keeps phaseTwoFrame
                    (decideEntry (default (9 # 10)%Q scoreThreshold) (r :: st))
                    phaseTwoFrame_refl phaseTwoFrame_trans
                    (fun x s => proj2 (decideEntry_step _ _ x s)) (r :: st) m) as Hk.
      rewrite Hrun in Hk. simpl in Hk. destruct Hk as (_ & _ & He & _). now rewrite He.
Qed.

(** Phase 2, however it ends, only drops rows and rewrites the field
    [memory] of rows: every row of the table afterwards is a row of the
    table before with every other field, the queue and the vector
    included, as it was.  The embedder, the message buffer, the
    normalizer and the statistics of [addMemory] are untouched. *)
Theorem offline_update_only_rewrites_memory (scoreThreshold : option Q) (m : LiteMemory W) :
  let m' := stateOf (offlineUpdateAllEntries scoreThreshold m) in
  Forall (fun r' => exists r, In r (vectorStore m) /\ sameButMemory r r') (vectorStore m')
  /\ embedder m' = embedder m /\ messageBuffer m' = messageBuffer m
  /\ normalizer m' = normalizer m
  /\ addMemoryStats (tokenStats m') = addMemoryStats (tokenStats m).
Proof.
  assert (Hk : phaseTwoFrame m (stateOf (offlineUpdateAllEntries scoreThreshold m))).
  { unfold offlineUpdateAllEntries, Eff.bind, gets.
    destruct (getAll true (vectorStore m)) as [|r st]; [apply phaseTwoFrame_refl|].
    apply (forEach_keeps phaseTwoFrame _ phaseTwoFrame_refl phaseTwoFrame_trans).
    intros x s. apply decideEntry_step. }
  destruct Hk as (Hst & _ & He & Hb & Hn & _ & _ & Hstat). repeat split; assumption.
Qed.

(** *** Phase 1 *)

Lemma queuesOnly_refl (m : LiteMemory W) : queuesOnly m m.
Proof. split; [apply Forall2_sameButQueue_refl|now destruct m]. Qed.

Lemma queuesOnly_trans (a b c : LiteMemory W) :
  queuesOnly a b -> queuesOnly b c -> queuesOnly a c.
Proof.
  intros [R1 E1] [R2 E2]. split; [eapply Forall2_sameButQueue_trans; eassumption|].
  rewrite E2, E1. reflexivity.
Qed.

Lemma queueEntry_queuesOnly (topK keepTopN : Z) (e : MemoryEntry) (m : LiteMemory W) :
  queuesOnly m (stateOf (queueEntry topK keepTopN e m)).
Proof.
  unfold queueEntry. destruct (embedding e) as [emb|]; [|apply queuesOnly_refl].
  unfold Eff.bind, storeSearch, storeUpdate, modify.
  destruct (search emb topK (Some (notAfter e)) (vectorStore m)); simpl;
    [|apply queuesOnly_refl].
  split; [apply update_queue_Forall2|reflexivity].
Qed.

(** Phase 1, however it ends, rewrites queues and nothing else: the
    table has the same rows in the same order, each with every field
    but [updateQueue] as it was, and the rest of the engine is as it
    was -- no provider is asked anything. *)
Theorem phase1_only_rewrites_queues (topK keepTopN : option Z) (m : LiteMemory W) :
  let m' := stateOf (constructUpdateQueueAllEntries topK keepTopN m) in
  Forall2 sameButQueue (vectorStore m) (vectorStore m')
  /\ m' = setStore (vectorStore m') m.
Proof.
  cbv zeta. fold (queuesOnly m (stateOf (constructUpdateQueueAllEntries topK keepTopN m))).
  unfold constructUpdateQueueAllEntries, Eff.bind, gets.
  destruct (getAll true (vectorStore m)) as [|r st]; [apply queuesOnly_refl|].
  apply (forEach_keeps queuesOnly _ queuesOnly_refl queuesOnly_trans).
  intros x s. apply queueEntry_queuesOnly.
Qed.

Lemma StronglySorted_filter {A : Type} (R : A -> A -> Prop) (p : A -> bool) (l : list A) :
  StronglySorted R l -> StronglySorted R (List.filter p l).
Proof.
  induction l as [|x l IH]; intros Hs; simpl; [constructor|].
  apply StronglySorted_inv in Hs as [Hl Hx].
  destruct (p x); [|now apply IH].
  constructor; [now apply IH|].
  apply List.Forall_forall. intros y Hy. apply filter_In in Hy as [Hy _].
  rewrite List.Forall_forall in Hx. now apply Hx.
Qed.

Lemma StronglySorted_map {A B : Type} (f : A -> B) (R : A -> A -> Prop) (R' : B -> B -> Prop)
    (l : list A) :
  (forall a b, R a b -> R' (f a) (f b)) ->
  StronglySorted R l -> StronglySorted R' (map f l).
Proof.
  intros Hf. induction l as [|x l IH]; intros Hs; simpl; [constructor|].
  apply StronglySorted_inv in Hs as [Hl Hx].
  constructor; [now apply IH|].
  apply List.Forall_forall. intros y Hy. apply in_map_iff in Hy as (a & <- & Ha).
  rewrite List.Forall_forall in Hx. apply Hf. now apply Hx.
Qed.

Lemma search_length (q : list Q) (k : Z) (filters : option RetrieveFilters) (st : Store)
    (hits : list SearchResult) :
  0 <= k -> search q k filters st = Some hits -> Z.of_nat (List.length hits) <= k.
Proof.
  intros Hk. unfold search. destruct (scoreEntries q filters (getAll true st)); [|discriminate].
  simpl. intros [= <-]. now apply slice0_length.
Qed.

Lemma candidatesOf_bounds (keepTopN : Z) (e : MemoryEntry) (hits : list SearchResult) :
  0 <= keepTopN ->
  StronglySorted scoreDesc hits ->
  Z.of_nat (List.length (candidatesOf keepTopN e hits)) <= keepTopN
  /\ (List.length (candidatesOf keepTopN e hits) <= List.length hits)%nat
  /\ StronglySorted candDesc (candidatesOf keepTopN e hits).
Proof.
  intros Hk Hs. unfold candidatesOf. rewrite length_map. split; [now apply slice0_length|].
  split.
  - unfold slice0. destruct (keepTopN <? 0); rewrite length_firstn;
      pose proof (List.filter_length_le (fun h => negb (String.eqb (hitId h) (id e))) hits); lia.
  - apply (StronglySorted_map _ scoreDesc); [intros a b Hab; exact Hab|].
    apply slice0_sorted. now apply StronglySorted_filter.
Qed.

(** After phase 1, on a table whose rows all carry a vector and with
    limits that are not negative, the queue of every row holds at most
    [keepTopN] candidates, and no more than [topK], in descending order
    of score. *)
Theorem phase1_queue_bounds (topK keepTopN : option Z) (m m' : LiteMemory W) :
  allEmbedded (vectorStore m) ->
  0 <= default 20 topK ->
  0 <= default 10 keepTopN ->
  constructUpdateQueueAllEntries topK keepTopN m = Returns tt m' ->
  Forall (fun r => Z.of_nat (List.length (updateQueue r)) <= default 10 keepTopN
                   /\ Z.of_nat (List.length (updateQueue r)) <= default 20 topK
                   /\ StronglySorted candDesc (updateQueue r))
         (vectorStore m').
Proof.
  intros Hemb HtopK Hkeep Hrun. apply List.Forall_forall. intros r' Hin.
  destruct (phase1_queue _ _ _ _ _ Hemb Hrun Hin)
    as (r & e & emb & mid & hits & _ & _ & _ & _ & _ & _ & Hs & ->).
  pose proof (search_length _ _ _ _ _ HtopK Hs) as Hlen.
  apply search_sound in Hs as [_ Hsorted].
  destruct (candidatesOf_bounds (default 10 keepTopN) e hits Hkeep Hsorted) as (H1 & H2 & H3).
  split; [exact H1|]. split; [lia|exact H3].
Qed.

(** *** The decision on a target *)

Lemma get_unique (st : Store) (t : MemoryEntry) :
  uniqueIds st -> In t st -> get (id t) st = Some t.
Proof.
  intros Hu Hin. unfold get.
  destruct (List.find (fun r => String.eqb (id r) (id t)) st) as [r|] eqn:Ef.
  - apply find_some in Ef as [Hr Hid]. apply String.eqb_eq in Hid.
    f_equal. eapply uniqueIds_eq; eauto.
  - pose proof (find_none _ _ Ef t Hin) as Hne. simpl in Hne.
    now rewrite String.eqb_refl in Hne.
Qed.

Lemma get_In (i : string) (st : Store) (r : MemoryEntry) :
  get i st = Some r -> In r st /\ id r = i.
Proof.
  unfold get. intros Hf. apply find_some in Hf as [Hr Hid].
  apply String.eqb_eq in Hid. auto.
Qed.

Lemma uniqueIds_split (pre post : list MemoryEntry) (t : MemoryEntry) :
  uniqueIds (pre ++ t :: post)%list ->
  Forall (fun p => id p <> id t) pre /\ Forall (fun p => id p <> id t) post.
Proof.
  unfold uniqueIds. rewrite map_app. simpl. intros Hnd.
  apply List.NoDup_remove_2 in Hnd.
  split; apply List.Forall_forall; intros p Hp Hid; apply Hnd, in_or_app;
    [left|right]; rewrite <- Hid; now apply in_map.
Qed.

Lemma get_update_other (i j : string) (updates : PartialMemoryEntry) (emb : option (list Q))
    (st : Store) :
  j <> i -> get j (update i updates emb st) = get j st.
Proof.
  intros Hne. unfold update. destruct (Nat.eqb _ 0); [reflexivity|].
  unfold get. induction st as [|r st IH]; simpl; [reflexivity|].
  destruct (String.eqb (id r) i) eqn:Ei; simpl.
  - apply String.eqb_eq in Ei. rewrite Ei.
    assert (Hij : String.eqb i j = false) by (apply String.eqb_neq; congruence).
    rewrite Hij. exact IH.
  - destruct (String.eqb (id r) j); [reflexivity|exact IH].
Qed.

(** An iteration of phase 2 leaves the rows of the other ids alone. *)
Lemma decideEntry_other_row (thr : Q) (snapshot : list MemoryEntry) (p : MemoryEntry)
    (m : LiteMemory W) (j : string) :
  id p <> j ->
  get j (vectorStore (stateOf (decideEntry thr snapshot p m))) = get j (vectorStore m).
Proof.
  intros Hne. destruct (candidateSources thr snapshot p) as [|s0 rest] eqn:Es.
  - unfold decideEntry. rewrite Es. reflexivity.
  - assert (Hsrc : candidateSources thr snapshot p <> []) by (rewrite Es; discriminate).
    destruct (decideEntry_decision thr snapshot p m Hsrc)
      as (r & m1 & _ & Hst & _ & _ & _ & ->).
    rewrite <- Hst. unfold applyAction.
    destruct (strictEqStr (action r) "delete").
    { simpl. rewrite get_delete.
      assert (Hj : String.eqb j (id p) = false) by (apply String.eqb_neq; congruence).
      now rewrite Hj. }
    destruct (strictEqStr (action r) "update" && truthy (newMemory r)); [|reflexivity].
    destruct (sqlText (newMemory r)); [|reflexivity].
    simpl. apply get_update_other. congruence.
Qed.

Lemma offline_loop_other_rows (thr : Q) (snapshot : list MemoryEntry) (j : string)
    (l : list MemoryEntry) :
  Forall (fun p => id p <> j) l ->
  forall m : LiteMemory W,
    get j (vectorStore (stateOf (forEach l (decideEntry thr snapshot) m)))
    = get j (vectorStore m).
Proof.
  induction 1 as [|p l Hp _ IH]; intros m; simpl; [reflexivity|].
  unfold Eff.bind. pose proof (decideEntry_other_row thr snapshot p m j Hp) as Hstep.
  destruct (decideEntry thr snapshot p m) as [[] m1|e m1]; simpl in Hstep; [|exact Hstep].
  now rewrite IH.
Qed.

Lemma offline_loop_unique (thr : Q) (snapshot : list MemoryEntry) (l : list MemoryEntry)
    (m : LiteMemory W) :
  uniqueIds (vectorStore m) ->
  uniqueIds (vectorStore (stateOf (forEach l (decideEntry thr snapshot) m))).
Proof.
  apply (forEach_keeps (fun a b : LiteMemory W =>
                          uniqueIds (vectorStore a) -> uniqueIds (vectorStore b))); auto.
  intros x s. apply (invariant_decideEntry uniqueIds).
  - intros i updates emb st. apply uniqueIds_update.
  - intros i st. apply uniqueIds_delete.
Qed.

(** C3 (the decision is applied).  Let [t] be a row of the table
    [offlineUpdateAllEntries] reads at the start, cited in that snapshot
    by at least one source with a score at or above the threshold, on a
    table with its primary key, and let the loop reach [t] (its earlier
    iterations returned).  Then the row of [t] is still the one of the
    snapshot, and the parsed reply decides: with the action "ignore" the
    iteration returns and leaves the table as it is; with "delete" it
    removes the row [t] and no other; with "update" and a string
    [new_memory] that is not empty it sets the [memory] of the row [t] to
    that string, keeps the other fields of the row and the other rows;
    a rejected call or a reply that is not JSON, a missing action and
    any other action leave the table as it is.  The later iterations do
    not touch the row again: when the call is over, [get(t.id)] answers
    the row [t], nothing, or the row [t] with the new memory. *)
Theorem offline_update_applies_decision (scoreThreshold : option Q) (m0 m : LiteMemory W)
    (pre post : list MemoryEntry) (t : MemoryEntry) :
  let thr := default (9 # 10)%Q scoreThreshold in
  let snapshot := vectorStore m0 in
  let body := decideEntry thr snapshot in
  uniqueIds snapshot ->
  snapshot = (pre ++ t :: post)%list ->
  candidateSources thr snapshot t <> [] ->
  forEach pre body m0 = Returns tt m ->
  let reply := parsedReply (llmManager m) (memory t)
                           (map memory (candidateSources thr snapshot t)) in
  let st := vectorStore m in
  let st' := vectorStore (stateOf (body t m)) in
  let final := vectorStore (stateOf (offlineUpdateAllEntries scoreThreshold m0)) in
  get (id t) st = Some t
  /\ (forall v, reply = Some v -> getProp v "action" = Some (JStr "ignore") ->
        returned (body t m) = Some tt /\ st' = st /\ get (id t) final = Some t)
  /\ (forall v, reply = Some v -> getProp v "action" = Some (JStr "delete") ->
        returned (body t m) = Some tt
        /\ (forall r, In r st' <-> In r st /\ r <> t)
        /\ S (count st') = count st
        /\ get (id t) final = None)
  /\ (forall v s, reply = Some v -> getProp v "action" = Some (JStr "update") ->
        getProp v "new_memory" = Some (JStr s) -> s <> "" ->
        returned (body t m) = Some tt
        /\ Forall2 (fun r r' => (r = t -> memory r' = s /\ sameButMemory r r')
                                /\ (r <> t -> r' = r)) st st'
        /\ exists r', get (id t) final = Some r' /\ memory r' = s /\ sameButMemory t r')
  /\ (reply = None ->
        returned (body t m) = Some tt /\ st' = st /\ get (id t) final = Some t)
  /\ (forall v, reply = Some v ->
        (forall a, getProp v "action" = Some a ->
                   a <> JStr "delete" /\ a <> JStr "update") ->
        returned (body t m) = Some tt /\ st' = st /\ get (id t) final = Some t).
Proof.
  intros thr snapshot body Hu Hsnap Hsrc Hpre reply st st' final.
  destruct (uniqueIds_split pre post t) as [Hpre_ids Hpost_ids];
    [rewrite <- Hsnap; exact Hu|].
  assert (Hget : get (id t) st = Some t).
  { pose proof (offline_loop_other_rows thr snapshot (id t) pre Hpre_ids m0) as Hrow.
    fold body in Hrow. rewrite Hpre in Hrow. simpl in Hrow. subst st. rewrite Hrow.
    apply get_unique; [exact Hu|]. fold snapshot. rewrite Hsnap.
    apply in_or_app. right. now left. }
  assert (Hust : uniqueIds st).
  { pose proof (offline_loop_unique thr snapshot pre m0 Hu) as Hq.
    fold body in Hq. rewrite Hpre in Hq. exact Hq. }
  assert (Hin : In t st) by (apply get_In in Hget; tauto).
  assert (Hfinal : returned (body t m) = Some tt ->
                   get (id t) final = get (id t) st').
  { intros Hret. subst final st'.
    rewrite (offline_visits_each_target scoreThreshold m0 pre post t Hsnap).
    fold thr. fold snapshot. fold body. unfold Eff.bind. rewrite Hpre.
    destruct (body t m) as [[] m1|e m1]; [|discriminate]. simpl.
    apply offline_loop_other_rows. exact Hpost_ids. }
  destruct (decideEntry_cases thr snapshot t m Hsrc)
    as (Hignore & Hdelete & Hupdate & Hnone & Hother).
  fold body in Hignore, Hdelete, Hupdate, Hnone, Hother.
  fold reply in Hignore, Hdelete, Hupdate, Hnone, Hother.
  fold st in Hignore, Hdelete, Hupdate, Hnone, Hother.
  fold st' in Hignore, Hdelete, Hupdate, Hnone, Hother.
  split; [exact Hget|].
  split; [|split; [|split; [|split]]].
  - intros v Hr Ha. destruct (Hignore v Hr Ha) as [Hret Hst].
    split; [exact Hret|]. split; [exact Hst|].
    rewrite (Hfinal Hret), Hst. exact Hget.
  - intros v Hr Ha. destruct (Hdelete v Hr Ha) as (Hret & Hst & _ & Hrows).
    split; [exact Hret|]. split; [exact (Hrows Hust Hin)|].
    split.
    + rewrite Hst. pose proof (delete_count_unique (id t) st Hust) as Hc.
      assert (He : exists_ (id t) st = true).
      { rewrite exists_get, Hget. reflexivity. }
      rewrite He in Hc. simpl in Hc. now rewrite Hc.
    + rewrite (Hfinal Hret), Hst, get_delete, String.eqb_refl. reflexivity.
  - intros v s Hr Ha Hn Hs. destruct (Hupdate v s Hr Ha Hn Hs) as [Hret Hst].
    split; [exact Hret|].
    assert (Hrow : forall r, In r st ->
              (r = t -> memory (if String.eqb (id r) (id t) then setMemory s r else r) = s
                        /\ sameButMemory r (if String.eqb (id r) (id t)
                                            then setMemory s r else r))
              /\ (r <> t -> (if String.eqb (id r) (id t) then setMemory s r else r) = r)).
    { intros r Hr0. split.
      - intros ->. rewrite String.eqb_refl. split; [reflexivity|].
        apply setMemory_sameButMemory.
      - intros Hne. destruct (String.eqb (id r) (id t)) eqn:E; [|reflexivity].
        apply String.eqb_eq in E. exfalso. apply Hne. eapply uniqueIds_eq; eauto. }
    split.
    + rewrite Hst. clear Hst Hfinal. revert Hrow. generalize st.
      induction st0 as [|r l IH]; intros Hrow; simpl; constructor.
      * apply Hrow. now left.
      * apply IH. intros r0 Hr0. apply Hrow. now right.
    + exists (setMemory s t). rewrite (Hfinal Hret), Hst.
      rewrite get_map by (intros r; now destruct (String.eqb (id r) (id t))).
      rewrite Hget. simpl. rewrite String.eqb_refl.
      split; [reflexivity|]. split; [reflexivity|]. apply setMemory_sameButMemory.
  - intros Hr. destruct (Hnone Hr) as [Hret Hst].
    split; [exact Hret|]. split; [exact Hst|].
    rewrite (Hfinal Hret), Hst. exact Hget.
  - intros v Hr Hall. destruct (Hother v Hr Hall) as [Hret Hst].
    split; [exact Hret|]. split; [exact Hst|].
    rewrite (Hfinal Hret), Hst. exact Hget.
Qed.

End PhaseFacts.


(** ** The engine: addMemory and retrieve *)

Section EngineFacts.
Import Remote Utils Storage Embeddings Llm LiteMem.
Import SearchSpec PhaseOneSpec PhaseTwoSpec OriginSpec AddMemorySpec RequestSpec FrameSpec.
Import BatchSpec CarrySpec EngineSpec.
Context {W : Type} {UP : Upstream W} {RT : JsRuntime} {PR : Prompts}.

Lemma insertAll_app (rows1 rows2 : list (MemoryEntry * list Q)) (st : Store) :
  insertAll (rows1 ++ rows2) st = insertAll rows2 (insertAll rows1 st).
Proof. unfold insertAll. apply fold_left_app. Qed.

Lemma entriesFrame_refl (m : LiteMemory W) : entriesFrame m m.
Proof. split; [exists []; reflexivity|]. repeat split. Qed.

Lemma entriesFrame_trans (a b c : LiteMemory W) :
  entriesFrame a b -> entriesFrame b c -> entriesFrame a c.
Proof.
  intros ([rows1 R1] & H1) ([rows2 R2] & H2). split.
  - exists (rows1 ++ rows2)%list. now rewrite insertAll_app, <- R1.
  - repeat match goal with H : _ /\ _ |- _ => destruct H end. repeat split; congruence.
Qed.

Lemma hostNow_frame (m : LiteMemory W) :
  exists t w, hostNow m = Returns t (setHost w m).
Proof. unfold hostNow. destruct (Date_now (host m)) as [w t]. eauto. Qed.

Lemma hostUUID_frame (m : LiteMemory W) :
  exists u w, hostUUID m = Returns u (setHost w m).
Proof. unfold hostUUID. destruct (randomUUID (host m)) as [w u]. eauto. Qed.

Lemma embed_throws (t : string) (e : OpenRouterEmbedder W) (err : Exn)
    (e' : OpenRouterEmbedder W) :
  embed t e = Throws err e' -> err = UpstreamError \/ err = TypeError.
Proof.
  unfold embed, Eff.bind, gets, zoom.
  destruct (if cacheEnabled e then cache e !! t else None); [discriminate|].
  unfold callEmbeddings. destruct (embeddings_create _ (remote (client e))) as [w [resp|]].
  - unfold modify. destruct (data resp); [intros [= <- _]; now right|].
    destruct (cacheEnabled e); discriminate.
  - intros [= <- _]. now left.
Qed.

(** The loop of [createMemoryEntries]: one insert per fact it gets
    through. *)
Lemma createEntriesLoop_frame (facts : list ExtractedFact) (messages : list NormalizedMessage) :
  forall (entries : list MemoryEntry) (m : LiteMemory W),
    let out := createEntriesLoop facts messages entries m in
    messageBuffer (stateOf out) = messageBuffer m /\ config (stateOf out) = config m
    /\ normalizer (stateOf out) = normalizer m /\ llmManager (stateOf out) = llmManager m
    /\ tokenStats (stateOf out) = tokenStats m
    /\ exists rows,
         vectorStore (stateOf out) = insertAll rows (vectorStore m)
         /\ (List.length rows <= List.length facts)%nat
         /\ match out with
            | Returns es _ =>
                List.length rows = List.length facts
                /\ List.length es = (List.length entries + List.length facts)%nat
            | Throws e _ => e = DriverError \/ e = UpstreamError \/ e = TypeError
            end.
Proof.
  induction facts as [|f facts IH]; intros entries m; cbv zeta; simpl.
  - repeat split. exists []. repeat split; simpl; lia.
  - unfold Eff.bind.
    destruct (buildEntry_store f messages m) as ([entry ok] & w & ->). cbn [fst snd].
    unfold zoom.
    destruct (embed (memory entry) (embedder (setHost w m))) as [emb e1|err e1] eqn:Eemb.
    + destruct ok.
      * unfold storeInsert, modify.
        set (m3 := setStore _ _).
        specialize (IH (entries ++ [entry])%list m3). cbv zeta in IH.
        destruct IH as (Hb & Hc & Hn & Hl & Ht & rows & Hrows & Hlen & Hres).
        rewrite Hb, Hc, Hn, Hl, Ht. repeat split.
        exists ((entry, emb) :: rows). split; [rewrite Hrows; reflexivity|].
        split; [simpl; lia|].
        destruct (createEntriesLoop facts messages _ m3) as [es m4|e m4].
        -- destruct Hres as [Hr1 Hr2]. rewrite length_app in Hr2. simpl in *. lia.
        -- exact Hres.
      * simpl. repeat split. exists []. repeat split; [simpl; lia|]. now left.
    + simpl. repeat split. exists []. repeat split; [simpl; lia|].
      apply embed_throws in Eemb. tauto.
Qed.

Lemma trackAddMemory_frame (u : option UsageInfo) (m : LiteMemory W) :
  exists t, trackAddMemory u m = Returns tt (setTokenStats t m)
            /\ updateStats t = updateStats (tokenStats m)
            /\ (u = None -> t = tokenStats m).
Proof.
  unfold trackAddMemory. destruct u as [usage|].
  - eexists. split; [reflexivity|]. split; [reflexivity|discriminate].
  - exists (tokenStats m). split; [now destruct m|]. auto.
Qed.

(** The loop of [addMemory] over the extraction results. *)
Lemma recordExtractions_frame (extractions : list ExtractionResult)
    (messages : list NormalizedMessage) :
  forall (result : AddMemoryResult) (m : LiteMemory W),
    let out := recordExtractions extractions messages result m in
    messageBuffer (stateOf out) = messageBuffer m /\ config (stateOf out) = config m
    /\ normalizer (stateOf out) = normalizer m /\ llmManager (stateOf out) = llmManager m
    /\ updateStats (tokenStats (stateOf out)) = updateStats (tokenStats m)
    /\ exists rows,
         vectorStore (stateOf out) = insertAll rows (vectorStore m)
         /\ match out with
            | Returns result' _ =>
                memoryEntriesCreated result'
                = memoryEntriesCreated result + Z.of_nat (List.length rows)
                /\ apiCallNums result'
                   = apiCallNums result + Z.of_nat (List.length extractions)
            | Throws e _ => e = DriverError \/ e = UpstreamError \/ e = TypeError
            end.
Proof.
  induction extractions as [|x extractions IH]; intros result m; cbv zeta; simpl.
  - repeat split. exists []. simpl. split; [reflexivity|]. split; lia.
  - unfold Eff.bind.
    destruct (trackAddMemory_frame (extractionUsage x) m) as (t & -> & Hu & _).
    unfold createMemoryEntries.
    pose proof (createEntriesLoop_frame (cleanedResult x) messages [] (setTokenStats t m))
      as Hloop. cbv zeta in Hloop.
    destruct Hloop as (Hb & Hc & Hn & Hl & Ht & rows1 & Hrows1 & _ & Hres1).
    destruct (createEntriesLoop (cleanedResult x) messages [] (setTokenStats t m))
      as [es m2|e m2]; simpl in Hb, Hc, Hn, Hl, Ht, Hrows1.
    + set (result1 := {| addInputPrompt := _ |}).
      specialize (IH result1 m2). cbv zeta in IH.
      destruct IH as (Hb' & Hc' & Hn' & Hl' & Hu' & rows2 & Hrows2 & Hres2).
      rewrite Hb', Hc', Hn', Hl', Hu', Hb, Hc, Hn, Hl, Ht. simpl.
      split; [reflexivity|]. split; [reflexivity|]. split; [reflexivity|].
      split; [reflexivity|]. split; [exact Hu|].
      exists (rows1 ++ rows2)%list. split; [now rewrite insertAll_app, Hrows2, Hrows1|].
      destruct (recordExtractions extractions messages result1 m2) as [result' m3|e m3];
        [|exact Hres2].
      destruct Hres2 as [Hm Ha]. destruct Hres1 as [Hr1 Hr2].
      rewrite Hm, Ha. unfold result1. simpl. rewrite length_app. simpl in Hr2. lia.
    + simpl. rewrite Hb, Hc, Hn, Hl, Ht. simpl.
      split; [reflexivity|]. split; [reflexivity|]. split; [reflexivity|].
      split; [reflexivity|]. split; [exact Hu|].
      exists rows1. split; [exact Hrows1|exact Hres1].
Qed.

Lemma insertAll_exists (rows : list (MemoryEntry * list Q)) (st : Store) (i : string) :
  exists_ i st = true -> exists_ i (insertAll rows st) = true.
Proof.
  revert st. induction rows as [|[e emb] rows IH]; intros st Hi; simpl; [exact Hi|].
  apply IH. rewrite exists_get, get_insert.
  destruct (String.eqb i (id e)); [reflexivity|]. now rewrite <- exists_get.
Qed.

Lemma insertAll_count (rows : list (MemoryEntry * list Q)) (st : Store) :
  (count (insertAll rows st) <= count st + List.length rows)%nat.
Proof.
  revert st. induction rows as [|[e emb] rows IH]; intros st; simpl; [lia|].
  specialize (IH (insert e emb st)).
  assert (Hins : (count (insert e emb st) <= S (count st))%nat).
  { unfold count, insert. rewrite length_app. simpl.
    pose proof (List.filter_length_le (fun r => negb (String.eqb (id r) (id e))) st). lia. }
  unfold insertAll in *. simpl in *. lia.
Qed.

Lemma insertAll_invariant (P : Store -> Prop) :
  (forall entry emb st, P st -> P (insert entry emb st)) ->
  forall rows st, P st -> P (insertAll rows st).
Proof.
  intros Hins. induction rows as [|[e emb] rows IH]; intros st Hst; simpl; [exact Hst|].
  apply IH. now apply Hins.
Qed.

Lemma extractBuffered_skip (options : AddMemoryOptions) (res : AddMemoryResult)
    (m : LiteMemory W) :
  shouldExtract options (messageBuffer m) = false ->
  extractBuffered options res m = Returns res m.
Proof.
  unfold shouldExtract. intros Hs. unfold extractBuffered, Eff.bind, gets.
  rewrite Hs. reflexivity.
Qed.

Lemma extractBuffered_drop (options : AddMemoryOptions) (res : AddMemoryResult)
    (m : LiteMemory W) :
  shouldExtract options (messageBuffer m) = true ->
  filterMessagesByRole (messagesUse (config m)) (messageBuffer m) = []
  \/ metadataGenerate (config m) = false ->
  extractBuffered options res m = Returns res (setMessageBuffer [] m).
Proof.
  unfold shouldExtract. intros Hs Hcase. unfold extractBuffered, Eff.bind, gets.
  rewrite Hs. change (negb true) with false. cbv beta iota.
  destruct (filterMessagesByRole (messagesUse (config m)) (messageBuffer m)) as [|x xs];
    [reflexivity|].
  destruct Hcase as [Hcase|Hcase]; [discriminate|]. rewrite Hcase. reflexivity.
Qed.

(** [addMemory] from "Check if we should extract" on: what it returns,
    what it throws, what it leaves. *)
Lemma extractBuffered_frame (options : AddMemoryOptions) (m : LiteMemory W) :
  let out := extractBuffered options emptyResult m in
  let segment := filterMessagesByRole (messagesUse (config m)) (messageBuffer m) in
  config (stateOf out) = config m /\ normalizer (stateOf out) = normalizer m
  /\ updateStats (tokenStats (stateOf out)) = updateStats (tokenStats m)
  /\ exists rows,
       vectorStore (stateOf out) = insertAll rows (vectorStore m)
       /\ match out with
          | Returns res m' =>
              memoryEntriesCreated res = Z.of_nat (List.length rows)
              /\ (apiCallNums res = 0 \/ apiCallNums res = 1)
              /\ messageBuffer m'
                 = (if shouldExtract options (messageBuffer m) then [] else messageBuffer m)
              /\ (shouldExtract options (messageBuffer m) = false \/ segment = []
                  \/ metadataGenerate (config m) = false ->
                  res = emptyResult /\ vectorStore m' = vectorStore m
                  /\ llmManager m' = llmManager m /\ embedder m' = embedder m
                  /\ tokenStats m' = tokenStats m /\ host m' = host m)
          | Throws e m' =>
              messageBuffer m' = messageBuffer m
              /\ (e = DriverError \/ e = UpstreamError \/ e = TypeError)
          end.
Proof.
  cbv zeta.
  destruct (shouldExtract options (messageBuffer m)) eqn:Eshould.
  2:{ rewrite (extractBuffered_skip _ _ _ Eshould). simpl.
      repeat split. exists []. repeat split; auto. }
  destruct (filterMessagesByRole (messagesUse (config m)) (messageBuffer m))
    as [|msg0 segment] eqn:Eseg.
  { rewrite (extractBuffered_drop _ _ _ Eshould (or_introl Eseg)). simpl.
    repeat split. exists []. repeat split; auto. }
  destruct (metadataGenerate (config m)) eqn:Emeta.
  2:{ rewrite (extractBuffered_drop _ _ _ Eshould (or_intror Emeta)). simpl.
      repeat split. exists []. repeat split; auto. }
  rewrite (extractBuffered_segment options m); [|exact Eshould|rewrite Eseg; discriminate|exact Emeta].
  rewrite Eseg. unfold Eff.bind, zoom, metaTextExtract, modify, Eff.ret.
  destruct (extractFrom_cases (messagesUse (config m)) [msg0 :: segment] O [] (llmManager m))
    as (c' & new & -> & _ & Hnew).
  simpl app.
  set (m1 := setLlmManager (setLlmClient c' (llmManager m)) m).
  pose proof (recordExtractions_frame new (msg0 :: segment) emptyResult m1) as Hrec.
  cbv zeta in Hrec. destruct Hrec as (Hb & Hc & Hn & _ & Hu & rows & Hrows & Hres).
  assert (Hone : List.length new = 1%nat).
  { apply Forall2_length in Hnew. simpl in Hnew. lia. }
  destruct (recordExtractions new (msg0 :: segment) emptyResult m1) as [res m2|e m2];
    simpl in Hb, Hc, Hn, Hu, Hrows; simpl.
  - split; [exact Hc|]. split; [exact Hn|]. split; [exact Hu|].
    exists rows. split; [exact Hrows|]. destruct Hres as [Hm Ha].
    rewrite Hone in Ha. simpl in Hm, Ha.
    split; [exact Hm|]. split; [right; lia|]. split; [reflexivity|].
    intros [Hx|[Hx|Hx]]; discriminate.
  - split; [exact Hc|]. split; [exact Hn|]. split; [exact Hu|].
    exists rows. split; [exact Hrows|]. split; [exact Hb|exact Hres].
Qed.

Lemma normalizeMessages_length (msgs : list Message) (n n' : MessageNormalizer)
    (out : list NormalizedMessage) :
  normalizeMessages msgs n = Returns out n' ->
  List.length (assignSequenceNumbers out) = List.length msgs.
Proof.
  intros Hrun. apply normalizeLoop_carries in Hrun as (new & -> & Hnew & _).
  simpl. unfold assignSequenceNumbers. rewrite length_imap.
  symmetry. eapply Forall2_length. exact Hnew.
Qed.

(** [addMemory] under the threshold: without [forceExtract], and with
    fewer than ten messages in the buffer once the batch is appended,
    it returns the empty result and has only normalized, numbered and
    buffered the batch.  The table, the embedder, the LLM manager, the
    statistics and the host are as they were: no request was sent. *)
Theorem addMemory_below_threshold (msgs : list Message) (options : AddMemoryOptions)
    (m : LiteMemory W) (out : list NormalizedMessage) (n' : MessageNormalizer) :
  normalizeMessages msgs (normalizer m) = Returns out n' ->
  default false (forceExtract options) = false ->
  (List.length (messageBuffer m) + List.length msgs < 10)%nat ->
  addMemory msgs options m
  = Returns emptyResult
      (setMessageBuffer (messageBuffer m ++ assignSequenceNumbers out) (setNormalizer n' m)).
Proof.
  intros Hnorm Hforce Hlen. rewrite (addMemory_buffers _ _ _ _ _ Hnorm).
  apply extractBuffered_skip. unfold shouldExtract. simpl messageBuffer.
  rewrite Hforce, length_app, (normalizeMessages_length _ _ _ _ Hnorm).
  apply Nat.leb_gt. exact Hlen.
Qed.

(** [addMemory] that extracts and returns has emptied the buffer.  When
    the role filter leaves no message, or [metadataGenerate] is off,
    the buffered messages are dropped without any extraction: the
    result is empty, nothing is inserted and no request is sent. *)
Theorem addMemory_extraction_empties_buffer (msgs : list Message) (options : AddMemoryOptions)
    (m m' : LiteMemory W) (out : list NormalizedMessage) (n' : MessageNormalizer)
    (res : AddMemoryResult) :
  normalizeMessages msgs (normalizer m) = Returns out n' ->
  shouldExtract options (messageBuffer m ++ assignSequenceNumbers out) = true ->
  addMemory msgs options m = Returns res m' ->
  messageBuffer m' = []
  /\ (filterMessagesByRole (messagesUse (config m))
                           (messageBuffer m ++ assignSequenceNumbers out) = []
      \/ metadataGenerate (config m) = false ->
      res = emptyResult /\ vectorStore m' = vectorStore m
      /\ llmManager m' = llmManager m /\ embedder m' = embedder m
      /\ tokenStats m' = tokenStats m).
Proof.
  intros Hnorm Hshould Hrun. rewrite (addMemory_buffers _ _ _ _ _ Hnorm) in Hrun.
  set (m2 := setMessageBuffer _ _) in Hrun.
  pose proof (extractBuffered_frame options m2) as Hf. cbv zeta in Hf.
  rewrite Hrun in Hf. destruct Hf as (_ & _ & _ & rows & _ & _ & _ & Hbuf & Hdrop).
  simpl in Hbuf, Hdrop. rewrite Hshould in Hbuf. split; [exact Hbuf|].
  intros Hcase. destruct Hdrop as (Hr & Hs & Hl & He & Ht & _); [tauto|].
  repeat split; assumption.
Qed.

(** [addMemory] that throws after the batch was normalized -- a refused
    embedding request, an embedding answer without data, a value the
    driver refuses -- leaves the batch in the buffer and keeps the rows
    it had inserted before the failure. *)
Theorem addMemory_throw_keeps_batch (msgs : list Message) (options : AddMemoryOptions)
    (m m' : LiteMemory W) (out : list NormalizedMessage) (n' : MessageNormalizer) (e : Exn) :
  normalizeMessages msgs (normalizer m) = Returns out n' ->
  addMemory msgs options m = Throws e m' ->
  messageBuffer m' = (messageBuffer m ++ assignSequenceNumbers out)%list
  /\ (e = DriverError \/ e = UpstreamError \/ e = TypeError)
  /\ exists rows, vectorStore m' = insertAll rows (vectorStore m).
Proof.
  intros Hnorm Hrun. rewrite (addMemory_buffers _ _ _ _ _ Hnorm) in Hrun.
  set (m2 := setMessageBuffer _ _) in Hrun.
  pose proof (extractBuffered_frame options m2) as Hf. cbv zeta in Hf.
  rewrite Hrun in Hf. destruct Hf as (_ & _ & _ & rows & Hrows & Hbuf & He).
  simpl in *. split; [exact Hbuf|]. split; [exact He|]. eauto.
Qed.

Lemma addMemory_refused (msgs : list Message) (options : AddMemoryOptions) (m : LiteMemory W)
    (e : Exn) (n' : MessageNormalizer) :
  normalizeMessages msgs (normalizer m) = Throws e n' ->
  addMemory msgs options m = Throws e (setNormalizer n' m).
Proof. intros Hnorm. unfold addMemory, Eff.bind, zoom. now rewrite Hnorm. Qed.

(** The table through [addMemory], in every case. *)
Lemma addMemory_inserts (msgs : list Message) (options : AddMemoryOptions) (m : LiteMemory W) :
  exists rows,
    vectorStore (stateOf (addMemory msgs options m)) = insertAll rows (vectorStore m)
    /\ match addMemory msgs options m with
       | Returns res _ =>
           memoryEntriesCreated res = Z.of_nat (List.length rows)
           /\ (apiCallNums res = 0 \/ apiCallNums res = 1)
       | Throws _ _ => True
       end.
Proof.
  destruct (normalizeMessages msgs (normalizer m)) as [out n'|e n'] eqn:Hnorm.
  - rewrite (addMemory_buffers _ _ _ _ _ Hnorm).
    set (m2 := setMessageBuffer _ _).
    pose proof (extractBuffered_frame options m2) as Hf. cbv zeta in Hf.
    destruct Hf as (_ & _ & _ & rows & Hrows & Hres). exists rows.
    split; [exact Hrows|].
    destruct (extractBuffered options emptyResult m2); [tauto|exact I].
  - exists []. rewrite (addMemory_refused _ _ _ _ _ Hnorm). split; [reflexivity|exact I].
Qed.

(** [addMemory] only inserts: whether it returns or throws, the table
    afterwards is the table before with some rows inserted, so an id
    that was in the table is still there; when it returns,
    [memoryEntriesCreated] is the number of those inserts, the table
    has grown by at most that many rows, and at most one extraction
    call was made. *)
Theorem addMemory_only_inserts (msgs : list Message) (options : AddMemoryOptions)
    (m : LiteMemory W) :
  let m' := stateOf (addMemory msgs options m) in
  exists rows,
    vectorStore m' = insertAll rows (vectorStore m)
    /\ (forall i, exists_ i (vectorStore m) = true -> exists_ i (vectorStore m') = true)
    /\ (count (vectorStore m') <= count (vectorStore m) + List.length rows)%nat
    /\ match addMemory msgs options m with
       | Returns res _ =>
           memoryEntriesCreated res = Z.of_nat (List.length rows)
           /\ (apiCallNums res = 0 \/ apiCallNums res = 1)
       | Throws _ _ => True
       end.
Proof.
  cbv zeta. destruct (addMemory_inserts msgs options m) as (rows & Hrows & Hres).
  exists rows. split; [exact Hrows|]. rewrite Hrows.
  split; [intros i; apply insertAll_exists|]. split; [apply insertAll_count|exact Hres].
Qed.

(** When the extraction request is refused, [addMemory] still returns:
    it reports one call and no entry, inserts nothing, leaves the
    statistics and the embedder alone -- and empties the buffer, so the
    buffered messages are gone without having been extracted. *)
Theorem addMemory_survives_refused_extraction (msgs : list Message)
    (options : AddMemoryOptions) (m : LiteMemory W) (out : list NormalizedMessage)
    (n' : MessageNormalizer) (l' : OpenRouterManager W) :
  normalizeMessages msgs (normalizer m) = Returns out n' ->
  let buffer := (messageBuffer m ++ assignSequenceNumbers out)%list in
  let segment := filterMessagesByRole (messagesUse (config m)) buffer in
  shouldExtract options buffer = true ->
  segment <> [] ->
  metadataGenerate (config m) = true ->
  generateResponse (extractionMessages (messagesUse (config m)) O segment)
                   (Some "json_object") (llmManager m)
  = Throws UpstreamError l' ->
  exists m',
    addMemory msgs options m = Returns failedResult m'
    /\ messageBuffer m' = [] /\ vectorStore m' = vectorStore m
    /\ tokenStats m' = tokenStats m /\ embedder m' = embedder m
    /\ llmManager m' = l'.
Proof.
  intros Hnorm buffer segment Hshould Hseg Hmeta Hgen.
  rewrite (addMemory_buffers _ _ _ _ _ Hnorm).
  fold buffer. set (m2 := setMessageBuffer buffer (setNormalizer n' m)).
  rewrite (extractBuffered_segment options m2); [|exact Hshould|exact Hseg|exact Hmeta].
  simpl config. simpl messageBuffer. fold segment.
  unfold Eff.bind at 1. unfold zoom, metaTextExtract. simpl extractFrom.
  unfold Eff.bind at 1. unfold extractSegment, tryCatch, Eff.bind at 1.
  fold (extractionMessages (messagesUse (config m)) O segment).
  simpl llmManager. rewrite Hgen. unfold Eff.ret. simpl app.
  unfold Eff.bind, recordExtractions, trackAddMemory, createMemoryEntries, modify, Eff.ret.
  simpl. eexists. split; [reflexivity|]. repeat split.
Qed.

Lemma storeSearch_cases (qv : list Q) (limit : Z) (filters : option RetrieveFilters)
    (m : LiteMemory W) :
  (exists hits, search qv limit filters (vectorStore m) = Some hits
                /\ storeSearch qv limit filters m = Returns hits m)
  \/ storeSearch qv limit filters m = Throws VectorLength m.
Proof.
  unfold storeSearch. destruct (search qv limit filters (vectorStore m)) as [hits|]; eauto.
Qed.

(** [retrieve] reads: whether it returns or throws, nothing of the
    engine changes but the embedder (its cache, its statistics, its
    client) -- no row is touched, [hitTime] included.  When it returns,
    the text has one line per hit of [search] with the limit 10 by
    default; it throws only what [embed] or [search] throws. *)
Theorem retrieve_reads_only (query : string) (limit : option Z)
    (filters : option RetrieveFilters) (m : LiteMemory W) :
  let out := retrieve query limit filters m in
  stateOf out = setEmbedder (embedder (stateOf out)) m
  /\ match out with
     | Returns text _ =>
         exists qv hits,
           search qv (default 10 limit) filters (vectorStore m) = Some hits
           /\ text = join newline (map resultLine hits)
     | Throws e _ => e = UpstreamError \/ e = TypeError \/ e = VectorLength
     end.
Proof.
  cbv zeta. unfold retrieve, Eff.bind, zoom.
  destruct (embed query (embedder m)) as [qv e1|err e1] eqn:Eemb.
  - destruct (storeSearch_cases qv (default 10 limit) filters (setEmbedder e1 m))
      as [(hits & Hs & ->)| ->]; simpl.
    + split; [reflexivity|]. exists qv, hits. split; [exact Hs|reflexivity].
    + split; [reflexivity|]. auto.
  - simpl. split; [reflexivity|]. apply embed_throws in Eemb. tauto.
Qed.

Lemma afterCall_invariant (P : Store -> Prop) :
  (forall entry emb st, P st -> P (insert entry emb st)) ->
  (forall i updates emb st, P st -> P (update i updates emb st)) ->
  (forall i st, P st -> P (delete i st)) ->
  forall (call : ApiCall) (m : LiteMemory W),
    P (vectorStore m) -> P (vectorStore (afterCall call m)).
Proof.
  intros Hins Hupd Hdel [msgs options|query limit filters|topK keepTopN|thr] m Hm; simpl.
  - destruct (addMemory_inserts msgs options m) as (rows & -> & _).
    now apply insertAll_invariant.
  - pose proof (invariant_perform P Hins Hupd Hdel (OpRetrieve query limit filters) m Hm) as Hp.
    simpl in Hp. unfold Eff.bind in Hp.
    destruct (retrieve query limit filters m); exact Hp.
  - apply (invariant_perform P Hins Hupd Hdel (OpConstructQueues topK keepTopN) m Hm).
  - apply (invariant_perform P Hins Hupd Hdel (OpOfflineUpdate thr) m Hm).
Qed.

(** Whatever calls of [addMemory], [retrieve],
    [constructUpdateQueueAllEntries] and [offlineUpdateAllEntries] an
    engine on an empty table has seen, returned or thrown, every row of
    its table carries a vector and no two rows share an id. *)
Theorem engine_table_wellformed (calls : list ApiCall) (cfg : LiteMemConfig)
    (llmCfg : OpenRouterConfig) (embCfg : EmbedderConfig) (w : W) :
  let m := EngineSpec.afterCalls calls (newLiteMemory cfg llmCfg embCfg w) in
  allEmbedded (vectorStore m) /\ uniqueIds (vectorStore m).
Proof.
  cbv zeta. unfold EngineSpec.afterCalls.
  assert (Hgen : forall m0 : LiteMemory W,
            allEmbedded (vectorStore m0) /\ uniqueIds (vectorStore m0) ->
            allEmbedded (vectorStore (fold_left (fun acc call => afterCall call acc) calls m0))
            /\ uniqueIds (vectorStore (fold_left (fun acc call => afterCall call acc) calls m0))).
  { induction calls as [|call calls IH]; intros m0 [He Hu]; simpl; [auto|].
    apply IH. split.
    - apply (afterCall_invariant allEmbedded); auto.
      + intros. now apply allEmbedded_insert.
      + intros. now apply allEmbedded_update.
      + intros. now apply allEmbedded_delete.
    - apply (afterCall_invariant uniqueIds); auto.
      + intros. now apply uniqueIds_insert.
      + intros. now apply uniqueIds_update.
      + intros. now apply uniqueIds_delete. }
  apply Hgen. simpl. split; constructor.
Qed.

(** *** The source message of a fact *)

Lemma filter_sublist {A : Type} (p : A -> bool) (l : list A) : sublist (List.filter p l) l.
Proof.
  induction l as [|x l IH]; simpl; [constructor|].
  destruct (p x); [now apply sublist_skip|now apply sublist_cons].
Qed.

Lemma allowedRoles_admits (mu : MessagesUse) (r : MessageRole) :
  allowedRoles mu r = true <-> admits mu r.
Proof. destruct mu, r; simpl; intuition discriminate. Qed.

(** C10, amended (sequence numbers and the source message).  A call of
    [addMemory] numbers its own messages from 0 and appends them to the
    buffer, whatever numbers the buffered messages carry.  When the call
    extracts and returns, the rows it has inserted are one per fact of
    the cleaned reply of the extractor, in order, and the row of a fact
    carries the timestamp, the time value, the weekday and the speaker
    of the first message whose [floor(sequenceNumber / 2)] is the cited
    source id -- first in the buffer filtered by role (the buffered
    messages whose role the [messagesUse] policy admits, in buffer
    order), not in the buffer. *)
Theorem facts_bind_in_filtered_buffer (msgs : list Message) (options : AddMemoryOptions)
    (m m' : LiteMemory W) (normalized : list NormalizedMessage) (n' : MessageNormalizer)
    (res : AddMemoryResult) :
  normalizeMessages msgs (normalizer m) = Returns normalized n' ->
  let batch := assignSequenceNumbers normalized in
  let buffer := (messageBuffer m ++ batch)%list in
  let segment := filterMessagesByRole (messagesUse (config m)) buffer in
  forceExtract options = Some true \/ (10 <= List.length buffer)%nat ->
  segment <> [] ->
  metadataGenerate (config m) = true ->
  addMemory msgs options m = Returns res m' ->
  map sequenceNumber batch = map Some (seq 0 (List.length msgs))
  /\ sublist segment buffer
  /\ (forall msg, In msg segment
                  <-> In msg buffer /\ admits (messagesUse (config m)) (role msg))
  /\ exists rows,
       vectorStore m' = insertAll rows (vectorStore m)
       /\ memoryEntriesCreated res = Z.of_nat (List.length rows)
       /\ Forall2 (fun f row => boundIn segment f (fst row))
                  match generateResponse
                          (extractionMessages (messagesUse (config m)) O segment)
                          (Some "json_object") (llmManager m) with
                  | Returns r _ => cleanResponse (fst r)
                  | Throws _ _ => []
                  end
                  rows.
Proof.
  intros Hnorm batch buffer segment Hdue Hseg Hmeta Hrun.
  split.
  { subst batch. rewrite assignSequenceNumbers_from_zero.
    pose proof (normalizeMessages_length _ _ _ _ Hnorm) as Hlen.
    unfold assignSequenceNumbers in Hlen. rewrite length_imap in Hlen.
    now rewrite Hlen. }
  split; [apply filter_sublist|].
  split.
  { intros msg. unfold segment, filterMessagesByRole.
    rewrite filter_In, allowedRoles_admits. reflexivity. }
  rewrite (addMemory_buffers _ _ _ _ _ Hnorm) in Hrun.
  fold batch in Hrun. fold buffer in Hrun.
  set (m2 := setMessageBuffer buffer (setNormalizer n' m)) in Hrun.
  assert (Hdue2 : default false (forceExtract options)
                  || Nat.leb 10 (List.length (messageBuffer m2)) = true).
  { destruct Hdue as [-> | Hlen]; [reflexivity|].
    apply orb_true_iff. right. now apply Nat.leb_le. }
  rewrite (extractBuffered_segment options m2 Hdue2 Hseg Hmeta) in Hrun.
  change (filterMessagesByRole (messagesUse (config m2)) (messageBuffer m2))
    with segment in Hrun.
  change (messagesUse (config m2)) with (messagesUse (config m)) in Hrun.
  unfold Eff.bind at 1 in Hrun. unfold zoom, metaTextExtract in Hrun.
  change (llmManager m2) with (llmManager m) in Hrun.
  cbn [extractFrom] in Hrun. unfold Eff.bind at 1 in Hrun.
  destruct (extractSegment_facts (messagesUse (config m)) O segment (llmManager m))
    as (c' & r & Hext & Hfacts).
  rewrite Hext in Hrun. cbn [app] in Hrun. unfold Eff.ret at 1 in Hrun.
  rewrite <- Hfacts.
  set (m3 := setLlmManager _ m2) in Hrun.
  unfold Eff.bind at 1 in Hrun. cbn [recordExtractions] in Hrun.
  unfold Eff.bind at 1 in Hrun.
  destruct (trackAddMemory_frame (extractionUsage r) m3) as (ts & Htrack & _).
  rewrite Htrack in Hrun. unfold Eff.bind at 1 in Hrun.
  destruct (createMemoryEntries r segment (setTokenStats ts m3)) as [entries m4|e m4] eqn:Ecreate;
    [|discriminate].
  unfold createMemoryEntries in Ecreate.
  destruct (createEntriesLoop_bound _ _ _ _ _ _ Ecreate) as (rows & Hentries & Hst & Hbound).
  simpl in Hentries, Hst. unfold Eff.ret, Eff.bind, modify in Hrun.
  injection Hrun as <- <-. exists rows. split; [exact Hst|].
  split; [|exact Hbound].
  simpl. rewrite Hentries, length_map. reflexivity.
Qed.

End EngineFacts.


(** ** The tokenizer *)

Section TokenizerFacts.
Import Tokenizer.

Lemma length_string_of_list_ascii (l : list ascii) :
  String.length (string_of_list_ascii l) = List.length l.
Proof. induction l as [|c l IH]; simpl; [reflexivity|now rewrite IH]. Qed.

Lemma length_list_ascii_of_string (s : string) :
  List.length (list_ascii_of_string s) = String.length s.
Proof. induction s as [|c s IH]; simpl; [reflexivity|now rewrite IH]. Qed.

Lemma length_string_app (s1 s2 : string) :
  String.length (s1 ++ s2) = (String.length s1 + String.length s2)%nat.
Proof. induction s1 as [|c s1 IH]; simpl; [reflexivity|now rewrite IH]. Qed.

Lemma exceeds_when_over (text : string) (limit : Q) :
  (limit * 4 < inject_Z (Z.of_nat (String.length text)))%Q ->
  exceedsTokenLimit text limit = true.
Proof.
  intros Hover. unfold exceedsTokenLimit, estimateTokenCount. apply Qltb_true.
  eapply Qlt_le_trans; [|apply Qle_ceiling].
  apply Qlt_shift_div_l; [reflexivity|exact Hover].
Qed.

(** The length of what [slice(0, end)] keeps when [end] is not negative
    and not beyond the text. *)
Lemma sliceTo_length (finish : Q) (text : string) :
  (0 <= finish)%Q ->
  (finish < inject_Z (Z.of_nat (String.length text)))%Q ->
  (finish < inject_Z (Z.of_nat (String.length (sliceTo finish text))) + 1)%Q.
Proof.
  intros Hpos Hlt. unfold sliceTo, toInteger.
  assert (Hb : Qle_bool 0 finish = true) by now apply Qle_bool_iff.
  rewrite Hb, length_string_of_list_ascii. unfold slice0.
  assert (Hf : 0 <= Qfloor finish).
  { rewrite <- (Qfloor_Z 0). now apply Qfloor_resp_le. }
  destruct (Qfloor finish <? 0) eqn:E; [apply Z.ltb_lt in E; lia|].
  rewrite length_firstn, length_list_ascii_of_string.
  assert (Hle : (Z.to_nat (Qfloor finish) <= String.length text)%nat).
  { assert (Hq : (inject_Z (Qfloor finish) < inject_Z (Z.of_nat (String.length text)))%Q).
    { eapply Qle_lt_trans; [apply Qfloor_le|exact Hlt]. }
    rewrite <- Zlt_Qlt in Hq. lia. }
  rewrite Nat.min_l by exact Hle. rewrite Z2Nat.id by exact Hf.
  change 1%Q with (inject_Z 1). rewrite <- inject_Z_plus. apply Qlt_floor.
Qed.

(** [truncateToTokenLimit] never brings a text under the limit: a text
    that fits is returned as it is, and a text that does not fit is cut
    to [limit * 4] characters and given three dots, which is again more
    than [limit] tokens by the estimate. *)
Theorem truncated_text_still_exceeds (text : string) (limit : Q) :
  exceedsTokenLimit (truncateToTokenLimit text limit) limit = exceedsTokenLimit text limit.
Proof.
  unfold truncateToTokenLimit.
  destruct (Qle_bool (inject_Z (Z.of_nat (String.length text))) (limit * 4)) eqn:Efit;
    [reflexivity|].
  assert (Hover : (limit * 4 < inject_Z (Z.of_nat (String.length text)))%Q).
  { apply Qnot_le_lt. intros Hle. apply Qle_bool_iff in Hle. congruence. }
  rewrite (exceeds_when_over text limit Hover).
  apply exceeds_when_over. rewrite length_string_app. simpl String.length.
  rewrite Nat2Z.inj_add, inject_Z_plus.
  set (k := inject_Z (Z.of_nat (String.length (sliceTo (limit * 4) text)))).
  assert (Hk : (0 <= k)%Q).
  { unfold k. rewrite <- (Zle_Qle 0). lia. }
  destruct (Qlt_le_dec (limit * 4) 0) as [Hneg|Hpos].
  - eapply Qlt_le_trans; [exact Hneg|].
    change (inject_Z (Z.of_nat 3)) with (3%Q).
    apply Qle_trans with (0 + 0)%Q; [discriminate|]. apply Qplus_le_compat; [exact Hk|discriminate].
  - pose proof (sliceTo_length (limit * 4) text Hpos Hover) as Hs. fold k in Hs.
    eapply Qlt_le_trans; [exact Hs|].
    change (inject_Z (Z.of_nat 3)) with (3%Q).
    apply Qplus_le_compat; [apply Qle_refl|discriminate].
Qed.

End TokenizerFacts.

(** ** The short-term buffer *)

Section BufferFacts.
Import Utils Tokenizer ShortTerm BufferSpec.

Lemma tokensOf_app (l1 l2 : list NormalizedMessage) :
  tokensOf (l1 ++ l2) = tokensOf l1 + tokensOf l2.
Proof. induction l1 as [|x l1 IH]; simpl; [reflexivity|]. rewrite IH. lia. Qed.

Lemma add_state (messages : list NormalizedMessage) (b : ShortTermBuffer) :
  exists b', add messages b = Returns (Qle_bool (maxTokens b') (inject_Z (currentTokens b'))) b'
             /\ buffer b' = (buffer b ++ messages)%list
             /\ maxTokens b' = maxTokens b
             /\ currentTokens b' = currentTokens b + tokensOf messages.
Proof.
  unfold add, Eff.bind, gets.
  assert (Hloop : exists b', forEach messages (fun msg => modify (push msg)) b = Returns tt b'
                             /\ buffer b' = (buffer b ++ messages)%list
                             /\ maxTokens b' = maxTokens b
                             /\ currentTokens b' = currentTokens b + tokensOf messages).
  { revert b. induction messages as [|msg messages IH]; intros b; simpl.
    - exists b. rewrite app_nil_r. repeat split. lia.
    - unfold Eff.bind. change (modify (push msg) b) with (Returns tt (push msg b)).
      cbv beta iota. destruct (IH (push msg b)) as (b' & -> & Hb & Hm & Hc).
      exists b'. split; [reflexivity|]. simpl in Hb, Hm, Hc.
      rewrite Hb, Hm, Hc, <- app_assoc. repeat split. lia. }
  destruct Hloop as (b' & -> & Hb & Hm & Hc). exists b'. repeat split; assumption.
Qed.

Lemma afterOps_snoc (ops : list BufferOp) (op : BufferOp) (b : ShortTermBuffer) :
  afterOps (ops ++ [op]) b = afterOp op (afterOps ops b).
Proof. unfold afterOps. now rewrite fold_left_app. Qed.

Lemma pending_snoc (ops : list BufferOp) (op : BufferOp) :
  pending (ops ++ [op])
  = match op with
    | OpAdd messages => (pending ops ++ messages)%list
    | OpFlush | OpClear => []
    | _ => pending ops
    end.
Proof. unfold pending. now rewrite fold_left_app. Qed.

(** A [ShortTermBuffer], after any calls since it was made, holds the
    messages added since the last [flush] or [clear], in order, and
    counts their estimated tokens; [add] answers whether the count has
    reached [maxTokens] and [flush] hands those messages back and
    leaves the buffer as new. *)
Theorem shortTerm_buffer_accounts (ops : list BufferOp) (limit : option Q) :
  let b := afterOps ops (newShortTermBuffer limit) in
  buffer b = pending ops
  /\ currentTokens b = tokensOf (pending ops)
  /\ maxTokens b = default 2000%Q limit
  /\ flush b = Returns (pending ops) (newShortTermBuffer limit)
  /\ forall messages,
       returned (add messages b)
       = Some (Qle_bool (default 2000%Q limit)
                        (inject_Z (tokensOf (pending ops ++ messages)))).
Proof.
  cbv zeta.
  assert (Hinv : buffer (afterOps ops (newShortTermBuffer limit)) = pending ops
                 /\ currentTokens (afterOps ops (newShortTermBuffer limit))
                    = tokensOf (pending ops)
                 /\ maxTokens (afterOps ops (newShortTermBuffer limit)) = default 2000%Q limit).
  { induction ops as [|op ops IH] using rev_ind; [repeat split|].
    rewrite afterOps_snoc, pending_snoc. destruct IH as (Hb & Hc & Hm).
    destruct op as [messages| | | | |]; simpl; try (repeat split; assumption).
    destruct (add_state messages (afterOps ops (newShortTermBuffer limit)))
      as (b' & -> & Hb' & Hm' & Hc').
    simpl. rewrite Hb', Hm', Hc', Hb, Hc, Hm, tokensOf_app. repeat split. }
  destruct Hinv as (Hb & Hc & Hm). split; [exact Hb|]. split; [exact Hc|]. split; [exact Hm|].
  split.
  - unfold flush, Eff.bind, gets, modify, Eff.ret.
    rewrite Hb, Hm. reflexivity.
  - intros messages.
    destruct (add_state messages (afterOps ops (newShortTermBuffer limit)))
      as (b' & -> & _ & Hm' & Hc').
    simpl. rewrite Hm', Hc', Hm, Hc, tokensOf_app. reflexivity.
Qed.

End BufferFacts.

(** ** The embedding retriever *)

Section RetrieverFacts.
Import Remote Utils Storage Embeddings Llm LiteMem EngineSpec.
Context {W : Type} {UP : Upstream W} {RT : JsRuntime} {PR : Prompts}.

(** [LiteMemory.retrieve] and [EmbeddingRetriever.retrieve] on the same
    table and embedder agree: both throw the same error, or the text of
    the first is the hits of the second, one line per hit, and the
    embedder is left the same. *)
Theorem retrieve_agrees_with_retriever (query : string) (limit : option Z)
    (filters : option RetrieveFilters) (m : LiteMemory W) :
  let r := {| Retrievers.vectorStore := vectorStore m; Retrievers.embedder := embedder m |} in
  match retrieve query limit filters m, Retrievers.retrieve query limit filters r with
  | Returns text m', Returns hits r' =>
      text = join newline (map resultLine hits)
      /\ embedder m' = Retrievers.embedder r'
      /\ vectorStore m' = Retrievers.vectorStore r'
  | Throws e m', Throws e' r' =>
      e = e' /\ embedder m' = Retrievers.embedder r'
      /\ vectorStore m' = Retrievers.vectorStore r'
  | _, _ => False
  end.
Proof.
  cbv zeta. unfold retrieve, Retrievers.retrieve, Eff.bind, zoom, storeSearch. simpl.
  destruct (embed query (embedder m)) as [qv e1|err e1]; simpl; [|repeat split].
  destruct (search qv (default 10 limit) filters (vectorStore m)) as [hits|]; simpl;
    repeat split.
Qed.

End RetrieverFacts.

(** ** getTokenStatistics *)

Section StatisticsFacts.
Import Remote Utils Storage Embeddings Llm LiteMem Statistics.
Import EmbedderSpec BatchSpec RequestSpec FrameSpec EngineSpec StatisticsSpec.
Context {W : Type} {UP : Upstream W} {RT : JsRuntime} {PR : Prompts}.




Lemma setHost_counts (w : W) (m : LiteMemory W) : countsFollow m (setHost w m).
Proof. unfold countsFollow, uncountedChat, uncountedEmbeddings, getTokenStatistics, getStats. simpl. lia. Qed.












End StatisticsFacts.

(** ** The marker of the MCP server and the session grammar *)

Section McpFacts.
Import Utils Llm Mcp NormalizerSpec GrammarSpec.
Context {RT : JsRuntime} {LC : LocalCalendar}.

Lemma two_digits (n : Z) : 0 <= n <= 99 -> isTwoDigits (padStart 2 "0" (showZ n)) = true.
Proof.
  intros Hn.
  assert (Hall : forallb (fun k => isTwoDigits (padStart 2 "0" (showZ (Z.of_nat k))))
                         (seq 0 100) = true) by (vm_compute; reflexivity).
  rewrite forallb_forall in Hall. rewrite <- (Z2Nat.id n) by lia.
  apply Hall. apply in_seq. lia.
Qed.

Lemma four_digits (n : Z) : 1000 <= n <= 9999 -> isFourDigits (showZ n) = true.
Proof.
  intros Hn.
  assert (Hall : forallb (fun k => isFourDigits (showZ (Z.of_nat k)))
                         (seq (Z.to_nat 1000) (Z.to_nat 9000)) = true)
    by (vm_compute; reflexivity).
  rewrite forallb_forall in Hall. rewrite <- (Z2Nat.id n) by lia.
  apply Hall. apply in_seq. lia.
Qed.

Lemma isTwoDigits_inv (s : string) :
  isTwoDigits s = true ->
  exists a b, s = string_of_list_ascii [a; b] /\ isDigit a = true /\ isDigit b = true.
Proof.
  unfold isTwoDigits. intros Hs. rewrite <- (string_of_list_ascii_of_string s).
  destruct (list_ascii_of_string s) as [|a [|b [|c l]]]; try discriminate.
  apply andb_true_iff in Hs as [Ha Hb]. exists a, b. auto.
Qed.

Lemma isFourDigits_inv (s : string) :
  isFourDigits s = true ->
  exists a b c d, s = string_of_list_ascii [a; b; c; d]
                  /\ isDigit a = true /\ isDigit b = true
                  /\ isDigit c = true /\ isDigit d = true.
Proof.
  unfold isFourDigits. intros Hs. rewrite <- (string_of_list_ascii_of_string s).
  destruct (list_ascii_of_string s) as [|a [|b [|c [|d [|x l]]]]]; try discriminate.
  apply andb_true_iff in Hs as [Hs Hd]. apply andb_true_iff in Hs as [Hs Hc].
  apply andb_true_iff in Hs as [Ha Hb]. exists a, b, c, d. auto.
Qed.

Lemma isDigit_not_sep (c : ascii) :
  isDigit c = true -> Ascii.eqb c "-" = false /\ Ascii.eqb c "/" = false.
Proof.
  destruct c as [[] [] [] [] [] [] [] []]; intros Hd; try discriminate Hd; split; reflexivity.
Qed.

Lemma isDigit_not_space (c : ascii) : isDigit c = true -> isSpace c = false.
Proof.
  destruct c as [[] [] [] [] [] [] [] []]; intros Hd; try discriminate Hd; reflexivity.
Qed.

(** The pattern on a marker of the shape the server builds. *)
Lemma matchFrom_formatted (y1 y2 y3 y4 m1 m2 d1 d2 h1 h2 n1 n2 : ascii) (wd : string) :
  isDigit y1 = true -> isDigit y2 = true -> isDigit y3 = true -> isDigit y4 = true ->
  isDigit m1 = true -> isDigit m2 = true -> isDigit d1 = true -> isDigit d2 = true ->
  isDigit h1 = true -> isDigit h2 = true -> isDigit n1 = true -> isDigit n2 = true ->
  In wd weekdays ->
  matchFrom (y1 :: y2 :: y3 :: y4 :: "/"%char :: m1 :: m2 :: "/"%char :: d1 :: d2
               :: " "%char :: "("%char
               :: list_ascii_of_string wd
               ++ ")"%char :: " "%char :: h1 :: h2 :: ":"%char :: n1 :: n2 :: [])
  = Some {| g_date := string_of_list_ascii
                        [y1; y2; y3; y4; "/"%char; m1; m2; "/"%char; d1; d2];
            g_weekday := wd;
            g_time := string_of_list_ascii [h1; h2; ":"%char; n1; n2] |}.
Proof.
  intros Hy1 Hy2 Hy3 Hy4 Hm1 Hm2 Hd1 Hd2 Hh1 Hh2 Hn1 Hn2 Hwd.
  assert (Hhere : matchHere (y1 :: y2 :: y3 :: y4 :: "/"%char :: m1 :: m2 :: "/"%char
                               :: d1 :: d2 :: " "%char :: "("%char
                               :: list_ascii_of_string wd
                               ++ ")"%char :: " "%char :: h1 :: h2 :: ":"%char
                               :: n1 :: n2 :: [])
                  = Some {| g_date := string_of_list_ascii
                                        [y1; y2; y3; y4; "/"%char; m1; m2; "/"%char; d1; d2];
                            g_weekday := wd;
                            g_time := string_of_list_ascii [h1; h2; ":"%char; n1; n2] |}).
  { assert (Hsp : isSpace " " = true) by reflexivity.
    assert (Hpar : isSpace "(" = false) by reflexivity.
    pose proof (isDigit_not_space _ Hh1) as Hh1s.
    simpl in Hwd.
    destruct Hwd as [<-|[<-|[<-|[<-|[<-|[<-|[<-|[]]]]]]]];
      unfold matchHere;
      do 8 (cbv -[isDigit isSpace];
            rewrite ?Hy1, ?Hy2, ?Hy3, ?Hy4, ?Hm1, ?Hm2, ?Hd1, ?Hd2, ?Hh1, ?Hh2, ?Hn1, ?Hn2,
                    ?Hsp, ?Hpar, ?Hh1s);
      reflexivity. }
  simpl matchFrom. rewrite Hhere. reflexivity.
Qed.

Lemma list_ascii_of_string_app (s1 s2 : string) :
  list_ascii_of_string (s1 ++ s2) = (list_ascii_of_string s1 ++ list_ascii_of_string s2)%list.
Proof. induction s1 as [|c s1 IH]; simpl; [reflexivity|now rewrite IH]. Qed.

Lemma weekday_of_day (t : Z) :
  In (nth (Z.to_nat (getDay t)) ["Sun"; "Mon"; "Tue"; "Wed"; "Thu"; "Fri"; "Sat"] "undefined")
     weekdays.
Proof.
  assert (Hr : 0 <= getDay t < 7) by (unfold getDay; apply Z.mod_pos_bound; lia).
  assert (Hn : (Z.to_nat (getDay t) < 7)%nat) by lia.
  destruct (Z.to_nat (getDay t)) as [|[|[|[|[|[|[|k]]]]]]]; simpl; auto 10. lia.
Qed.

(** The marker [formatTimestamp] builds for a date whose year has four
    digits is in the session grammar: the pattern matches it, with the
    date, the weekday name and the time it was built from as the
    groups, and [parseSessionTimestamp] reads it as the local date-time
    [YYYY-MM-DD HH:MM] with that weekday name. *)
Theorem formatTimestamp_in_session_grammar (t : Z) :
  1000 <= getFullYear t <= 9999 ->
  0 <= getMonth t <= 11 ->
  1 <= getDate t <= 31 ->
  0 <= getHours t <= 23 ->
  0 <= getMinutes t <= 59 ->
  let yyyy := showZ (getFullYear t) in
  let mm := padStart 2 "0" (showZ (getMonth t + 1)) in
  let dd := padStart 2 "0" (showZ (getDate t)) in
  let hh := padStart 2 "0" (showZ (getHours t)) in
  let mi := padStart 2 "0" (showZ (getMinutes t)) in
  let wd := nth (Z.to_nat (getDay t)) weekdays "undefined" in
  SESSION_RE_match (formatTimestamp t)
  = Some {| g_date := yyyy ++ "/" ++ mm ++ "/" ++ dd;
            g_weekday := wd;
            g_time := hh ++ ":" ++ mi |}
  /\ In wd weekdays
  /\ parseSessionTimestamp (formatTimestamp t)
     = match newDate (yyyy ++ "-" ++ mm ++ "-" ++ dd ++ " " ++ hh ++ ":" ++ mi) with
       | ValidDate t' => Some (t', wd)
       | InvalidDate => parseFallback (formatTimestamp t)
       end.
Proof.
  intros Hy Hm Hd Hh Hn. cbv zeta.
  destruct (isFourDigits_inv _ (four_digits _ Hy))
    as (y1 & y2 & y3 & y4 & Ey & Hy1 & Hy2 & Hy3 & Hy4).
  assert (Hm' : 0 <= getMonth t + 1 <= 99) by lia.
  assert (Hd' : 0 <= getDate t <= 99) by lia.
  assert (Hh' : 0 <= getHours t <= 99) by lia.
  assert (Hn' : 0 <= getMinutes t <= 99) by lia.
  destruct (isTwoDigits_inv _ (two_digits _ Hm')) as (m1 & m2 & Em & Hm1 & Hm2).
  destruct (isTwoDigits_inv _ (two_digits _ Hd')) as (d1 & d2 & Ed & Hd1 & Hd2).
  destruct (isTwoDigits_inv _ (two_digits _ Hh')) as (h1 & h2 & Eh & Hh1 & Hh2).
  destruct (isTwoDigits_inv _ (two_digits _ Hn')) as (n1 & n2 & En & Hn1 & Hn2).
  pose proof (weekday_of_day t) as Hwd.
  assert (Hmatch : SESSION_RE_match (formatTimestamp t)
                   = Some {| g_date := string_of_list_ascii
                                         [y1; y2; y3; y4; "/"%char; m1; m2; "/"%char; d1; d2];
                             g_weekday := nth (Z.to_nat (getDay t)) weekdays "undefined";
                             g_time := string_of_list_ascii [h1; h2; ":"%char; n1; n2] |}).
  { unfold SESSION_RE_match, formatTimestamp. cbv zeta.
    rewrite Ey, Em, Ed, Eh, En.
    rewrite !list_ascii_of_string_app, !list_ascii_of_string_of_list_ascii.
    cbn [app list_ascii_of_string].
    apply matchFrom_formatted; assumption. }
  rewrite Ey, Em, Ed, Eh, En.
  split; [exact Hmatch|]. split; [exact Hwd|].
  unfold parseSessionTimestamp. rewrite Hmatch. cbn [g_date g_time g_weekday].
  replace (replaceAll "/" "-"
             (replaceAll "-" "/"
                (string_of_list_ascii [y1; y2; y3; y4; "/"%char; m1; m2; "/"%char; d1; d2])
              ++ " " ++ string_of_list_ascii [h1; h2; ":"%char; n1; n2]))
    with (string_of_list_ascii [y1; y2; y3; y4] ++ "-" ++ string_of_list_ascii [m1; m2]
            ++ "-" ++ string_of_list_ascii [d1; d2] ++ " "
            ++ string_of_list_ascii [h1; h2] ++ ":" ++ string_of_list_ascii [n1; n2]);
    [reflexivity|].
  destruct (isDigit_not_sep _ Hy1) as [A1 B1]. destruct (isDigit_not_sep _ Hy2) as [A2 B2].
  destruct (isDigit_not_sep _ Hy3) as [A3 B3]. destruct (isDigit_not_sep _ Hy4) as [A4 B4].
  destruct (isDigit_not_sep _ Hm1) as [A5 B5]. destruct (isDigit_not_sep _ Hm2) as [A6 B6].
  destruct (isDigit_not_sep _ Hd1) as [A7 B7]. destruct (isDigit_not_sep _ Hd2) as [A8 B8].
  destruct (isDigit_not_sep _ Hh1) as [A9 B9]. destruct (isDigit_not_sep _ Hh2) as [A10 B10].
  destruct (isDigit_not_sep _ Hn1) as [A11 B11]. destruct (isDigit_not_sep _ Hn2) as [A12 B12].
  unfold replaceAll.
  rewrite !list_ascii_of_string_app, !list_ascii_of_string_of_list_ascii.
  cbn [map app list_ascii_of_string string_of_list_ascii String.append].
  rewrite A1, A2, A3, A4, A5, A6, A7, A8. cbv iota.
  rewrite B1, B2, B3, B4, B5, B6, B7, B8, B9, B10, B11, B12. reflexivity.
Qed.

End McpFacts.

(** ** The further facts on the runs of [DemoMore] *)

Section MoreRuns.
Import Remote Utils Storage Embeddings Llm LiteMem Mcp.
Import SearchSpec PhaseOneSpec PhaseTwoSpec OriginSpec EmbedderSpec NormalizerSpec AddMemorySpec.
Import BatchSpec CarrySpec RequestSpec FrameSpec EngineSpec GrammarSpec.
Import Demo DemoRuns DemoMore.

(** *** The store *)

Lemma insert_count_witness :
  uniqueIds threeRows
  /\ exists_ (id secondB) threeRows = true
  /\ count (insert secondB (axis 1) threeRows)
     = if exists_ (id secondB) threeRows then count threeRows else S (count threeRows).
Proof.
  assert (Hu : uniqueIds threeRows).
  { unfold uniqueIds. vm_compute.
    repeat (constructor; [simpl; intuition discriminate|]). constructor. }
  split; [exact Hu|]. split; [vm_compute; reflexivity|].
  exact (insert_count secondB (axis 1) threeRows Hu).
Defined.

(** *** The embedder *)

Lemma embed_miss_outcomes_witness :
  lookupCache freshEmbedder "x" = None
  /\ embed "x" freshEmbedder = Returns (axis 1) (stateOf (embed "x" freshEmbedder))
  /\ sent (client (stateOf (embed "x" freshEmbedder)))
     = (sent (client freshEmbedder) ++ [embedRequest "x" freshEmbedder])%list
  /\ match embed "x" freshEmbedder with
     | Returns v e' =>
         totalCalls (stats e') = totalCalls (stats freshEmbedder) + 1
         /\ cache e' = (if cacheEnabled freshEmbedder
                        then <["x" := v]> (cache freshEmbedder) else cache freshEmbedder)
     | Throws err e' =>
         cache e' = cache freshEmbedder
         /\ ((err = UpstreamError /\ stats e' = stats freshEmbedder)
             \/ (err = TypeError
                 /\ totalCalls (stats e') = totalCalls (stats freshEmbedder) + 1))
     end.
Proof.
  assert (Hmiss : lookupCache freshEmbedder "x" = None) by (vm_compute; reflexivity).
  split; [exact Hmiss|]. split; [vm_compute; reflexivity|].
  exact (embed_miss_outcomes "x" freshEmbedder Hmiss).
Defined.

Lemma embedBatch_then_embed_witness :
  cacheEnabled freshEmbedder = true
  /\ batchRun = Returns [Some (axis 1); Some (axis 1)] (stateOf batchRun)
  /\ Forall (fun r : option (list Q) => r <> None) [Some (axis 1); Some (axis 1)]
  /\ Forall (fun t => exists v, In (Some v) [Some (axis 1); Some (axis 1)]
                                /\ embed t (stateOf batchRun) = Returns v (stateOf batchRun))
            ["x"; "y"].
Proof.
  assert (Hrun : embedBatch ["x"; "y"] freshEmbedder
                 = Returns [Some (axis 1); Some (axis 1)] (stateOf batchRun))
    by (vm_compute; reflexivity).
  assert (Hall : Forall (fun r : option (list Q) => r <> None)
                        [Some (axis 1); Some (axis 1)])
    by (repeat constructor; discriminate).
  split; [reflexivity|]. split; [exact Hrun|]. split; [exact Hall|].
  exact (embedBatch_then_embed ["x"; "y"] freshEmbedder _ _ eq_refl Hrun Hall).
Defined.

Lemma cache_off_always_asks_witness :
  cacheEnabled uncachedEmbedder = false
  /\ List.length (sent (client (EmbedderSpec.afterCalls interleaved uncachedEmbedder))) = 2%nat
  /\ cache (EmbedderSpec.afterCalls interleaved uncachedEmbedder) = cache uncachedEmbedder
  /\ sent (client (EmbedderSpec.afterCalls interleaved uncachedEmbedder))
     = (sent (client uncachedEmbedder)
          ++ flat_map (fun call => requestOf call uncachedEmbedder) interleaved)%list
  /\ Forall (fun call => match call with
                         | CallEmbedBatch (t :: texts) =>
                             requestOf call uncachedEmbedder
                             = [EmbeddingsCreate
                                  {| er_model := model (Embeddings.config uncachedEmbedder);
                                     er_input := ManyTexts (t :: texts);
                                     er_dimensions := dimensions (Embeddings.config uncachedEmbedder) |}]
                         | _ => True
                         end) interleaved.
Proof.
  split; [reflexivity|]. split; [vm_compute; reflexivity|].
  exact (cache_off_always_asks interleaved uncachedEmbedder eq_refl).
Defined.

(** *** The normalizer *)

Lemma normalizeMessages_keeps_messages_witness :
  aliceNormalized = Returns (default [] (returned aliceNormalized)) (stateOf aliceNormalized)
  /\ Forall2 carries aliceTurn (default [] (returned aliceNormalized))
  /\ List.length (default [] (returned aliceNormalized)) = List.length aliceTurn
  /\ offsetMs (stateOf aliceNormalized) = offsetMs (newMessageNormalizer None).
Proof.
  assert (Hrun : normalizeMessages aliceTurn (newMessageNormalizer None)
                 = Returns (default [] (returned aliceNormalized)) (stateOf aliceNormalized))
    by (vm_compute; reflexivity).
  split; [exact Hrun|].
  exact (normalizeMessages_keeps_messages aliceTurn (newMessageNormalizer None) _ _ Hrun).
Defined.

Lemma refused_batch_moves_cursors_witness :
  goodRun = Returns (default [] (returned goodRun)) (stateOf goodRun)
  /\ refused badMessage
  /\ stateOf goodRun <> normalizer assistantEngine
  /\ (exists e, normalizeMessages (goodPart ++ badMessage :: []) (normalizer assistantEngine)
                = Throws e (stateOf goodRun)
                /\ (e = MissingTimeStamp
                    \/ e = BadSessionTime (default "" (msgTimeStamp badMessage))))
  /\ (normalizer assistantEngine = normalizer assistantEngine ->
      normalizer (stateOf (addMemory (goodPart ++ badMessage :: [])
                                     {| forceExtract := None |} assistantEngine))
      = stateOf goodRun).
Proof.
  assert (Hrun : normalizeMessages goodPart (normalizer assistantEngine)
                 = Returns (default [] (returned goodRun)) (stateOf goodRun))
    by (vm_compute; reflexivity).
  assert (Hbad : refused badMessage) by (right; split; vm_compute; reflexivity).
  split; [exact Hrun|]. split; [exact Hbad|].
  split; [vm_compute; intros H; discriminate H|].
  exact (refused_batch_moves_cursors goodPart [] badMessage (normalizer assistantEngine) _ _
           {| forceExtract := None |} assistantEngine Hrun Hbad).
Defined.

(** *** The two phases of the update *)

Lemma reply_ignore : replyTo [jsonIgnore] = Some (JObj [("action", JStr "ignore")]).
Proof. vm_compute. reflexivity. Qed.

Lemma queuedRows_unique : uniqueIds queuedRows.
Proof.
  unfold uniqueIds. vm_compute.
  repeat (constructor; [simpl; intuition discriminate|]). constructor.
Qed.

Lemma offline_update_applies_decision_witness :
  uniqueIds queuedRows
  /\ queuedRows = ([] ++ rowA :: [rowB])%list
  /\ sourcesOfA <> []
  /\ map (fun r => (id r, memory r)) (vectorStore (stateOf (offlineRun [jsonUpdate])))
     = [("a", "merged"); ("b", "The user likes cappuccino.")]
  /\ (exists r', get "a" (vectorStore (stateOf (offlineRun [jsonUpdate]))) = Some r'
                 /\ memory r' = "merged" /\ sameButMemory rowA r')
  /\ get "a" (vectorStore (stateOf (offlineRun [jsonDelete]))) = None
  /\ get "a" (vectorStore (stateOf (offlineRun [jsonIgnore]))) = Some rowA
  /\ get "a" (vectorStore (stateOf (offlineRun ["not JSON"]))) = Some rowA
  /\ get "a" (vectorStore (stateOf (offlineRun [jsonMerge]))) = Some rowA
  /\ forEach [rowB] (decideEntry (default (9 # 10)%Q None)
                                 (vectorStore (reversedEngine [jsonDelete])))
             (reversedEngine [jsonDelete])
     = Returns tt (reversedEngine [jsonDelete])
  /\ get "a" (vectorStore (stateOf (offlineUpdateAllEntries None (reversedEngine [jsonDelete]))))
     = None.
Proof.
  split; [exact queuedRows_unique|]. split; [reflexivity|]. split; [exact rowA_cited|].
  split; [vm_compute; reflexivity|].
  assert (Hrev : uniqueIds (vectorStore (reversedEngine [jsonDelete]))).
  { unfold uniqueIds. vm_compute.
    repeat (constructor; [simpl; intuition discriminate|]). constructor. }
  assert (Hcited : candidateSources (default (9 # 10)%Q None)
                                    (vectorStore (reversedEngine [jsonDelete])) rowA <> [])
    by (vm_compute; discriminate).
  assert (Hpre : forEach [rowB] (decideEntry (default (9 # 10)%Q None)
                                             (vectorStore (reversedEngine [jsonDelete])))
                         (reversedEngine [jsonDelete])
                 = Returns tt (reversedEngine [jsonDelete]))
    by (vm_compute; reflexivity).
  assert (Hreply : parsedReply (llmManager (reversedEngine [jsonDelete])) (memory rowA)
                     (map memory (candidateSources (default (9 # 10)%Q None)
                                    (vectorStore (reversedEngine [jsonDelete])) rowA))
                   = Some (JObj [("action", JStr "delete")]))
    by (vm_compute; reflexivity).
  assert (Hreversed := offline_update_applies_decision None (reversedEngine [jsonDelete])
                         (reversedEngine [jsonDelete]) [rowB] [] rowA
                         Hrev eq_refl Hcited Hpre).
  assert (Hcases := fun canned =>
            offline_update_applies_decision None (queuedEngine canned) (queuedEngine canned)
              [] [rowB] rowA queuedRows_unique eq_refl rowA_cited eq_refl).
  split; [|split; [|split; [|split]]].
  - destruct (Hcases [jsonUpdate]) as (_ & _ & _ & Hupdate & _).
    assert (Hne : "merged" <> "") by discriminate.
    destruct (Hupdate _ "merged" reply_update eq_refl eq_refl Hne) as (_ & _ & Hrow).
    exact Hrow.
  - destruct (Hcases [jsonDelete]) as (_ & _ & Hdelete & _).
    destruct (Hdelete _ reply_delete eq_refl) as (_ & _ & _ & Hrow). exact Hrow.
  - destruct (Hcases [jsonIgnore]) as (_ & Hignore & _).
    destruct (Hignore _ reply_ignore eq_refl) as (_ & _ & Hrow). exact Hrow.
  - destruct (Hcases ["not JSON"]) as (_ & _ & _ & _ & Hnone & _).
    destruct (Hnone reply_malformed) as (_ & _ & Hrow). exact Hrow.
  - destruct (Hcases [jsonMerge]) as (_ & _ & _ & _ & _ & Hother).
    assert (Hunknown : forall a, getProp (JObj [("action", JStr "merge")]) "action" = Some a ->
                                 a <> JStr "delete" /\ a <> JStr "update").
    { intros a [= <-]. split; discriminate. }
    destruct (Hother _ reply_merge Hunknown) as (_ & _ & Hrow).
    split; [exact Hrow|]. split; [exact Hpre|].
    destruct Hreversed as (_ & _ & Hdelete & _).
    destruct (Hdelete _ Hreply eq_refl) as (_ & _ & _ & Hgone). exact Hgone.
Defined.

Lemma offline_update_requests_witness :
  updateRun = Returns tt (stateOf updateRun)
  /\ List.length (sent (llmClient (llmManager (stateOf updateRun)))) = 1%nat
  /\ sent (llmClient (llmManager (stateOf updateRun)))
     = (sent (llmClient (llmManager (queuedEngine [jsonUpdate])))
          ++ map (updateRequest (llmConfig (llmManager (queuedEngine [jsonUpdate])))
                                (default (9 # 10)%Q None)
                                (vectorStore (queuedEngine [jsonUpdate])))
                 (List.filter (cited (default (9 # 10)%Q None)
                                     (vectorStore (queuedEngine [jsonUpdate])))
                              (vectorStore (queuedEngine [jsonUpdate]))))%list
  /\ sent (client (embedder (stateOf updateRun)))
     = sent (client (embedder (queuedEngine [jsonUpdate]))).
Proof.
  assert (Hrun : offlineUpdateAllEntries None (queuedEngine [jsonUpdate])
                 = Returns tt (stateOf updateRun))
    by (vm_compute; reflexivity).
  split; [exact Hrun|]. split; [vm_compute; reflexivity|].
  exact (offline_update_requests None (queuedEngine [jsonUpdate]) _ Hrun).
Defined.

Lemma phase1_queue_bounds_witness :
  allEmbedded (vectorStore (engineOn twoRows [] user_only))
  /\ 0 <= default 20 (Some 5) /\ 0 <= default 10 (Some 1)
  /\ constructUpdateQueueAllEntries (Some 5) (Some 1) (engineOn twoRows [] user_only)
     = Returns tt (stateOf (constructUpdateQueueAllEntries (Some 5) (Some 1)
                                                           (engineOn twoRows [] user_only)))
  /\ Forall (fun r => Z.of_nat (List.length (updateQueue r)) <= default 10 (Some 1)
                      /\ Z.of_nat (List.length (updateQueue r)) <= default 20 (Some 5)
                      /\ StronglySorted candDesc (updateQueue r))
            (vectorStore (stateOf (constructUpdateQueueAllEntries
                                     (Some 5) (Some 1) (engineOn twoRows [] user_only)))).
Proof.
  assert (Hemb : allEmbedded (vectorStore (engineOn twoRows [] user_only)))
    by (repeat constructor; discriminate).
  assert (Hk : 0 <= default 20 (Some 5)) by (simpl; lia).
  assert (Hn : 0 <= default 10 (Some 1)) by (simpl; lia).
  assert (Hrun : constructUpdateQueueAllEntries (Some 5) (Some 1)
                   (engineOn twoRows [] user_only)
                 = Returns tt (stateOf (constructUpdateQueueAllEntries
                                          (Some 5) (Some 1) (engineOn twoRows [] user_only))))
    by (vm_compute; reflexivity).
  split; [exact Hemb|]. split; [exact Hk|]. split; [exact Hn|]. split; [exact Hrun|].
  exact (phase1_queue_bounds (Some 5) (Some 1) (engineOn twoRows [] user_only) _
           Hemb Hk Hn Hrun).
Defined.

(** *** addMemory *)

Lemma facts_bind_in_filtered_buffer_witness :
  secondNormalized = Returns (default [] (returned secondNormalized)) (stateOf secondNormalized)
  /\ (forceExtract {| forceExtract := Some true |} = Some true
      \/ (10 <= List.length bothTurns)%nat)
  /\ assistantTurns <> []
  /\ metadataGenerate (config (stateOf quietRun)) = true
  /\ twoCallRun = Returns (default emptyResult (returned twoCallRun)) (stateOf twoCallRun)
  /\ map (fun msg => (role msg, content msg, sequenceNumber msg)) bothTurns
     = [ (user, "My name is Alice.", Some 0%nat); (assistant, "Hello, Alice.", Some 1%nat);
         (user, "I teach.", Some 0%nat); (assistant, "Noted.", Some 1%nat) ]
  /\ map (fun e => (memory e, Storage.speakerId e, Storage.timeStamp e))
         (vectorStore (stateOf twoCallRun))
     = [("User's name is Alice.", "bot", "2024-01-15T10:00:00.500Z")]
  /\ map sequenceNumber (assignSequenceNumbers (default [] (returned secondNormalized)))
     = map Some (seq 0 (List.length secondTurn))
  /\ sublist assistantTurns bothTurns
  /\ (forall msg,
        In msg assistantTurns
        <-> In msg bothTurns /\ admits (messagesUse (config (stateOf quietRun))) (role msg))
  /\ exists rows,
       vectorStore (stateOf twoCallRun) = insertAll rows (vectorStore (stateOf quietRun))
       /\ memoryEntriesCreated (default emptyResult (returned twoCallRun))
          = Z.of_nat (List.length rows)
       /\ Forall2 (fun f row => boundIn assistantTurns f (fst row))
                  match generateResponse
                          (extractionMessages (messagesUse (config (stateOf quietRun))) O
                                              assistantTurns)
                          (Some "json_object") (llmManager (stateOf quietRun)) with
                  | Returns r _ => cleanResponse (fst r)
                  | Throws _ _ => []
                  end
                  rows.
Proof.
  assert (Hnorm : normalizeMessages secondTurn (normalizer (stateOf quietRun))
                  = Returns (default [] (returned secondNormalized))
                            (stateOf secondNormalized))
    by (vm_compute; reflexivity).
  assert (Hseg : assistantTurns <> []) by (vm_compute; intros H; discriminate H).
  assert (Hrun : addMemory secondTurn {| forceExtract := Some true |} (stateOf quietRun)
                 = Returns (default emptyResult (returned twoCallRun)) (stateOf twoCallRun))
    by (vm_compute; reflexivity).
  split; [exact Hnorm|]. split; [left; reflexivity|]. split; [exact Hseg|].
  split; [reflexivity|]. split; [exact Hrun|].
  split; [vm_compute; reflexivity|]. split; [vm_compute; reflexivity|].
  exact (facts_bind_in_filtered_buffer secondTurn {| forceExtract := Some true |}
           (stateOf quietRun) _ _ _ _ Hnorm (or_introl eq_refl) Hseg eq_refl Hrun).
Defined.

Lemma addMemory_below_threshold_witness :
  normalizeMessages aliceTurn (normalizer assistantEngine)
  = Returns (default [] (returned aliceNormalized)) (stateOf aliceNormalized)
  /\ default false (forceExtract {| forceExtract := None |}) = false
  /\ (List.length (messageBuffer assistantEngine) + List.length aliceTurn < 10)%nat
  /\ quietRun
     = Returns emptyResult
         (setMessageBuffer
            (messageBuffer assistantEngine
               ++ assignSequenceNumbers (default [] (returned aliceNormalized)))
            (setNormalizer (stateOf aliceNormalized) assistantEngine)).
Proof.
  assert (Hrun : normalizeMessages aliceTurn (normalizer assistantEngine)
                 = Returns (default [] (returned aliceNormalized)) (stateOf aliceNormalized))
    by (vm_compute; reflexivity).
  assert (Hlen : (List.length (messageBuffer assistantEngine) + List.length aliceTurn < 10)%nat)
    by (simpl; lia).
  split; [exact Hrun|]. split; [reflexivity|]. split; [exact Hlen|].
  exact (addMemory_below_threshold aliceTurn {| forceExtract := None |} assistantEngine _ _
           Hrun eq_refl Hlen).
Defined.

Lemma addMemory_extraction_empties_buffer_witness :
  normalizeMessages aliceTurn (normalizer assistantEngine)
  = Returns (default [] (returned aliceNormalized)) (stateOf aliceNormalized)
  /\ shouldExtract {| forceExtract := Some true |}
       (messageBuffer assistantEngine
          ++ assignSequenceNumbers (default [] (returned aliceNormalized))) = true
  /\ aliceRun = Returns (default emptyResult (returned aliceRun)) (stateOf aliceRun)
  /\ memoryEntriesCreated (default emptyResult (returned aliceRun)) = 1
  /\ filterMessagesByRole (messagesUse (config assistantEngine))
       (messageBuffer assistantEngine
          ++ assignSequenceNumbers (default [] (returned goodRun))) = []
  /\ droppedRun = Returns (default emptyResult (returned droppedRun)) (stateOf droppedRun)
  /\ (messageBuffer (stateOf droppedRun) = []
      /\ default emptyResult (returned droppedRun) = emptyResult
      /\ vectorStore (stateOf droppedRun) = vectorStore assistantEngine
      /\ llmManager (stateOf droppedRun) = llmManager assistantEngine
      /\ embedder (stateOf droppedRun) = embedder assistantEngine
      /\ tokenStats (stateOf droppedRun) = tokenStats assistantEngine)
  /\ messageBuffer (stateOf aliceRun) = []
  /\ (filterMessagesByRole (messagesUse (config assistantEngine))
        (messageBuffer assistantEngine
           ++ assignSequenceNumbers (default [] (returned aliceNormalized))) = []
      \/ metadataGenerate (config assistantEngine) = false ->
      default emptyResult (returned aliceRun) = emptyResult
      /\ vectorStore (stateOf aliceRun) = vectorStore assistantEngine
      /\ llmManager (stateOf aliceRun) = llmManager assistantEngine
      /\ embedder (stateOf aliceRun) = embedder assistantEngine
      /\ tokenStats (stateOf aliceRun) = tokenStats assistantEngine).
Proof.
  assert (Hnorm : normalizeMessages aliceTurn (normalizer assistantEngine)
                  = Returns (default [] (returned aliceNormalized)) (stateOf aliceNormalized))
    by (vm_compute; reflexivity).
  assert (Hrun : addMemory aliceTurn {| forceExtract := Some true |} assistantEngine
                 = Returns (default emptyResult (returned aliceRun)) (stateOf aliceRun))
    by (vm_compute; reflexivity).
  assert (Hnorm2 : normalizeMessages goodPart (normalizer assistantEngine)
                   = Returns (default [] (returned goodRun)) (stateOf goodRun))
    by (vm_compute; reflexivity).
  assert (Hnone : filterMessagesByRole (messagesUse (config assistantEngine))
                    (messageBuffer assistantEngine
                       ++ assignSequenceNumbers (default [] (returned goodRun))) = [])
    by (vm_compute; reflexivity).
  assert (Hrun2 : addMemory goodPart {| forceExtract := Some true |} assistantEngine
                  = Returns (default emptyResult (returned droppedRun)) (stateOf droppedRun))
    by (vm_compute; reflexivity).
  split; [exact Hnorm|]. split; [reflexivity|]. split; [exact Hrun|].
  split; [vm_compute; reflexivity|]. split; [exact Hnone|]. split; [exact Hrun2|].
  split.
  { destruct (addMemory_extraction_empties_buffer goodPart {| forceExtract := Some true |}
                assistantEngine _ _ _ _ Hnorm2 eq_refl Hrun2) as [Hbuf Hdrop].
    split; [exact Hbuf|]. exact (Hdrop (or_introl Hnone)). }
  exact (addMemory_extraction_empties_buffer aliceTurn {| forceExtract := Some true |}
           assistantEngine _ _ _ _ Hnorm eq_refl Hrun).
Defined.

Lemma addMemory_throw_keeps_batch_witness :
  normalizeMessages aliceTurn (normalizer outageEngine)
  = Returns (default [] (returned aliceNormalized)) (stateOf aliceNormalized)
  /\ outageRun = Throws UpstreamError (stateOf outageRun)
  /\ messageBuffer (stateOf outageRun)
     = (messageBuffer outageEngine
          ++ assignSequenceNumbers (default [] (returned aliceNormalized)))%list
  /\ (UpstreamError = DriverError \/ UpstreamError = UpstreamError
      \/ UpstreamError = TypeError)
  /\ exists rows, vectorStore (stateOf outageRun) = insertAll rows (vectorStore outageEngine).
Proof.
  assert (Hnorm : normalizeMessages aliceTurn (normalizer outageEngine)
                  = Returns (default [] (returned aliceNormalized)) (stateOf aliceNormalized))
    by (vm_compute; reflexivity).
  assert (Hrun : addMemory aliceTurn {| forceExtract := Some true |} outageEngine
                 = Throws UpstreamError (stateOf outageRun))
    by (vm_compute; reflexivity).
  split; [exact Hnorm|]. split; [exact Hrun|].
  exact (addMemory_throw_keeps_batch aliceTurn {| forceExtract := Some true |}
           outageEngine _ _ _ _ Hnorm Hrun).
Defined.

Lemma addMemory_survives_refused_extraction_witness :
  normalizeMessages aliceTurn (normalizer silentEngine)
  = Returns (default [] (returned aliceNormalized)) (stateOf aliceNormalized)
  /\ shouldExtract {| forceExtract := Some true |}
       (messageBuffer silentEngine
          ++ assignSequenceNumbers (default [] (returned aliceNormalized))) = true
  /\ filterMessagesByRole (messagesUse (config silentEngine))
       (messageBuffer silentEngine
          ++ assignSequenceNumbers (default [] (returned aliceNormalized))) <> []
  /\ metadataGenerate (config silentEngine) = true
  /\ exists m',
       refusedRun = Returns failedResult m'
       /\ messageBuffer m' = [] /\ vectorStore m' = vectorStore silentEngine
       /\ tokenStats m' = tokenStats silentEngine /\ embedder m' = embedder silentEngine
       /\ List.length (sent (llmClient (llmManager m'))) = 1%nat.
Proof.
  assert (Hnorm : normalizeMessages aliceTurn (normalizer silentEngine)
                  = Returns (default [] (returned aliceNormalized)) (stateOf aliceNormalized))
    by (vm_compute; reflexivity).
  assert (Hseg : filterMessagesByRole (messagesUse (config silentEngine))
                   (messageBuffer silentEngine
                      ++ assignSequenceNumbers (default [] (returned aliceNormalized))) <> [])
    by (vm_compute; intros H; discriminate H).
  assert (Hgen : generateResponse
                   (extractionMessages (messagesUse (config silentEngine)) O
                      (filterMessagesByRole (messagesUse (config silentEngine))
                         (messageBuffer silentEngine
                            ++ assignSequenceNumbers (default [] (returned aliceNormalized)))))
                   (Some "json_object") (llmManager silentEngine)
                 = Throws UpstreamError
                     (stateOf (generateResponse
                        (extractionMessages (messagesUse (config silentEngine)) O
                           (filterMessagesByRole (messagesUse (config silentEngine))
                              (messageBuffer silentEngine
                                 ++ assignSequenceNumbers
                                      (default [] (returned aliceNormalized)))))
                        (Some "json_object") (llmManager silentEngine))))
    by (vm_compute; reflexivity).
  split; [exact Hnorm|]. split; [reflexivity|]. split; [exact Hseg|]. split; [reflexivity|].
  destruct (addMemory_survives_refused_extraction aliceTurn {| forceExtract := Some true |}
              silentEngine _ _ _ Hnorm eq_refl Hseg eq_refl Hgen)
    as (m' & Hrun & Hbuf & Hst & Htok & Hemb & Hllm).
  exists m'. repeat (split; [assumption|]).
  rewrite Hllm. vm_compute. reflexivity.
Defined.

(** A refused extraction request is sent and not counted. *)
Lemma refused_request_not_counted :
  List.length (sent (llmClient (llmManager (stateOf refusedRun)))) = 1%nat
  /\ Statistics.totalLlmCalls (Statistics.summary (Statistics.getTokenStatistics
                                                     (stateOf refusedRun))) = 0.
Proof. split; vm_compute; reflexivity. Qed.

(** *** The marker of the server *)

Lemma formatTimestamp_in_session_grammar_witness :
  formatTimestamp mondayTime = monday
  /\ 1000 <= getFullYear mondayTime <= 9999
  /\ 0 <= getMonth mondayTime <= 11
  /\ 1 <= getDate mondayTime <= 31
  /\ 0 <= getHours mondayTime <= 23
  /\ 0 <= getMinutes mondayTime <= 59
  /\ SESSION_RE_match (formatTimestamp mondayTime)
     = Some {| g_date := showZ (getFullYear mondayTime) ++ "/"
                           ++ padStart 2 "0" (showZ (getMonth mondayTime + 1)) ++ "/"
                           ++ padStart 2 "0" (showZ (getDate mondayTime));
               g_weekday := nth (Z.to_nat (getDay mondayTime)) weekdays "undefined";
               g_time := padStart 2 "0" (showZ (getHours mondayTime)) ++ ":"
                           ++ padStart 2 "0" (showZ (getMinutes mondayTime)) |}
  /\ In (nth (Z.to_nat (getDay mondayTime)) weekdays "undefined") weekdays
  /\ parseSessionTimestamp (formatTimestamp mondayTime)
     = match newDate (showZ (getFullYear mondayTime) ++ "-"
                        ++ padStart 2 "0" (showZ (getMonth mondayTime + 1)) ++ "-"
                        ++ padStart 2 "0" (showZ (getDate mondayTime)) ++ " "
                        ++ padStart 2 "0" (showZ (getHours mondayTime)) ++ ":"
                        ++ padStart 2 "0" (showZ (getMinutes mondayTime))) with
       | ValidDate t' =>
           Some (t', nth (Z.to_nat (getDay mondayTime)) weekdays "undefined")
       | InvalidDate => parseFallback (formatTimestamp mondayTime)
       end.
Proof.
  assert (Hy : 1000 <= getFullYear mondayTime <= 9999) by (vm_compute; split; discriminate).
  assert (Hm : 0 <= getMonth mondayTime <= 11) by (vm_compute; split; discriminate).
  assert (Hd : 1 <= getDate mondayTime <= 31) by (vm_compute; split; discriminate).
  assert (Hh : 0 <= getHours mondayTime <= 23) by (vm_compute; split; discriminate).
  assert (Hi : 0 <= getMinutes mondayTime <= 59) by (vm_compute; split; discriminate).
  split; [vm_compute; reflexivity|].
  split; [exact Hy|]. split; [exact Hm|]. split; [exact Hd|]. split; [exact Hh|].
  split; [exact Hi|].
  exact (formatTimestamp_in_session_grammar mondayTime Hy Hm Hd Hh Hi).
Defined.

End MoreRuns.
